(* ===== verification/_CoqProject ===== *)
-Q . S2P
Prelude.v
Disk.v
Chain.v
Timers.v
Enr.v
Protocol.v
Messages.v
Text.v
RateLimiter.v
RateConfig.v
SelfLimiter.v
ResponseLimiter.v
Events.v
Rpc.v
ForkContext.v
Handler.v
Limits.v
Codec.v
Float64.v
Score.v
PeerInfo.v
PeerDB.v
TimeCache.v
Pruning.v
Topics.v
GossipCache.v
Globals.v
EnrExt.v
Config.v
LocalEnr.v
Discovery.v
Pubsub.v
ServiceUtils.v
NodeKey.v
GossipScoring.v
PeerManager.v
Network.v
NetworkRuns.v
