(* ===== verification/Prelude.v ===== *)
(** * eth2_libp2p: a verification library

    eth2_libp2p is the networking layer of an Ethereum consensus client.  It runs a libp2p swarm whose
    behaviours are an RPC protocol (requests and responses between two nodes), a peer manager (scores,
    bans, which peers to keep and to dial), discovery (finding nodes) and gossipsub.  The network service
    owns them and passes their events on, to each other or to the client.  This library models the parts
    that make decisions as executable functions, one definition for each function of the source, and
    proves what they promise to each other.

    ** Parts and files

    - [Prelude]: results, machine integers, lists and maps the files share, tactics and hints.
    - [Disk]: files whose writes may fail.
    - [Chain]: the consensus types and libp2p types that come from other crates, as two interfaces.
    - [Text]: splitting strings and decimal numbers; [Timers]: the timer queues of the runtime.
    - [Protocol], [Messages], [Limits]: [rpc/protocol.rs] and [rpc/methods.rs].  Protocols and versions,
      requests, responses and their conversions, goodbye and error codes, the protocols a node offers
      and the bounds on the length of every message.
    - [Codec]: [rpc/codec.rs] and [rpc/outbound.rs].  The framing of requests and responses: length
      prefix, snappy frames, context bytes and response codes, decoded incrementally.
    - [RateLimiter], [RateConfig]: [rpc/rate_limiter.rs], [rpc/config.rs].
    - [SelfLimiter], [ResponseLimiter]: [rpc/self_limiter.rs], [rpc/response_limiter.rs].  Queues of
      delayed requests and responses.  Both use [RateLimiter].
    - [Events], [Rpc]: [rpc/mod.rs].  The RPC behaviour, which composes the two limiters.
    - [Handler]: [rpc/handler.rs].  The state machine of one connection.
    - [ForkContext]: [types/fork_context.rs].  The forks of the chain and their digests.
    - [Float64], [Score]: [peer_manager/peerdb/score.rs] in binary64 arithmetic.
    - [PeerInfo], [PeerDB]: [peer_manager/peerdb/*.rs] and [peer_manager/peerdb.rs].  What is known of a
      peer, and the database of peers with its connection state machine and its bans.
    - [TimeCache]: [common/time_cache.rs].
    - [Topics]: [types/topics.rs].  Gossip topics, their names, and the topics of a phase.
    - [Pubsub]: [types/pubsub.rs].  Gossip messages, their topics, compression and decoding by phase.
    - [GossipCache]: [service/gossip_cache.rs].  Messages kept until somebody subscribes to their topic.
    - [Globals]: [types/globals.rs], [types/sync_state.rs].  The state shared between the behaviours.
    - [Config]: [config.rs], [listen_addr.rs].  The configuration, addresses, message identifiers.
    - [Enr], [EnrExt], [LocalEnr]: [discovery/enr.rs], [discovery/enr_ext.rs].  Node records: their fields
      and addresses, the node's own record, built from the configuration or found on disk.
    - [Discovery]: [discovery/mod.rs].  Queries for peers and subnets, and updates of the own record.
    - [Pruning], [PeerManager]: [peer_manager/mod.rs], [peer_manager/network_behaviour.rs].  The peer
      manager, on top of [PeerDB], [Globals], [TimeCache] and [Topics].
    - [ServiceUtils], [NodeKey]: [service/utils.rs].  The metadata and the key a node starts with, and
      the filter of topics.
    - [GossipScoring]: [service/gossipsub_scoring_parameters.rs].
    - [Network]: [service/mod.rs], [service/api_types.rs].  The service: construction and start, the calls
      of the client, and the events of every behaviour.  Its state is made of the states of [PeerManager]
      (with the globals in it), [Rpc], [Discovery], [GossipCache] and of gossipsub.
    - [NetworkRuns]: a node as a whole.  A step is a call, a report of the swarm, a poll of a behaviour or
      an event; [reach] are the states of a node that was started.

    ** How the code is modelled

    A struct is a [Record], an enum an [Inductive] with the source's constructors, a method a function
    from the state and its arguments to the new state and the result.  [Result] is [result] and the [?]
    operator [let?]; a method that can panic, or whose loop is given fuel, returns an [option] that is
    [None] in these cases, and the theorems say when it is not.  Integers are [Z] with wrapping,
    saturating or checked operations written out as the source asks for them; [f64] and [f32] are the
    IEEE formats of the Standard Library.  Every read of the clock is an argument [now]; where a method
    reads the clock several times, it gets the same value.  Hash maps and sets are [gmap] and [gset],
    and a loop over one visits its entries in an arbitrary order, the parameter [HashIter].  Futures and
    streams are polled as the executor does: what the environment delivers to a poll is an argument.
    A file is modelled with what is in it and how the next writes to it turn out: a write may fail before
    it touched the file, or cut the content short, and the code, which only warns, goes on ([Disk]).
    Logs, metrics and the locks around shared fields are left out.

    Code outside the repository is a parameter, an interface class with the operations the source uses:
    [ChainTypes] and [Libp2p] (consensus and libp2p types), [Wire] (SSZ, snappy), [TopicCrates],
    [CustodyCrates], [EnrFields] and [EnrCrates] (records), [Discv5Service], [GossipWire], [BlobSubnets],
    [ScoringCrates], [ServiceCrates] (gossipsub), [KeyCrates], [DelayQueue], [DelayKeys] and [DelaySet]
    (timers), [UnstableSort], [ThreadRng], [FloatExp] (the exponential function) and [ErrorDisplay].  What
    the theorems need of it is stated as laws, fields of the class or of a class of laws next to it
    ([WireLaws], [TopicCrateLaws], [EnrFieldLaws], [EnrCrateLaws], [Discv5Laws], [GossipWireLaws],
    [GossipsubLaws], [KeyLaws], [ScoringLaws]): documented behaviour such as decoding what was encoded, a timer being due
    at its deadline, or a subscription being refused exactly by the filter.  The examples at the end of
    the files instantiate every parameter with a concrete function, prove the laws, and run the definitions.

    ** What is proved

    - Connection handler: no run panics that asks for no light client updates, and a run that does may, as
      [updates_request_panics] shows; its loops end and its tables stay bounded; every request handed
      to it is accounted for until its end is reported; responses leave in order; a shutdown completes.
    - Codec: what one side encodes the other decodes, however the bytes are cut into pieces; decoding
      resumes exactly; a decoder waits only for a bounded number of bytes.
    - Rate limiters: a limiter refines a token bucket, bounds what a key is granted in any window, and
      tells refused callers exactly how long to wait.  Queued requests and responses are neither lost
      nor duplicated, responses keep their order, the loops that release them end.
    - RPC behaviour: requests are conserved over any run, which panics exactly if a response to a request
      for light client updates arrives; the concurrency bounds hold, closing a
      connection clears what belongs to the peer.
    - Fork context: moving from fork to fork gives the context built at the later epoch; digests and
      phases correspond.
    - Peer scores and database: scores stay in range; the invariant of the counters; when the counters
      are exact; bounds on the number of banned and disconnected peers kept.
    - Peer manager: every call of any run returns and keeps the invariant; bans are announced; a goodbye
      leads to a ban, announced unless the peer is temporarily banned; discovery and
      dialing fill and respect the limits; pruning is safe.
    - Caches, topics, globals: the time cache refines an ideal one; topics are parsed as printed; the
      topics of a phase; the data columns a node samples are those it subscribes to; the gossip cache
      refines a map of messages to deadlines.
    - Gossip messages: what is sent is read back, and what is read fits its topic and its fork.
    - Records and start-up: the record a node builds says what its configuration says; record, metadata
      and key survive a restart if they could be written; changes of the metadata are numbered; the filter covers the topics.
    - Discovery: the bound on searches for each subnet in any run, what a search is for, the expiry of its
      results; the record in the globals is the one announced, and so is the one on disk as far as it
      could be written.
    - The node as a whole: no step of a started node panics, but for two kinds that are named, and all
      parts keep their invariants; what it announces of itself agrees, with the metadata file as far as
      it could be written; gossipsub and the globals agree on the subscriptions, which a fork
      moves over exactly; of the RPC the application sees only what concerns it;
      messages nobody took that are still cached are sent when somebody subscribes.

    ** Fuel

    Loops that are not structural recursions take fuel, and the bound is part of the function that
    calls them: one iteration per timer in the queue ([poll_loop], [poll_all]), per substream, per
    entry of the subnet lookup ([prune_grouped]), per heartbeat interval elapsed ([run_heartbeats]).
    That the fuel is enough is proved, inside the invariants or as a termination theorem.

    ** Not modelled

    Building the transport, the libp2p swarm and the identify and UPnP behaviours is a sequence of calls
    of libraries.  Discv5, gossipsub, SSZ, snappy and the cryptographic libraries are parameters.  Metrics,
    logging, port probing, the task executor and key conversions do input and output or only rewrap values
    of other crates; implementations of [Display] only format.  Code for tests is left out. *)

From stdpp Require Export base gmap list strings sorting.
From Stdlib Require Export ZArith Lia.

Open Scope Z_scope.

(** ** The result type of fallible operations *)

Inductive result (T E : Type) : Type :=
  | Ok (v : T)
  | Err (e : E).
Arguments Ok {T E} v.
Arguments Err {T E} e.

#[export] Instance result_eq_dec {T E} `{EqDecision T, EqDecision E} : EqDecision (result T E).
Proof. solve_decision. Defined.

Definition is_ok {T E} (r : result T E) : bool :=
  match r with Ok _ => true | Err _ => false end.

(** The value of a result known to be [Ok]. *)
Definition unwrap {T E} (r : result T E) : is_ok r = true -> T :=
  match r with
  | Ok v => fun _ => v
  | Err _ => fun H => match Bool.diff_false_true H with end
  end.

(** [Option::ok_or]. *)
Definition ok_or {T E} (o : option T) (e : E) : result T E :=
  match o with Some v => Ok v | None => Err e end.

Definition map_err {T E F} (f : E -> F) (r : result T E) : result T F :=
  match r with Ok v => Ok v | Err e => Err (f e) end.

Definition result_bind {T U E} (r : result T E) (k : T -> result U E) : result U E :=
  match r with Ok v => k v | Err e => Err e end.

Declare Scope rust_scope.
Delimit Scope rust_scope with rust.

(** The [?] operator of the source. *)
Notation "'let?' x ':=' e 'in' k" := (result_bind e (fun x => k))
  (at level 10, x pattern, e at level 200, k at level 200) : rust_scope.
Open Scope rust_scope.

(** Sequencing of computations that may panic. *)
Notation "'let*' x ':=' e 'in' k" := (match e with Some x => k | None => None end)
  (at level 10, x pattern, e at level 200, k at level 200) : rust_scope.

(** ** Machine integers

    An unsigned [w]-bit integer is a [Z] in [[0, 2^w)]; every operation that can leave that range
    writes out what the source asks for: wrapping, saturating or checked. *)

Definition U8_MAX : Z := 2 ^ 8 - 1.
Definition U64_MAX : Z := 2 ^ 64 - 1.
Definition USIZE_MAX : Z := U64_MAX.

Definition in_u8 (z : Z) : Prop := 0 <= z <= U8_MAX.
Definition in_u64 (z : Z) : Prop := 0 <= z <= U64_MAX.

(** [x as u64]: truncation to the low 64 bits. *)
Definition as_u64 (z : Z) : Z := z mod 2 ^ 64.
Definition as_u8 (z : Z) : Z := z mod 2 ^ 8.

Definition u64_saturating_add (a b : Z) : Z := Z.min U64_MAX (a + b).
Definition u64_saturating_mul (a b : Z) : Z := Z.min U64_MAX (a * b).
(** [saturating_sub] is the same function at every unsigned width. *)
Definition saturating_sub (a b : Z) : Z := Z.max 0 (a - b).
Definition usize_saturating_add : Z -> Z -> Z := u64_saturating_add.

(** [u128 -> u64] by [try_into]. *)
Definition try_into_u64 (z : Z) : option Z :=
  if (0 <=? z) && (z <=? U64_MAX) then Some z else None.

(** [+] on [usize] and on [u8] as a release build computes it. *)
Definition usize_wrapping_add (a b : Z) : Z := as_u64 (a + b).
Definition u8_wrapping_add (a b : Z) : Z := as_u8 (a + b).

(** ** Time

    A [std::time::Duration] is its number of nanoseconds; an [Instant] is the number of nanoseconds
    since a fixed origin of the monotonic clock. *)

Definition NANOS_PER_SEC : Z := 1000000000.
Definition Duration_from_secs (s : Z) : Z := s * NANOS_PER_SEC.
Definition Duration_from_millis (ms : Z) : Z := ms * 1000000.
Definition Duration_as_secs (d : Z) : Z := d / NANOS_PER_SEC.

(** [Instant::checked_duration_since]. *)
Definition checked_duration_since (now earlier : Z) : option Z :=
  if earlier <=? now then Some (now - earlier) else None.

(** ** Hash maps

    The iteration order of a [HashMap] is unspecified.  An operation that iterates over a map takes
    the order from this interface, whose only law is that every entry is visited exactly once. *)

Class HashIter := {
  hash_iter : forall (K V : Type) (H1 : EqDecision K) (H2 : Countable K), gmap K V -> list (K * V);
  hash_iter_perm : forall K V H1 H2 (m : gmap K V), hash_iter K V H1 H2 m ≡ₚ map_to_list m;
}.
Arguments hash_iter {_ K V _ _} m.
Arguments hash_iter_perm {_ K V _ _} m.

(** The order of [map_to_list] is one such order; closed examples compute with it. *)
#[export] Instance hash_iter_map_to_list : HashIter | 100 := {
  hash_iter := fun K V H1 H2 m => map_to_list m;
  hash_iter_perm := fun K V H1 H2 m => reflexivity _;
}.

(** The elements of a hash set in iteration order. *)
Definition set_iter `{HashIter} {A} `{Countable A} (s : gset A) : list A :=
  (hash_iter (gset_to_gmap tt s)).*1.

(** [Entry::or_insert]: the map with the key present, and the value now stored. *)
Definition entry_or_insert {K V} `{Countable K} (k : K) (v : V) (m : gmap K V) : gmap K V * V :=
  match m !! k with
  | Some x => (m, x)
  | None => (<[k := v]> m, v)
  end.

(** ** Tactics *)

(** Closes a closed equation by evaluation in the virtual machine, without writing the normal form
    of its type parameters. *)
Ltac evaluate :=
  cbv zeta;
  match goal with
  | |- _ = ?v => vm_cast_no_check (@eq_refl _ v)
  | _ => vm_compute; reflexivity
  end.

(** Case analysis on every match of the goal, then rewriting with what is known. *)
Ltac crush_match := repeat (case_match; simplify_eq/=).

(** Turns the boolean comparisons of [Z] in the context into propositions. *)
Ltac bool_to_Prop :=
  repeat match goal with
  | H : (_ && _)%bool = true |- _ => apply andb_true_iff in H as [? ?]
  | H : (_ || _)%bool = false |- _ => apply orb_false_iff in H as [? ?]
  | H : negb _ = true |- _ => apply negb_true_iff in H
  | H : negb _ = false |- _ => apply negb_false_iff in H
  | H : (_ <? _) = true |- _ => apply Z.ltb_lt in H
  | H : (_ <? _) = false |- _ => apply Z.ltb_ge in H
  | H : (_ <=? _) = true |- _ => apply Z.leb_le in H
  | H : (_ <=? _) = false |- _ => apply Z.leb_gt in H
  | H : (_ =? _) = true |- _ => apply Z.eqb_eq in H
  | H : (_ =? _) = false |- _ => apply Z.eqb_neq in H
  end.

(** Unfolds the machine arithmetic and leaves linear arithmetic. *)
Ltac unfold_arith :=
  unfold usize_saturating_add in *;
  unfold u64_saturating_add, u64_saturating_mul, saturating_sub, in_u64, in_u8,
    as_u64, as_u8, try_into_u64, Duration_from_secs, Duration_from_millis, USIZE_MAX, U64_MAX, U8_MAX,
    NANOS_PER_SEC in *.

Create HintDb eth2 discriminated.

(** ** Lemmas on machine integers *)

Lemma as_u64_small z : in_u64 z -> as_u64 z = z.
Proof. unfold_arith. intros. apply Z.mod_small. lia. Qed.

Lemma as_u64_range z : in_u64 (as_u64 z).
Proof. unfold_arith. pose proof (Z.mod_pos_bound z (2 ^ 64)). lia. Qed.

Lemma u64_saturating_add_range a b : in_u64 a -> in_u64 b -> in_u64 (u64_saturating_add a b).
Proof. unfold_arith. lia. Qed.

Lemma u64_saturating_mul_range a b : in_u64 a -> in_u64 b -> in_u64 (u64_saturating_mul a b).
Proof. unfold_arith. nia. Qed.

Lemma saturating_sub_range a b : in_u64 a -> 0 <= b -> in_u64 (saturating_sub a b).
Proof. unfold_arith. lia. Qed.

Lemma saturating_sub_le a b : b <= a -> saturating_sub a b = a - b.
Proof. unfold saturating_sub. lia. Qed.

Lemma try_into_u64_Some z v : try_into_u64 z = Some v <-> v = z /\ in_u64 z.
Proof. unfold_arith. case_match; bool_to_Prop; naive_solver lia. Qed.

#[export] Hint Resolve as_u64_range u64_saturating_add_range u64_saturating_mul_range
  saturating_sub_range : eth2.

(** ** Lemmas on results *)

Lemma result_bind_Ok {T U E} (r : result T E) (k : T -> result U E) u :
  result_bind r k = Ok u <-> exists v, r = Ok v /\ k v = Ok u.
Proof. destruct r; naive_solver. Qed.

Lemma result_bind_Err {T U E} (r : result T E) (k : T -> result U E) e :
  result_bind r k = Err e <-> r = Err e \/ exists v, r = Ok v /\ k v = Err e.
Proof. destruct r; naive_solver. Qed.

Lemma ok_or_Ok {T E} (o : option T) (e : E) v : ok_or o e = Ok v <-> o = Some v.
Proof. destruct o; naive_solver. Qed.

(** ** Lemmas on hash maps *)

Section hash_iter_lemmas.
Context `{HashIter} {K V : Type} `{Countable K}.
Implicit Types (m : gmap K V).

Lemma elem_of_hash_iter m k v : (k, v) ∈ hash_iter m <-> m !! k = Some v.
Proof. rewrite hash_iter_perm. apply elem_of_map_to_list. Qed.

Lemma NoDup_fst_hash_iter m : NoDup (hash_iter m).*1.
Proof. rewrite hash_iter_perm. apply NoDup_fst_map_to_list. Qed.

Lemma length_hash_iter m : length (hash_iter m) = size m.
Proof. rewrite hash_iter_perm. apply length_map_to_list. Qed.

End hash_iter_lemmas.

Lemma elem_of_set_iter `{HashIter} {A} `{Countable A} (X : gset A) x : x ∈ set_iter X <-> x ∈ X.
Proof.
  unfold set_iter. rewrite list_elem_of_fmap. split.
  - intros ([y []] & -> & Hin). apply elem_of_hash_iter in Hin.
    by apply lookup_gset_to_gmap_Some in Hin as [? _].
  - intros Hx. exists (x, tt). split; [done|]. apply elem_of_hash_iter. by apply lookup_gset_to_gmap_Some.
Qed.

Lemma NoDup_set_iter `{HashIter} {A} `{Countable A} (X : gset A) : NoDup (set_iter X).
Proof. unfold set_iter. apply NoDup_fst_hash_iter. Qed.

Lemma entry_or_insert_lookup {K V} `{Countable K} (k : K) (v : V) (m : gmap K V) :
  (entry_or_insert k v m).1 !! k = Some (entry_or_insert k v m).2.
Proof. unfold entry_or_insert. case_match; [done|]. apply lookup_insert_eq. Qed.

Lemma entry_or_insert_lookup_ne {K V} `{Countable K} (k j : K) (v : V) (m : gmap K V) :
  k <> j -> (entry_or_insert k v m).1 !! j = m !! j.
Proof. intros. unfold entry_or_insert. case_match; [done|]. by apply lookup_insert_ne. Qed.

(** ** Counting the entries of a map *)

(** [map.iter().filter(..).count()]. *)
Definition map_count {K V} `{Countable K} (P : K * V -> Prop) `{forall x, Decision (P x)}
  (m : gmap K V) : Z := Z.of_nat (size (filter P m)).

Definition indicator (P : Prop) `{Decision P} : Z := if decide P then 1 else 0.

Section map_count_lemmas.
Context {K V : Type} `{Countable K} (P : K * V -> Prop) `{forall x, Decision (P x)}.
Implicit Types (m : gmap K V).

Lemma map_count_empty : map_count P (∅ : gmap K V) = 0.
Proof. unfold map_count. by rewrite map_filter_empty, map_size_empty. Qed.

Lemma map_count_nonneg m : 0 <= map_count P m.
Proof. unfold map_count. lia. Qed.

Lemma map_count_insert_fresh m k v :
  m !! k = None -> map_count P (<[k := v]> m) = map_count P m + indicator (P (k, v)).
Proof.
  intros Hk. unfold map_count, indicator. case_decide.
  - rewrite map_filter_insert_True, map_size_insert_None by (done || by apply map_lookup_filter_None_2; left).
    lia.
  - rewrite map_filter_insert_False, delete_id by done. lia.
Qed.

Lemma map_count_delete m k v :
  m !! k = Some v -> map_count P (delete k m) = map_count P m - indicator (P (k, v)).
Proof.
  intros Hk. pose proof (map_count_insert_fresh (delete k m) k v (lookup_delete_eq _ _)) as Hi.
  rewrite insert_delete_id in Hi by done. lia.
Qed.

Lemma map_count_replace m k v v' :
  m !! k = Some v ->
  map_count P (<[k := v']> m) = map_count P m - indicator (P (k, v)) + indicator (P (k, v')).
Proof.
  intros Hk. rewrite <- insert_delete_eq, map_count_insert_fresh by apply lookup_delete_eq.
  by rewrite (map_count_delete m k v).
Qed.

Lemma map_count_insert_le m k v : map_count P (<[k := v]> m) <= map_count P m + indicator (P (k, v)).
Proof.
  destruct (m !! k) as [v0|] eqn:E.
  - rewrite (map_count_replace m k v0) by done. unfold indicator. repeat case_decide; lia.
  - by rewrite map_count_insert_fresh.
Qed.

Lemma map_count_delete_le m k : map_count P (delete k m) <= map_count P m.
Proof.
  destruct (m !! k) as [v|] eqn:E; [|by rewrite delete_id].
  rewrite (map_count_delete m k v) by done. unfold indicator. case_decide; lia.
Qed.

Lemma map_count_fmap_le (f : V -> V) m :
  (forall k v, P (k, f v) -> P (k, v)) -> map_count P (f <$> m) <= map_count P m.
Proof.
  intros Hf. unfold map_count. rewrite map_filter_fmap, map_size_fmap.
  apply inj_le, map_subseteq_size, map_filter_strong_subseteq_ext. naive_solver.
Qed.

Lemma map_count_fmap (f : V -> V) m :
  (forall k v, m !! k = Some v -> P (k, f v) <-> P (k, v)) -> map_count P (f <$> m) = map_count P m.
Proof.
  intros Hf. unfold map_count. rewrite map_filter_fmap, map_size_fmap. do 2 f_equal.
  apply map_eq. intros k. apply option_eq. intros v. rewrite !map_lookup_filter_Some. naive_solver.
Qed.

Lemma map_count_zero m : (forall k v, m !! k = Some v -> ~ P (k, v)) -> map_count P m = 0.
Proof.
  intros Hm. unfold map_count. assert (filter P m = ∅) as ->; [|by rewrite map_size_empty].
  apply map_empty. intros k. apply map_lookup_filter_None. right. naive_solver.
Qed.

Lemma map_count_pos m k v : m !! k = Some v -> P (k, v) -> 0 < map_count P m.
Proof.
  intros Hk Hp. pose proof (map_count_delete m k v Hk) as Hd. pose proof (map_count_nonneg (delete k m)).
  unfold indicator in Hd. rewrite decide_True in Hd by done. lia.
Qed.

End map_count_lemmas.

(** ** Iterator methods *)

(** [slice::sort_by] and [Itertools::sorted_by]: the stable sort, here by insertion.  Elements that
    compare equal keep their order, so the result does not depend on the algorithm. *)
Fixpoint insert_sorted {A} (cmp : A -> A -> comparison) (x : A) (l : list A) : list A :=
  match l with
  | [] => [x]
  | y :: l => match cmp x y with Gt => y :: insert_sorted cmp x l | _ => x :: y :: l end
  end.
Definition sorted_by {A} (cmp : A -> A -> comparison) (l : list A) : list A :=
  foldr (insert_sorted cmp) [] l.

(** [Iterator::min_by_key]: the first of the elements with the least key. *)
Definition min_by_key {A} (key : A -> Z) (l : list A) : option A :=
  fold_left (fun best x =>
    match best with
    | Some b => if key x <? key b then Some x else Some b
    | None => Some x
    end) l None.

(** [Iterator::max_by]: the last of the greatest elements. *)
Definition max_by {A} (cmp : A -> A -> comparison) (l : list A) : option A :=
  fold_left (fun best x =>
    match best with
    | Some b => match cmp b x with Gt => Some b | _ => Some x end
    | None => Some x
    end) l None.

Lemma insert_sorted_perm {A} (cmp : A -> A -> comparison) x l : insert_sorted cmp x l ≡ₚ x :: l.
Proof.
  induction l as [|y l IH]; simpl; [done|]. destruct (cmp x y); try done. rewrite IH. constructor.
Qed.

Lemma sorted_by_perm {A} (cmp : A -> A -> comparison) l : sorted_by cmp l ≡ₚ l.
Proof. induction l as [|x l IH]; simpl; [done|]. by rewrite insert_sorted_perm, IH. Qed.

Section sort_lemmas.
Context {A : Type} (cmp : A -> A -> comparison).
Definition cmp_le (x y : A) : Prop := cmp x y <> Gt.
Hypothesis cmp_antisym : forall x y, cmp y x = CompOpp (cmp x y).
Hypothesis cmp_trans : forall x y z, cmp_le x y -> cmp_le y z -> cmp_le x z.

Lemma insert_sorted_sorted x l :
  StronglySorted cmp_le l -> StronglySorted cmp_le (insert_sorted cmp x l).
Proof.
  induction 1 as [|y l Hl IH Hy]; simpl; [by repeat constructor|].
  assert (cmp x y <> Gt -> StronglySorted cmp_le (x :: y :: l)) as Hle.
  { intros Hxy. constructor; [by constructor|]. constructor; [done|].
    eapply Forall_impl; [exact Hy|]. intros z Hz. by eapply cmp_trans. }
  destruct (cmp x y) eqn:E; [by apply Hle..|]. constructor; [done|].
  rewrite insert_sorted_perm. constructor; [|done].
  unfold cmp_le. rewrite cmp_antisym, E. done.
Qed.

Lemma sorted_by_sorted l : StronglySorted cmp_le (sorted_by cmp l).
Proof. induction l as [|x l IH]; simpl; [constructor|]. by apply insert_sorted_sorted. Qed.

End sort_lemmas.

(** ** Sums over a map *)

Definition map_sum {K V} `{Countable K} (f : K * V -> Z) (m : gmap K V) : Z :=
  foldr (fun x acc => f x + acc) 0 (map_to_list m).

Section map_sum_lemmas.
Context {K V : Type} `{Countable K} (f : K * V -> Z).
Implicit Types (m : gmap K V).

Lemma foldr_sum_perm (l l' : list (K * V)) :
  l ≡ₚ l' -> foldr (fun x acc => f x + acc) 0 l = foldr (fun x acc => f x + acc) 0 l'.
Proof. induction 1; simpl; lia. Qed.

Lemma map_sum_empty : map_sum f (∅ : gmap K V) = 0.
Proof. unfold map_sum. by rewrite map_to_list_empty. Qed.

Lemma map_sum_insert_fresh m k v : m !! k = None -> map_sum f (<[k := v]> m) = map_sum f m + f (k, v).
Proof.
  intros Hk. unfold map_sum. rewrite (foldr_sum_perm _ _ (map_to_list_insert _ _ _ Hk)). simpl. lia.
Qed.

Lemma map_sum_delete m k v : m !! k = Some v -> map_sum f (delete k m) = map_sum f m - f (k, v).
Proof.
  intros Hk. pose proof (map_sum_insert_fresh (delete k m) k v (lookup_delete_eq _ _)) as Hi.
  rewrite insert_delete_id in Hi by done. lia.
Qed.

Lemma map_sum_replace m k v v' :
  m !! k = Some v -> map_sum f (<[k := v']> m) = map_sum f m - f (k, v) + f (k, v').
Proof.
  intros Hk. rewrite <- insert_delete_eq, map_sum_insert_fresh by apply lookup_delete_eq.
  by rewrite (map_sum_delete m k v).
Qed.

Lemma map_sum_nonneg m : (forall k v, m !! k = Some v -> 0 <= f (k, v)) -> 0 <= map_sum f m.
Proof.
  induction m as [|k v m Hk IH] using map_ind; intros Hf; [by rewrite map_sum_empty|].
  rewrite map_sum_insert_fresh by done.
  pose proof (Hf k v (lookup_insert_eq _ _ _)).
  enough (0 <= map_sum f m) by lia. apply IH. intros k' v' Hk'. apply Hf.
  rewrite lookup_insert_ne; [done|congruence].
Qed.

Lemma map_sum_zero m : (forall k v, m !! k = Some v -> f (k, v) = 0) -> map_sum f m = 0.
Proof.
  induction m as [|k v m Hk IH] using map_ind; intros Hf; [by rewrite map_sum_empty|].
  rewrite map_sum_insert_fresh, (Hf k v) by (done || apply lookup_insert_eq).
  rewrite IH; [done|]. intros k' v' Hk'. apply Hf. rewrite lookup_insert_ne; [done|congruence].
Qed.

Lemma map_sum_le (g : K * V -> Z) m :
  (forall k v, m !! k = Some v -> f (k, v) <= g (k, v)) -> map_sum f m <= map_sum g m.
Proof.
  intros Hf. unfold map_sum. assert (forall k v, (k, v) ∈ map_to_list m -> f (k, v) <= g (k, v)) as Hl
    by (intros k v Hin; apply Hf; by apply elem_of_map_to_list).
  clear Hf. induction (map_to_list m) as [|[k v] l IH]; simpl; [done|].
  pose proof (Hl k v ltac:(set_solver)). enough (foldr (fun x acc => f x + acc) 0 l <=
    foldr (fun x acc => g x + acc) 0 l) by lia. apply IH. set_solver.
Qed.

Lemma map_sum_fmap (g : V -> V) m :
  (forall k v, m !! k = Some v -> f (k, g v) = f (k, v)) -> map_sum f (g <$> m) = map_sum f m.
Proof.
  induction m as [|k v m Hk IH] using map_ind; intros Hf; [by rewrite fmap_empty|].
  rewrite fmap_insert, !map_sum_insert_fresh by (done || by rewrite lookup_fmap, Hk).
  rewrite (Hf k v) by apply lookup_insert_eq. rewrite IH; [done|].
  intros k' v' Hk'. apply Hf. rewrite lookup_insert_ne; [done|congruence].
Qed.

Lemma map_sum_fmap_le (g : V -> V) m :
  (forall k v, f (k, g v) <= f (k, v)) -> map_sum f (g <$> m) <= map_sum f m.
Proof.
  intros Hf. induction m as [|k v m Hk IH] using map_ind; [by rewrite fmap_empty|].
  rewrite fmap_insert, !map_sum_insert_fresh by (done || by rewrite lookup_fmap, Hk).
  specialize (Hf k v). lia.
Qed.

Lemma map_sum_elem_le m k v :
  (forall k v, m !! k = Some v -> 0 <= f (k, v)) -> m !! k = Some v -> f (k, v) <= map_sum f m.
Proof.
  intros Hf Hk. pose proof (map_sum_delete m k v Hk).
  enough (0 <= map_sum f (delete k m)) by lia.
  apply map_sum_nonneg. intros k' v' [_ ?]%lookup_delete_Some. by apply Hf.
Qed.

End map_sum_lemmas.

(** ** Lemmas on least elements *)

Lemma min_by_key_acc {A} (key : A -> Z) l : forall b,
  exists m, fold_left (fun best x =>
      match best with
      | Some b => if key x <? key b then Some x else Some b
      | None => Some x
      end) l (Some b) = Some m /\ (m = b \/ m ∈ l) /\ key m <= key b /\ forall x, x ∈ l -> key m <= key x.
Proof.
  induction l as [|y l IH]; intros b; simpl.
  - exists b. split_and!; auto; [lia|]. intros x Hx. by apply elem_of_nil in Hx.
  - case_match eqn:E; bool_to_Prop.
    + destruct (IH y) as (m & -> & Hin & Hle & Hall). exists m.
      split_and!; [done|set_solver|lia|]. intros x [->|Hx]%elem_of_cons; [lia|auto].
    + destruct (IH b) as (m & -> & Hin & Hle & Hall). exists m.
      split_and!; [done|set_solver|lia|]. intros x [->|Hx]%elem_of_cons; [lia|auto].
Qed.

Lemma min_by_key_Some {A} (key : A -> Z) l m :
  min_by_key key l = Some m -> m ∈ l /\ forall x, x ∈ l -> key m <= key x.
Proof.
  unfold min_by_key. destruct l as [|y l]; simpl; [done|].
  destruct (min_by_key_acc key l y) as (m' & -> & Hin & Hle & Hall). intros [= <-].
  split; [set_solver|]. intros x [->|Hx]%elem_of_cons; auto.
Qed.

Lemma min_by_key_None {A} (key : A -> Z) l : min_by_key key l = None <-> l = [].
Proof.
  unfold min_by_key. split; [|by intros ->]. destruct l as [|y l]; simpl; [done|].
  destruct (min_by_key_acc key l y) as (m' & -> & _). done.
Qed.

Lemma length_omap_le {A B} (f : A -> option B) l : (length (omap f l) <= length l)%nat.
Proof. induction l as [|x l IH]; csimpl; [done|]. destruct (f x); csimpl; lia. Qed.

(** ** Filters *)

Lemma filter_none {A} (P : A -> Prop) `{forall x, Decision (P x)} (l : list A) :
  (forall x, x ∈ l -> ~ P x) -> filter P l = [].
Proof.
  induction l as [|x l IH]; intros HP; [done|].
  rewrite filter_cons_False by (apply HP; set_solver). apply IH. set_solver.
Qed.

Lemma filter_all {A} (P : A -> Prop) `{forall x, Decision (P x)} (l : list A) :
  (forall x, x ∈ l -> P x) -> filter P l = l.
Proof.
  induction l as [|x l IH]; intros HP; [done|].
  rewrite filter_cons_True by (apply HP; set_solver). f_equal. apply IH. set_solver.
Qed.

(** A list is sorted when its decision procedure says so of every pair. *)
Lemma StronglySorted_decide {A} (R : A -> A -> Prop) `{forall x y, Decision (R x y)} (l : list A) :
  (fix go l := match l with
               | [] => true
               | x :: r => forallb (fun y => bool_decide (R x y)) r && go r
               end) l = true -> StronglySorted R l.
Proof.
  induction l as [|x l IH]; [constructor|].
  intros [Hf Hl]%andb_true_iff. constructor; [by apply IH|].
  rewrite forallb_forall in Hf. apply List.Forall_forall. intros y Hy.
  eapply bool_decide_eq_true_1, Hf, Hy.
Qed.

Lemma StronglySorted_filter {A} (R : relation A) (P : A -> Prop) `{forall x, Decision (P x)} (l : list A) :
  StronglySorted R l -> StronglySorted R (filter P l).
Proof.
  induction 1 as [|x l Hs IH Hf]; [constructor|]. rewrite filter_cons. case_decide; [|done].
  constructor; [done|]. apply Forall_forall. intros y [_ Hy]%list_elem_of_filter.
  by rewrite Forall_forall in Hf; apply Hf.
Qed.

Lemma filter_fmap_length {A B} (f : A -> B) (P : B -> Prop) `{forall x, Decision (P x)} (l : list A) :
  length (filter P (f <$> l)) = length (filter (fun x => P (f x)) l).
Proof.
  induction l as [|x l IH]; [done|]. rewrite fmap_cons, !filter_cons.
  case_decide; simpl; congruence.
Qed.
