(* ===== verification/Disk.v ===== *)
(** * Files

    The files a node keeps (its record and its metadata), as far as the code looks at them.  Writing can
    fail: the code only logs a warning then, and the file keeps what it had, or what was written before
    the failure. *)

From S2P Require Import Prelude.

(** How a write turns out: the file could be created and everything was written; the directory or the file
    could not be created; writing stopped after [n] bytes of a file just truncated. *)
Inductive WriteOutcome :=
  | Written
  | NotOpened
  | CutAfter (n : nat).

#[export] Instance WriteOutcome_eq_dec : EqDecision WriteOutcome.
Proof. solve_decision. Defined.

(** [contents] is what can be read of the file, [None] if it cannot be opened or read.  [outcomes] is how
    the writes to come turn out, which the node has no say in; those not listed succeed. *)
Record File (A : Type) := mkFile {
  contents : option (list A);
  last_outcome : WriteOutcome;
  outcomes : list WriteOutcome;
}.
Arguments mkFile {_} _ _ _.
Arguments contents {_} _.
Arguments last_outcome {_} _.
Arguments outcomes {_} _.

(** A file as a starting node finds it. *)
Definition file_found {A} (found : option (list A)) (outcomes : list WriteOutcome) : File A :=
  mkFile found NotOpened outcomes.

Definition contents_after {A} (o : WriteOutcome) (old : option (list A)) (new : list A) : option (list A) :=
  match o with
  | Written => Some new
  | NotOpened => old
  | CutAfter n => Some (take n new)
  end.

Definition file_write {A} (f : File A) (new : list A) : File A :=
  let o := default Written (head (outcomes f)) in
  mkFile (contents_after o (contents f) new) o (tail (outcomes f)).

(** The file holds what was last written to it, as far as that write got. *)
Definition holds_write {A} (f : File A) (new : list A) : Prop :=
  match last_outcome f with
  | Written => contents f = Some new
  | NotOpened => True
  | CutAfter n => contents f = Some (take n new)
  end.

Lemma file_write_holds {A} (f : File A) new : holds_write (file_write f new) new.
Proof. unfold holds_write, file_write. cbn. by destruct (default _ _). Qed.

Lemma holds_written {A} (f : File A) new : holds_write f new -> last_outcome f = Written -> contents f = Some new.
Proof. unfold holds_write. intros Hf Ho. by rewrite Ho in Hf. Qed.

(** A write that changes nothing succeeded. *)
Lemma file_write_same {A} (f : File A) new : file_write f new = f -> contents f = Some new.
Proof.
  destruct f as [c o [|o' l]]; unfold file_write; cbn; [by intros [= -> _]|].
  intros [= _ _ Hl]. apply (f_equal length) in Hl. cbn in Hl. lia.
Qed.
