(* ===== verification/Chain.v ===== *)
(** * Types and functions of the crates the network layer is built on

    The consensus types, the SSZ sizes, libp2p identifiers and ENRs come from crates outside the
    repository.  They are collected here in two interfaces, [ChainTypes] and [Libp2p]; every
    definition that uses one of them takes the interface as an argument. *)

From S2P Require Import Prelude.

(** The phases of the consensus protocol ([types::nonstandard::Phase]), in order. *)
Inductive Phase :=
  | Phase0 | Altair | Bellatrix | Capella | Deneb | Electra | Fulu | Gloas.

#[export] Instance Phase_eq_dec : EqDecision Phase.
Proof. solve_decision. Defined.

(** [enum_iterator::all::<Phase>()]. *)
Definition Phase_all : list Phase :=
  [Phase0; Altair; Bellatrix; Capella; Deneb; Electra; Fulu; Gloas].

(** The derived order of the enumeration. *)
Definition Phase_index (p : Phase) : Z :=
  match p with
  | Phase0 => 0 | Altair => 1 | Bellatrix => 2 | Capella => 3
  | Deneb => 4 | Electra => 5 | Fulu => 6 | Gloas => 7
  end.
Definition Phase_leb (p q : Phase) : bool := Phase_index p <=? Phase_index q.

(** Slots, epochs and subnet identifiers are 64-bit integers. *)
Abbreviation Slot := Z (only parsing).
Abbreviation Epoch := Z (only parsing).
Abbreviation SubnetId := Z (only parsing).
Abbreviation Instant := Z (only parsing).
Abbreviation Duration := Z (only parsing).
(** A byte is a number below 256. *)
Abbreviation Bytes := (list Z) (only parsing).

Definition FAR_FUTURE_EPOCH : Epoch := U64_MAX.

(** Fixed-length bit vectors of the [ssz] crate, lowest index first. *)
Definition BitVector := list bool.
(** [BitVector::get]: [None] out of range. *)
Definition bit_get (b : BitVector) (i : Z) : option bool :=
  if i <? 0 then None else b !! Z.to_nat i.
(** [BitVector::none]: no bit is set. *)
Definition bit_none (b : BitVector) : bool := negb (existsb id b).
(** [BitVector::last_one]: the highest index set. *)
Fixpoint bit_last_one (b : BitVector) : option nat :=
  match b with
  | [] => None
  | x :: r =>
      match bit_last_one r with
      | Some n => Some (S n)
      | None => if x then Some 0%nat else None
      end
  end.

(** Consensus types and chain configuration. *)
Class ChainTypes := {
  H256 : Type;
  H256_eq_dec :: EqDecision H256;
  ForkDigest : Type;
  ForkDigest_eq_dec :: EqDecision ForkDigest;
  ForkDigest_countable :: Countable ForkDigest;
  ForkDigest_default : ForkDigest;

  ChainConfig : Type;
  (** [Config::max_blobs_per_block] of an epoch. *)
  max_blobs_per_block : ChainConfig -> Epoch -> Z;
  (** [Config::max_request_blocks] of a phase. *)
  config_max_request_blocks : ChainConfig -> Phase -> Z;
  config_max_request_blob_sidecars : ChainConfig -> Phase -> Z;
  config_max_data_columns_by_root_request : ChainConfig -> Z;
  config_is_peerdas_scheduled : ChainConfig -> bool;
  config_fork_epoch : ChainConfig -> Phase -> Epoch;
  config_phase_at_epoch : ChainConfig -> Epoch -> Phase;
  config_is_phase_enabled : ChainConfig -> Phase -> bool;
  config_blob_schedule_epochs : ChainConfig -> list Epoch;
  config_custody_requirement : ChainConfig -> Z;
  compute_fork_digest : ChainConfig -> H256 -> Epoch -> ForkDigest;
  (** [misc::compute_epoch_at_slot] and [misc::compute_start_slot_at_epoch] of the preset. *)
  compute_epoch_at_slot : Slot -> Epoch;
  compute_start_slot_at_epoch : Epoch -> Slot;

  (** [EnrSyncCommitteeBitfield::default()]. *)
  default_syncnets : BitVector;

  (** Response payloads; the network layer only moves them around. *)
  SignedBeaconBlock : Type;
  BlobSidecar : Type;
  DataColumnSidecar : Type;
  LightClientBootstrap : Type;
  LightClientOptimisticUpdate : Type;
  LightClientFinalityUpdate : Type;
  LightClientUpdate : Type;
}.

(** libp2p identifiers and addresses, and discv5 records. *)
Inductive IpAddr :=
  | IpV4 (ip : Z)
  | IpV6 (ip : Z).

#[export] Instance IpAddr_eq_dec : EqDecision IpAddr.
Proof. solve_decision. Defined.

#[export] Instance IpAddr_countable : Countable IpAddr.
Proof.
  refine (inj_countable' (fun i => match i with IpV4 z => inl z | IpV6 z => inr z end)
    (fun s => match s with inl z => IpV4 z | inr z => IpV6 z end) _).
  by intros [].
Defined.

(** The components of a multiaddress the code distinguishes. *)
Inductive MultiaddrProtocol :=
  | MaIp4 (ip : Z)
  | MaIp6 (ip : Z)
  | MaUdp (port : Z)
  | MaTcp (port : Z)
  | MaQuicV1
  | MaOther.

Class Libp2p := {
  PeerId : Type;
  PeerId_eq_dec :: EqDecision PeerId;
  PeerId_countable :: Countable PeerId;
  Multiaddr : Type;
  Multiaddr_eq_dec :: EqDecision Multiaddr;
  Multiaddr_countable :: Countable Multiaddr;
  (** [Multiaddr::iter]. *)
  multiaddr_iter : Multiaddr -> list MultiaddrProtocol;
  Enr : Type;
  Enr_eq_dec :: EqDecision Enr;
  Enr_countable :: Countable Enr;
  enr_peer_id : Enr -> PeerId;
  (** [get_decodable::<Bytes>] of a key: absent, or present and possibly not a byte string. *)
  RlpError : Type;
  RlpError_eq_dec :: EqDecision RlpError;
  enr_get_bytes : Enr -> string -> option (result Bytes RlpError);
  (** [from_ssz_default] of the two bit fields of a record. *)
  attnets_from_ssz : Bytes -> result BitVector unit;
  syncnets_from_ssz : Bytes -> result BitVector unit;
}.

(** Concrete interfaces for the closed examples of the development. *)
Module Toy.

Definition chain : ChainTypes := {|
  H256 := Z; ForkDigest := Z; ForkDigest_default := 0;
  ChainConfig := unit;
  max_blobs_per_block := fun _ _ => 6;
  config_max_request_blocks := fun _ p => if Phase_leb Deneb p then 128 else 1024;
  config_max_request_blob_sidecars := fun _ _ => 768;
  config_max_data_columns_by_root_request := fun _ => 16384;
  config_is_peerdas_scheduled := fun _ => true;
  config_fork_epoch := fun _ p => 10 * Phase_index p;
  config_phase_at_epoch := fun _ e =>
    default Phase0 (last (filter (fun p => 10 * Phase_index p <= e) Phase_all));
  config_is_phase_enabled := fun _ _ => true;
  config_blob_schedule_epochs := fun _ => [65];
  config_custody_requirement := fun _ => 4;
  compute_fork_digest := fun _ _ e => 1000 + e;
  compute_epoch_at_slot := fun s => s / 32;
  compute_start_slot_at_epoch := fun e => e * 32;
  default_syncnets := [false; false; false; false];
  SignedBeaconBlock := Z; BlobSidecar := Z; DataColumnSidecar := Z;
  LightClientBootstrap := Z; LightClientOptimisticUpdate := Z;
  LightClientFinalityUpdate := Z; LightClientUpdate := Z;
|}.

(** Peers are numbers, an address is an IPv4 address and a port, a record is the peer's number; it is on
    attestation subnet 0. *)
Definition libp2p : Libp2p := {|
  PeerId := Z;
  Multiaddr := Z;
  multiaddr_iter := fun a => [MaIp4 (a / 65536); MaTcp (a mod 65536)];
  Enr := Z;
  enr_peer_id := fun e => e;
  RlpError := unit;
  enr_get_bytes := fun _ k => if String.eqb k "attnets" then Some (Ok [1]) else None;
  attnets_from_ssz := fun _ => Ok [true];
  syncnets_from_ssz := fun _ => Ok [false; false; false; false];
|}.

End Toy.

Lemma Phase_leb_total p q : Phase_leb p q = true \/ Phase_leb q p = true.
Proof. unfold Phase_leb. rewrite !Z.leb_le. lia. Qed.

Lemma Phase_index_inj p q : Phase_index p = Phase_index q -> p = q.
Proof. by destruct p, q. Qed.

Lemma Phase_all_complete p : p ∈ Phase_all.
Proof. destruct p; unfold Phase_all; set_solver. Qed.
