(* ===== verification/Timers.v ===== *)
(** * Delay queues

    [tokio_util::time::DelayQueue] as the limiters, the connection handler and the gossip cache use it,
    and the invariant that ties a queue of timeouts to the table whose entries hold its keys. *)

From S2P Require Import Prelude Chain.

(** [tokio_util::time::DelayQueue]: the entries with the instants they expire at.  Which of the expired
    entries [poll_expired] delivers is the runtime's choice; it delivers one whenever there is one. *)
Class DelayQueue := {
  poll_expired : forall {K : Type}, list (K * Instant) -> Instant -> option nat;
  poll_expired_Some : forall {K} (q : list (K * Instant)) now i,
    poll_expired q now = Some i -> exists k deadline, q !! i = Some (k, deadline) /\ deadline <= now;
  poll_expired_None : forall {K} (q : list (K * Instant)) now,
    poll_expired q now = None -> Forall (fun e => now < e.2) q;
}.

(** [DelayQueue::insert]. *)
Definition dq_insert {K} (q : list (K * Instant)) (now : Instant) (k : K) (wait : Duration)
  : list (K * Instant) := q ++ [(k, now + wait)].

Definition dq_remove {K} (q : list (K * Instant)) (i : nat) : list (K * Instant) :=
  take i q ++ drop (S i) q.

Lemma elem_of_dq_remove {K} (l : list (K * Instant)) i x y :
  l !! i = Some y -> x ∈ l -> x.1 <> y.1 -> x ∈ dq_remove l i.
Proof.
  intros Hi Hx Hne. rewrite <- (take_drop_middle l i y Hi) in Hx. unfold dq_remove.
  rewrite elem_of_app, elem_of_cons in Hx. rewrite elem_of_app.
  destruct Hx as [?|[->|?]]; [by left|done|by right].
Qed.

(** ** Delay queues with keys

    [DelayQueue::insert] returns a key that no entry of the queue has; [remove] and [reset] panic when
    the key is not in the queue. *)

Class DelayKeys := {
  new_key : list Z -> Z;
  new_key_fresh : forall ks, new_key ks ∉ ks;
}.

(** Entries: key, value and the instant of expiry. *)
Abbreviation KeyedQueue V := (list ((Z * V) * Instant)) (only parsing).

Definition queue_keys {V} (q : KeyedQueue V) : list Z := map (fun e => e.1.1) q.

Definition kq_insert {V} `{DelayKeys} (q : KeyedQueue V) (now : Instant) (v : V) (wait : Duration)
  : Z * KeyedQueue V :=
  let key := new_key (queue_keys q) in (key, q ++ [((key, v), now + wait)]).

Definition kq_remove {V} (q : KeyedQueue V) (key : Z) : option (KeyedQueue V) :=
  if decide (key ∈ queue_keys q) then Some (filter (fun e => e.1.1 <> key) q) else None.

Definition kq_reset {V} (q : KeyedQueue V) (key : Z) (now : Instant) (wait : Duration)
  : option (KeyedQueue V) :=
  if decide (key ∈ queue_keys q)
  then Some (map (fun e => if decide (e.1.1 = key) then (e.1, now + wait) else e) q) else None.

(** ** Timeouts

    A queue of timeouts fits a table when every entry is the timeout of an entry of the table that holds
    its key, and every key the table holds is in the queue. *)

Section timers.
Context {V A : Type} `{Countable V} (key : A -> option Z).
Implicit Types (q : KeyedQueue V) (m : gmap V A).

Record timers_ok q m : Prop := {
  to_nodup : NoDup (queue_keys q);
  to_entry : forall k id d, ((k, id), d) ∈ q -> exists i, m !! id = Some i /\ key i = Some k;
  to_info : forall id i k, m !! id = Some i -> key i = Some k -> exists d, ((k, id), d) ∈ q;
}.

Lemma elem_of_queue_keys q k : k ∈ queue_keys q <-> exists id d, ((k, id), d) ∈ q.
Proof.
  unfold queue_keys. rewrite list_elem_of_fmap. split.
  - intros ([[k' id] d] & -> & ?). by exists id, d.
  - intros (id & d & ?). by exists ((k, id), d).
Qed.

(** A key occurs once, so it names one value. *)
Lemma queue_key_inj q k id d id' d' :
  NoDup (queue_keys q) -> ((k, id), d) ∈ q -> ((k, id'), d') ∈ q -> id = id' /\ d = d'.
Proof.
  unfold queue_keys. induction q as [|[[k0 i0] d0] q IH]; [set_solver|]. simpl.
  intros [Hn Hnd]%NoDup_cons. rewrite !elem_of_cons.
  assert (Hk : forall i e, ((k, i), e) ∈ q -> k <> k0).
  { intros i e Hin ->. apply Hn. apply list_elem_of_fmap. by exists ((k0, i), e). }
  intros [E1|H1] [E2|H2]; simplify_eq; try done.
  - by destruct (Hk _ _ H2).
  - by destruct (Hk _ _ H1).
  - by apply IH.
Qed.

Lemma timers_empty : timers_ok [] ∅.
Proof. split; [constructor|set_solver|]. intros id i k. by rewrite lookup_empty. Qed.

Lemma timers_insert `{DelayKeys} q m id i now wait :
  timers_ok q m -> m !! id = None -> key i = Some (kq_insert q now id wait).1 ->
  timers_ok (kq_insert q now id wait).2 (<[id := i]> m).
Proof.
  intros [Hn He Hi] Hid Hk. unfold kq_insert in *. simpl in *. pose proof (new_key_fresh (queue_keys q)).
  split.
  - unfold queue_keys in *. rewrite map_app. apply NoDup_app. simpl. split_and!; [done| |apply NoDup_singleton].
    intros x Hx ->%list_elem_of_singleton. done.
  - intros k' id' d [Hin|E%list_elem_of_singleton]%elem_of_app; simplify_eq.
    + destruct (He _ _ _ Hin) as (i' & Hl & ?). exists i'. rewrite lookup_insert_ne by congruence. done.
    + exists i. by rewrite lookup_insert_eq.
  - intros id' i' k'. rewrite lookup_insert. case_decide as E.
    + intros [= <-] Hk'. rewrite Hk in Hk'. injection Hk' as <-. subst. exists (now + wait). set_solver.
    + intros Hl Hk'. destruct (Hi _ _ _ Hl Hk') as [d ?]. exists d. set_solver.
Qed.

Lemma timers_update q m id i i' :
  timers_ok q m -> m !! id = Some i -> key i' = key i -> timers_ok q (<[id := i']> m).
Proof.
  intros [Hn He Hi] Hl Hk. split; [done| |].
  - intros k id' d Hin. destruct (He _ _ _ Hin) as (i0 & Hl0 & Hk0). rewrite lookup_insert.
    case_decide; [|eauto]. subst. exists i'. split; [done|]. congruence.
  - intros id' i0 k. rewrite lookup_insert. case_decide; [|eauto]. intros [= <-]. subst. rewrite Hk. eauto.
Qed.

Lemma timers_delete q m id i k :
  timers_ok q m -> m !! id = Some i -> key i = Some k ->
  timers_ok (filter (fun e => e.1.1 <> k) q) (delete id m).
Proof.
  intros [Hn He Hi] Hl Hk. destruct (Hi _ _ _ Hl Hk) as [d0 Hd0]. split.
  - unfold queue_keys in *. revert Hn. clear. induction q as [|e q IH]; [done|]. simpl.
    intros [Hn Hnd]%NoDup_cons. rewrite filter_cons. case_decide; [|by apply IH].
    simpl. constructor; [|by apply IH]. intros Hin. apply Hn.
    apply list_elem_of_fmap in Hin as (x & -> & [_ Hx]%list_elem_of_filter).
    apply list_elem_of_fmap. by exists x.
  - intros k' id' d [Hne Hin]%list_elem_of_filter. simpl in Hne.
    destruct (He _ _ _ Hin) as (i' & Hl' & Hk'). exists i'. rewrite lookup_delete_ne by congruence. done.
  - intros id' i' k'. rewrite lookup_delete. case_decide as E; [done|]. intros Hl' Hk'.
    destruct (Hi _ _ _ Hl' Hk') as [d ?]. exists d. apply list_elem_of_filter. split; [|done]. simpl.
    intros ->. by destruct (queue_key_inj q k id d0 id' d Hn).
Qed.

Lemma timers_remove q m id i k :
  timers_ok q m -> m !! id = Some i -> key i = Some k ->
  exists q', kq_remove q k = Some q' /\ timers_ok q' (delete id m).
Proof.
  intros Hq Hl Hk. destruct (to_info _ _ Hq _ _ _ Hl Hk) as [d Hd]. unfold kq_remove.
  rewrite decide_True by (apply elem_of_queue_keys; eauto). eexists. split; [done|].
  by eapply timers_delete.
Qed.

Lemma timers_delete_unkeyed q m id i :
  timers_ok q m -> m !! id = Some i -> key i = None -> timers_ok q (delete id m).
Proof.
  intros [Hn He Hi] Hl Hk. split; [done| |].
  - intros k id' d Hin. destruct (He _ _ _ Hin) as (i' & Hl' & ?). exists i'.
    rewrite lookup_delete_ne by congruence. done.
  - intros id' i' k. rewrite lookup_delete. case_decide; [done|]. eauto.
Qed.

Lemma timers_reset q m id i k now wait :
  timers_ok q m -> m !! id = Some i -> key i = Some k ->
  exists q', kq_reset q k now wait = Some q' /\ timers_ok q' m.
Proof.
  intros [Hn He Hi] Hl Hk. destruct (Hi _ _ _ Hl Hk) as [d0 Hd0]. unfold kq_reset.
  rewrite decide_True by (apply elem_of_queue_keys; eauto). eexists. split; [done|].
  set (f := fun e : (Z * V) * Instant => _). assert (Hf : forall e, (f e).1 = e.1) by (intros; unfold f; by case_decide).
  split.
  - unfold queue_keys in *. rewrite map_map. erewrite map_ext; [exact Hn|]. intros e. simpl. by rewrite Hf.
  - intros k' id' d (e & E & Hin)%list_elem_of_fmap. destruct e as [[k1 id1] d1].
    pose proof (Hf ((k1, id1), d1)) as E'. rewrite <- E in E'. simpl in E'. injection E' as -> ->. eauto.
  - intros id' i' k' Hl' Hk'. destruct (Hi _ _ _ Hl' Hk') as [d Hd]. exists (f ((k', id'), d)).2.
    apply list_elem_of_fmap. exists ((k', id'), d). split; [|done].
    pose proof (Hf ((k', id'), d)) as E. destruct (f _) as [x y]. simpl in *. by rewrite E.
Qed.

Lemma timers_insert_unkeyed q m id i :
  timers_ok q (delete id m) -> key i = None -> timers_ok q (<[id := i]> m).
Proof.
  intros [Hn He Hi] Hk. split; [done| |].
  - intros k id' d Hin. destruct (He _ _ _ Hin) as (i' & Hl & ?). exists i'. rewrite lookup_delete in Hl.
    case_decide; [done|]. by rewrite lookup_insert_ne.
  - intros id' i' k. rewrite lookup_insert. case_decide; [congruence|]. intros Hl.
    apply Hi. by rewrite lookup_delete_ne.
Qed.

Lemma dq_remove_filter q n k id d :
  NoDup (queue_keys q) -> q !! n = Some ((k, id), d) -> dq_remove q n = filter (fun e => e.1.1 <> k) q.
Proof.
  unfold queue_keys. revert n. induction q as [|e q IH]; intros n; [done|]. simpl.
  intros [Hni Hn]%NoDup_cons. destruct n as [|n]; simpl.
  - intros [= ->]. rewrite filter_cons_False by (simpl; congruence).
    unfold dq_remove. simpl. rewrite drop_0. symmetry. apply filter_all.
    intros x Hx E. apply Hni, list_elem_of_fmap. by exists x.
  - intros Hl. rewrite filter_cons_True.
    + unfold dq_remove in *. simpl. f_equal. by apply IH.
    + intros E. apply Hni, list_elem_of_fmap. exists ((k, id), d). split; [done|].
      by eapply list_elem_of_lookup_2.
Qed.

(** Taking an expired entry: its value is in the table, and forgetting its key or the value keeps the
    queue in order. *)
Lemma timers_expire q m n k id d :
  timers_ok q m -> q !! n = Some ((k, id), d) ->
  exists i, m !! id = Some i /\ key i = Some k /\
    timers_ok (dq_remove q n) (delete id m) /\
    forall i', key i' = None -> timers_ok (dq_remove q n) (<[id := i']> m).
Proof.
  intros Hq Hn. pose proof (list_elem_of_lookup_2 _ _ _ Hn) as Hin.
  destruct (to_entry _ _ Hq _ _ _ Hin) as (i & Hl & Hk).
  rewrite (dq_remove_filter q n k id d) by (done || apply Hq).
  assert (timers_ok (filter (fun e => e.1.1 <> k) q) (delete id m)) by by eapply timers_delete.
  exists i. split_and!; [done..|]. intros i' Hi'. by apply timers_insert_unkeyed.
Qed.

(** When a value expires. *)
Definition expires q (v : V) (d : Instant) : Prop := exists k, ((k, v), d) ∈ q.

Lemma expires_known q m v d : timers_ok q m -> expires q v d -> is_Some (m !! v).
Proof. intros Hq [k Hk]. destruct (to_entry _ _ Hq _ _ _ Hk) as (i & ? & _). by exists i. Qed.

Lemma expires_insert `{DelayKeys} q m id now wait v d :
  timers_ok q m -> m !! id = None ->
  (expires (kq_insert q now id wait).2 v d <-> if decide (v = id) then d = now + wait else expires q v d).
Proof.
  intros Hq Hid. unfold expires, kq_insert. simpl. case_decide as E; split.
  - intros [k [Hin|E']%elem_of_app]; [|set_solver]. subst.
    destruct (expires_known q m id d Hq) as [i Hi]; [by exists k|congruence].
  - intros ->. exists (new_key (queue_keys q)). subst. set_solver.
  - intros [k [Hin|E']%elem_of_app]; [by exists k|set_solver].
  - intros [k Hk]. exists k. set_solver.
Qed.

Lemma expires_reset q m id i k now wait q' v d :
  timers_ok q m -> m !! id = Some i -> key i = Some k -> kq_reset q k now wait = Some q' ->
  (expires q' v d <-> if decide (v = id) then d = now + wait else expires q v d).
Proof.
  intros Hq Hl Hk. unfold kq_reset. case_decide; [|done]. intros [= <-]. unfold expires.
  destruct (to_info _ _ Hq _ _ _ Hl Hk) as [d0 Hd0].
  assert (Hid : forall v' d', ((k, v'), d') ∈ q -> v' = id).
  { intros v' d' Hin. by destruct (queue_key_inj q k id d0 v' d' (to_nodup _ _ Hq) Hd0 Hin). }
  case_decide as E; split.
  - intros [k' (e & Ee & Hin)%list_elem_of_fmap]. destruct e as [[k1 v1] d1]. simpl in Ee.
    case_decide as E1; simplify_eq; [done|]. destruct (to_entry _ _ Hq _ _ _ Hin) as (i1 & Hl1 & Hk1). congruence.
  - intros ->. exists k. apply list_elem_of_fmap. exists ((k, id), d0). simpl. rewrite decide_True by done.
    by subst.
  - intros [k' (e & Ee & Hin)%list_elem_of_fmap]. destruct e as [[k1 v1] d1]. simpl in Ee.
    case_decide as E1; simplify_eq; [|by exists k1]. by destruct E; eapply Hid.
  - intros [k' Hin]. exists k'. apply list_elem_of_fmap. exists ((k', v), d). simpl.
    rewrite decide_False; [done|]. intros ->. by destruct E; eapply Hid.
Qed.

Lemma expires_delete q m id i k v d :
  timers_ok q m -> m !! id = Some i -> key i = Some k ->
  (expires (filter (fun e => e.1.1 <> k) q) v d <-> v <> id /\ expires q v d).
Proof.
  intros Hq Hl Hk. destruct (to_info _ _ Hq _ _ _ Hl Hk) as [d0 Hd0]. unfold expires. split.
  - intros [k' [Hne Hin]%list_elem_of_filter]. simpl in Hne. split; [|by exists k']. intros ->.
    destruct (to_entry _ _ Hq _ _ _ Hin) as (i' & ? & ?). congruence.
  - intros [Hne [k' Hin]]. exists k'. apply list_elem_of_filter. split; [|done]. simpl. intros ->.
    by destruct (queue_key_inj q k id d0 v d (to_nodup _ _ Hq) Hd0 Hin).
Qed.

End timers.

(** Concrete queues for the closed examples of the development. *)
Module ToyTimers.

(** A queue that delivers the first expired entry. *)
Fixpoint first_expired {K : Type} (q : list (K * Instant)) (now : Instant) : option nat :=
  match q with
  | [] => None
  | e :: q => if e.2 <=? now then Some 0%nat else S <$> first_expired q now
  end.

Instance first_expired_queue : DelayQueue.
Proof.
  refine {| poll_expired := @first_expired |}.
  - intros K q now. induction q as [|[k d] q IH]; simpl; [done|]. intros i.
    case_match; bool_to_Prop.
    + intros [= <-]. by exists k, d.
    + destruct (first_expired q now) as [j|]; [|done]. simpl. intros [= <-]. by apply IH.
  - intros K q now. induction q as [|[k d] q IH]; simpl; [done|].
    case_match; bool_to_Prop; [done|]. destruct (first_expired q now); [done|]. auto.
Defined.

(** The next key is one more than every key in the queue. *)
Definition max_key (ks : list Z) : Z := foldr Z.max 0 ks + 1.

Lemma max_key_above ks k : k ∈ ks -> k < max_key ks.
Proof. unfold max_key. induction ks as [|x ks IH]; simpl; [set_solver|]. intros [->|?%IH]%elem_of_cons; lia. Qed.

Instance increasing_keys : DelayKeys.
Proof. refine {| new_key := max_key |}. intros ks H%max_key_above. lia. Defined.

End ToyTimers.
