(* ===== verification/Enr.v ===== *)
(** * Bit fields of a node record (the trait [Eth2Enr] of [discovery/enr.rs])

    The subnets a record says its node is on.  The other fields of a record are in [LocalEnr]. *)

From S2P Require Import Prelude Chain.

Definition ATTESTATION_BITFIELD_ENR_KEY : string := "attnets".
Definition SYNC_COMMITTEE_BITFIELD_ENR_KEY : string := "syncnets".

Section enr.
Context `{Libp2p}.

Definition attestation_bitfield (e : Enr) : result BitVector string :=
  let? r := ok_or (enr_get_bytes e ATTESTATION_BITFIELD_ENR_KEY) "ENR attestation bitfield non-existent"%string in
  let? bitfield_bytes := map_err (fun _ => "Invalid RLP Encoding"%string) r in
  map_err (fun _ => "Could not decode the ENR attnets bitfield"%string) (attnets_from_ssz bitfield_bytes).

Definition sync_committee_bitfield (e : Enr) : result BitVector string :=
  let? r := ok_or (enr_get_bytes e SYNC_COMMITTEE_BITFIELD_ENR_KEY)
              "ENR sync committee bitfield non-existent"%string in
  let? bitfield_bytes := map_err (fun _ => "Invalid RLP Encoding"%string) r in
  map_err (fun _ => "Could not decode the ENR syncnets bitfield"%string) (syncnets_from_ssz bitfield_bytes).

End enr.
