(* ===== verification/Protocol.v ===== *)
(** * RPC protocols and requests ([rpc/protocol.rs], [rpc/methods.rs])

    The protocol names and versions, the request and response types with the number of tokens a
    request costs, the protocol identifiers exchanged during negotiation and the wire codes of
    responses and goodbye reasons.  The length bounds of messages are in [Limits]. *)

From S2P Require Import Prelude Chain.

(** ** Protocol names *)

Module Protocol.

Inductive Protocol :=
  | Status | Goodbye | BlocksByRange | BlocksByRoot | BlobsByRange | BlobsByRoot
  | DataColumnsByRoot | DataColumnsByRange | Ping | MetaData | LightClientBootstrap
  | LightClientOptimisticUpdate | LightClientFinalityUpdate | LightClientUpdatesByRange.

End Protocol.
Abbreviation Protocol := Protocol.Protocol.

#[export] Instance Protocol_eq_dec : EqDecision Protocol.
Proof. solve_decision. Defined.

(** Every protocol, in the order of declaration. *)
Definition Protocol_all : list Protocol :=
  [Protocol.Status; Protocol.Goodbye; Protocol.BlocksByRange; Protocol.BlocksByRoot;
   Protocol.BlobsByRange; Protocol.BlobsByRoot; Protocol.DataColumnsByRoot;
   Protocol.DataColumnsByRange; Protocol.Ping; Protocol.MetaData; Protocol.LightClientBootstrap;
   Protocol.LightClientOptimisticUpdate; Protocol.LightClientFinalityUpdate;
   Protocol.LightClientUpdatesByRange].

(** The [strum] serialisation of a protocol name. *)
Definition Protocol_as_ref (p : Protocol) : string :=
  match p with
  | Protocol.Status => "status"
  | Protocol.Goodbye => "goodbye"
  | Protocol.BlocksByRange => "beacon_blocks_by_range"
  | Protocol.BlocksByRoot => "beacon_blocks_by_root"
  | Protocol.BlobsByRange => "blob_sidecars_by_range"
  | Protocol.BlobsByRoot => "blob_sidecars_by_root"
  | Protocol.DataColumnsByRoot => "data_column_sidecars_by_root"
  | Protocol.DataColumnsByRange => "data_column_sidecars_by_range"
  | Protocol.Ping => "ping"
  | Protocol.MetaData => "metadata"
  | Protocol.LightClientBootstrap => "light_client_bootstrap"
  | Protocol.LightClientOptimisticUpdate => "light_client_optimistic_update"
  | Protocol.LightClientFinalityUpdate => "light_client_finality_update"
  | Protocol.LightClientUpdatesByRange => "light_client_updates_by_range"
  end%string.

(** [str::parse::<Protocol>], derived by [strum::EnumString]. *)
Definition Protocol_from_str (s : string) : option Protocol :=
  List.find (fun p => bool_decide (Protocol_as_ref p = s)) Protocol_all.

Module ResponseTermination.

Inductive ResponseTermination :=
  | BlocksByRange | BlocksByRoot | BlobsByRange | BlobsByRoot
  | DataColumnsByRoot | DataColumnsByRange | LightClientUpdatesByRange.

End ResponseTermination.
Abbreviation ResponseTermination := ResponseTermination.ResponseTermination.

#[export] Instance ResponseTermination_eq_dec : EqDecision ResponseTermination.
Proof. solve_decision. Defined.

Definition as_protocol (r : ResponseTermination) : Protocol :=
  match r with
  | ResponseTermination.BlocksByRange => Protocol.BlocksByRange
  | ResponseTermination.BlocksByRoot => Protocol.BlocksByRoot
  | ResponseTermination.BlobsByRange => Protocol.BlobsByRange
  | ResponseTermination.BlobsByRoot => Protocol.BlobsByRoot
  | ResponseTermination.DataColumnsByRoot => Protocol.DataColumnsByRoot
  | ResponseTermination.DataColumnsByRange => Protocol.DataColumnsByRange
  | ResponseTermination.LightClientUpdatesByRange => Protocol.LightClientUpdatesByRange
  end.

(** A panic ([todo!], [unreachable!], [expect]) is [None]; [terminator] panics on
    [LightClientUpdatesByRange]. *)
Definition terminator (p : Protocol) : option (option ResponseTermination) :=
  match p with
  | Protocol.Status => Some None
  | Protocol.Goodbye => Some None
  | Protocol.BlocksByRange => Some (Some ResponseTermination.BlocksByRange)
  | Protocol.BlocksByRoot => Some (Some ResponseTermination.BlocksByRoot)
  | Protocol.BlobsByRange => Some (Some ResponseTermination.BlobsByRange)
  | Protocol.BlobsByRoot => Some (Some ResponseTermination.BlobsByRoot)
  | Protocol.DataColumnsByRoot => Some (Some ResponseTermination.DataColumnsByRoot)
  | Protocol.DataColumnsByRange => Some (Some ResponseTermination.DataColumnsByRange)
  | Protocol.Ping => Some None
  | Protocol.MetaData => Some None
  | Protocol.LightClientBootstrap => Some None
  | Protocol.LightClientOptimisticUpdate => Some None
  | Protocol.LightClientFinalityUpdate => Some None
  | Protocol.LightClientUpdatesByRange => None
  end.

(** [Protocol::terminator] is not implemented for [LightClientUpdatesByRange]; the protocol is not
    among those the node offers. *)
Definition offered (p : Protocol) : Prop := p <> Protocol.LightClientUpdatesByRange.

Lemma terminator_offered p : offered p -> exists t, terminator p = Some t.
Proof. unfold offered. destruct p; simpl; eauto. done. Qed.

(** ** Protocol versions and identifiers *)

Inductive Encoding := SSZSnappy.

Definition Encoding_fmt (e : Encoding) : string :=
  match e with SSZSnappy => "ssz_snappy" end.

Inductive SupportedProtocol :=
  | StatusV1 | StatusV2 | GoodbyeV1 | BlocksByRangeV1 | BlocksByRangeV2 | BlocksByRootV1
  | BlocksByRootV2 | BlobsByRangeV1 | BlobsByRootV1 | DataColumnsByRootV1 | DataColumnsByRangeV1
  | PingV1 | MetaDataV1 | MetaDataV2 | MetaDataV3 | LightClientBootstrapV1
  | LightClientOptimisticUpdateV1 | LightClientFinalityUpdateV1 | LightClientUpdatesByRangeV1.

#[export] Instance SupportedProtocol_eq_dec : EqDecision SupportedProtocol.
Proof. solve_decision. Defined.

Definition version_string (s : SupportedProtocol) : string :=
  match s with
  | StatusV1 => "1" | StatusV2 => "2" | GoodbyeV1 => "1"
  | BlocksByRangeV1 => "1" | BlocksByRangeV2 => "2"
  | BlocksByRootV1 => "1" | BlocksByRootV2 => "2"
  | BlobsByRangeV1 => "1" | BlobsByRootV1 => "1"
  | DataColumnsByRootV1 => "1" | DataColumnsByRangeV1 => "1"
  | PingV1 => "1" | MetaDataV1 => "1" | MetaDataV2 => "2" | MetaDataV3 => "3"
  | LightClientBootstrapV1 => "1" | LightClientOptimisticUpdateV1 => "1"
  | LightClientFinalityUpdateV1 => "1" | LightClientUpdatesByRangeV1 => "1"
  end%string.

Definition SupportedProtocol_protocol (s : SupportedProtocol) : Protocol :=
  match s with
  | StatusV1 => Protocol.Status
  | StatusV2 => Protocol.Status
  | GoodbyeV1 => Protocol.Goodbye
  | BlocksByRangeV1 => Protocol.BlocksByRange
  | BlocksByRangeV2 => Protocol.BlocksByRange
  | BlocksByRootV1 => Protocol.BlocksByRoot
  | BlocksByRootV2 => Protocol.BlocksByRoot
  | BlobsByRangeV1 => Protocol.BlobsByRange
  | BlobsByRootV1 => Protocol.BlobsByRoot
  | DataColumnsByRootV1 => Protocol.DataColumnsByRoot
  | DataColumnsByRangeV1 => Protocol.DataColumnsByRange
  | PingV1 => Protocol.Ping
  | MetaDataV1 => Protocol.MetaData
  | MetaDataV2 => Protocol.MetaData
  | MetaDataV3 => Protocol.MetaData
  | LightClientBootstrapV1 => Protocol.LightClientBootstrap
  | LightClientOptimisticUpdateV1 => Protocol.LightClientOptimisticUpdate
  | LightClientFinalityUpdateV1 => Protocol.LightClientFinalityUpdate
  | LightClientUpdatesByRangeV1 => Protocol.LightClientUpdatesByRange
  end.

Record ProtocolId := mkProtocolId {
  versioned_protocol : SupportedProtocol;
  encoding : Encoding;
  protocol_id : string;
}.

Definition PROTOCOL_PREFIX : string := "/eth2/beacon_chain/req".

Definition ProtocolId_new (v : SupportedProtocol) (e : Encoding) : ProtocolId :=
  mkProtocolId v e
    (PROTOCOL_PREFIX +:+ "/" +:+ Protocol_as_ref (SupportedProtocol_protocol v) +:+ "/"
      +:+ version_string v +:+ "/" +:+ Encoding_fmt e)%string.

Definition has_context_bytes (p : ProtocolId) : bool :=
  match versioned_protocol p with
  | BlocksByRangeV2 | BlocksByRootV2 | BlobsByRangeV1 | BlobsByRootV1 | DataColumnsByRootV1
  | DataColumnsByRangeV1 | LightClientBootstrapV1 | LightClientOptimisticUpdateV1
  | LightClientFinalityUpdateV1 | LightClientUpdatesByRangeV1 => true
  | StatusV1 | StatusV2 | BlocksByRootV1 | BlocksByRangeV1 | PingV1 | MetaDataV1 | MetaDataV2
  | MetaDataV3 | GoodbyeV1 => false
  end.

(** ** Goodbye reasons *)

Module GoodbyeReason.

Inductive GoodbyeReason :=
  | ClientShutdown | IrrelevantNetwork | Fault | UnableToVerifyNetwork | TooManyPeers
  | BadScore | Banned | BannedIP | Unknown.

End GoodbyeReason.
Abbreviation GoodbyeReason := GoodbyeReason.GoodbyeReason.

#[export] Instance GoodbyeReason_eq_dec : EqDecision GoodbyeReason.
Proof. solve_decision. Defined.

Definition GoodbyeReason_into_u64 (r : GoodbyeReason) : Z :=
  match r with
  | GoodbyeReason.ClientShutdown => 1
  | GoodbyeReason.IrrelevantNetwork => 2
  | GoodbyeReason.Fault => 3
  | GoodbyeReason.UnableToVerifyNetwork => 128
  | GoodbyeReason.TooManyPeers => 129
  | GoodbyeReason.BadScore => 250
  | GoodbyeReason.Banned => 251
  | GoodbyeReason.BannedIP => 252
  | GoodbyeReason.Unknown => 0
  end.

Definition GoodbyeReason_from_u64 (id : Z) : GoodbyeReason :=
  match id with
  | 1 => GoodbyeReason.ClientShutdown
  | 2 => GoodbyeReason.IrrelevantNetwork
  | 3 => GoodbyeReason.Fault
  | 128 => GoodbyeReason.UnableToVerifyNetwork
  | 129 => GoodbyeReason.TooManyPeers
  | 250 => GoodbyeReason.BadScore
  | 251 => GoodbyeReason.Banned
  | 252 => GoodbyeReason.BannedIP
  | _ => GoodbyeReason.Unknown
  end.

(** ** Response codes *)

Inductive RpcErrorResponse :=
  | RateLimited | BlobsNotFoundForBlock | InvalidRequest | ServerError | ResourceUnavailable
  | UnknownError.

#[export] Instance RpcErrorResponse_eq_dec : EqDecision RpcErrorResponse.
Proof. solve_decision. Defined.

Definition RpcErrorResponse_as_u8 (e : RpcErrorResponse) : Z :=
  match e with
  | InvalidRequest => 1
  | ServerError => 2
  | ResourceUnavailable => 3
  | UnknownError => 255
  | RateLimited => 139
  | BlobsNotFoundForBlock => 140
  end.

(** The code [RpcResponse::from_error] builds the response with. *)
Definition from_error (response_code : Z) : RpcErrorResponse :=
  match response_code with
  | 1 => InvalidRequest
  | 2 => ServerError
  | 3 => ResourceUnavailable
  | 139 => RateLimited
  | 140 => BlobsNotFoundForBlock
  | _ => UnknownError
  end.

(** [RpcResponse::is_response]. *)
Definition is_response (response_code : Z) : bool := response_code =? 0.

(** [ErrorType::from]: the message is cut to [MaxErrorLen] bytes. *)
Definition MaxErrorLen : nat := 256.
Definition ErrorType_from (message : list Z) : list Z := take MaxErrorLen message.
