(* ===== verification/Messages.v ===== *)
(** * RPC messages ([rpc/methods.rs], the request type of [rpc/protocol.rs])

    Requests, responses, status and metadata messages with their version conversions, and the number of
    response chunks a request may ask for. *)

From S2P Require Import Prelude Chain Protocol.

Section messages.
Context `{ChainTypes}.

(** ** Status *)

Record StatusMessageV1 := mkStatusV1 {
  s1_fork_digest : ForkDigest;
  s1_finalized_root : H256;
  s1_finalized_epoch : Epoch;
  s1_head_root : H256;
  s1_head_slot : Slot;
}.

Record StatusMessageV2 := mkStatusV2 {
  s2_fork_digest : ForkDigest;
  s2_finalized_root : H256;
  s2_finalized_epoch : Epoch;
  s2_head_root : H256;
  s2_head_slot : Slot;
  s2_earliest_available_slot : Slot;
}.

Inductive StatusMessage :=
  | StatusMsgV1 (m : StatusMessageV1)
  | StatusMsgV2 (m : StatusMessageV2).

Definition status_v1 (s : StatusMessage) : StatusMessageV1 :=
  match s with
  | StatusMsgV1 status => status
  | StatusMsgV2 status =>
      mkStatusV1 (s2_fork_digest status) (s2_finalized_root status) (s2_finalized_epoch status)
        (s2_head_root status) (s2_head_slot status)
  end.

Definition status_v2 (s : StatusMessage) : StatusMessageV2 :=
  match s with
  | StatusMsgV1 status =>
      mkStatusV2 (s1_fork_digest status) (s1_finalized_root status) (s1_finalized_epoch status)
        (s1_head_root status) (s1_head_slot status) 0
  | StatusMsgV2 status => status
  end.

Definition earliest_available_slot (s : StatusMessage) : option Slot :=
  match s with
  | StatusMsgV1 _ => None
  | StatusMsgV2 status => Some (s2_earliest_available_slot status)
  end.

(** ** Metadata *)

Record MetaDataV1_ := mkMetaDataV1 { md1_seq_number : Z; md1_attnets : BitVector }.
Record MetaDataV2_ := mkMetaDataV2 {
  md2_seq_number : Z; md2_attnets : BitVector; md2_syncnets : BitVector }.
Record MetaDataV3_ := mkMetaDataV3 {
  md3_seq_number : Z; md3_attnets : BitVector; md3_syncnets : BitVector;
  md3_custody_group_count : Z }.

Inductive MetaData :=
  | MDV1 (m : MetaDataV1_)
  | MDV2 (m : MetaDataV2_)
  | MDV3 (m : MetaDataV3_).

Definition seq_number (m : MetaData) : Z :=
  match m with
  | MDV1 m => md1_seq_number m | MDV2 m => md2_seq_number m | MDV3 m => md3_seq_number m
  end.

Definition attnets (m : MetaData) : BitVector :=
  match m with
  | MDV1 m => md1_attnets m | MDV2 m => md2_attnets m | MDV3 m => md3_attnets m
  end.

Definition syncnets (m : MetaData) : option BitVector :=
  match m with
  | MDV1 _ => None
  | MDV2 m => Some (md2_syncnets m)
  | MDV3 m => Some (md3_syncnets m)
  end.

Definition custody_group_count (m : MetaData) : option Z :=
  match m with
  | MDV1 _ | MDV2 _ => None
  | MDV3 m => Some (md3_custody_group_count m)
  end.

Definition metadata_v1 (m : MetaData) : MetaData :=
  match m with
  | MDV1 m => MDV1 m
  | MDV2 m => MDV1 (mkMetaDataV1 (md2_seq_number m) (md2_attnets m))
  | MDV3 m => MDV1 (mkMetaDataV1 (md3_seq_number m) (md3_attnets m))
  end.

Definition metadata_v2 (m : MetaData) : MetaData :=
  match m with
  | MDV1 m => MDV2 (mkMetaDataV2 (md1_seq_number m) (md1_attnets m) default_syncnets)
  | MDV2 m => MDV2 m
  | MDV3 m => MDV2 (mkMetaDataV2 (md3_seq_number m) (md3_attnets m) (md3_syncnets m))
  end.

Definition metadata_v3 (c : ChainConfig) (m : MetaData) : MetaData :=
  match m with
  | MDV1 m => MDV3 (mkMetaDataV3 (md1_seq_number m) (md1_attnets m) default_syncnets
                     (config_custody_requirement c))
  | MDV2 m => MDV3 (mkMetaDataV3 (md2_seq_number m) (md2_attnets m) (md2_syncnets m)
                     (config_custody_requirement c))
  | MDV3 m => MDV3 m
  end.

(** ** Requests *)

Record OldBlocksByRangeRequestV1 := mkOldBBRV1 { bbr1_start_slot : Z; bbr1_count : Z; bbr1_step : Z }.
Record OldBlocksByRangeRequestV2 := mkOldBBRV2 { bbr2_start_slot : Z; bbr2_count : Z; bbr2_step : Z }.

Inductive OldBlocksByRangeRequest :=
  | OldBBR_V1 (r : OldBlocksByRangeRequestV1)
  | OldBBR_V2 (r : OldBlocksByRangeRequestV2).

Definition OldBlocksByRangeRequest_count (r : OldBlocksByRangeRequest) : Z :=
  match r with OldBBR_V1 r => bbr1_count r | OldBBR_V2 r => bbr2_count r end.

Inductive BlocksByRootRequest :=
  | BBRoot_V1 (block_roots : list H256)
  | BBRoot_V2 (block_roots : list H256).

Definition BlocksByRootRequest_len (r : BlocksByRootRequest) : Z :=
  match r with BBRoot_V1 l => Z.of_nat (length l) | BBRoot_V2 l => Z.of_nat (length l) end.

Record BlobsByRangeRequest := mkBlobsByRange { blbr_start_slot : Z; blbr_count : Z }.

Definition max_blobs_requested (r : BlobsByRangeRequest) (c : ChainConfig) (epoch : Epoch) : Z :=
  u64_saturating_mul (blbr_count r) (max_blobs_per_block c epoch).

(** A blob identifier: block root and index. *)
Record BlobsByRootRequest := mkBlobsByRoot { blob_ids : list (H256 * Z) }.

(** A data column identifier: block root and the columns wanted. *)
Record DataColumnsByRootRequest := mkDCByRoot { data_column_ids : list (H256 * list Z) }.

Definition DataColumnsByRootRequest_max_requested (r : DataColumnsByRootRequest) : Z :=
  foldr (fun id n => as_u64 (Z.of_nat (length id.2) + n)) 0 (data_column_ids r).

Record DataColumnsByRangeRequest := mkDCByRange {
  dcbr_start_slot : Z; dcbr_count : Z; dcbr_columns : list Z }.

Definition DataColumnsByRangeRequest_max_requested (r : DataColumnsByRangeRequest) : Z :=
  u64_saturating_mul (dcbr_count r) (Z.of_nat (length (dcbr_columns r))).

Record LightClientUpdatesByRangeRequest := mkLCUpdates { lcu_start_period : Z; lcu_count : Z }.

Inductive MetadataRequest := MetadataRequest_V1 | MetadataRequest_V2 | MetadataRequest_V3.

Inductive RequestType :=
  | ReqStatus (m : StatusMessage)
  | ReqGoodbye (r : GoodbyeReason)
  | ReqBlocksByRange (r : OldBlocksByRangeRequest)
  | ReqBlocksByRoot (r : BlocksByRootRequest)
  | ReqBlobsByRange (r : BlobsByRangeRequest)
  | ReqBlobsByRoot (r : BlobsByRootRequest)
  | ReqDataColumnsByRoot (r : DataColumnsByRootRequest)
  | ReqDataColumnsByRange (r : DataColumnsByRangeRequest)
  | ReqLightClientBootstrap (root : H256)
  | ReqLightClientOptimisticUpdate
  | ReqLightClientFinalityUpdate
  | ReqLightClientUpdatesByRange (r : LightClientUpdatesByRangeRequest)
  | ReqPing (data : Z)
  | ReqMetaData (r : MetadataRequest).

Definition max_responses (r : RequestType) (c : ChainConfig) (_epoch : Epoch) : Z :=
  match r with
  | ReqStatus _ => 1
  | ReqGoodbye _ => 0
  | ReqBlocksByRange req => OldBlocksByRangeRequest_count req
  | ReqBlocksByRoot req => as_u64 (BlocksByRootRequest_len req)
  | ReqBlobsByRange req =>
      let epoch := compute_epoch_at_slot (blbr_start_slot req) in
      max_blobs_requested req c epoch
  | ReqBlobsByRoot req => as_u64 (Z.of_nat (length (blob_ids req)))
  | ReqDataColumnsByRoot req => as_u64 (DataColumnsByRootRequest_max_requested req)
  | ReqDataColumnsByRange req => DataColumnsByRangeRequest_max_requested req
  | ReqPing _ => 1
  | ReqMetaData _ => 1
  | ReqLightClientBootstrap _ => 1
  | ReqLightClientOptimisticUpdate => 1
  | ReqLightClientFinalityUpdate => 1
  | ReqLightClientUpdatesByRange req => lcu_count req
  end.

Definition request_versioned_protocol (r : RequestType) : SupportedProtocol :=
  match r with
  | ReqStatus (StatusMsgV1 _) => StatusV1
  | ReqStatus (StatusMsgV2 _) => StatusV2
  | ReqGoodbye _ => GoodbyeV1
  | ReqBlocksByRange (OldBBR_V1 _) => BlocksByRangeV1
  | ReqBlocksByRange (OldBBR_V2 _) => BlocksByRangeV2
  | ReqBlocksByRoot (BBRoot_V1 _) => BlocksByRootV1
  | ReqBlocksByRoot (BBRoot_V2 _) => BlocksByRootV2
  | ReqBlobsByRange _ => BlobsByRangeV1
  | ReqBlobsByRoot _ => BlobsByRootV1
  | ReqDataColumnsByRoot _ => DataColumnsByRootV1
  | ReqDataColumnsByRange _ => DataColumnsByRangeV1
  | ReqPing _ => PingV1
  | ReqMetaData MetadataRequest_V1 => MetaDataV1
  | ReqMetaData MetadataRequest_V2 => MetaDataV2
  | ReqMetaData MetadataRequest_V3 => MetaDataV3
  | ReqLightClientBootstrap _ => LightClientBootstrapV1
  | ReqLightClientOptimisticUpdate => LightClientOptimisticUpdateV1
  | ReqLightClientFinalityUpdate => LightClientFinalityUpdateV1
  | ReqLightClientUpdatesByRange _ => LightClientUpdatesByRangeV1
  end.

(** [RateLimiterItem::protocol] of a request. *)
Definition request_protocol (r : RequestType) : Protocol :=
  SupportedProtocol_protocol (request_versioned_protocol r).

Definition stream_termination (r : RequestType) : option ResponseTermination :=
  match r with
  | ReqBlocksByRange _ => Some ResponseTermination.BlocksByRange
  | ReqBlocksByRoot _ => Some ResponseTermination.BlocksByRoot
  | ReqBlobsByRange _ => Some ResponseTermination.BlobsByRange
  | ReqBlobsByRoot _ => Some ResponseTermination.BlobsByRoot
  | ReqDataColumnsByRoot _ => Some ResponseTermination.DataColumnsByRoot
  | ReqDataColumnsByRange _ => Some ResponseTermination.DataColumnsByRange
  | ReqStatus _ | ReqGoodbye _ | ReqPing _ | ReqMetaData _ | ReqLightClientBootstrap _
  | ReqLightClientFinalityUpdate | ReqLightClientOptimisticUpdate
  | ReqLightClientUpdatesByRange _ => None
  end.

Definition request_supported_protocols (r : RequestType) : list ProtocolId :=
  let ids := map (fun v => ProtocolId_new v SSZSnappy) in
  match r with
  | ReqStatus _ => ids [StatusV2; StatusV1]
  | ReqGoodbye _ => ids [GoodbyeV1]
  | ReqBlocksByRange _ => ids [BlocksByRangeV2; BlocksByRangeV1]
  | ReqBlocksByRoot _ => ids [BlocksByRootV2; BlocksByRootV1]
  | ReqBlobsByRange _ => ids [BlobsByRangeV1]
  | ReqBlobsByRoot _ => ids [BlobsByRootV1]
  | ReqDataColumnsByRoot _ => ids [DataColumnsByRootV1]
  | ReqDataColumnsByRange _ => ids [DataColumnsByRangeV1]
  | ReqPing _ => ids [PingV1]
  | ReqMetaData _ => ids [MetaDataV3; MetaDataV2; MetaDataV1]
  | ReqLightClientBootstrap _ => ids [LightClientBootstrapV1]
  | ReqLightClientOptimisticUpdate => ids [LightClientOptimisticUpdateV1]
  | ReqLightClientFinalityUpdate => ids [LightClientFinalityUpdateV1]
  | ReqLightClientUpdatesByRange _ => ids [LightClientUpdatesByRangeV1]
  end.

Definition expect_exactly_one_response (r : RequestType) : bool :=
  match r with
  | ReqStatus _ => true
  | ReqGoodbye _ => false
  | ReqBlocksByRange _ => false
  | ReqBlocksByRoot _ => false
  | ReqBlobsByRange _ => false
  | ReqBlobsByRoot _ => false
  | ReqDataColumnsByRoot _ => false
  | ReqDataColumnsByRange _ => false
  | ReqPing _ => true
  | ReqMetaData _ => true
  | ReqLightClientBootstrap _ => true
  | ReqLightClientOptimisticUpdate => true
  | ReqLightClientFinalityUpdate => true
  | ReqLightClientUpdatesByRange _ => true
  end.

(** ** Responses *)

Inductive RpcSuccessResponse :=
  | RespStatus (m : StatusMessage)
  | RespBlocksByRange (b : SignedBeaconBlock)
  | RespBlocksByRoot (b : SignedBeaconBlock)
  | RespBlobsByRange (b : BlobSidecar)
  | RespLightClientBootstrap (b : LightClientBootstrap)
  | RespLightClientOptimisticUpdate (u : LightClientOptimisticUpdate)
  | RespLightClientFinalityUpdate (u : LightClientFinalityUpdate)
  | RespLightClientUpdatesByRange (u : LightClientUpdate)
  | RespBlobsByRoot (b : BlobSidecar)
  | RespDataColumnsByRoot (d : DataColumnSidecar)
  | RespDataColumnsByRange (d : DataColumnSidecar)
  | RespPong (data : Z)
  | RespMetaData (m : MetaData).

Inductive RpcResponse :=
  | RpcSuccess (r : RpcSuccessResponse)
  | RpcError (code : RpcErrorResponse) (message : list Z)
  | RpcStreamTermination (t : ResponseTermination).

Definition success_protocol (r : RpcSuccessResponse) : Protocol :=
  match r with
  | RespStatus _ => Protocol.Status
  | RespBlocksByRange _ => Protocol.BlocksByRange
  | RespBlocksByRoot _ => Protocol.BlocksByRoot
  | RespBlobsByRange _ => Protocol.BlobsByRange
  | RespBlobsByRoot _ => Protocol.BlobsByRoot
  | RespDataColumnsByRoot _ => Protocol.DataColumnsByRoot
  | RespDataColumnsByRange _ => Protocol.DataColumnsByRange
  | RespPong _ => Protocol.Ping
  | RespMetaData _ => Protocol.MetaData
  | RespLightClientBootstrap _ => Protocol.LightClientBootstrap
  | RespLightClientOptimisticUpdate _ => Protocol.LightClientOptimisticUpdate
  | RespLightClientFinalityUpdate _ => Protocol.LightClientFinalityUpdate
  | RespLightClientUpdatesByRange _ => Protocol.LightClientUpdatesByRange
  end.

(** [RpcResponse::as_u8], the response code on the wire. *)
Definition RpcResponse_as_u8 (r : RpcResponse) : option Z :=
  match r with
  | RpcSuccess _ => Some 0
  | RpcError code _ => Some (RpcErrorResponse_as_u8 code)
  | RpcStreamTermination _ => None
  end.

Definition close_after (r : RpcResponse) : bool :=
  match r with RpcSuccess _ => false | _ => true end.

End messages.
