(* ===== verification/Text.v ===== *)
(** * Text: the string functions of the standard library the source uses

    Splitting at a character, and printing and parsing unsigned decimal numbers.  Strings are lists of
    characters here; [String.list_ascii_of_string] and its inverse connect them to literals. *)

From Stdlib Require Import Ascii String.
From S2P Require Import Prelude.

Abbreviation chars := (list ascii) (only parsing).

(** The characters of a string literal. *)
Definition lit (s : string) : chars := String.list_ascii_of_string s.

(** [str::split_once]: cut at the first occurrence of [c]. *)
Fixpoint split_once (c : ascii) (s : chars) : option (chars * chars) :=
  match s with
  | [] => None
  | x :: r =>
      if decide (x = c) then Some ([], r)
      else match split_once c r with
           | Some (a, b) => Some (x :: a, b)
           | None => None
           end
  end.

(** [str::split]: always yields at least one piece. *)
Fixpoint split (c : ascii) (s : chars) : list chars :=
  match s with
  | [] => [[]]
  | x :: r =>
      if decide (x = c) then [] :: split c r
      else match split c r with
           | p :: ps => (x :: p) :: ps
           | [] => [[x]]
           end
  end.

(** The pieces joined by [c]. *)
Fixpoint join (c : ascii) (ps : list chars) : chars :=
  match ps with
  | [] => []
  | [p] => p
  | p :: ps => p ++ c :: join c ps
  end.

Definition digit_val (a : ascii) : option Z :=
  let n := Z.of_N (N_of_ascii a) in
  if (48 <=? n) && (n <=? 57) then Some (n - 48) else None.

Definition digit_char (d : Z) : ascii := ascii_of_N (Z.to_N (48 + d)).

(** [u64::from_str]: an optional [+], then decimal digits; [None] is a parse error. *)
Fixpoint parse_digits (acc : Z) (s : chars) : option Z :=
  match s with
  | [] => Some acc
  | c :: r =>
      match digit_val c with
      | Some d => if acc * 10 + d <=? U64_MAX then parse_digits (acc * 10 + d) r else None
      | None => None
      end
  end.

Definition parse_u64 (s : chars) : option Z :=
  match s with
  | [] => None
  | "+"%char :: (_ :: _) as r => parse_digits 0 r
  | _ => parse_digits 0 s
  end.

(** [NonZeroU64::from_str]. *)
Definition parse_nonzero_u64 (s : chars) : option Z :=
  match parse_u64 s with
  | Some n => if n =? 0 then None else Some n
  | None => None
  end.

(** [u64::fmt]: at most twenty digits. *)
Fixpoint print_digits (fuel : nat) (n : Z) (acc : chars) : chars :=
  match fuel with
  | O => acc
  | S f =>
      let acc := digit_char (n mod 10) :: acc in
      if n / 10 =? 0 then acc else print_digits f (n / 10) acc
  end.

Definition print_u64 (n : Z) : chars := print_digits 20 n [].

(** ** Lemmas *)

Definition is_digit (a : ascii) : Prop := exists d, 0 <= d <= 9 /\ a = digit_char d.

Lemma digit_val_char d : 0 <= d <= 9 -> digit_val (digit_char d) = Some d.
Proof.
  intros. assert (d = 0 \/ d = 1 \/ d = 2 \/ d = 3 \/ d = 4 \/ d = 5 \/ d = 6 \/ d = 7 \/ d = 8 \/ d = 9)
    as Hd by lia.
  destruct Hd as [->|[->|[->|[->|[->|[->|[->|[->|[->| ->]]]]]]]]]; reflexivity.
Qed.

Lemma print_digits_correct fuel : forall n acc,
  0 <= n <= U64_MAX -> n < 10 ^ Z.of_nat fuel -> (0 < fuel)%nat ->
  parse_digits 0 (print_digits fuel n acc) = parse_digits n acc.
Proof.
  induction fuel as [|fuel IH]; intros n acc Hn Hlt Hf; [lia|]. simpl.
  pose proof (Z.mod_pos_bound n 10 ltac:(lia)) as Hm.
  assert (n = n / 10 * 10 + n mod 10) as Hdm by (pose proof (Z.div_mod n 10); lia).
  destruct (n / 10 =? 0) eqn:E; bool_to_Prop.
  - simpl. rewrite digit_val_char by lia.
    assert (n mod 10 = n) as -> by lia. case_match; bool_to_Prop; [done|lia].
  - assert (0 < n / 10) by (pose proof (Z.div_pos n 10); lia).
    rewrite IH; [|unfold U64_MAX in *; lia| |].
    + simpl. rewrite digit_val_char, <- Hdm by lia.
      case_match; bool_to_Prop; [done|lia].
    + rewrite Nat2Z.inj_succ, Z.pow_succ_r in Hlt by lia. lia.
    + destruct fuel; [|lia]. rewrite Nat2Z.inj_succ, Z.pow_succ_r in Hlt by lia. simpl in Hlt. lia.
Qed.

Lemma print_digits_digits fuel : forall n acc,
  0 <= n -> Forall is_digit acc -> (0 < fuel)%nat ->
  Forall is_digit (print_digits fuel n acc) /\ print_digits fuel n acc <> [].
Proof.
  induction fuel as [|fuel IH]; intros n acc Hn Hacc Hf; [lia|]. simpl.
  assert (Forall is_digit (digit_char (n mod 10) :: acc)) as Hacc'.
  { constructor; [|done]. exists (n mod 10). pose proof (Z.mod_pos_bound n 10). split; [lia|done]. }
  destruct (n / 10 =? 0); [done|]. destruct fuel; [done|].
  apply IH; [apply Z.div_pos; lia|done|lia].
Qed.

Lemma print_u64_digits n : 0 <= n -> Forall is_digit (print_u64 n) /\ print_u64 n <> [].
Proof. intros. apply print_digits_digits; [done|done|lia]. Qed.

Lemma is_digit_ne a c : is_digit a -> digit_val c = None -> a <> c.
Proof. intros (d & Hd & ->) Hc <-. by rewrite digit_val_char in Hc. Qed.

Lemma parse_print_u64 n : in_u64 n -> parse_u64 (print_u64 n) = Some n.
Proof.
  intros Hn. destruct (print_u64_digits n) as [Hd Hne]; [by destruct Hn|].
  assert (parse_u64 (print_u64 n) = parse_digits 0 (print_u64 n)) as ->.
  { destruct (print_u64 n) as [|c r]; [done|]. apply Forall_cons in Hd as [Hc _].
    apply (is_digit_ne _ "+"%char) in Hc; [|done]. unfold parse_u64.
    repeat case_match; done. }
  unfold print_u64. rewrite print_digits_correct; [done|done| |lia].
  destruct Hn. unfold U64_MAX in *. lia.
Qed.

Lemma parse_print_nonzero_u64 n : in_u64 n -> n <> 0 -> parse_nonzero_u64 (print_u64 n) = Some n.
Proof.
  intros Hn H0. unfold parse_nonzero_u64. rewrite parse_print_u64 by done.
  by apply Z.eqb_neq in H0 as ->.
Qed.

Lemma split_once_app c a b : c ∉ a -> split_once c (a ++ c :: b) = Some (a, b).
Proof.
  induction a as [|x a IH]; simpl; intros Hc.
  - by rewrite decide_True.
  - rewrite decide_False by set_solver. rewrite IH by set_solver. done.
Qed.

Lemma split_cons_exists c s : exists p ps, split c s = p :: ps.
Proof. destruct s; simpl; repeat case_match; eauto. Qed.

Lemma split_app c p s : c ∉ p -> split c (p ++ c :: s) = p :: split c s.
Proof.
  induction p as [|x p IH]; simpl; intros Hc.
  - by rewrite decide_True.
  - rewrite decide_False by set_solver. by rewrite IH by set_solver.
Qed.

Lemma split_no_sep c p : c ∉ p -> split c p = [p].
Proof.
  induction p as [|x p IH]; simpl; intros Hc; [done|].
  rewrite decide_False by set_solver. by rewrite IH by set_solver.
Qed.

Lemma split_join c ps : ps <> [] -> Forall (fun p => c ∉ p) ps -> split c (join c ps) = ps.
Proof.
  induction ps as [|p ps IH]; intros Hne Hc; [done|]. apply Forall_cons in Hc as [Hp Hps].
  destruct ps as [|p' ps]; [by apply split_no_sep|].
  change (join c (p :: p' :: ps)) with (p ++ c :: join c (p' :: ps)).
  rewrite split_app by done. by rewrite IH.
Qed.
