(* ===== verification/RateLimiter.v ===== *)
(** * The GCRA rate limiter ([rpc/rate_limiter.rs])

    [Limiter] is the per-key limiter; [RPCRateLimiter] holds one limiter per protocol.  The theorems
    relate a limiter to a token bucket, bound what a key is granted in every time window, show that
    the waiting time of a refused request is exact, and that pruning is unobservable. *)

From S2P Require Import Prelude Chain Protocol Messages.

(** ** Quotas *)

Record Quota := mkQuota {
  replenish_all_every : Duration;
  max_tokens : Z;
}.

Definition one_every (seconds : Z) : Quota := mkQuota (Duration_from_secs seconds) 1.
Definition n_every (n seconds : Z) : Quota := mkQuota (Duration_from_secs seconds) n.

(** What the types of the fields guarantee: [NonZeroU64] and [Duration]. *)
Definition quota_wf (q : Quota) : Prop :=
  1 <= max_tokens q <= U64_MAX /\ 0 <= replenish_all_every q.

Inductive RateLimitedErr :=
  | TooLarge
  | TooSoon (wait : Duration).

(** ** The per-key limiter *)

Section limiter.
Context {Key : Type} `{Countable Key}.

Record Limiter := mkLimiter {
  tau : Z;
  t : Z;
  tat_per_key : gmap Key Z;
}.

Definition from_quota (quota : Quota) : result Limiter string :=
  let tau := replenish_all_every quota in
  if tau =? 0 then Err "Replenish time must be positive"%string
  else
    let? t := ok_or (try_into_u64 (tau / max_tokens quota)) "total replenish time is too long"%string in
    let? tau := ok_or (try_into_u64 tau) "total replenish time is too long"%string in
    Ok (mkLimiter tau t ∅).

Definition Limiter_allows (l : Limiter) (time_since_start : Duration) (key : Key) (tokens : Z)
  : result unit RateLimitedErr * Limiter :=
  let time_since_start := as_u64 time_since_start in
  let tau := tau l in
  let t := t l in
  let additional_time := u64_saturating_mul t tokens in
  if tau <? additional_time then (Err TooLarge, l)
  else
    let '(map, tat) := entry_or_insert key time_since_start (tat_per_key l) in
    let earliest_time := saturating_sub (u64_saturating_add tat additional_time) tau in
    if time_since_start <? earliest_time then
      (Err (TooSoon (saturating_sub earliest_time time_since_start)), mkLimiter tau t map)
    else
      (Ok tt, mkLimiter tau t
        (<[key := u64_saturating_add (Z.max time_since_start tat) additional_time]> map)).

Definition Limiter_prune (l : Limiter) (time_limit : Duration) : Limiter :=
  let lim := as_u64 time_limit in
  mkLimiter (tau l) (t l) (filter (fun kv => lim <= kv.2) (tat_per_key l)).

End limiter.
Arguments Limiter Key {_ _}.

(** ** The limiter of all protocols *)

Section rpc_rate_limiter.
Context `{ChainTypes} `{Libp2p}.

(** What the limiter asks of the item it limits. *)
Class RateLimiterItem (Item : Type) := {
  item_protocol : Item -> Protocol;
  item_max_responses : Item -> ChainConfig -> Epoch -> Z;
}.

#[global] Instance request_item : RateLimiterItem RequestType := {
  item_protocol := request_protocol;
  item_max_responses := max_responses;
}.

(** A response chunk costs one token. *)
#[global] Instance response_item : RateLimiterItem (RpcResponse * Protocol) := {
  item_protocol := snd;
  item_max_responses := fun _ _ _ => 1;
}.

(** The fork context as the limiter reads it: the configuration and the current fork epoch. *)
Record RPCRateLimiter := mkRPCRateLimiter {
  init_time : Instant;
  goodbye_rl : Limiter PeerId;
  ping_rl : Limiter PeerId;
  metadata_rl : Limiter PeerId;
  status_rl : Limiter PeerId;
  bbrange_rl : Limiter PeerId;
  bbroots_rl : Limiter PeerId;
  blbrange_rl : Limiter PeerId;
  blbroot_rl : Limiter PeerId;
  dcbroot_rl : Limiter PeerId;
  dcbrange_rl : Limiter PeerId;
  lc_bootstrap_rl : Limiter PeerId;
  lc_optimistic_update_rl : Limiter PeerId;
  lc_finality_update_rl : Limiter PeerId;
  lc_updates_by_range_rl : Limiter PeerId;
  rl_chain_config : ChainConfig;
  rl_current_fork_epoch : Epoch;
}.

Record RPCRateLimiterBuilder := mkBuilder {
  goodbye_quota : option Quota;
  ping_quota : option Quota;
  metadata_quota : option Quota;
  status_quota : option Quota;
  bbrange_quota : option Quota;
  bbroots_quota : option Quota;
  blbrange_quota : option Quota;
  blbroot_quota : option Quota;
  dcbroot_quota : option Quota;
  dcbrange_quota : option Quota;
  lcbootstrap_quota : option Quota;
  lc_optimistic_update_quota : option Quota;
  lc_finality_update_quota : option Quota;
  lc_updates_by_range_quota : option Quota;
}.

Definition builder : RPCRateLimiterBuilder :=
  mkBuilder None None None None None None None None None None None None None None.

Definition set_quota (b : RPCRateLimiterBuilder) (p : Protocol) (quota : Quota)
  : RPCRateLimiterBuilder :=
  let '(mkBuilder gb pi me st br bt lr lt dt dr cb co cf cu) := b in
  let q := Some quota in
  match p with
  | Protocol.Ping => mkBuilder gb q me st br bt lr lt dt dr cb co cf cu
  | Protocol.Status => mkBuilder gb pi me q br bt lr lt dt dr cb co cf cu
  | Protocol.MetaData => mkBuilder gb pi q st br bt lr lt dt dr cb co cf cu
  | Protocol.Goodbye => mkBuilder q pi me st br bt lr lt dt dr cb co cf cu
  | Protocol.BlocksByRange => mkBuilder gb pi me st q bt lr lt dt dr cb co cf cu
  | Protocol.BlocksByRoot => mkBuilder gb pi me st br q lr lt dt dr cb co cf cu
  | Protocol.BlobsByRange => mkBuilder gb pi me st br bt q lt dt dr cb co cf cu
  | Protocol.BlobsByRoot => mkBuilder gb pi me st br bt lr q dt dr cb co cf cu
  | Protocol.DataColumnsByRoot => mkBuilder gb pi me st br bt lr lt q dr cb co cf cu
  | Protocol.DataColumnsByRange => mkBuilder gb pi me st br bt lr lt dt q cb co cf cu
  | Protocol.LightClientBootstrap => mkBuilder gb pi me st br bt lr lt dt dr q co cf cu
  | Protocol.LightClientOptimisticUpdate => mkBuilder gb pi me st br bt lr lt dt dr cb q cf cu
  | Protocol.LightClientFinalityUpdate => mkBuilder gb pi me st br bt lr lt dt dr cb co q cu
  | Protocol.LightClientUpdatesByRange => mkBuilder gb pi me st br bt lr lt dt dr cb co cf q
  end.

(** The prune interval is driven by the runtime and not part of the state. *)
Definition build (b : RPCRateLimiterBuilder) (c : ChainConfig) (current_fork_epoch : Epoch)
  (now : Instant) : result RPCRateLimiter string :=
  let? ping_quota := ok_or (ping_quota b) "Ping quota not specified"%string in
  let? metadata_quota := ok_or (metadata_quota b) "MetaData quota not specified"%string in
  let? status_quota := ok_or (status_quota b) "Status quota not specified"%string in
  let? goodbye_quota := ok_or (goodbye_quota b) "Goodbye quota not specified"%string in
  let? bbroots_quota := ok_or (bbroots_quota b) "BlocksByRoot quota not specified"%string in
  let? bbrange_quota := ok_or (bbrange_quota b) "BlocksByRange quota not specified"%string in
  let? lc_bootstrap_quota :=
    ok_or (lcbootstrap_quota b) "LightClientBootstrap quota not specified"%string in
  let? lc_optimistic_update_quota :=
    ok_or (lc_optimistic_update_quota b) "LightClientOptimisticUpdate quota not specified"%string in
  let? lc_finality_update_quota :=
    ok_or (lc_finality_update_quota b) "LightClientFinalityUpdate quota not specified"%string in
  let? lc_updates_by_range_quota :=
    ok_or (lc_updates_by_range_quota b) "LightClientUpdatesByRange quota not specified"%string in
  let? blbrange_quota := ok_or (blbrange_quota b) "BlobsByRange quota not specified"%string in
  let? blbroots_quota := ok_or (blbroot_quota b) "BlobsByRoot quota not specified"%string in
  let? dcbroot_quota := ok_or (dcbroot_quota b) "DataColumnsByRoot quota not specified"%string in
  let? dcbrange_quota := ok_or (dcbrange_quota b) "DataColumnsByRange quota not specified"%string in
  let? ping_rl := from_quota ping_quota in
  let? metadata_rl := from_quota metadata_quota in
  let? status_rl := from_quota status_quota in
  let? goodbye_rl := from_quota goodbye_quota in
  let? bbroots_rl := from_quota bbroots_quota in
  let? bbrange_rl := from_quota bbrange_quota in
  let? blbrange_rl := from_quota blbrange_quota in
  let? blbroot_rl := from_quota blbroots_quota in
  let? dcbroot_rl := from_quota dcbroot_quota in
  let? dcbrange_rl := from_quota dcbrange_quota in
  let? lc_bootstrap_rl := from_quota lc_bootstrap_quota in
  let? lc_optimistic_update_rl := from_quota lc_optimistic_update_quota in
  let? lc_finality_update_rl := from_quota lc_finality_update_quota in
  let? lc_updates_by_range_rl := from_quota lc_updates_by_range_quota in
  Ok (mkRPCRateLimiter now goodbye_rl ping_rl metadata_rl status_rl bbrange_rl bbroots_rl blbrange_rl
        blbroot_rl dcbroot_rl dcbrange_rl lc_bootstrap_rl lc_optimistic_update_rl
        lc_finality_update_rl lc_updates_by_range_rl c current_fork_epoch).

(** The limiter a protocol selects, and its update. *)
Definition limiter_of (rl : RPCRateLimiter) (p : Protocol) : Limiter PeerId :=
  match p with
  | Protocol.Ping => ping_rl rl
  | Protocol.Status => status_rl rl
  | Protocol.MetaData => metadata_rl rl
  | Protocol.Goodbye => goodbye_rl rl
  | Protocol.BlocksByRange => bbrange_rl rl
  | Protocol.BlocksByRoot => bbroots_rl rl
  | Protocol.BlobsByRange => blbrange_rl rl
  | Protocol.BlobsByRoot => blbroot_rl rl
  | Protocol.DataColumnsByRoot => dcbroot_rl rl
  | Protocol.DataColumnsByRange => dcbrange_rl rl
  | Protocol.LightClientBootstrap => lc_bootstrap_rl rl
  | Protocol.LightClientOptimisticUpdate => lc_optimistic_update_rl rl
  | Protocol.LightClientFinalityUpdate => lc_finality_update_rl rl
  | Protocol.LightClientUpdatesByRange => lc_updates_by_range_rl rl
  end.

Definition set_limiter (rl : RPCRateLimiter) (p : Protocol) (l : Limiter PeerId) : RPCRateLimiter :=
  let '(mkRPCRateLimiter i gb pi me st br bt lr lt dt dr cb co cf cu c e) := rl in
  match p with
  | Protocol.Ping => mkRPCRateLimiter i gb l me st br bt lr lt dt dr cb co cf cu c e
  | Protocol.Status => mkRPCRateLimiter i gb pi me l br bt lr lt dt dr cb co cf cu c e
  | Protocol.MetaData => mkRPCRateLimiter i gb pi l st br bt lr lt dt dr cb co cf cu c e
  | Protocol.Goodbye => mkRPCRateLimiter i l pi me st br bt lr lt dt dr cb co cf cu c e
  | Protocol.BlocksByRange => mkRPCRateLimiter i gb pi me st l bt lr lt dt dr cb co cf cu c e
  | Protocol.BlocksByRoot => mkRPCRateLimiter i gb pi me st br l lr lt dt dr cb co cf cu c e
  | Protocol.BlobsByRange => mkRPCRateLimiter i gb pi me st br bt l lt dt dr cb co cf cu c e
  | Protocol.BlobsByRoot => mkRPCRateLimiter i gb pi me st br bt lr l dt dr cb co cf cu c e
  | Protocol.DataColumnsByRoot => mkRPCRateLimiter i gb pi me st br bt lr lt l dr cb co cf cu c e
  | Protocol.DataColumnsByRange => mkRPCRateLimiter i gb pi me st br bt lr lt dt l cb co cf cu c e
  | Protocol.LightClientBootstrap => mkRPCRateLimiter i gb pi me st br bt lr lt dt dr l co cf cu c e
  | Protocol.LightClientOptimisticUpdate =>
      mkRPCRateLimiter i gb pi me st br bt lr lt dt dr cb l cf cu c e
  | Protocol.LightClientFinalityUpdate =>
      mkRPCRateLimiter i gb pi me st br bt lr lt dt dr cb co l cu c e
  | Protocol.LightClientUpdatesByRange =>
      mkRPCRateLimiter i gb pi me st br bt lr lt dt dr cb co cf l c e
  end.

(** [Instant::elapsed] saturates at zero. *)
Definition elapsed (now since : Instant) : Duration := saturating_sub now since.

Definition rpc_allows `{RateLimiterItem Item} (rl : RPCRateLimiter) (now : Instant)
  (peer_id : PeerId) (request : Item) : result unit RateLimitedErr * RPCRateLimiter :=
  let time_since_start := elapsed now (init_time rl) in
  let tokens :=
    Z.max (item_max_responses request (rl_chain_config rl) (rl_current_fork_epoch rl)) 1 in
  let p := item_protocol request in
  let '(res, l) := Limiter_allows (limiter_of rl p) time_since_start peer_id tokens in
  (res, set_limiter rl p l).

Definition rpc_prune (rl : RPCRateLimiter) (now : Instant) : RPCRateLimiter :=
  let time_since_start := elapsed now (init_time rl) in
  let '(mkRPCRateLimiter i gb pi me st br bt lr lt dt dr cb co cf cu c e) := rl in
  let pr l := Limiter_prune l time_since_start in
  mkRPCRateLimiter i (pr gb) (pr pi) (pr me) (pr st) (pr br) (pr bt) (pr lr) (pr lt) (pr dt) (pr dr)
    (pr cb) (pr co) (pr cf) (pr cu) c e.

(** [Future::poll]: one prune per tick the interval is ready to deliver. *)
Fixpoint rpc_poll (ticks : list Instant) (rl : RPCRateLimiter) : RPCRateLimiter :=
  match ticks with
  | [] => rl
  | now :: ticks => rpc_poll ticks (rpc_prune rl now)
  end.

End rpc_rate_limiter.

(** ** Specification: a token bucket

    The bucket of a key holds up to [tau] nanoseconds of credit, gains one per nanosecond, and a
    request of [n] tokens costs [n * t]. *)

Record Bucket := mkBucket { level : Z; at_time : Z }.

Definition bucket_refill (capacity now : Z) (b : Bucket) : Bucket :=
  mkBucket (Z.min capacity (level b + (now - at_time b))) now.

Definition bucket_take (capacity now cost : Z) (b : Bucket) : bool * Bucket :=
  let b' := bucket_refill capacity now b in
  if cost <=? level b' then (true, mkBucket (level b' - cost) now) else (false, b').

Section limiter_spec.
Context {Key : Type} `{Countable Key}.
Implicit Types (l : Limiter Key) (k : Key).

(** The arrival time of a key as a request at time [now] sees it. *)
Definition eff (now : Z) l k : Z :=
  match tat_per_key l !! k with Some v => Z.max v now | None => now end.

(** The credit of a key at time [now], as a bucket. *)
Definition bucket_of (now : Z) l k : Bucket := mkBucket (tau l - (eff now l k - now)) now.

(** The state invariant: the periods are in range, and at time [now] no arrival time is further
    than one bucket in the future. *)
Record limiter_inv (now : Z) l : Prop := {
  inv_tau : 0 < tau l <= U64_MAX;
  inv_t : 0 <= t l <= tau l;
  inv_tat : forall k v, tat_per_key l !! k = Some v -> 0 <= v <= now + tau l;
}.

(** The clock has not run so far that an arrival time could overflow 64 bits. *)
Definition in_horizon l (now : Z) : Prop := 0 <= now /\ now + 2 * tau l <= U64_MAX.

(** Two limiters no request at or after time [T] can tell apart. *)
Definition lim_equiv (T : Z) l1 l2 : Prop :=
  tau l1 = tau l2 /\ t l1 = t l2 /\ forall k, eff T l1 k = eff T l2 k.

(** A run of a limiter: requests and prunes at given times. *)
Inductive LimiterEvent :=
  | EvAllows (k : Key) (tokens : Z)
  | EvPrune.

Definition limiter_step l (ev : Z * LimiterEvent) : option (result unit RateLimitedErr) * Limiter Key :=
  match ev.2 with
  | EvAllows k tokens => let '(r, l') := Limiter_allows l ev.1 k tokens in (Some r, l')
  | EvPrune => (None, Limiter_prune l ev.1)
  end.

Fixpoint limiter_responses l (evs : list (Z * LimiterEvent))
  : list (option (result unit RateLimitedErr)) :=
  match evs with
  | [] => []
  | ev :: evs => let '(r, l') := limiter_step l ev in r :: limiter_responses l' evs
  end.

(** The cost granted to key [k] over a run, in nanoseconds of credit. *)
Fixpoint granted k l (evs : list (Z * LimiterEvent)) : Z :=
  match evs with
  | [] => 0
  | ev :: evs =>
      let '(r, l') := limiter_step l ev in
      match ev.2, r with
      | EvAllows k' tokens, Some (Ok _) => if decide (k' = k) then t l * tokens else 0
      | _, _ => 0
      end + granted k l' evs
  end.

(** Times never decrease and stay between [a] and [b]. *)
Fixpoint times_within (a b : Z) (evs : list (Z * LimiterEvent)) : Prop :=
  match evs with
  | [] => a <= b
  | ev :: evs => a <= ev.1 /\ ev.1 <= b /\ times_within ev.1 b evs
  end.

(** Requests never ask for a negative number of tokens. *)
Definition tokens_nonneg (ev : Z * LimiterEvent) : Prop :=
  match ev.2 with EvAllows _ tokens => 0 <= tokens | EvPrune => True end.

End limiter_spec.

(** ** Lemmas on one limiter *)

Section limiter_lemmas.
Context {Key : Type} `{Countable Key}.
Implicit Types (l : Limiter Key) (k : Key).

#[global] Instance lim_equiv_equivalence T : Equivalence (@lim_equiv Key _ _ T).
Proof.
  split; unfold lim_equiv.
  - done.
  - intros l1 l2 (? & ? & ?); auto.
  - intros l1 l2 l3 (-> & -> & E1) (-> & -> & E2). split_and!; [done..|].
    intros k. by rewrite E1, E2.
Qed.

Lemma eff_later T now l k : T <= now -> eff now l k = Z.max (eff T l k) now.
Proof. unfold eff. intros. case_match; lia. Qed.

Lemma lim_equiv_later T now l1 l2 : T <= now -> lim_equiv T l1 l2 -> lim_equiv now l1 l2.
Proof.
  intros HT (? & ? & E). split_and!; [done..|]. intros k.
  by rewrite !(eff_later T now), E.
Qed.

(** [allows] on the effective arrival time: every branch of the code in one equation. *)
Lemma Limiter_allows_eff l now k n :
  in_u64 now ->
  Limiter_allows l now k n =
  let add := u64_saturating_mul (t l) n in
  let e := eff now l k in
  if tau l <? add then (Err TooLarge, l)
  else if now <? saturating_sub (u64_saturating_add e add) (tau l)
  then (Err (TooSoon (saturating_sub (u64_saturating_add e add) (tau l) - now)), l)
  else (Ok tt, mkLimiter (tau l) (t l) (<[k := u64_saturating_add e add]> (tat_per_key l))).
Proof.
  intros Hnow. unfold Limiter_allows, eff, entry_or_insert. rewrite (as_u64_small now) by done.
  destruct (tau l <? _) eqn:E1; [done|]. bool_to_Prop. simpl.
  destruct (tat_per_key l !! k) as [v|] eqn:Ek; simpl.
  - rewrite (Z.max_comm now v). destruct (Z.max_spec v now) as [[Hlt ->]|[Hle ->]].
    + assert ((now <? saturating_sub (u64_saturating_add v (u64_saturating_mul (t l) n)) (tau l))
        = false) as -> by (apply Z.ltb_ge; unfold_arith; lia).
      assert ((now <? saturating_sub (u64_saturating_add now (u64_saturating_mul (t l) n)) (tau l))
        = false) as -> by (apply Z.ltb_ge; unfold_arith; lia).
      done.
    + destruct (now <? _) eqn:E2; [|done]. bool_to_Prop. destruct l; simpl in *.
      by rewrite (saturating_sub_le _ now) by lia.
  - assert ((now <? saturating_sub (u64_saturating_add now (u64_saturating_mul (t l) n)) (tau l))
      = false) as -> by (apply Z.ltb_ge; unfold_arith; lia).
    by rewrite insert_insert_eq, Z.max_id.
Qed.

Lemma limiter_inv_later now now' l : now <= now' -> limiter_inv now l -> limiter_inv now' l.
Proof. intros ? [? ? Htat]. split; [done..|]. intros k v Hk. specialize (Htat k v Hk). lia. Qed.

Lemma eff_bounds now l k : limiter_inv now l -> 0 <= now -> now <= eff now l k <= now + tau l.
Proof.
  intros [? ? Htat] ?. unfold eff. destruct (tat_per_key l !! k) as [v|] eqn:E; [|lia].
  specialize (Htat k v E). lia.
Qed.

Lemma from_quota_Ok q l :
  quota_wf q -> from_quota (Key := Key) q = Ok l <->
  l = mkLimiter (replenish_all_every q) (replenish_all_every q / max_tokens q) ∅ /\
  0 < replenish_all_every q <= U64_MAX.
Proof.
  intros [Hn Hr]. unfold from_quota. case_match; bool_to_Prop; [naive_solver lia|].
  rewrite result_bind_Ok. setoid_rewrite result_bind_Ok. setoid_rewrite ok_or_Ok.
  setoid_rewrite try_into_u64_Some.
  assert (0 <= replenish_all_every q / max_tokens q <= replenish_all_every q) as Hd.
  { split; [apply Z.div_pos; lia|]. apply Z.div_le_upper_bound; nia. }
  unfold in_u64 in *. split.
  - intros (? & (-> & _) & ? & (-> & ?) & [= <-]). split; [done|lia].
  - intros (-> & ?). eexists. split; [split; [done|lia]|]. eexists. split; [split; [done|lia]|]. done.
Qed.

Lemma from_quota_inv q l : quota_wf q -> from_quota (Key := Key) q = Ok l -> limiter_inv 0 l.
Proof.
  intros Hq Hl. pose proof Hq as [Hn Hr].
  apply (from_quota_Ok q l) in Hl as [-> Htau]; [|done].
  split; simpl; [done| |by intros k v ?%lookup_empty_Some].
  split; [apply Z.div_pos; lia|]. apply Z.div_le_upper_bound; nia.
Qed.

(** The cost of a request, inside the horizon: saturation never shows. *)
Lemma cost_cases l now n :
  limiter_inv now l -> in_horizon l now -> 0 <= n ->
  (tau l < t l * n /\ (tau l <? u64_saturating_mul (t l) n) = true) \/
  (t l * n <= tau l /\ u64_saturating_mul (t l) n = t l * n /\
   (tau l <? u64_saturating_mul (t l) n) = false).
Proof.
  intros [? ? _] [? ?] ?. unfold u64_saturating_mul, U64_MAX in *.
  destruct (Z.le_gt_cases (t l * n) (tau l)); [right|left].
  - split_and!; [done| |apply Z.ltb_ge]; lia.
  - split; [done|]. apply Z.ltb_lt. lia.
Qed.

(** [allows] inside the horizon, in exact arithmetic. *)
Lemma Limiter_allows_exact l now k n :
  limiter_inv now l -> in_horizon l now -> 0 <= n ->
  Limiter_allows l now k n =
  let e := eff now l k in
  if tau l <? t l * n then (Err TooLarge, l)
  else if now + tau l <? e + t l * n
  then (Err (TooSoon (e + t l * n - tau l - now)), l)
  else (Ok tt, mkLimiter (tau l) (t l) (<[k := e + t l * n]> (tat_per_key l))).
Proof.
  intros Hinv Hhor Hn. rewrite Limiter_allows_eff by (destruct Hhor, Hinv; unfold in_u64; lia).
  pose proof (eff_bounds now l k Hinv (proj1 Hhor)) as He. cbv zeta.
  destruct (cost_cases l now n Hinv Hhor Hn) as [[Hc ->]|(Hc & -> & ->)].
  - apply Z.ltb_lt in Hc as ->. done.
  - destruct (tau l <? t l * n) eqn:E; bool_to_Prop; [lia|].
    destruct Hhor, Hinv.
    assert (u64_saturating_add (eff now l k) (t l * n) = eff now l k + t l * n) as ->
      by (unfold_arith; lia).
    destruct (now <? _) eqn:E1, (now + tau l <? _) eqn:E2; bool_to_Prop; unfold saturating_sub in *;
      try lia; [|done]. do 3 f_equal. lia.
Qed.

(** Every step keeps the invariant, the periods, and the view of the other keys. *)
Lemma limiter_step_inv l ev :
  limiter_inv ev.1 l -> in_horizon l ev.1 -> tokens_nonneg ev ->
  limiter_inv ev.1 (limiter_step l ev).2 /\
  tau (limiter_step l ev).2 = tau l /\ t (limiter_step l ev).2 = t l.
Proof.
  destruct ev as [now [k n|]]; unfold limiter_step; simpl; intros Hinv Hhor Hn.
  - rewrite Limiter_allows_exact by done. cbv zeta.
    destruct (tau l <? _) eqn:E1; [done|]. destruct (now + tau l <? _) eqn:E2; simpl; [done|].
    bool_to_Prop. pose proof (eff_bounds now l k Hinv (proj1 Hhor)).
    split_and!; [|done..]. destruct Hinv as [? ? Htat]. split; simpl; [done..|].
    intros k' v. rewrite lookup_insert. case_decide; [|naive_solver lia].
    intros [= <-]. destruct Hhor. change (0 <= n) in Hn. assert (0 <= t l * n) by nia. lia.
  - split_and!; [|done..]. destruct Hinv as [? ? Htat]. split; simpl; [done..|].
    intros k v [? _]%map_lookup_filter_Some. eauto.
Qed.

Lemma eff_prune T now l k : in_u64 T -> T <= now -> eff now (Limiter_prune l T) k = eff now l k.
Proof.
  intros HT Hle. unfold eff, Limiter_prune; simpl. rewrite as_u64_small by done.
  destruct (tat_per_key l !! k) as [v|] eqn:E.
  - destruct (decide (T <= v)).
    + by rewrite (map_lookup_filter_Some_2 _ _ k v).
    + rewrite map_lookup_filter_None_2; [lia|]. right. intros v' ? ?; simplify_eq/=. lia.
  - by rewrite map_lookup_filter_None_2 by auto.
Qed.

Lemma eff_allows_ne now now' l k k' n :
  in_u64 now' -> k <> k' -> eff now (Limiter_allows l now' k n).2 k' = eff now l k'.
Proof.
  intros ? Hne. rewrite Limiter_allows_eff by done. cbv zeta.
  repeat case_match; try done. unfold eff; simpl. by rewrite lookup_insert_ne.
Qed.

(** The response of [allows] and the next state, up to [lim_equiv], only depend on the class of
    the limiter. *)
#[global] Instance lim_equiv_allows T now k n :
  in_u64 now -> T <= now ->
  Proper (lim_equiv T ==> prod_relation eq (lim_equiv T))
    (fun l => Limiter_allows (Key := Key) l now k n).
Proof.
  intros Hnow HT l1 l2 Heq. rewrite !Limiter_allows_eff by done.
  pose proof (lim_equiv_later T now _ _ HT Heq) as (Etau & Et & Ee).
  rewrite Etau, Et, Ee. cbv zeta.
  destruct (_ <? _); [by split|]. destruct (_ <? _); [by split|].
  split; [done|]. destruct Heq as (_ & _ & Ee'). split_and!; [done..|]. intros k'.
  specialize (Ee' k'). unfold eff in *; simpl. rewrite !lookup_insert. by case_decide.
Qed.

Lemma limiter_step_equiv T l1 l2 ev :
  in_u64 ev.1 -> T <= ev.1 -> lim_equiv T l1 l2 ->
  (limiter_step l1 ev).1 = (limiter_step l2 ev).1 /\
  lim_equiv ev.1 (limiter_step l1 ev).2 (limiter_step l2 ev).2.
Proof.
  destruct ev as [now [k n|]]; unfold limiter_step; simpl; intros Hnow HT Heq.
  - destruct (lim_equiv_allows T now k n Hnow HT _ _ Heq) as [Hr Hl].
    destruct (Limiter_allows l1 now k n), (Limiter_allows l2 now k n); simpl in *.
    split; [by f_equal|]. by apply (lim_equiv_later T).
  - apply (lim_equiv_later _ _ _ _ HT) in Heq as (Etau & Et & Ee).
    split; [done|]. split_and!; [done..|]. intros k. by rewrite !eff_prune.
Qed.

Lemma limiter_responses_equiv evs : forall T l1 l2 b,
  0 <= T -> times_within T b evs -> b <= U64_MAX -> lim_equiv T l1 l2 ->
  limiter_responses l1 evs = limiter_responses l2 evs.
Proof.
  induction evs as [|ev evs IH]; intros T l1 l2 b HT Hw Hb Heq; [done|].
  destruct Hw as (? & ? & Hw). simpl.
  destruct (limiter_step_equiv T l1 l2 ev) as [Hr Hl]; [unfold in_u64; lia|done..|].
  destruct (limiter_step l1 ev), (limiter_step l2 ev); simpl in *. subst. f_equal.
  eapply (IH ev.1); eauto. lia.
Qed.

(** One step of the potential argument: what is granted plus the credit left does not exceed the
    credit at the start plus the time that passed. *)
Lemma granted_step k l ev a :
  0 <= a -> a <= ev.1 -> limiter_inv a l -> in_horizon l ev.1 -> tokens_nonneg ev ->
  let '(r, l') := limiter_step l ev in
  match ev.2, r with
  | EvAllows k' tokens, Some (Ok _) => if decide (k' = k) then t l * tokens else 0
  | _, _ => 0
  end + level (bucket_of ev.1 l' k) <= level (bucket_of a l k) + (ev.1 - a).
Proof.
  intros Ha Hle Hinv0 Hhor Hn.
  assert (limiter_inv ev.1 l) as Hinv by (by apply (limiter_inv_later a)).
  assert (level (bucket_of ev.1 l k) <= level (bucket_of a l k) + (ev.1 - a)) as Hstep.
  { unfold bucket_of; simpl. rewrite (eff_later a ev.1) by done.
    pose proof (eff_bounds a l k Hinv0 Ha). lia. }
  destruct ev as [now [k' n|]]; unfold limiter_step; simpl in *.
  - rewrite Limiter_allows_exact by done. cbv zeta.
    destruct (tau l <? _) eqn:E1; [simpl; lia|]. destruct (now + tau l <? _) eqn:E2; simpl; [lia|]. bool_to_Prop.
    case_decide; subst; unfold eff at 1; simpl.
    + rewrite lookup_insert_eq. pose proof (eff_bounds now l k Hinv (proj1 Hhor)).
      destruct Hinv. change (0 <= n) in Hn. assert (0 <= t l * n) by nia. lia.
    + rewrite lookup_insert_ne by done. fold (eff now l k). lia.
  - rewrite eff_prune; [lia| |lia]. destruct Hhor, Hinv. unfold in_u64. lia.
Qed.

Lemma granted_bound k evs : forall a b l,
  0 <= a -> limiter_inv a l -> times_within a b evs -> b + 2 * tau l <= U64_MAX ->
  Forall tokens_nonneg evs ->
  granted k l evs <= level (bucket_of a l k) + (b - a).
Proof.
  induction evs as [|ev evs IH]; intros a b l Ha Hinv Hw Hb Hn.
  - simpl in *. pose proof (eff_bounds a l k Hinv Ha). destruct Hinv. lia.
  - destruct Hw as (Hle & Hleb & Hw). apply Forall_cons in Hn as [Hn Hns].
    assert (in_horizon l ev.1) as Hhor by (split; lia).
    pose proof (granted_step k l ev a Ha Hle Hinv Hhor Hn) as Hg.
    destruct (limiter_step_inv l ev) as (Hinv' & Htau & Ht); [by eapply limiter_inv_later|done..|].
    cbn [granted]. destruct (limiter_step l ev) as [r l'] eqn:E; simpl in *.
    assert (granted k l' evs <= level (bucket_of ev.1 l' k) + (b - ev.1)) as HIH.
    { apply IH; [lia|done|done|by rewrite Htau|done]. }
    simpl in HIH. lia.
Qed.

End limiter_lemmas.

(** ** The per-key limiter is a token bucket *)

Section limiter_theorems.
Context {Key : Type} `{Countable Key}.
Implicit Types (l : Limiter Key) (k : Key).

(** C33: refinement.  Let a limiter be consistent at time [a] and a request for [n] tokens of key [k]
    arrive at [now >= a].  The limiter grants it exactly when the key's token bucket, refilled since
    [a], holds its cost, the bucket of the key afterwards is the one the abstract bucket computes, and
    the bucket of any other key is only refilled. *)
Theorem allows_refines_bucket l a now k n :
  0 <= a -> a <= now -> limiter_inv a l -> in_horizon l now -> 0 <= n ->
  let '(res, l') := Limiter_allows l now k n in
  (is_ok res, bucket_of now l' k) = bucket_take (tau l) now (t l * n) (bucket_of a l k) /\
  (forall k', k' <> k -> bucket_of now l' k' = bucket_refill (tau l) now (bucket_of a l k')).
Proof.
  intros Ha Hle Hinv0 Hhor Hn.
  assert (limiter_inv now l) as Hinv by (by apply (limiter_inv_later a)).
  assert (forall k', bucket_of now l k' = bucket_refill (tau l) now (bucket_of a l k')) as Hrefill.
  { intros k'. unfold bucket_of, bucket_refill; simpl. f_equal.
    rewrite (eff_later a now) by done. pose proof (eff_bounds a l k' Hinv0 Ha). lia. }
  assert (tau (Limiter_allows l now k n).2 = tau l) as Htau.
  { destruct (limiter_step_inv l (now, EvAllows k n)) as (_ & Htau & _); [done..|].
    unfold limiter_step in Htau; simpl in Htau. by destruct (Limiter_allows l now k n). }
  destruct (Limiter_allows l now k n) as [res l'] eqn:E. split.
  - unfold bucket_take. rewrite <- Hrefill. unfold bucket_of at 2 3 4; simpl.
    pose proof (eff_bounds now l k Hinv (proj1 Hhor)).
    rewrite Limiter_allows_exact in E by done. cbv zeta in E.
    destruct (tau l <? t l * n) eqn:E1, (now + tau l <? eff now l k + t l * n) eqn:E2,
      (t l * n <=? tau l - (eff now l k - now)) eqn:E3;
      bool_to_Prop; try lia; simplify_eq/=; try done.
    f_equal. unfold bucket_of, eff; simpl. rewrite lookup_insert_eq. fold (eff now l k).
    f_equal. assert (0 <= t l * n) by (destruct Hinv; nia). lia.
  - intros k' Hne. rewrite <- Hrefill. unfold bucket_of. simpl in Htau. rewrite Htau.
    replace l' with (Limiter_allows l now k n).2 by (by rewrite E).
    rewrite eff_allows_ne; [done| |done]. destruct Hhor, Hinv. unfold in_u64. lia.
Qed.

(** C34: rate bound.  Over any run of requests and prunes whose times lie in the window [[a, b]],
    whatever the other keys do, the limiter grants a key at most one full bucket plus one nanosecond
    of credit per nanosecond of the window: [tokens * t <= tau + (b - a)]. *)
Theorem limiter_rate_bound l k evs a b :
  0 <= a -> limiter_inv a l -> times_within a b evs -> b + 2 * tau l <= U64_MAX ->
  Forall tokens_nonneg evs ->
  granted k l evs <= tau l + (b - a).
Proof.
  intros Ha Hinv Hw Hb Hn. pose proof (granted_bound k evs a b l Ha Hinv Hw Hb Hn) as Hg.
  pose proof (eff_bounds a l k Hinv Ha). simpl in Hg. lia.
Qed.

(** The waiting time is exact.  When a request is refused with [TooSoon w], [w] is positive and
    the same request, retried after a delay [d] with no other request of the key in between, is
    granted if and only if [d >= w]. *)
Theorem too_soon_exact l now k n w l' d :
  limiter_inv now l -> in_horizon l now -> 0 <= n ->
  Limiter_allows l now k n = (Err (TooSoon w), l') ->
  0 <= d -> in_horizon l (now + d) ->
  0 < w /\ (is_ok (Limiter_allows l' (now + d) k n).1 = true <-> w <= d).
Proof.
  intros Hinv Hhor Hn E Hd Hhor'. rewrite Limiter_allows_exact in E by done. cbv zeta in E.
  destruct (tau l <? _) eqn:E1; [done|]. destruct (now + tau l <? _) eqn:E2; [|done].
  simplify_eq. bool_to_Prop. split; [lia|].
  assert (limiter_inv (now + d) l') as Hinv' by (apply (limiter_inv_later now); [lia|done]).
  rewrite Limiter_allows_exact by done. cbv zeta. rewrite (eff_later now (now + d)) by lia.
  destruct (tau l' <? _) eqn:E3; bool_to_Prop; [lia|].
  destruct (_ <? _) eqn:E4; bool_to_Prop; simpl; split; intros; try done; lia.
Qed.

(** [TooLarge] is definitive and only hits requests beyond the quota.  A limiter built from a
    quota refuses a request as too large exactly when its cost exceeds the whole bucket, whatever the
    time and history, and then leaves the limiter unchanged; a request of at most [max_tokens] tokens
    is never too large. *)
Theorem too_large_iff q l l0 now k n :
  quota_wf q -> from_quota q = Ok l0 -> tau l = tau l0 -> t l = t l0 ->
  limiter_inv now l -> in_horizon l now -> 0 <= n ->
  (Limiter_allows l now k n = (Err TooLarge, l) <-> tau l < t l * n) /\
  (n <= max_tokens q -> ~ tau l < t l * n).
Proof.
  intros Hq Hl0 Htau Ht Hinv Hhor Hn. split.
  - rewrite Limiter_allows_exact by done. cbv zeta. rewrite <- Z.ltb_lt.
    destruct (tau l <? _); [done|]. destruct (now + tau l <? _); done.
  - intros Hmax Hlt. pose proof Hq as [Hm Hr].
    apply (from_quota_Ok q l0) in Hl0 as [-> Hpos]; [|done]. simpl in *. rewrite Htau, Ht in Hlt.
    pose proof (Z.mul_div_le (replenish_all_every q) (max_tokens q)).
    assert (0 <= replenish_all_every q / max_tokens q) by (apply Z.div_pos; lia). nia.
Qed.

(** Pruning is unobservable.  Dropping the arrival times before [T] changes no response of the
    limiter to any later run of requests and prunes. *)
Theorem prune_unobservable l T b evs :
  in_u64 T -> times_within T b evs -> b <= U64_MAX ->
  limiter_responses (Limiter_prune l T) evs = limiter_responses l evs.
Proof.
  intros HT Hw Hb. apply (limiter_responses_equiv evs T _ _ b); [by destruct HT|done|done|].
  split_and!; [done..|]. intros k. by rewrite eff_prune.
Qed.

(** Overflow safety.  From any state whose fields fit 64 bits, whatever the clock and the number
    of tokens, [allows] and [prune] stay within 64 bits, even where the saturating arithmetic
    saturates. *)
Theorem limiter_stays_in_u64 l now k n :
  in_u64 (tau l) -> in_u64 (t l) -> map_Forall (fun _ v => in_u64 v) (tat_per_key l) ->
  0 <= n ->
  let l' := (Limiter_allows l now k n).2 in
  tau l' = tau l /\ t l' = t l /\
  map_Forall (fun _ v => in_u64 v) (tat_per_key l') /\
  map_Forall (fun _ v => in_u64 v) (tat_per_key (Limiter_prune l now)).
Proof.
  intros Htau Ht Hmap Hn.
  assert (map_Forall (fun _ v => in_u64 v) (entry_or_insert k (as_u64 now) (tat_per_key l)).1) as Hm.
  { unfold entry_or_insert. case_match; [done|]. apply map_Forall_insert_2; auto with eth2. }
  assert (in_u64 (entry_or_insert k (as_u64 now) (tat_per_key l)).2) as Hv.
  { eapply Hm, entry_or_insert_lookup. }
  assert (0 <= u64_saturating_mul (t l) n <= U64_MAX) by (unfold_arith; nia).
  pose proof (as_u64_range now).
  split_and!.
  4: { intros k' v [? _]%map_lookup_filter_Some. by eapply Hmap. }
  all: unfold Limiter_allows; destruct (tau l <? _); [done|];
    destruct (entry_or_insert _ _ _) as [m v]; destruct (as_u64 now <? _); try done.
  apply map_Forall_insert_2; [|done]. simpl in *. unfold_arith. lia.
Qed.

End limiter_theorems.

(** ** The limiter of all protocols *)

Section rpc_lemmas.
Context `{ChainTypes} `{Libp2p}.
Implicit Types (rl : RPCRateLimiter) (b : RPCRateLimiterBuilder) (p : Protocol).

(** The quota a builder holds for a protocol. *)
Definition builder_quota b p : option Quota :=
  match p with
  | Protocol.Ping => ping_quota b
  | Protocol.Status => status_quota b
  | Protocol.MetaData => metadata_quota b
  | Protocol.Goodbye => goodbye_quota b
  | Protocol.BlocksByRange => bbrange_quota b
  | Protocol.BlocksByRoot => bbroots_quota b
  | Protocol.BlobsByRange => blbrange_quota b
  | Protocol.BlobsByRoot => blbroot_quota b
  | Protocol.DataColumnsByRoot => dcbroot_quota b
  | Protocol.DataColumnsByRange => dcbrange_quota b
  | Protocol.LightClientBootstrap => lcbootstrap_quota b
  | Protocol.LightClientOptimisticUpdate => lc_optimistic_update_quota b
  | Protocol.LightClientFinalityUpdate => lc_finality_update_quota b
  | Protocol.LightClientUpdatesByRange => lc_updates_by_range_quota b
  end.

Lemma builder_quota_set b p q p' :
  builder_quota (set_quota b p q) p' = if decide (p = p') then Some q else builder_quota b p'.
Proof. by destruct b, p, p'. Qed.

Lemma builder_quota_new p : builder_quota builder p = None.
Proof. by destruct p. Qed.

Lemma limiter_of_set rl p l p' :
  limiter_of (set_limiter rl p l) p' = if decide (p = p') then l else limiter_of rl p'.
Proof. by destruct rl, p, p'. Qed.

Lemma set_limiter_rest rl p l :
  init_time (set_limiter rl p l) = init_time rl /\
  rl_chain_config (set_limiter rl p l) = rl_chain_config rl /\
  rl_current_fork_epoch (set_limiter rl p l) = rl_current_fork_epoch rl.
Proof. by destruct rl, p. Qed.

Lemma limiter_of_prune rl now p :
  limiter_of (rpc_prune rl now) p = Limiter_prune (limiter_of rl p) (elapsed now (init_time rl)).
Proof. by destruct rl, p. Qed.

Lemma Limiter_allows_as_u64 `{Countable Key} (l : Limiter Key) now k n :
  Limiter_allows l now k n = Limiter_allows l (as_u64 now) k n.
Proof. unfold Limiter_allows. by rewrite (as_u64_small (as_u64 now)) by auto with eth2. Qed.

(** The response of a limiter to a key only reads what the limiter stores for that key. *)
Lemma Limiter_allows_local `{Countable Key} (l l' : Limiter Key) now k n :
  tau l = tau l' -> t l = t l' -> tat_per_key l !! k = tat_per_key l' !! k ->
  (Limiter_allows l now k n).1 = (Limiter_allows l' now k n).1.
Proof.
  intros Htau Ht Hk. rewrite !(Limiter_allows_as_u64 _ now), !Limiter_allows_eff by auto with eth2.
  unfold eff. rewrite Htau, Ht, Hk. cbv zeta. by repeat case_match.
Qed.

Lemma Limiter_allows_frame `{Countable Key} (l : Limiter Key) now k n :
  tau (Limiter_allows l now k n).2 = tau l /\ t (Limiter_allows l now k n).2 = t l /\
  forall k', k' <> k -> tat_per_key (Limiter_allows l now k n).2 !! k' = tat_per_key l !! k'.
Proof.
  rewrite (Limiter_allows_as_u64 _ now), Limiter_allows_eff by auto with eth2. cbv zeta.
  repeat case_match; simpl; split_and!; try done. intros. by rewrite lookup_insert_ne.
Qed.

(** Reads a successful chain of [let?] as a list of equations. *)
Ltac bind_Ok := repeat
  (let x := fresh "x" in let E := fresh "E" in
   match goal with H : result_bind _ _ = Ok _ |- _ => apply result_bind_Ok in H as (x & E & H) end).

Lemma build_Ok b c e now rl :
  build b c e now = Ok rl ->
  init_time rl = now /\ rl_chain_config rl = c /\ rl_current_fork_epoch rl = e /\
  forall p, exists q, builder_quota b p = Some q /\ from_quota q = Ok (limiter_of rl p).
Proof.
  unfold build. intros Hb. bind_Ok. simplify_eq/=.
  repeat match goal with E : ok_or _ _ = Ok _ |- _ => apply ok_or_Ok in E end.
  split_and!; [done..|]. intros []; simpl; eauto.
Qed.

Lemma build_complete b c e now (qs : Protocol -> Quota) (ls : Protocol -> Limiter PeerId) :
  (forall p, builder_quota b p = Some (qs p)) -> (forall p, from_quota (qs p) = Ok (ls p)) ->
  exists rl, build b c e now = Ok rl.
Proof.
  intros Hq Hl. destruct b.
  pose proof (Hq Protocol.Status); pose proof (Hq Protocol.Goodbye);
  pose proof (Hq Protocol.BlocksByRange); pose proof (Hq Protocol.BlocksByRoot);
  pose proof (Hq Protocol.BlobsByRange); pose proof (Hq Protocol.BlobsByRoot);
  pose proof (Hq Protocol.DataColumnsByRoot); pose proof (Hq Protocol.DataColumnsByRange);
  pose proof (Hq Protocol.Ping); pose proof (Hq Protocol.MetaData);
  pose proof (Hq Protocol.LightClientBootstrap); pose proof (Hq Protocol.LightClientOptimisticUpdate);
  pose proof (Hq Protocol.LightClientFinalityUpdate); pose proof (Hq Protocol.LightClientUpdatesByRange).
  clear Hq. simpl in *. subst. unfold build; simpl. rewrite !Hl. simpl. eauto.
Qed.

End rpc_lemmas.

Section rpc_theorems.
Context `{ChainTypes} `{Libp2p}.

(** Isolation.  A request never changes the answer another request gets, unless the two come
    from the same peer on the same protocol: no peer can use up another peer's quota, and no protocol
    the quota of another. *)
Theorem rpc_allows_isolated `{!RateLimiterItem Item} (rl : RPCRateLimiter) now1 now2 (peer1 peer2 : PeerId)
  (item1 item2 : Item) :
  (item_protocol item1, peer1) <> (item_protocol item2, peer2) ->
  (rpc_allows (rpc_allows rl now1 peer1 item1).2 now2 peer2 item2).1 =
  (rpc_allows rl now2 peer2 item2).1.
Proof.
  intros Hne. unfold rpc_allows at 2. destruct (Limiter_allows _ _ _ _) as [r l] eqn:E.
  set (rl' := set_limiter rl (item_protocol item1) l).
  destruct (set_limiter_rest rl (item_protocol item1) l) as (Hi & Hc & He).
  unfold rpc_allows; simpl. fold rl' in Hi, Hc, He. rewrite Hi, Hc, He.
  set (n2 := Z.max (item_max_responses item2 _ _) 1).
  set (t2 := elapsed now2 (init_time rl)).
  assert ((Limiter_allows (limiter_of rl' (item_protocol item2)) t2 peer2 n2).1 =
    (Limiter_allows (limiter_of rl (item_protocol item2)) t2 peer2 n2).1) as Heq.
  { unfold rl'. rewrite limiter_of_set. case_decide as Hp; [|done]. rewrite <- Hp in *.
    match type of E with Limiter_allows ?l0 ?tt ?pp ?nn = _ =>
      pose proof (Limiter_allows_frame l0 tt pp nn) as (Ht1 & Ht2 & Hk) end.
    rewrite E in Ht1, Ht2, Hk; simpl in *. apply Limiter_allows_local; [done..|].
    apply Hk. intros ->. apply Hne. by f_equal. }
  destruct (Limiter_allows (limiter_of rl' _) t2 peer2 n2),
    (Limiter_allows (limiter_of rl _) t2 peer2 n2). exact Heq.
Qed.

(** Construction.  A builder produces a rate limiter exactly when every protocol has a quota that
    yields a limiter, and the limiter consulted for a protocol is then the one built from that
    protocol's quota. *)
Theorem build_iff (b : RPCRateLimiterBuilder) (c : ChainConfig) (e : Epoch) (now : Instant) :
  ((exists rl, build b c e now = Ok rl) <->
   forall p, exists q l, builder_quota b p = Some q /\ from_quota (Key := PeerId) q = Ok l) /\
  forall rl, build b c e now = Ok rl ->
   forall p q, builder_quota b p = Some q -> from_quota q = Ok (limiter_of rl p).
Proof.
  split; [split|].
  - intros [rl Hb] p. apply build_Ok in Hb as (_ & _ & _ & Hp).
    destruct (Hp p) as (q & ? & ?); eauto.
  - intros Hp.
    set (qs := fun p => default (mkQuota 0 0) (builder_quota b p)).
    set (ls := fun p => match from_quota (Key := PeerId) (qs p) with
                        | Ok l => l | Err _ => mkLimiter 0 0 ∅ end).
    apply (build_complete b c e now qs ls); intros p; destruct (Hp p) as (q & l & Hq & Hl);
      unfold ls, qs; rewrite Hq; [done|]; simpl; by rewrite Hl.
  - intros rl Hb p q Hq. apply build_Ok in Hb as (_ & _ & _ & Hp).
    destruct (Hp p) as (q' & ? & ?); by simplify_eq.
Qed.

End rpc_theorems.

(** ** Closed instances

    The quota of four tokens every two seconds of the source's documentation. *)

Module RateLimiterExamples.

Definition quota_4_2 : Quota := n_every 4 2.
Definition limiter_4_2 : Limiter Z := mkLimiter 2000000000 500000000 ∅.

Lemma limiter_4_2_inv now : 0 <= now -> limiter_inv now limiter_4_2.
Proof.
  intros. split; [unfold U64_MAX; simpl; lia|simpl; lia|].
  intros k v; simpl. by rewrite lookup_empty.
Qed.

Definition after_burst : Limiter Z := (Limiter_allows limiter_4_2 0 10 4).2.

Lemma after_burst_inv : limiter_inv 0 after_burst.
Proof.
  apply (limiter_step_inv limiter_4_2 (0, EvAllows 10 4)).
  - by apply limiter_4_2_inv.
  - by vm_compute.
  - by vm_compute.
Qed.

Example from_quota_4_2 : from_quota quota_4_2 = Ok limiter_4_2.
Proof. reflexivity. Qed.

(** The scenario of the unit test [it_works_a]. *)
Example it_works_a :
  limiter_responses limiter_4_2
    [(0, EvAllows 10 4); (100000000, EvPrune); (100000000, EvAllows 10 1);
     (500000000, EvAllows 10 1); (1000000000, EvAllows 10 1); (1400000000, EvAllows 10 1);
     (2000000000, EvAllows 10 2)] =
  [Some (Ok tt); None; Some (Err (TooSoon 400000000)); Some (Ok tt); Some (Ok tt);
   Some (Err (TooSoon 100000000)); Some (Ok tt)].
Proof. vm_compute. reflexivity. Qed.

(** The scenario of the unit test [large_tokens]: the cost overflows and saturates. *)
Example large_tokens :
  (Limiter_allows (mkLimiter 2 2 (∅ : gmap Z Z)) 0 10 (U64_MAX / 2 + 1)).1 = Err TooLarge.
Proof. vm_compute. reflexivity. Qed.

Lemma allows_refines_bucket_witness :
  (is_ok (Limiter_allows limiter_4_2 0 10 4).1, bucket_of 0 after_burst 10)
  = bucket_take 2000000000 0 2000000000 (bucket_of 0 limiter_4_2 10).
Proof.
  pose proof (allows_refines_bucket limiter_4_2 0 0 10 4 ltac:(lia) ltac:(lia)
    (limiter_4_2_inv 0 ltac:(lia)) ltac:(by vm_compute) ltac:(lia)) as [Hb _].
  exact Hb.
Defined.

Lemma limiter_rate_bound_witness :
  granted 10 limiter_4_2 [(0, EvAllows 10 4); (500000000, EvAllows 10 1)] <= 2000000000 + 500000000.
Proof.
  apply (limiter_rate_bound limiter_4_2 10 _ 0 500000000).
  - lia.
  - by apply limiter_4_2_inv.
  - by vm_compute.
  - by vm_compute.
  - by repeat constructor.
Defined.

Lemma too_soon_exact_witness :
  0 < 500000000 /\
  (is_ok (Limiter_allows after_burst (0 + 500000000) 10 1).1 = true <-> 500000000 <= 500000000).
Proof.
  apply (too_soon_exact after_burst 0 10 1 500000000 after_burst 500000000).
  - apply after_burst_inv.
  - by vm_compute.
  - lia.
  - reflexivity.
  - lia.
  - by vm_compute.
Defined.

Lemma too_large_iff_witness :
  (Limiter_allows limiter_4_2 0 10 5 = (Err TooLarge, limiter_4_2) <-> 2000000000 < 500000000 * 5).
Proof.
  apply (too_large_iff quota_4_2 limiter_4_2 limiter_4_2 0 10 5).
  - by vm_compute.
  - reflexivity.
  - reflexivity.
  - reflexivity.
  - by apply limiter_4_2_inv.
  - by vm_compute.
  - lia.
Defined.

Lemma prune_unobservable_witness :
  limiter_responses (Limiter_prune after_burst 2500000000) [(2500000000, EvAllows 10 1)] =
  limiter_responses after_burst [(2500000000, EvAllows 10 1)].
Proof.
  apply (prune_unobservable after_burst 2500000000 2500000000).
  - by vm_compute.
  - by vm_compute.
  - by vm_compute.
Defined.

Lemma limiter_stays_in_u64_witness :
  map_Forall (fun _ v => in_u64 v) (tat_per_key (Limiter_allows limiter_4_2 U64_MAX 10 1).2).
Proof.
  pose proof (limiter_stays_in_u64 limiter_4_2 U64_MAX 10 1 ltac:(by vm_compute)
    ltac:(by vm_compute) ltac:(apply map_Forall_empty) ltac:(lia)) as (_ & _ & Hm & _).
  exact Hm.
Defined.

#[local] Existing Instance Toy.chain.
#[local] Existing Instance Toy.libp2p.

Definition all_quotas : RPCRateLimiterBuilder :=
  foldr (fun p b => set_quota b p quota_4_2) builder Protocol_all.

Definition example_rl : RPCRateLimiter :=
  match build all_quotas tt 0 0 with
  | Ok rl => rl
  | Err _ => mkRPCRateLimiter 0 limiter_4_2 limiter_4_2 limiter_4_2 limiter_4_2 limiter_4_2 limiter_4_2
      limiter_4_2 limiter_4_2 limiter_4_2 limiter_4_2 limiter_4_2 limiter_4_2 limiter_4_2 limiter_4_2 tt 0
  end.

Lemma rpc_allows_isolated_witness :
  (rpc_allows (Item := RequestType)
    (rpc_allows (Item := RequestType) example_rl 5 (1 : PeerId) (ReqPing 0)).2 6 (2 : PeerId) (ReqPing 0)).1 =
  (rpc_allows (Item := RequestType) example_rl 6 (2 : PeerId) (ReqPing 0)).1.
Proof.
  apply (rpc_allows_isolated (Item := RequestType) example_rl 5 6 1 2 (ReqPing 0) (ReqPing 0)). done.
Defined.

End RateLimiterExamples.
