(* ===== verification/RateConfig.v ===== *)
(** * Rate limiter configuration ([rpc/config.rs])

    The textual quota format [protocol:tokens/seconds], the configuration with its defaults, the
    parser of a [;]-separated list of quotas, and the construction of a rate limiter from it. *)

From Stdlib Require Import Ascii String.
From S2P Require Import Prelude Chain Protocol Messages RateLimiter Text.

Record ProtocolQuota := mkProtocolQuota {
  pq_protocol : Protocol;
  pq_quota : Quota;
}.

(** [Display for ProtocolQuota]. *)
Definition ProtocolQuota_fmt (p : ProtocolQuota) : list ascii :=
  lit (Protocol_as_ref (pq_protocol p)) ++ ":"%char :: print_u64 (max_tokens (pq_quota p)) ++
  "/"%char :: print_u64 (Duration_as_secs (replenish_all_every (pq_quota p))).

(** [FromStr for ProtocolQuota]; the message for a missing [/] quotes the format in the source. *)
Definition ProtocolQuota_from_str (s : list ascii) : result ProtocolQuota string :=
  let? (protocol_str, quota_str) :=
    ok_or (split_once ":"%char s) "Missing ':' from quota definition."%string in
  let? protocol :=
    ok_or (Protocol_from_str (String.string_of_list_ascii protocol_str))
      "Wrong protocol representation in quota"%string in
  let? (tokens_str, time_str) :=
    ok_or (split_once "/"%char quota_str)
      "Quota should be defined as n/t (t in seconds). Missing '/' from quota."%string in
  let? tokens :=
    ok_or (parse_nonzero_u64 tokens_str) "Failed to parse tokens from quota."%string in
  let? seconds :=
    ok_or (parse_u64 time_str) "Failed to parse time in seconds from quota."%string in
  Ok (mkProtocolQuota protocol (mkQuota (Duration_from_secs seconds) tokens)).

(** One field per protocol: the configuration has quotas in them, the parser's local variables
    optional quotas. *)
Record RateLimiterFields (A : Type) := mkFields {
  f_ping_quota : A;
  f_meta_data_quota : A;
  f_status_quota : A;
  f_goodbye_quota : A;
  f_blocks_by_range_quota : A;
  f_blocks_by_root_quota : A;
  f_blobs_by_range_quota : A;
  f_blobs_by_root_quota : A;
  f_data_columns_by_root_quota : A;
  f_data_columns_by_range_quota : A;
  f_light_client_bootstrap_quota : A;
  f_light_client_optimistic_update_quota : A;
  f_light_client_finality_update_quota : A;
  f_light_client_updates_by_range_quota : A;
}.
Arguments mkFields {A}.
Arguments f_ping_quota {A}.
Arguments f_meta_data_quota {A}.
Arguments f_status_quota {A}.
Arguments f_goodbye_quota {A}.
Arguments f_blocks_by_range_quota {A}.
Arguments f_blocks_by_root_quota {A}.
Arguments f_blobs_by_range_quota {A}.
Arguments f_blobs_by_root_quota {A}.
Arguments f_data_columns_by_root_quota {A}.
Arguments f_data_columns_by_range_quota {A}.
Arguments f_light_client_bootstrap_quota {A}.
Arguments f_light_client_optimistic_update_quota {A}.
Arguments f_light_client_finality_update_quota {A}.
Arguments f_light_client_updates_by_range_quota {A}.

Definition RateLimiterConfig : Type := RateLimiterFields Quota.

(** [impl Default for RateLimiterConfig] with its [DEFAULT_*_QUOTA] constants. *)
Definition RateLimiterConfig_default : RateLimiterConfig := {|
  f_ping_quota := n_every 2 10;
  f_meta_data_quota := n_every 2 5;
  f_status_quota := n_every 5 15;
  f_goodbye_quota := one_every 10;
  f_blocks_by_range_quota := n_every 128 10;
  f_blocks_by_root_quota := n_every 128 10;
  f_blobs_by_range_quota := n_every 896 10;
  f_blobs_by_root_quota := n_every 896 10;
  f_data_columns_by_root_quota := n_every 16384 10;
  f_data_columns_by_range_quota := n_every 16384 10;
  f_light_client_bootstrap_quota := one_every 10;
  f_light_client_optimistic_update_quota := one_every 10;
  f_light_client_finality_update_quota := one_every 10;
  f_light_client_updates_by_range_quota := one_every 10;
|}.

(** [a.or(b)]. *)
Definition option_or {A} (a b : option A) : option A :=
  match a with Some _ => a | None => b end.

(** The [match protocol] of the parser: the first quota given for a protocol wins. *)
Definition record_quota (f : RateLimiterFields (option Quota)) (p : Protocol) (quota : option Quota)
  : RateLimiterFields (option Quota) :=
  let '(mkFields pi me st gb br bt lr lt dt dr cb co cf cu) := f in
  match p with
  | Protocol.Status => mkFields pi me (option_or st quota) gb br bt lr lt dt dr cb co cf cu
  | Protocol.Goodbye => mkFields pi me st (option_or gb quota) br bt lr lt dt dr cb co cf cu
  | Protocol.BlocksByRange => mkFields pi me st gb (option_or br quota) bt lr lt dt dr cb co cf cu
  | Protocol.BlocksByRoot => mkFields pi me st gb br (option_or bt quota) lr lt dt dr cb co cf cu
  | Protocol.BlobsByRange => mkFields pi me st gb br bt (option_or lr quota) lt dt dr cb co cf cu
  | Protocol.BlobsByRoot => mkFields pi me st gb br bt lr (option_or lt quota) dt dr cb co cf cu
  | Protocol.DataColumnsByRoot => mkFields pi me st gb br bt lr lt (option_or dt quota) dr cb co cf cu
  | Protocol.DataColumnsByRange => mkFields pi me st gb br bt lr lt dt (option_or dr quota) cb co cf cu
  | Protocol.Ping => mkFields (option_or pi quota) me st gb br bt lr lt dt dr cb co cf cu
  | Protocol.MetaData => mkFields pi (option_or me quota) st gb br bt lr lt dt dr cb co cf cu
  | Protocol.LightClientBootstrap => mkFields pi me st gb br bt lr lt dt dr (option_or cb quota) co cf cu
  | Protocol.LightClientOptimisticUpdate =>
      mkFields pi me st gb br bt lr lt dt dr cb (option_or co quota) cf cu
  | Protocol.LightClientFinalityUpdate =>
      mkFields pi me st gb br bt lr lt dt dr cb co (option_or cf quota) cu
  | Protocol.LightClientUpdatesByRange =>
      mkFields pi me st gb br bt lr lt dt dr cb co cf (option_or cu quota)
  end.

(** The loop over the [;]-separated definitions. *)
Fixpoint record_quotas (f : RateLimiterFields (option Quota)) (defs : list (list ascii))
  : result (RateLimiterFields (option Quota)) string :=
  match defs with
  | [] => Ok f
  | proto_def :: defs =>
      let? pq := ProtocolQuota_from_str proto_def in
      record_quotas (record_quota f (pq_protocol pq) (Some (pq_quota pq))) defs
  end.

Definition no_quotas : RateLimiterFields (option Quota) :=
  mkFields None None None None None None None None None None None None None None.

(** [unwrap_or] of every local variable with its default. *)
Definition fill_defaults (f : RateLimiterFields (option Quota)) : RateLimiterConfig :=
  let d := RateLimiterConfig_default in {|
  f_ping_quota := default (f_ping_quota d) (f_ping_quota f);
  f_meta_data_quota := default (f_meta_data_quota d) (f_meta_data_quota f);
  f_status_quota := default (f_status_quota d) (f_status_quota f);
  f_goodbye_quota := default (f_goodbye_quota d) (f_goodbye_quota f);
  f_blocks_by_range_quota := default (f_blocks_by_range_quota d) (f_blocks_by_range_quota f);
  f_blocks_by_root_quota := default (f_blocks_by_root_quota d) (f_blocks_by_root_quota f);
  f_blobs_by_range_quota := default (f_blobs_by_range_quota d) (f_blobs_by_range_quota f);
  f_blobs_by_root_quota := default (f_blobs_by_root_quota d) (f_blobs_by_root_quota f);
  f_data_columns_by_root_quota :=
    default (f_data_columns_by_root_quota d) (f_data_columns_by_root_quota f);
  f_data_columns_by_range_quota :=
    default (f_data_columns_by_range_quota d) (f_data_columns_by_range_quota f);
  f_light_client_bootstrap_quota :=
    default (f_light_client_bootstrap_quota d) (f_light_client_bootstrap_quota f);
  f_light_client_optimistic_update_quota :=
    default (f_light_client_optimistic_update_quota d) (f_light_client_optimistic_update_quota f);
  f_light_client_finality_update_quota :=
    default (f_light_client_finality_update_quota d) (f_light_client_finality_update_quota f);
  f_light_client_updates_by_range_quota :=
    default (f_light_client_updates_by_range_quota d) (f_light_client_updates_by_range_quota f);
|}.

(** [FromStr for RateLimiterConfig]. *)
Definition RateLimiterConfig_from_str (s : list ascii) : result RateLimiterConfig string :=
  let? f := record_quotas no_quotas (split ";"%char s) in
  Ok (fill_defaults f).

Section build.
Context `{ChainTypes} `{Libp2p}.

Definition new_with_config (config : RateLimiterConfig) (c : ChainConfig) (current_fork_epoch : Epoch)
  (now : Instant) : result RPCRateLimiter string :=
  let b := builder in
  let b := set_quota b Protocol.Ping (f_ping_quota config) in
  let b := set_quota b Protocol.MetaData (f_meta_data_quota config) in
  let b := set_quota b Protocol.Status (f_status_quota config) in
  let b := set_quota b Protocol.Goodbye (f_goodbye_quota config) in
  let b := set_quota b Protocol.BlocksByRange (f_blocks_by_range_quota config) in
  let b := set_quota b Protocol.BlocksByRoot (f_blocks_by_root_quota config) in
  let b := set_quota b Protocol.BlobsByRange (f_blobs_by_range_quota config) in
  let b := set_quota b Protocol.BlobsByRoot (f_blobs_by_root_quota config) in
  let b := set_quota b Protocol.DataColumnsByRoot (f_data_columns_by_root_quota config) in
  let b := set_quota b Protocol.DataColumnsByRange (f_data_columns_by_range_quota config) in
  let b := set_quota b Protocol.LightClientBootstrap (f_light_client_bootstrap_quota config) in
  let b := set_quota b Protocol.LightClientOptimisticUpdate
             (f_light_client_optimistic_update_quota config) in
  let b := set_quota b Protocol.LightClientFinalityUpdate
             (f_light_client_finality_update_quota config) in
  let b := set_quota b Protocol.LightClientUpdatesByRange
             (f_light_client_updates_by_range_quota config) in
  build b c current_fork_epoch now.

End build.

(** ** Specification *)

(** The field of a protocol. *)
Definition field_of {A} (f : RateLimiterFields A) (p : Protocol) : A :=
  match p with
  | Protocol.Status => f_status_quota f
  | Protocol.Goodbye => f_goodbye_quota f
  | Protocol.BlocksByRange => f_blocks_by_range_quota f
  | Protocol.BlocksByRoot => f_blocks_by_root_quota f
  | Protocol.BlobsByRange => f_blobs_by_range_quota f
  | Protocol.BlobsByRoot => f_blobs_by_root_quota f
  | Protocol.DataColumnsByRoot => f_data_columns_by_root_quota f
  | Protocol.DataColumnsByRange => f_data_columns_by_range_quota f
  | Protocol.Ping => f_ping_quota f
  | Protocol.MetaData => f_meta_data_quota f
  | Protocol.LightClientBootstrap => f_light_client_bootstrap_quota f
  | Protocol.LightClientOptimisticUpdate => f_light_client_optimistic_update_quota f
  | Protocol.LightClientFinalityUpdate => f_light_client_finality_update_quota f
  | Protocol.LightClientUpdatesByRange => f_light_client_updates_by_range_quota f
  end.

(** The first quota a list gives for a protocol. *)
Fixpoint first_quota (pqs : list ProtocolQuota) (p : Protocol) : option Quota :=
  match pqs with
  | [] => None
  | pq :: pqs => if decide (pq_protocol pq = p) then Some (pq_quota pq) else first_quota pqs p
  end.

(** Quotas the textual format can express: whole seconds and 64-bit numbers. *)
Definition printable (pq : ProtocolQuota) : Prop :=
  exists seconds tokens,
    in_u64 seconds /\ in_u64 tokens /\ tokens <> 0 /\
    pq_quota pq = mkQuota (Duration_from_secs seconds) tokens.

(** ** Lemmas *)

Lemma Protocol_from_as_ref p : Protocol_from_str (Protocol_as_ref p) = Some p.
Proof. by destruct p. Qed.

Lemma Protocol_from_str_Some s p : Protocol_from_str s = Some p -> Protocol_as_ref p = s.
Proof. intros [_ Hs]%List.find_some. by apply bool_decide_eq_true in Hs. Qed.

(** Protocol names are free of the separators of the format. *)
Lemma Protocol_as_ref_no_sep p c :
  c ∈ [":"; "/"; ";"]%char -> c ∉ lit (Protocol_as_ref p).
Proof.
  rewrite !elem_of_cons, elem_of_nil. intros [->|[->|[->|[]]]]; destruct p; vm_compute; set_solver.
Qed.

Lemma print_u64_no_sep n c : 0 <= n -> digit_val c = None -> c ∉ print_u64 n.
Proof.
  intros Hn Hc Hin. destruct (print_u64_digits n Hn) as [Hd _]. rewrite Forall_forall in Hd.
  by apply (is_digit_ne c c (Hd _ Hin)).
Qed.

Lemma printable_secs pq : printable pq ->
  in_u64 (Duration_as_secs (replenish_all_every (pq_quota pq))) /\
  in_u64 (max_tokens (pq_quota pq)) /\ max_tokens (pq_quota pq) <> 0 /\
  pq_quota pq =
    mkQuota (Duration_from_secs (Duration_as_secs (replenish_all_every (pq_quota pq))))
      (max_tokens (pq_quota pq)).
Proof.
  intros (sec & tok & ? & ? & ? & ->). unfold Duration_as_secs, Duration_from_secs, NANOS_PER_SEC; simpl.
  by rewrite !Z.div_mul by lia.
Qed.

Lemma ProtocolQuota_fmt_no_sep pq : printable pq -> ";"%char ∉ ProtocolQuota_fmt pq.
Proof.
  intros ([? _] & [? _] & _)%printable_secs. unfold ProtocolQuota_fmt.
  rewrite !elem_of_app, !elem_of_cons, !elem_of_app, !elem_of_cons.
  intros [Hin|[?|[Hin|[?|Hin]]]]; try done.
  - by apply Protocol_as_ref_no_sep in Hin; [|set_solver].
  - by apply print_u64_no_sep in Hin.
  - by apply print_u64_no_sep in Hin.
Qed.

Lemma ProtocolQuota_roundtrip pq :
  printable pq -> ProtocolQuota_from_str (ProtocolQuota_fmt pq) = Ok pq.
Proof.
  intros (Hs & Ht & Ht0 & Hq)%printable_secs. unfold ProtocolQuota_from_str, ProtocolQuota_fmt.
  rewrite split_once_app by (apply Protocol_as_ref_no_sep; set_solver). simpl.
  unfold lit. rewrite String.string_of_list_ascii_of_string, Protocol_from_as_ref. simpl.
  rewrite split_once_app by (apply print_u64_no_sep; [by destruct Ht|done]). simpl.
  rewrite parse_print_nonzero_u64 by done. simpl. rewrite parse_print_u64 by done. simpl.
  rewrite <- Hq. by destruct pq.
Qed.

Lemma field_of_record f p q p' :
  field_of (record_quota f p q) p' =
  if decide (p = p') then option_or (field_of f p') q else field_of f p'.
Proof. by destruct f, p, p'. Qed.

Lemma field_of_fill f p :
  field_of (fill_defaults f) p = default (field_of RateLimiterConfig_default p) (field_of f p).
Proof. by destruct f, p. Qed.

Lemma record_quotas_Ok pqs : forall f defs,
  map ProtocolQuota_from_str defs = map Ok pqs ->
  exists f', record_quotas f defs = Ok f' /\
    forall p, field_of f' p = option_or (field_of f p) (first_quota pqs p).
Proof.
  induction pqs as [|pq pqs IH]; intros f [|d defs] Hd; simplify_eq/=.
  - exists f. split; [done|]. intros p. by destruct (field_of f p).
  - rewrite H. simpl. destruct (IH (record_quota f (pq_protocol pq) (Some (pq_quota pq))) defs)
      as (f' & -> & Hf'); [done|].
    exists f'. split; [done|]. intros p. rewrite Hf', field_of_record.
    by case_decide; destruct (field_of f p).
Qed.

Lemma config_from_str_Ok s pqs :
  map ProtocolQuota_from_str (split ";"%char s) = map Ok pqs ->
  exists cfg, RateLimiterConfig_from_str s = Ok cfg /\
    forall p, field_of cfg p = default (field_of RateLimiterConfig_default p) (first_quota pqs p).
Proof.
  intros Hs. unfold RateLimiterConfig_from_str.
  destruct (record_quotas_Ok pqs no_quotas _ Hs) as (f & -> & Hf). simpl.
  exists (fill_defaults f). split; [done|]. intros p. rewrite field_of_fill, Hf. by destruct p.
Qed.

(** ** Theorems *)

(** Round trip.  The configuration parsed from the printed form of a list of quotas gives every
    protocol the first quota the list has for it, and the protocol's default quota when the list has
    none. *)
Theorem config_parse_print pqs :
  pqs <> [] -> Forall printable pqs ->
  exists cfg, RateLimiterConfig_from_str (join ";"%char (map ProtocolQuota_fmt pqs)) = Ok cfg /\
    forall p, field_of cfg p = default (field_of RateLimiterConfig_default p) (first_quota pqs p).
Proof.
  intros Hne Hp. apply config_from_str_Ok. rewrite split_join.
  - rewrite map_map. apply map_ext_in. intros pq Hin%list_elem_of_In.
    rewrite Forall_forall in Hp. by apply ProtocolQuota_roundtrip, Hp.
  - by destruct pqs.
  - apply Forall_map. eapply Forall_impl; [done|]. apply ProtocolQuota_fmt_no_sep.
Qed.

Section build_theorems.
Context `{ChainTypes} `{Libp2p}.

Lemma new_with_config_quotas (cfg : RateLimiterConfig) :
  exists b, (forall c e now, new_with_config cfg c e now = build b c e now) /\
    forall p, builder_quota b p = Some (field_of cfg p).
Proof. eexists. split; [done|]. by intros []. Qed.

(** A configuration yields a rate limiter exactly when every quota it holds is valid, and the
    limiter consulted for each protocol is then built from that protocol's field; the default
    configuration is valid. *)
Theorem new_with_config_iff (cfg : RateLimiterConfig) (c : ChainConfig) (e : Epoch) (now : Instant) :
  ((exists rl, new_with_config cfg c e now = Ok rl) <->
   forall p, exists l, from_quota (Key := PeerId) (field_of cfg p) = Ok l) /\
  (forall rl, new_with_config cfg c e now = Ok rl ->
   forall p, from_quota (field_of cfg p) = Ok (limiter_of rl p)) /\
  (exists rl, new_with_config RateLimiterConfig_default c e now = Ok rl).
Proof.
  destruct (new_with_config_quotas cfg) as (b & Hb & Hq). rewrite Hb.
  split_and!; [split| |].
  - intros [rl Hrl] p. apply build_Ok in Hrl as (_ & _ & _ & Hp).
    destruct (Hp p) as (q & Hq' & Hl). rewrite Hq in Hq'. simplify_eq. eauto.
  - intros Hl.
    apply (build_complete b c e now (field_of cfg)
      (fun p => match from_quota (Key := PeerId) (field_of cfg p) with
                | Ok l => l | Err _ => mkLimiter 0 0 ∅ end)); [done|].
    intros p. by destruct (Hl p) as [l ->].
  - intros rl Hrl p. apply build_Ok in Hrl as (_ & _ & _ & Hp).
    destruct (Hp p) as (q & Hq' & Hl). rewrite Hq in Hq'. by simplify_eq.
  - eexists. reflexivity.
Qed.

End build_theorems.

(** ** Closed instances *)

Module RateConfigExamples.

(** A protocol given twice keeps its first quota. *)
Example first_wins :
  match RateLimiterConfig_from_str (lit "ping:4/2;status:1/1;ping:7/7") with
  | Ok cfg => (f_ping_quota cfg, f_status_quota cfg, f_goodbye_quota cfg)
  | Err _ => (one_every 0, one_every 0, one_every 0)
  end = (n_every 4 2, n_every 1 1, one_every 10).
Proof. vm_compute. reflexivity. Qed.

Example parse_errors :
  map RateLimiterConfig_from_str [lit ""; lit "ping:0/1"; lit "pong:1/1"; lit "ping:1"] =
  [Err "Missing ':' from quota definition."; Err "Failed to parse tokens from quota.";
   Err "Wrong protocol representation in quota";
   Err "Quota should be defined as n/t (t in seconds). Missing '/' from quota."]%string.
Proof. vm_compute. reflexivity. Qed.

Definition two_quotas : list ProtocolQuota :=
  [mkProtocolQuota Protocol.Ping (n_every 4 2); mkProtocolQuota Protocol.BlobsByRoot (n_every 896 10)].

Lemma config_parse_print_witness :
  exists cfg, RateLimiterConfig_from_str (join ";"%char (map ProtocolQuota_fmt two_quotas)) = Ok cfg /\
    forall p, field_of cfg p = default (field_of RateLimiterConfig_default p) (first_quota two_quotas p).
Proof.
  apply (config_parse_print two_quotas); [done|].
  apply Forall_cons. split; [exists 2, 4; by vm_compute|].
  apply Forall_cons. split; [exists 10, 896; by vm_compute|]. constructor.
Defined.

End RateConfigExamples.
