(* ===== verification/SelfLimiter.v ===== *)
(** * The limiter of our own requests ([rpc/self_limiter.rs])

    Requests to a peer are sent at once, or queued per peer and protocol when the rate limiter or the
    limit on concurrent requests refuses them; a timer per refused queue releases them later. *)

From S2P Require Import Prelude Timers Chain Protocol Messages RateLimiter RateConfig.

#[export] Instance Protocol_countable : Countable Protocol.
Proof.
  refine (inj_countable (fun p => Protocol_as_ref p) Protocol_from_str _).
  intros p. apply Protocol_from_as_ref.
Defined.

Section self_limiter.
Context `{ChainTypes} `{Libp2p} `{HashIter} `{DelayQueue} {Id : Type}.

(** [RPCSend]: events handed to the connection handlers. *)
Inductive RPCSend :=
  | SendRequest (id : Id) (req : RequestType)
  | SendResponse (substream_id : Z) (response : RpcResponse)
  | SendShutdown (id : Id) (reason : GoodbyeReason).

Record QueuedRequest := mkQueuedRequest {
  qr_req : RequestType;
  qr_request_id : Id;
  qr_queued_at : Duration;
}.

Definition WAIT_TIME_DUE_TO_CONCURRENT_REQUESTS : Z := 100.
Definition MAX_CONCURRENT_REQUESTS : Z := 2.

Abbreviation ActiveRequests := (gmap PeerId (gmap Protocol Z)) (only parsing).

Record SelfRateLimiter := mkSelfRateLimiter {
  active_requests : ActiveRequests;
  delayed_requests : gmap (PeerId * Protocol) (list QueuedRequest);
  next_peer_request : list ((PeerId * Protocol) * Instant);
  rate_limiter : option RPCRateLimiter;
  ready_requests : list (PeerId * RPCSend * Duration);
}.

Inductive SelfLimiterError :=
  | PendingRequests
  | SelfRateLimited.

Definition SelfRateLimiter_new (config : option RateLimiterConfig) (c : ChainConfig) (e : Epoch)
  (now : Instant) : result SelfRateLimiter string :=
  let? rate_limiter :=
    match config with
    | Some cfg => let? rl := new_with_config cfg c e now in Ok (Some rl)
    | None => Ok None
    end in
  Ok (mkSelfRateLimiter ∅ ∅ [] rate_limiter []).

(** The number of active requests of a peer on a protocol. *)
Definition active_count (a : ActiveRequests) (peer_id : PeerId) (p : Protocol) : option Z :=
  match a !! peer_id with Some m => m !! p | None => None end.

(** [*active_requests.entry(peer).or_default().entry(protocol).or_default() += 1]. *)
Definition active_incr (a : ActiveRequests) (peer_id : PeerId) (p : Protocol) : ActiveRequests :=
  let m := default ∅ (a !! peer_id) in
  <[peer_id := <[p := usize_wrapping_add (default 0 (m !! p)) 1]> m]> a.

Definition try_send_request (a : ActiveRequests) (rl : option RPCRateLimiter) (now : Instant)
  (timestamp : Duration) (peer_id : PeerId) (request_id : Id) (req : RequestType)
  : result RPCSend (QueuedRequest * Duration) * ActiveRequests * option RPCRateLimiter :=
  let queued := mkQueuedRequest req request_id timestamp in
  let send rl := (Ok (SendRequest request_id req), active_incr a peer_id (request_protocol req), rl) in
  let limited_by_concurrency :=
    match active_count a peer_id (request_protocol req) with
    | Some count => MAX_CONCURRENT_REQUESTS <=? count
    | None => false
    end in
  if limited_by_concurrency then
    (Err (queued, Duration_from_millis WAIT_TIME_DUE_TO_CONCURRENT_REQUESTS), a, rl)
  else
    match rl with
    | Some limiter =>
        let '(res, limiter) := rpc_allows limiter now peer_id req in
        match res with
        | Ok _ => send (Some limiter)
        | Err TooLarge => send (Some limiter)
        | Err (TooSoon wait_time) => (Err (queued, wait_time), a, Some limiter)
        end
    | None => send None
    end.

Definition self_allows (s : SelfRateLimiter) (now : Instant) (timestamp : Duration)
  (peer_id : PeerId) (request_id : Id) (req : RequestType)
  : result RPCSend SelfLimiterError * SelfRateLimiter :=
  let protocol := request_protocol req in
  let key := (peer_id, protocol) in
  match delayed_requests s !! key with
  | Some queued_requests =>
      (Err PendingRequests,
       mkSelfRateLimiter (active_requests s)
         (<[key := queued_requests ++ [mkQueuedRequest req request_id timestamp]]> (delayed_requests s))
         (next_peer_request s) (rate_limiter s) (ready_requests s))
  | None =>
      match try_send_request (active_requests s) (rate_limiter s) now timestamp peer_id request_id req with
      | (Err (rate_limited_req, wait_time), a, rl) =>
          (Err SelfRateLimited,
           mkSelfRateLimiter a
             (<[key := default [] (delayed_requests s !! key) ++ [rate_limited_req]]> (delayed_requests s))
             (dq_insert (next_peer_request s) now key wait_time) rl (ready_requests s))
      | (Ok event, a, rl) =>
          (Ok event,
           mkSelfRateLimiter a (delayed_requests s) (next_peer_request s) rl (ready_requests s))
      end
  end.

(** The loop of [next_peer_request_ready]: requests are taken from the front of the queue while they
    can be sent; the result has the requests left and, if one was refused, the time to wait. *)
Fixpoint drain_queue (a : ActiveRequests) (rl : option RPCRateLimiter) (now : Instant)
  (timestamp : Duration) (peer_id : PeerId) (queue : list QueuedRequest)
  (ready : list (PeerId * RPCSend * Duration))
  : ActiveRequests * option RPCRateLimiter * list QueuedRequest * list (PeerId * RPCSend * Duration)
    * option Duration :=
  match queue with
  | [] => (a, rl, [], ready, None)
  | q :: rest =>
      match try_send_request a rl now timestamp peer_id (qr_request_id q) (qr_req q) with
      | (Err (_, wait_time), a, rl) => (a, rl, q :: rest, ready, Some wait_time)
      | (Ok event, a, rl) =>
          drain_queue a rl now timestamp peer_id rest (ready ++ [(peer_id, event, qr_queued_at q)])
      end
  end.

Definition next_peer_request_ready (s : SelfRateLimiter) (now : Instant) (timestamp : Duration)
  (peer_id : PeerId) (protocol : Protocol) : SelfRateLimiter :=
  let key := (peer_id, protocol) in
  match delayed_requests s !! key with
  | None => s
  | Some queue =>
      let '(a, rl, queue, ready, wait) :=
        drain_queue (active_requests s) (rate_limiter s) now timestamp peer_id queue (ready_requests s) in
      match wait with
      | Some wait_time =>
          mkSelfRateLimiter a (<[key := queue]> (delayed_requests s))
            (dq_insert (next_peer_request s) now key wait_time) rl ready
      | None =>
          mkSelfRateLimiter a
            (match queue with
             | [] => delete key (delayed_requests s)
             | _ => <[key := queue]> (delayed_requests s)
             end) (next_peer_request s) rl ready
      end
  end.

Definition self_peer_disconnected (s : SelfRateLimiter) (peer_id : PeerId)
  : list (Id * Protocol) * SelfRateLimiter :=
  let failed_requests :=
    flat_map (fun '((map_peer_id, protocol), queue) =>
      if decide (map_peer_id = peer_id) then map (fun m => (qr_request_id m, protocol)) queue else [])
      (hash_iter (delayed_requests s)) in
  (failed_requests,
   mkSelfRateLimiter (delete peer_id (active_requests s))
     (filter (fun kv => kv.1.1 <> peer_id) (delayed_requests s))
     (next_peer_request s) (rate_limiter s) (ready_requests s)).

Definition request_completed (s : SelfRateLimiter) (peer_id : PeerId) (protocol : Protocol)
  : SelfRateLimiter :=
  let a := active_requests s in
  let a' :=
    match a !! peer_id with
    | Some m =>
        match m !! protocol with
        | Some n => <[peer_id := if 1 <? n then <[protocol := n - 1]> m else delete protocol m]> a
        | None => a
        end
    | None => a
    end in
  mkSelfRateLimiter a' (delayed_requests s) (next_peer_request s) (rate_limiter s) (ready_requests s).

(** [poll_ready]; [ticks] are the prune ticks the rate limiter's interval delivers during the call.
    The event returned, if any, is sent to any handler of the peer. *)
Definition self_poll_ready (s : SelfRateLimiter) (now : Instant) (timestamp : Duration)
  (ticks : list Instant) : option (PeerId * RPCSend) * SelfRateLimiter :=
  let s :=
    match poll_expired (next_peer_request s) now with
    | Some i =>
        let s' := mkSelfRateLimiter (active_requests s) (delayed_requests s)
                    (dq_remove (next_peer_request s) i) (rate_limiter s) (ready_requests s) in
        match next_peer_request s !! i with
        | Some ((peer_id, protocol), _) => next_peer_request_ready s' now timestamp peer_id protocol
        | None => s
        end
    | None => s
    end in
  let rl := rpc_poll ticks <$> rate_limiter s in
  match last (ready_requests s) with
  | Some (peer_id, event, _) =>
      (Some (peer_id, event),
       mkSelfRateLimiter (active_requests s) (delayed_requests s) (next_peer_request s) rl
         (take (length (ready_requests s) - 1) (ready_requests s)))
  | None =>
      (None,
       mkSelfRateLimiter (active_requests s) (delayed_requests s) (next_peer_request s) rl
         (ready_requests s))
  end.

End self_limiter.
Arguments RPCSend {_} Id.
Arguments QueuedRequest {_} Id.
Arguments SelfRateLimiter {_ _} Id.

(** ** Runs of the limiter *)

Section self_limiter_spec.
Context `{ChainTypes} `{Libp2p} `{HashIter} `{DelayQueue} {Id : Type}.
Implicit Types (s : SelfRateLimiter Id) (q : list (QueuedRequest Id)).

Inductive SelfOp :=
  | OpAllows (now : Instant) (timestamp : Duration) (peer_id : PeerId) (id : Id) (req : RequestType)
  | OpCompleted (peer_id : PeerId) (protocol : Protocol)
  | OpDisconnected (peer_id : PeerId)
  | OpPoll (now : Instant) (timestamp : Duration) (ticks : list Instant).

(** The request a call hands to a handler, if any. *)
Definition sent_ids (e : option (RPCSend Id)) : list Id :=
  match e with Some (SendRequest id _) => [id] | _ => [] end.

(** One call: the new state, the identifiers submitted, sent, and reported as failed. *)
Definition self_step s (op : SelfOp) : SelfRateLimiter Id * list Id * list Id * list Id :=
  match op with
  | OpAllows now ts peer id req =>
      let '(res, s') := self_allows s now ts peer id req in
      (s', [id], sent_ids (match res with Ok e => Some e | Err _ => None end), [])
  | OpCompleted peer p => (request_completed s peer p, [], [], [])
  | OpDisconnected peer => let '(failed, s') := self_peer_disconnected s peer in (s', [], [], failed.*1)
  | OpPoll now ts ticks =>
      let '(e, s') := self_poll_ready s now ts ticks in (s', [], sent_ids (snd <$> e), [])
  end.

Fixpoint self_run s (ops : list SelfOp) : SelfRateLimiter Id * list Id * list Id * list Id :=
  match ops with
  | [] => (s, [], [], [])
  | op :: ops =>
      let '(s1, sub1, sent1, failed1) := self_step s op in
      let '(s2, sub2, sent2, failed2) := self_run s1 ops in
      (s2, sub1 ++ sub2, sent1 ++ sent2, failed1 ++ failed2)
  end.

Definition self_initial s : Prop :=
  active_requests s = ∅ /\ delayed_requests s = ∅ /\ next_peer_request s = [] /\ ready_requests s = [].

(** The requests the limiter holds back. *)
Definition delayed_ids (m : gmap (PeerId * Protocol) (list (QueuedRequest Id))) : list Id :=
  flat_map (fun kv => map qr_request_id kv.2) (map_to_list m).
Definition ready_ids (r : list (PeerId * RPCSend Id * Duration)) : list Id :=
  flat_map (fun x => sent_ids (Some x.1.2)) r.
Definition pending_ids s : list Id := ready_ids (ready_requests s) ++ delayed_ids (delayed_requests s).

(** The invariant: at most [MAX_CONCURRENT_REQUESTS] requests are active per peer and protocol; a
    queue is never empty and only holds requests of its protocol; every queue has a timer. *)
Record self_inv s : Prop := {
  si_active : forall peer p n, active_count (active_requests s) peer p = Some n ->
    1 <= n <= MAX_CONCURRENT_REQUESTS;
  si_queues : forall key q, delayed_requests s !! key = Some q ->
    q <> [] /\ Forall (fun r => request_protocol (qr_req r) = key.2) q;
  si_timers : forall key q, delayed_requests s !! key = Some q ->
    exists deadline, (key, deadline) ∈ next_peer_request s;
}.

End self_limiter_spec.

(** ** Lemmas *)

Section self_limiter_lemmas.
Context `{ChainTypes} `{Libp2p} `{HashIter} `{DelayQueue} {Id : Type}.
Implicit Types (s : SelfRateLimiter Id) (q : list (QueuedRequest Id)).

Definition active_ok (a : gmap PeerId (gmap Protocol Z)) : Prop :=
  forall peer p n, active_count a peer p = Some n -> 1 <= n <= MAX_CONCURRENT_REQUESTS.

Lemma active_count_incr a peer p peer' p' :
  active_count (active_incr a peer p) peer' p' =
  if decide ((peer, p) = (peer', p'))
  then Some (usize_wrapping_add (default 0 (active_count a peer p)) 1)
  else active_count a peer' p'.
Proof.
  unfold active_count, active_incr. rewrite lookup_insert. case_decide as E1.
  - subst. rewrite lookup_insert. case_decide as E2; case_decide as E3; simplify_eq/=.
    + do 2 f_equal. by destruct (a !! peer').
    + by destruct (a !! peer').
  - case_decide; by simplify_eq.
Qed.

(** A request is sent only while fewer than the maximum are active, and then counted; a refused
    request leaves the counters alone and is returned as it was given. *)
Lemma try_send_request_spec a rl now ts peer (id : Id) req res a' rl' :
  try_send_request a rl now ts peer id req = (res, a', rl') -> active_ok a ->
  active_ok a' /\
  match res with
  | Ok e => e = SendRequest id req /\ a' = active_incr a peer (request_protocol req)
  | Err (r, _) => r = mkQueuedRequest req id ts /\ a' = a
  end.
Proof.
  intros E Ha. assert (
    match active_count a peer (request_protocol req) with
    | Some count => MAX_CONCURRENT_REQUESTS <=? count | None => false end = false ->
    active_ok (active_incr a peer (request_protocol req))) as Hincr.
  { intros Hc peer' p' n. rewrite active_count_incr. case_decide; [|apply Ha].
    intros [= <-]. unfold MAX_CONCURRENT_REQUESTS, usize_wrapping_add in *.
    destruct (active_count a peer _) as [c|] eqn:Ec; simpl; bool_to_Prop.
    - pose proof (Ha _ _ _ Ec). rewrite as_u64_small by (unfold_arith; lia). lia.
    - by vm_compute. }
  unfold try_send_request in E.
  destruct (match active_count a peer (request_protocol req) with
            | Some count => MAX_CONCURRENT_REQUESTS <=? count | None => false end); simplify_eq; [done|].
  destruct rl as [l|]; [|by simplify_eq; auto].
  destruct (rpc_allows l now peer req) as [[[]|[|w]] l']; simplify_eq; auto.
Qed.

Lemma drain_queue_spec q : forall a rl now ts peer ready a' rl' q' ready' wait,
  drain_queue a rl now ts peer q ready = (a', rl', q', ready', wait) -> active_ok a ->
  active_ok a' /\
  exists sent, q = sent ++ q' /\
    ready' = ready ++ map (fun r => (peer, SendRequest (qr_request_id r) (qr_req r), qr_queued_at r)) sent /\
    (wait = None <-> q' = []).
Proof.
  induction q as [|r q IH]; simpl; intros a rl now ts peer ready a' rl' q' ready' wait E Ha.
  - simplify_eq. split; [done|]. exists []. simpl. by rewrite app_nil_r.
  - destruct (try_send_request a rl now ts peer (qr_request_id r) (qr_req r)) as [[res a1] rl1] eqn:Et.
    apply try_send_request_spec in Et as [Ha1 Hres]; [|done].
    destruct res as [e|[r' w]].
    + destruct Hres as [-> _]. apply IH in E as (Ha' & sent & -> & -> & Hw); [|done].
      split; [done|]. exists (r :: sent). split_and!; [done| |done].
      rewrite <- (assoc_L (++)). done.
    + simplify_eq. split; [done|]. exists []. simpl. by rewrite app_nil_r.
Qed.

Lemma delayed_ids_lookup m key q : m !! key = Some q ->
  delayed_ids (Id := Id) m ≡ₚ map qr_request_id q ++ delayed_ids (delete key m).
Proof.
  intros Hq. unfold delayed_ids. rewrite <- (insert_delete_id m key q) at 1 by done.
  rewrite map_to_list_insert by apply lookup_delete_eq. done.
Qed.

Lemma delayed_ids_insert m key q :
  delayed_ids (Id := Id) (<[key := q]> m) ≡ₚ map qr_request_id q ++ delayed_ids (delete key m).
Proof.
  rewrite (delayed_ids_lookup _ key q) by apply lookup_insert_eq. by rewrite delete_insert_eq.
Qed.

Lemma delayed_ids_fresh m key q : m !! key = None ->
  delayed_ids (Id := Id) (<[key := q]> m) ≡ₚ map qr_request_id q ++ delayed_ids m.
Proof. intros. rewrite delayed_ids_insert. by rewrite delete_id. Qed.

Lemma ready_ids_app r1 r2 : ready_ids (Id := Id) (r1 ++ r2) = ready_ids r1 ++ ready_ids r2.
Proof. apply flat_map_app. Qed.

Lemma ready_ids_sent peer (sent : list (QueuedRequest Id)) :
  ready_ids (map (fun r => (peer, SendRequest (qr_request_id r) (qr_req r), qr_queued_at r)) sent) =
  map qr_request_id sent.
Proof. induction sent as [|r sent IH]; simpl; [done|]. by f_equal. Qed.

Lemma perm_add_middle (sub : Id) (r d d' : list Id) :
  d' ≡ₚ sub :: d -> sub :: (r ++ d) ≡ₚ r ++ d'.
Proof. intros ->. by rewrite Permutation_middle. Qed.

Lemma self_allows_inv s now ts peer id req :
  self_inv s -> self_inv (self_allows s now ts peer id req).2.
Proof.
  intros [Ha Hq Ht]. unfold self_allows.
  destruct (delayed_requests s !! (peer, request_protocol req)) as [q|] eqn:Eq.
  - split; simpl; [done|..]; intros key q'; rewrite lookup_insert; case_decide; simplify_eq/=; eauto.
    intros [= <-]. destruct (Hq _ _ Eq) as [_ Hf]. split; [by destruct q|].
    apply Forall_app; split; [done|]. by repeat constructor.
  - destruct (try_send_request _ _ _ _ _ _ _) as [[[e|[r w]] a] rl] eqn:Et;
      apply try_send_request_spec in Et as [Ha' Hr]; try done.
    destruct Hr as [-> ->]. split; simpl; [done|..]; intros key q'; rewrite lookup_insert;
      case_decide; simplify_eq/=.
    + intros [= <-]. split; [done|]. by repeat constructor.
    + eauto.
    + intros [= <-]. eexists. apply elem_of_app. right. by apply list_elem_of_singleton.
    + intros Hl. destruct (Ht _ _ Hl) as [d Hd]. exists d. apply elem_of_app. by left.
Qed.

Lemma self_allows_pending s now ts peer id req :
  self_inv s ->
  let '(res, s') := self_allows s now ts peer id req in
  id :: pending_ids s ≡ₚ sent_ids (match res with Ok e => Some e | Err _ => None end) ++ pending_ids s'.
Proof.
  intros [Ha _ _]. unfold self_allows, pending_ids.
  destruct (delayed_requests s !! (peer, request_protocol req)) as [q|] eqn:Eq.
  - simpl. apply perm_add_middle. rewrite delayed_ids_insert, (delayed_ids_lookup _ _ _ Eq), map_app.
    rewrite <- (assoc_L (++)). simpl. by rewrite <- Permutation_middle.
  - destruct (try_send_request _ _ _ _ _ _ _) as [[[e|[r w]] a] rl] eqn:Et;
      apply try_send_request_spec in Et as [_ Hr]; try done; destruct Hr as [-> ->]; simpl; [done|].
    apply perm_add_middle. by rewrite delayed_ids_fresh by done.
Qed.

Lemma next_peer_request_ready_inv s now ts peer p :
  active_ok (active_requests s) ->
  (forall key q, delayed_requests s !! key = Some q ->
    q <> [] /\ Forall (fun r => request_protocol (qr_req r) = key.2) q) ->
  (forall key q, key <> (peer, p) -> delayed_requests s !! key = Some q ->
    exists deadline, (key, deadline) ∈ next_peer_request s) ->
  self_inv (next_peer_request_ready s now ts peer p).
Proof.
  intros Ha Hq Ht. unfold next_peer_request_ready.
  destruct (delayed_requests s !! (peer, p)) as [q|] eqn:Eq.
  2: { split; [done..|]. intros key q Hl. destruct (decide (key = (peer, p))); [by simplify_eq|eauto]. }
  destruct (drain_queue _ _ _ _ _ _ _) as [[[[a rl] q'] ready] wait] eqn:Ed.
  apply drain_queue_spec in Ed as (Ha' & sent & -> & -> & Hw); [|done].
  destruct (Hq _ _ Eq) as [Hne Hf]. apply Forall_app in Hf as [_ Hf].
  destruct wait as [w|].
  - split; simpl; [done|..]; intros key q0; rewrite lookup_insert; case_decide; simplify_eq/=.
    + intros [= <-]. split; [|done]. intros ->. discriminate (proj2 Hw eq_refl).
    + eauto.
    + intros _. eexists. apply elem_of_app. right. by apply list_elem_of_singleton.
    + intros Hl. destruct (Ht key q0) as [d Hd]; [congruence|done|].
      exists d. apply elem_of_app. by left.
  - destruct Hw as [Hw _]. rewrite Hw by done.
    split; simpl; [done|..]; intros key q0 [Hk Hl]%lookup_delete_Some; eauto.
Qed.

Lemma next_peer_request_ready_pending s now ts peer p :
  active_ok (active_requests s) ->
  pending_ids (next_peer_request_ready s now ts peer p) ≡ₚ pending_ids s.
Proof.
  intros Ha. unfold next_peer_request_ready, pending_ids.
  destruct (delayed_requests s !! (peer, p)) as [q|] eqn:Eq; [|done].
  destruct (drain_queue _ _ _ _ _ _ _) as [[[[a rl] q'] ready] wait] eqn:Ed.
  apply drain_queue_spec in Ed as (Ha' & sent & -> & -> & Hw); [|done].
  rewrite (delayed_ids_lookup _ _ _ Eq), map_app.
  destruct wait as [w|]; simpl; rewrite ready_ids_app, ready_ids_sent.
  - by rewrite delayed_ids_insert, <- !(assoc_L (++)).
  - destruct Hw as [Hw _]. rewrite Hw by done. by rewrite app_nil_r, <- (assoc_L (++)).
Qed.

Lemma request_completed_inv s peer p : self_inv s -> self_inv (request_completed s peer p).
Proof.
  intros [Ha Hq Ht]. split; simpl; [|done..].
  destruct (active_requests s !! peer) as [m|] eqn:Em; [|done].
  destruct (m !! p) as [n|] eqn:En; [|done].
  assert (1 <= n <= MAX_CONCURRENT_REQUESTS) by (apply (Ha peer p); unfold active_count; by rewrite Em).
  intros peer' p' n'. unfold active_count. rewrite lookup_insert. case_decide; [|apply Ha]. subst.
  assert (forall p0 n0, m !! p0 = Some n0 -> 1 <= n0 <= MAX_CONCURRENT_REQUESTS) as Hm.
  { intros p0 n0 Hp0. apply (Ha peer' p0). unfold active_count. by rewrite Em. }
  case_match; bool_to_Prop.
  - rewrite lookup_insert. case_decide; [|apply Hm]. intros [= <-]. lia.
  - intros [_ Hl]%lookup_delete_Some. eauto.
Qed.

Lemma self_peer_disconnected_inv s peer : self_inv s -> self_inv (self_peer_disconnected s peer).2.
Proof.
  intros [Ha Hq Ht]. split; simpl.
  - intros peer' p n. unfold active_count. rewrite lookup_delete. case_decide; [done|]. apply Ha.
  - intros key q [Hl _]%map_lookup_filter_Some. eauto.
  - intros key q [Hl _]%map_lookup_filter_Some. eauto.
Qed.

Lemma filter_peer_pending (peer : PeerId) (m : gmap (PeerId * Protocol) (list (QueuedRequest Id))) :
  delayed_ids m ≡ₚ
  (flat_map (fun '((p', protocol), queue) =>
     if decide (p' = peer) then map (fun r => (qr_request_id r, protocol)) queue else []) (hash_iter m)).*1
  ++ delayed_ids (filter (fun kv => kv.1.1 <> peer) m).
Proof.
  rewrite hash_iter_perm. induction m as [|key q m Hk IH] using map_ind.
  - by rewrite map_filter_empty.
  - rewrite delayed_ids_fresh by done. rewrite map_to_list_insert by done. destruct key as [p' proto].
    simpl. case_decide as Hp.
    + rewrite map_filter_insert_False by (simpl; naive_solver). rewrite delete_id by done.
      rewrite fmap_app, <- list_fmap_compose, <- (assoc_L (++)), <- IH. done.
    + rewrite map_filter_insert_True by done. simpl.
      rewrite delayed_ids_fresh by (by apply map_lookup_filter_None_2; left).
      rewrite IH. apply Permutation_app_swap_app.
Qed.

Lemma self_peer_disconnected_pending s peer :
  pending_ids s ≡ₚ (self_peer_disconnected s peer).1.*1 ++ pending_ids (self_peer_disconnected s peer).2.
Proof.
  unfold pending_ids; simpl. rewrite (filter_peer_pending peer (delayed_requests s)) at 1.
  apply Permutation_app_swap_app.
Qed.

(** The first half of [poll_ready]: an expired timer releases its queue. *)
Lemma poll_expired_step s now ts :
  self_inv s ->
  exists s1, self_inv s1 /\ pending_ids s1 ≡ₚ pending_ids s /\
    forall ticks, self_poll_ready s now ts ticks =
      match last (ready_requests s1) with
      | Some (peer, event, _) =>
          (Some (peer, event), mkSelfRateLimiter (active_requests s1) (delayed_requests s1)
            (next_peer_request s1) (rpc_poll ticks <$> rate_limiter s1)
            (take (length (ready_requests s1) - 1) (ready_requests s1)))
      | None => (None, mkSelfRateLimiter (active_requests s1) (delayed_requests s1)
            (next_peer_request s1) (rpc_poll ticks <$> rate_limiter s1) (ready_requests s1))
      end.
Proof.
  intros [Ha Hq Ht]. unfold self_poll_ready.
  destruct (poll_expired (next_peer_request s) now) as [i|] eqn:Ei; [|by exists s].
  pose proof (poll_expired_Some _ _ _ Ei) as ([peer p] & d & Hi & _). rewrite Hi.
  eexists. split_and!; [| |done].
  - apply next_peer_request_ready_inv; simpl; [done..|].
    intros key q Hne Hl. destruct (Ht key q Hl) as [d' Hd']. exists d'.
    by eapply elem_of_dq_remove; [exact Hi|exact Hd'|simpl; congruence].
  - by rewrite next_peer_request_ready_pending.
Qed.

Lemma last_take_ids (r : list (PeerId * RPCSend Id * Duration)) x :
  last r = Some x ->
  ready_ids r ≡ₚ sent_ids (Some x.1.2) ++ ready_ids (take (length r - 1) r).
Proof.
  intros Hx. apply last_Some in Hx as [r' ->]. rewrite length_app. simpl.
  replace (length r' + 1 - 1)%nat with (length r') by lia.
  rewrite take_app_length, ready_ids_app. rewrite (comm (++)). f_equiv. simpl. by rewrite app_nil_r.
Qed.

Lemma self_poll_ready_ok s now ts ticks :
  self_inv s ->
  let '(e, s') := self_poll_ready s now ts ticks in
  self_inv s' /\ pending_ids s ≡ₚ sent_ids (snd <$> e) ++ pending_ids s'.
Proof.
  intros Hs. destruct (poll_expired_step s now ts Hs) as (s1 & [Ha Hq Ht] & Hp & ->).
  destruct (last (ready_requests s1)) as [[[peer ev] d]|] eqn:El.
  - split; [by split|]. rewrite <- Hp. unfold pending_ids; simpl.
    rewrite (last_take_ids _ _ El); simpl. by rewrite (assoc_L (++)).
  - split; [by split|]. by rewrite <- Hp.
Qed.

End self_limiter_lemmas.

(** ** Theorems *)

Section self_limiter_theorems.
Context `{ChainTypes} `{Libp2p} `{HashIter} `{DelayQueue} {Id : Type}.
Implicit Types (s : SelfRateLimiter Id).

Lemma self_step_ok s op :
  self_inv s ->
  let '(s', sub, sent, failed) := self_step s op in
  self_inv s' /\ sub ++ pending_ids s ≡ₚ sent ++ failed ++ pending_ids s'.
Proof.
  intros Hs. destruct op as [now ts peer id req|peer p|peer|now ts ticks]; unfold self_step.
  - pose proof (self_allows_inv s now ts peer id req Hs).
    pose proof (self_allows_pending s now ts peer id req Hs).
    destruct (self_allows _ _ _ _ _ _) as [res s']. done.
  - split; [by apply request_completed_inv|done].
  - pose proof (self_peer_disconnected_inv s peer Hs).
    pose proof (self_peer_disconnected_pending s peer).
    destruct (self_peer_disconnected s peer) as [f s']. done.
  - pose proof (self_poll_ready_ok s now ts ticks Hs).
    destruct (self_poll_ready s now ts ticks) as [e s']. done.
Qed.

Lemma self_initial_inv s : self_initial s -> self_inv s.
Proof.
  intros (Ha & Hd & Hn & Hr). split; rewrite ?Ha, ?Hd.
  - intros peer p n. unfold active_count. by rewrite lookup_empty.
  - intros key q. by rewrite lookup_empty.
  - intros key q. by rewrite lookup_empty.
Qed.

Lemma self_run_ok ops : forall s,
  self_inv s ->
  let '(s', sub, sent, failed) := self_run s ops in
  self_inv s' /\ sub ++ pending_ids s ≡ₚ sent ++ failed ++ pending_ids s'.
Proof.
  induction ops as [|op ops IH]; intros s Hs; simpl; [done|].
  pose proof (self_step_ok s op Hs) as Hstep.
  destruct (self_step s op) as [[[s1 sub1] sent1] failed1]. destruct Hstep as [Hs1 Hp1].
  pose proof (IH s1 Hs1) as Hrun.
  destruct (self_run s1 ops) as [[[s2 sub2] sent2] failed2]. destruct Hrun as [Hs2 Hp2].
  split; [done|].
  assert ((sub1 ++ sub2) ++ pending_ids s ≡ₚ sub2 ++ (sub1 ++ pending_ids s)) as ->
    by (rewrite <- (assoc_L (++)); apply Permutation_app_swap_app).
  rewrite Hp1.
  assert (sub2 ++ sent1 ++ failed1 ++ pending_ids s1 ≡ₚ sent1 ++ failed1 ++ (sub2 ++ pending_ids s1))
    as -> by (rewrite (Permutation_app_swap_app sub2 sent1); f_equiv; apply Permutation_app_swap_app).
  rewrite Hp2, <- !(assoc_L (++)). f_equiv.
  rewrite (Permutation_app_swap_app failed1 sent2). done.
Qed.

(** Invariant.  After any sequence of calls from a fresh limiter, at most
    [MAX_CONCURRENT_REQUESTS] requests are counted active per peer and protocol, no queue of delayed
    requests is empty or holds a request of another protocol, and every queue has a timer running
    that will release it. *)
Theorem self_limiter_invariant s ops :
  self_initial s -> self_inv (self_run s ops).1.1.1.
Proof.
  intros Hs%self_initial_inv. pose proof (self_run_ok ops s Hs) as Hr.
  destruct (self_run s ops) as [[[s' sub] sent] failed]. by destruct Hr.
Qed.

(** No request is lost or duplicated.  After any sequence of calls from a fresh limiter, the
    requests submitted are, as a multiset, those handed to the handlers, those reported as failed on a
    disconnection and those still held in a queue. *)
Theorem self_limiter_conserves s ops :
  self_initial s ->
  let '(s', submitted, sent, failed) := self_run s ops in
  submitted ≡ₚ sent ++ failed ++ pending_ids s'.
Proof.
  intros Hi. pose proof (self_run_ok ops s (self_initial_inv s Hi)) as Hr.
  destruct (self_run s ops) as [[[s' sub] sent] failed]. destruct Hr as [_ Hr].
  destruct Hi as (_ & Hd & _ & Hr0). unfold pending_ids at 1 in Hr.
  rewrite Hd, Hr0 in Hr. simpl in Hr. unfold delayed_ids in Hr.
  rewrite map_to_list_empty in Hr. simpl in Hr. by rewrite app_nil_r in Hr.
Qed.

(** Queues are first in, first out.  A request for a key with a queue goes to the back of it and
    is not sent; when the queue's timer fires, the requests moved to the ready list are a prefix of the
    queue, in order, and if any is left the timer is started again. *)
Theorem self_limiter_fifo s now ts peer id req q :
  self_inv s -> delayed_requests s !! (peer, request_protocol req) = Some q ->
  (self_allows s now ts peer id req).1 = Err PendingRequests /\
  delayed_requests (self_allows s now ts peer id req).2 !! (peer, request_protocol req) =
    Some (q ++ [mkQueuedRequest req id ts]) /\
  exists sent rest wait,
    q = sent ++ rest /\
    ready_requests (next_peer_request_ready s now ts peer (request_protocol req)) =
      ready_requests s ++
      map (fun r => (peer, SendRequest (qr_request_id r) (qr_req r), qr_queued_at r)) sent /\
    delayed_requests (next_peer_request_ready s now ts peer (request_protocol req))
      !! (peer, request_protocol req) = (if decide (rest = []) then None else Some rest) /\
    next_peer_request (next_peer_request_ready s now ts peer (request_protocol req)) =
      next_peer_request s ++
      (if decide (rest = []) then [] else [((peer, request_protocol req), now + wait)]).
Proof.
  intros [Ha _ _] Hq. unfold self_allows. rewrite Hq. split; [done|]. split.
  { simpl. by rewrite lookup_insert_eq. }
  unfold next_peer_request_ready. rewrite Hq.
  destruct (drain_queue _ _ _ _ _ _ _) as [[[[a rl] rest] ready] wait] eqn:Ed.
  apply drain_queue_spec in Ed as (_ & sent & -> & -> & Hw); [|done].
  exists sent, rest, (default 0 wait). split; [done|]. destruct wait as [w|].
  - rewrite !decide_False by (intros ->; discriminate (proj2 Hw eq_refl)).
    split_and!; [done|simpl; by rewrite lookup_insert_eq|done].
  - rewrite (proj1 Hw eq_refl), !decide_True by done.
    split_and!; [done|simpl; by rewrite lookup_delete_eq|simpl; by rewrite app_nil_r].
Qed.

End self_limiter_theorems.

(** ** Closed instances *)

Module SelfLimiterExamples.

#[local] Existing Instance ToyTimers.first_expired_queue.

#[local] Existing Instance Toy.chain.
#[local] Existing Instance Toy.libp2p.

Definition peer7 : @PeerId Toy.libp2p := 7.
Definition fresh : SelfRateLimiter Z := mkSelfRateLimiter ∅ ∅ [] None [].
Definition ping (id : Z) : SelfOp := OpAllows 0 0 peer7 id (ReqPing 0).

(** Four pings to one peer: two are sent, two are queued; the two answers let the queue go. *)
Definition four_pings : list SelfOp :=
  [ping 1; ping 2; ping 3; ping 4;
   OpCompleted peer7 Protocol.Ping; OpCompleted peer7 Protocol.Ping].

Lemma self_limiter_invariant_witness : self_inv (self_run fresh four_pings).1.1.1.
Proof. apply (self_limiter_invariant fresh four_pings). done. Defined.

Lemma self_limiter_conserves_witness : [1; 2; 3; 4] ≡ₚ [1; 2] ++ [] ++ [3; 4].
Proof. exact (self_limiter_conserves fresh four_pings ltac:(done)). Defined.

Lemma self_limiter_fifo_witness :
  (self_allows (self_run fresh four_pings).1.1.1 1 1 peer7 5 (ReqPing 0)).1
  = Err PendingRequests.
Proof.
  apply (self_limiter_fifo (self_run fresh four_pings).1.1.1 1 1 peer7 5 (ReqPing 0)
    [mkQueuedRequest (ReqPing 0) 3 0; mkQueuedRequest (ReqPing 0) 4 0]).
  - apply (self_run_ok four_pings fresh). by apply self_initial_inv.
  - reflexivity.
Defined.

(** Released requests leave in reverse order.  The ready list is emptied from its end: when the
    timer of a queue releases the requests 3 and 4 of one peer and protocol, in that order, the first
    call to [poll_ready] hands 4 to the handler and the second call hands 3. *)
Theorem ready_requests_are_lifo :
  let '(s, _, _, _) := self_run fresh four_pings in
  let '(e1, s1) := self_poll_ready s 100000000 0 [] in
  let '(e2, s2) := self_poll_ready s1 100000000 0 [] in
  (snd <$> e1, snd <$> e2) = (Some (SendRequest 4 (ReqPing 0)), Some (SendRequest 3 (ReqPing 0))).
Proof. evaluate. Qed.

(** A ready request survives the disconnection of its peer.  The request 3 is in the ready list
    when the peer disconnects; it is not among the requests reported as failed, and the next call to
    [poll_ready] still hands it to a handler of the disconnected peer. *)
Theorem ready_request_after_disconnect :
  let '(s, _, _, _) := self_run fresh four_pings in
  let '(_, s) := self_poll_ready s 100000000 0 [] in
  let '(failed, s) := self_peer_disconnected s peer7 in
  let '(e, _) := self_poll_ready s 200000000 0 [] in
  (failed, e) = ([], Some (peer7, SendRequest 3 (ReqPing 0))).
Proof. evaluate. Qed.

End SelfLimiterExamples.
