(* ===== verification/ResponseLimiter.v ===== *)
(** * The limiter of our responses ([rpc/response_limiter.rs])

    Response chunks the rate limiter refuses are queued per peer and protocol; the timer of a queue
    releases as many as the limiter then allows. *)

From S2P Require Import Prelude Timers Chain Protocol Messages RateLimiter RateConfig SelfLimiter.

Section response_limiter.
Context `{ChainTypes} `{Libp2p} `{DelayQueue}.

Record QueuedResponse := mkQueuedResponse {
  qp_peer_id : PeerId;
  qp_connection_id : Z;
  qp_substream_id : Z;
  qp_response : RpcResponse;
  qp_protocol : Protocol;
  qp_queued_at : Duration;
}.

Record ResponseLimiter := mkResponseLimiter {
  limiter : RPCRateLimiter;
  delayed_responses : gmap (PeerId * Protocol) (list QueuedResponse);
  next_response : list ((PeerId * Protocol) * Instant);
}.

Definition ResponseLimiter_new (config : RateLimiterConfig) (c : ChainConfig) (e : Epoch) (now : Instant)
  : result ResponseLimiter string :=
  let? rl := new_with_config config c e now in
  Ok (mkResponseLimiter rl ∅ []).

Definition try_limiter (rl : RPCRateLimiter) (now : Instant) (peer_id : PeerId) (response : RpcResponse)
  (protocol : Protocol) : result unit Duration * RPCRateLimiter :=
  let '(res, rl) := rpc_allows rl now peer_id (response, protocol) in
  match res with
  | Ok _ => (Ok tt, rl)
  | Err TooLarge => (Ok tt, rl)
  | Err (TooSoon wait_time) => (Err wait_time, rl)
  end.

Definition response_allows (s : ResponseLimiter) (now : Instant) (timestamp : Duration)
  (peer_id : PeerId) (protocol : Protocol) (connection_id substream_id : Z) (response : RpcResponse)
  : bool * ResponseLimiter :=
  let key := (peer_id, protocol) in
  let queued := mkQueuedResponse peer_id connection_id substream_id response protocol timestamp in
  match delayed_responses s !! key with
  | Some queue =>
      (false, mkResponseLimiter (limiter s) (<[key := queue ++ [queued]]> (delayed_responses s))
                (next_response s))
  | None =>
      match try_limiter (limiter s) now peer_id response protocol with
      | (Err wait_time, rl) =>
          (false, mkResponseLimiter rl
                    (<[key := default [] (delayed_responses s !! key) ++ [queued]]> (delayed_responses s))
                    (dq_insert (next_response s) now key wait_time))
      | (Ok _, rl) => (true, mkResponseLimiter rl (delayed_responses s) (next_response s))
      end
  end.

Definition response_peer_disconnected (s : ResponseLimiter) (peer_id : PeerId) : ResponseLimiter :=
  mkResponseLimiter (limiter s) (filter (fun kv => kv.1.1 <> peer_id) (delayed_responses s))
    (next_response s).

(** The inner loop: take responses from the front of the queue while the limiter allows it. *)
Fixpoint drain_responses (rl : RPCRateLimiter) (now : Instant) (queue responses : list QueuedResponse)
  : RPCRateLimiter * list QueuedResponse * list QueuedResponse * option Duration :=
  match queue with
  | [] => (rl, [], responses, None)
  | r :: rest =>
      match try_limiter rl now (qp_peer_id r) (qp_response r) (qp_protocol r) with
      | (Ok _, rl) => drain_responses rl now rest (responses ++ [r])
      | (Err wait_time, rl) => (rl, r :: rest, responses, Some wait_time)
      end
  end.

(** One iteration of the outer loop, for an expired timer of [key]. *)
Definition release_key (s : ResponseLimiter) (now : Instant) (key : PeerId * Protocol)
  (responses : list QueuedResponse) : ResponseLimiter * list QueuedResponse :=
  match delayed_responses s !! key with
  | None => (s, responses)
  | Some queue =>
      let '(rl, queue, responses, wait) := drain_responses (limiter s) now queue responses in
      let timers :=
        match wait with
        | Some wait_time => dq_insert (next_response s) now key wait_time
        | None => next_response s
        end in
      let delayed :=
        match queue with
        | [] => delete key (delayed_responses s)
        | _ => <[key := queue]> (delayed_responses s)
        end in
      (mkResponseLimiter rl delayed timers, responses)
  end.

(** The outer loop, bounded by [fuel]; [None] when the fuel is used up. *)
Fixpoint poll_loop (fuel : nat) (s : ResponseLimiter) (now : Instant) (responses : list QueuedResponse)
  : option (ResponseLimiter * list QueuedResponse) :=
  match poll_expired (next_response s) now with
  | None => Some (s, responses)
  | Some i =>
      match fuel with
      | O => None
      | S fuel =>
          let s' := mkResponseLimiter (limiter s) (delayed_responses s) (dq_remove (next_response s) i) in
          match next_response s !! i with
          | Some (key, _) =>
              let '(s', responses) := release_key s' now key responses in
              poll_loop fuel s' now responses
          | None => poll_loop fuel s' now responses
          end
      end
  end.

(** [poll_ready]: the responses released; the empty list stands for [Poll::Pending].  One iteration
    per timer is enough, see [response_poll_terminates]. *)
Definition response_poll_ready (s : ResponseLimiter) (now : Instant) (ticks : list Instant)
  : option (list QueuedResponse * ResponseLimiter) :=
  match poll_loop (length (next_response s)) s now [] with
  | Some (s, responses) =>
      Some (responses, mkResponseLimiter (rpc_poll ticks (limiter s)) (delayed_responses s)
                         (next_response s))
  | None => None
  end.

End response_limiter.

(** ** Runs of the limiter *)

Section response_spec.
Context `{ChainTypes} `{Libp2p} `{DelayQueue}.
Implicit Types (s : ResponseLimiter) (k : PeerId * Protocol).

Definition key_of (r : QueuedResponse) : PeerId * Protocol := (qp_peer_id r, qp_protocol r).

(** The responses of a list that belong to a key, in order. *)
Definition of_key k (l : list QueuedResponse) : list QueuedResponse := filter (fun r => key_of r = k) l.

Definition queue_of s k : list QueuedResponse := default [] (delayed_responses s !! k).

Inductive ResponseOp :=
  | RAllows (now : Instant) (r : QueuedResponse)
  | RDisconnected (peer_id : PeerId)
  | RPoll (now : Instant) (ticks : list Instant).

(** One call: the new state, the responses submitted and the responses sent, in order. *)
Definition response_step s (op : ResponseOp)
  : option (ResponseLimiter * list QueuedResponse * list QueuedResponse) :=
  match op with
  | RAllows now r =>
      let '(now_sent, s') := response_allows s now (qp_queued_at r) (qp_peer_id r) (qp_protocol r)
                               (qp_connection_id r) (qp_substream_id r) (qp_response r) in
      Some (s', [r], if now_sent : bool then [r] else [])
  | RDisconnected peer => Some (response_peer_disconnected s peer, [], [])
  | RPoll now ticks =>
      match response_poll_ready s now ticks with
      | Some (responses, s') => Some (s', [], responses)
      | None => None
      end
  end.

Fixpoint response_run s (ops : list ResponseOp)
  : option (ResponseLimiter * list QueuedResponse * list QueuedResponse) :=
  match ops with
  | [] => Some (s, [], [])
  | op :: ops =>
      match response_step s op with
      | Some (s1, sub1, sent1) =>
          match response_run s1 ops with
          | Some (s2, sub2, sent2) => Some (s2, sub1 ++ sub2, sent1 ++ sent2)
          | None => None
          end
      | None => None
      end
  end.

Definition not_disconnecting (peer : PeerId) (op : ResponseOp) : Prop :=
  match op with RDisconnected p => p <> peer | _ => True end.

(** The invariant: queues are not empty, hold responses of their key, and have a timer. *)
Record response_inv s : Prop := {
  ri_queues : forall k q, delayed_responses s !! k = Some q ->
    q <> [] /\ Forall (fun r => key_of r = k) q;
  ri_timers : forall k q, delayed_responses s !! k = Some q ->
    exists deadline, (k, deadline) ∈ next_response s;
}.

(** The number of timers that have expired. *)
Definition expired_count (now : Instant) (q : list ((PeerId * Protocol) * Instant)) : nat :=
  length (filter (fun e => e.2 <= now) q).

End response_spec.

(** ** Lemmas *)

Section response_lemmas.
Context `{ChainTypes} `{Libp2p} `{DelayQueue}.
Implicit Types (s : ResponseLimiter) (k : PeerId * Protocol) (q : list QueuedResponse).

Lemma rpc_allows_wait_pos `{!RateLimiterItem Item} rl now peer (item : Item) w rl' :
  rpc_allows rl now peer item = (Err (TooSoon w), rl') -> 0 < w.
Proof.
  unfold rpc_allows. rewrite Limiter_allows_as_u64, Limiter_allows_eff by auto with eth2. cbv zeta.
  intros E. repeat case_match; simplify_eq. bool_to_Prop. lia.
Qed.

Lemma try_limiter_wait_pos rl now peer r p w rl' : try_limiter rl now peer r p = (Err w, rl') -> 0 < w.
Proof.
  unfold try_limiter. destruct (rpc_allows rl now peer (r, p)) as [[|[|w']] ?] eqn:E; intros; simplify_eq.
  by eapply rpc_allows_wait_pos.
Qed.

Lemma drain_responses_spec q : forall rl now acc rl' q' acc' wait,
  drain_responses rl now q acc = (rl', q', acc', wait) ->
  exists sent, q = sent ++ q' /\ acc' = acc ++ sent /\
    match wait with Some w => 0 < w /\ q' <> [] | None => q' = [] end.
Proof.
  induction q as [|r q IH]; simpl; intros rl now acc rl' q' acc' wait E.
  - simplify_eq. exists []. simpl. by rewrite app_nil_r.
  - destruct (try_limiter rl now _ _ _) as [[[]|w] rl1] eqn:Et.
    + apply IH in E as (sent & -> & -> & Hw). exists (r :: sent).
      by rewrite <- (assoc_L (++)).
    + simplify_eq. exists []. simpl. rewrite app_nil_r.
      split_and!; [done..|by eapply try_limiter_wait_pos|done].
Qed.

Lemma of_key_app k l1 l2 : of_key k (l1 ++ l2) = of_key k l1 ++ of_key k l2.
Proof. apply filter_app. Qed.

Lemma of_key_same k l : Forall (fun r => key_of r = k) l -> of_key k l = l.
Proof. induction 1; [done|]. unfold of_key in *. rewrite filter_cons_True by done. by f_equal. Qed.

Lemma of_key_other k k' l : k' <> k -> Forall (fun r => key_of r = k') l -> of_key k l = [].
Proof.
  intros Hne. induction 1; [done|]. unfold of_key in *. rewrite filter_cons_False by congruence. done.
Qed.

(** What releasing a key does: a prefix of its queue is sent, other queues are untouched, and either
    the queue is gone or its timer runs again. *)
Lemma release_key_spec s now key acc s' acc' :
  release_key s now key acc = (s', acc') ->
  exists sent,
    acc' = acc ++ sent /\ queue_of s key = sent ++ queue_of s' key /\
    (forall k, k <> key -> delayed_responses s' !! k = delayed_responses s !! k) /\
    ((delayed_responses s' !! key = None /\ next_response s' = next_response s) \/
     exists q w, 0 < w /\ q <> [] /\ delayed_responses s' !! key = Some q /\
       next_response s' = next_response s ++ [(key, now + w)]).
Proof.
  unfold release_key, queue_of. destruct (delayed_responses s !! key) as [q|] eqn:Eq.
  2: { intros [= <- <-]. exists []. simpl. rewrite app_nil_r, Eq. eauto 10. }
  destruct (drain_responses _ _ _ _) as [[[rl q'] acc1] wait] eqn:Ed.
  apply drain_responses_spec in Ed as (sent & -> & -> & Hw). intros [= <- <-].
  exists sent. destruct wait as [w|]; simpl.
  - destruct Hw as [Hw Hne]. destruct q' as [|r q']; [done|]. rewrite lookup_insert_eq. split_and!; auto.
    + intros k Hk. by rewrite lookup_insert_ne.
    + right. exists (r :: q'), w. auto.
  - subst q'. rewrite lookup_delete_eq. split_and!; auto. intros k Hk. by rewrite lookup_delete_ne.
Qed.

Lemma release_key_inv s now key acc s' acc' :
  (forall k q, delayed_responses s !! k = Some q -> q <> [] /\ Forall (fun r => key_of r = k) q) ->
  (forall k q, k <> key -> delayed_responses s !! k = Some q ->
    exists d, (k, d) ∈ next_response s) ->
  release_key s now key acc = (s', acc') ->
  response_inv s' /\ exists sent, acc' = acc ++ sent /\ Forall (fun r => key_of r = key) sent /\
    forall k, queue_of s k = (if decide (k = key) then sent else []) ++ queue_of s' k.
Proof.
  intros Hq Ht Hr. apply release_key_spec in Hr as (sent & -> & Hs & Ho & Hcase).
  assert (Forall (fun r => key_of r = key) (sent ++ queue_of s' key)) as Hf.
  { rewrite <- Hs. unfold queue_of. destruct (delayed_responses s !! key) eqn:E; [|done].
    by apply Hq in E as [_ ?]. }
  apply Forall_app in Hf as [Hf1 Hf2]. split.
  - split; intros k q Hk; destruct (decide (k = key)) as [->|Hne].
    + split; [|unfold queue_of in Hf2; by rewrite Hk in Hf2].
      destruct Hcase as [[? _]|(q0 & w & _ & ? & ? & _)]; by simplify_eq.
    + rewrite Ho in Hk by done. eauto.
    + destruct Hcase as [[? _]|(q0 & w & _ & ? & ? & ->)]; simplify_eq.
      eexists. apply elem_of_app. right. by apply list_elem_of_singleton.
    + rewrite Ho in Hk by done. destruct (Ht k q Hne Hk) as [d Hd]. exists d.
      destruct Hcase as [[_ ->]|(q0 & w & _ & _ & _ & ->)]; [done|]. apply elem_of_app. by left.
  - exists sent. split_and!; [done..|]. intros k. case_decide as Hk; [by subst|].
    unfold queue_of. by rewrite Ho.
Qed.

Lemma expired_count_remove now l i x :
  l !! i = Some x -> x.2 <= now -> expired_count now l = S (expired_count now (dq_remove l i)).
Proof.
  intros Hi Hx. unfold expired_count, dq_remove. rewrite <- (take_drop_middle l i x Hi) at 1.
  rewrite !filter_app, filter_cons_True by done. rewrite !length_app. simpl. lia.
Qed.

Lemma release_key_expired s now key acc s' acc' :
  release_key s now key acc = (s', acc') ->
  expired_count now (next_response s') = expired_count now (next_response s).
Proof.
  intros (sent & _ & _ & _ & Hc)%release_key_spec.
  destruct Hc as [[_ ->]|(q & w & Hw & _ & _ & ->)]; [done|].
  unfold expired_count. rewrite filter_app, filter_cons_False by (simpl; lia). simpl.
  by rewrite app_nil_r.
Qed.

(** The outer loop, by induction on its iterations: it ends when the timers that have expired are
    used up, and sends a prefix of every queue. *)
Lemma poll_loop_spec fuel : forall s now acc,
  response_inv s -> (expired_count now (next_response s) <= fuel)%nat ->
  exists s' sent, poll_loop fuel s now acc = Some (s', acc ++ sent) /\ response_inv s' /\
    forall k, queue_of s k = of_key k sent ++ queue_of s' k.
Proof.
  induction fuel as [|fuel IH]; intros s now acc Hs Hfuel; simpl;
    (destruct (poll_expired (next_response s) now) as [i|] eqn:Ei;
     [|exists s, []; split_and!; [by rewrite app_nil_r|done|done]]);
    pose proof (poll_expired_Some _ _ _ Ei) as (key & d & Hi & Hd);
    pose proof (expired_count_remove now _ _ _ Hi Hd) as Hc; [lia|].
  rewrite Hi. set (s0 := mkResponseLimiter _ _ _).
  destruct (release_key s0 now key acc) as [s1 acc1] eqn:Er.
  pose proof (release_key_expired _ _ _ _ _ _ Er) as Hc1.
  destruct Hs as [Hq Ht].
  apply release_key_inv in Er as (Hs1 & sent & -> & Hsent & Hqs); [|done|].
  - destruct (IH s1 now (acc ++ sent) Hs1) as (s2 & sent2 & E2 & Hs2 & Hq2).
    { rewrite Hc1. subst s0. simpl. lia. }
    exists s2, (sent ++ sent2). rewrite E2, (assoc_L (++)). split_and!; [done..|].
    intros k. change (queue_of s k) with (queue_of s0 k).
    rewrite Hqs, Hq2, of_key_app, <- (assoc_L (++)). f_equal.
    case_decide as Hk; [subst; by rewrite of_key_same|]. by rewrite (of_key_other k key) by congruence.
  - intros k q Hne Hl. destruct (Ht k q Hl) as [d' Hd']. exists d'.
    by eapply elem_of_dq_remove; [exact Hi|exact Hd'|simpl; congruence].
Qed.

Lemma expired_count_le now (l : list ((PeerId * Protocol) * Instant)) :
  (expired_count now l <= length l)%nat.
Proof. unfold expired_count. apply length_filter. Qed.

Lemma response_poll_ready_spec s now ticks :
  response_inv s ->
  exists sent s', response_poll_ready s now ticks = Some (sent, s') /\ response_inv s' /\
    forall k, queue_of s k = of_key k sent ++ queue_of s' k.
Proof.
  intros Hs. unfold response_poll_ready.
  destruct (poll_loop_spec _ s now [] Hs (expired_count_le now _)) as (s' & sent & -> & [] & Hk).
  eexists _, _. split_and!; [reflexivity|by split|done].
Qed.

Lemma response_allows_spec s now r :
  response_inv s ->
  let '(b, s') := response_allows s now (qp_queued_at r) (qp_peer_id r) (qp_protocol r)
                    (qp_connection_id r) (qp_substream_id r) (qp_response r) in
  response_inv s' /\
  forall k, queue_of s k ++ of_key k [r] = of_key k (if b : bool then [r] else []) ++ queue_of s' k.
Proof.
  intros [Hq Ht]. destruct r as [peer con sub res p at_]; unfold response_allows; simpl.
  set (r := mkQueuedResponse _ _ _ _ _ _). set (key := (peer, p)).
  assert (forall s' q, delayed_responses s' = <[key := q ++ [r]]> (delayed_responses s) ->
    q = queue_of s key -> Forall (fun r => key_of r = key) (q ++ [r]) /\
    forall k, queue_of s k ++ of_key k [r] = queue_of s' k) as Hins.
  { intros s' q E ->. split.
    - apply Forall_app. split; [|by repeat constructor]. unfold queue_of.
      destruct (delayed_responses s !! key) eqn:E'; [|done]. by apply Hq in E' as [_ ?].
    - intros k. unfold queue_of at 2. rewrite E, lookup_insert. case_decide as Hk.
      + subst k. simpl. by rewrite of_key_same by (by repeat constructor).
      + rewrite (of_key_other k key) by (first [congruence|by repeat constructor]). by rewrite app_nil_r. }
  destruct (delayed_responses s !! key) as [q|] eqn:Eq.
  - edestruct Hins as [Hf Hk]; [|by unfold queue_of; rewrite Eq|split; [|exact Hk]]; [done|].
    split; simpl; intros k q'; rewrite lookup_insert; case_decide; intros; simplify_eq; eauto.
    split; [by destruct q|done].
  - destruct (try_limiter _ _ _ _ _) as [[[]|w] rl]; simpl.
    + split; [by split|]. intros k. destruct (decide (key = k)) as [<-|Hne].
      * unfold queue_of. simpl. rewrite Eq. by rewrite app_nil_r.
      * rewrite (of_key_other k key) by (first [congruence|by repeat constructor]). by rewrite app_nil_r.
    + edestruct (Hins (mkResponseLimiter rl (<[key := [r]]> (delayed_responses s))
          (dq_insert (next_response s) now key w)) []) as [Hf Hk];
        [done|by unfold queue_of; rewrite Eq|split; [|exact Hk]].
      split; simpl; intros k q'; rewrite lookup_insert; case_decide; intros; simplify_eq.
      * done.
      * eauto.
      * eexists. apply elem_of_app. right. by apply list_elem_of_singleton.
      * destruct (Ht k q') as [d Hd]; [done|]. exists d. apply elem_of_app. by left.
Qed.

Lemma response_peer_disconnected_spec s peer :
  response_inv s ->
  response_inv (response_peer_disconnected s peer) /\
  forall k, k.1 <> peer -> queue_of (response_peer_disconnected s peer) k = queue_of s k.
Proof.
  intros [Hq Ht]. split.
  - split; simpl; intros k q [Hl _]%map_lookup_filter_Some; eauto.
  - intros k Hk. unfold queue_of; simpl. rewrite map_lookup_filter.
    destruct (delayed_responses s !! k) as [q|]; simpl; [|done].
    by case_guard.
Qed.

Lemma response_step_spec s op :
  response_inv s ->
  exists s' sub sent, response_step s op = Some (s', sub, sent) /\ response_inv s' /\
    forall k, not_disconnecting k.1 op ->
      queue_of s k ++ of_key k sub = of_key k sent ++ queue_of s' k.
Proof.
  intros Hs. destruct op as [now r|peer|now ticks]; simpl.
  - pose proof (response_allows_spec s now r Hs) as Ha.
    destruct (response_allows _ _ _ _ _ _ _ _) as [b s']. destruct Ha. eauto 10.
  - destruct (response_peer_disconnected_spec s peer Hs) as [Hi Hk]. eexists _, _, _.
    split_and!; [done..|]. intros k Hne. rewrite Hk by done. by rewrite app_nil_r.
  - destruct (response_poll_ready_spec s now ticks Hs) as (sent & s' & -> & Hi & Hk).
    eexists _, _, _. split_and!; [done..|]. intros k _. rewrite Hk. by rewrite app_nil_r.
Qed.

Lemma response_run_spec ops : forall s,
  response_inv s ->
  exists s' sub sent, response_run s ops = Some (s', sub, sent) /\ response_inv s' /\
    forall k, Forall (not_disconnecting k.1) ops ->
      queue_of s k ++ of_key k sub = of_key k sent ++ queue_of s' k.
Proof.
  induction ops as [|op ops IH]; intros s Hs; simpl.
  - eexists _, _, _. split_and!; [done..|]. intros k _. by rewrite app_nil_r.
  - destruct (response_step_spec s op Hs) as (s1 & sub1 & sent1 & -> & Hs1 & Hk1).
    destruct (IH s1 Hs1) as (s2 & sub2 & sent2 & -> & Hs2 & Hk2).
    eexists _, _, _. split_and!; [done..|]. intros k [Hop Hops]%Forall_cons.
    rewrite !of_key_app, (assoc_L (++)), Hk1, <- !(assoc_L (++)) by done. f_equal. by apply Hk2.
Qed.

(** Polling terminates.  From a state in which every queue of delayed responses is non-empty and
    has a timer, [poll_ready] returns: one iteration per running timer is enough, because a queue that
    is refused again gets a deadline strictly in the future.  The state it leaves has the same
    property. *)
Theorem response_poll_terminates s now ticks :
  response_inv s ->
  exists responses s', response_poll_ready s now ticks = Some (responses, s') /\ response_inv s'.
Proof. intros Hs. destruct (response_poll_ready_spec s now ticks Hs) as (? & ? & ? & ? & _); eauto. Qed.

(** C39: responses leave in the order they were submitted.  In any sequence of calls from a limiter
    with empty queues, for every peer that is not disconnected and every protocol, the responses sent
    to that peer on that protocol followed by the ones still queued are exactly the responses
    submitted, in the order they were submitted: none is lost, duplicated or reordered. *)
Theorem response_order s ops (peer : PeerId) (p : Protocol) :
  delayed_responses s = ∅ -> Forall (not_disconnecting peer) ops ->
  exists s' submitted sent,
    response_run s ops = Some (s', submitted, sent) /\
    of_key (peer, p) submitted = of_key (peer, p) sent ++ queue_of s' (peer, p).
Proof.
  intros He Hops. assert (response_inv s) as Hs.
  { split; rewrite He; intros k q Hk; by rewrite lookup_empty in Hk. }
  destruct (response_run_spec ops s Hs) as (s' & sub & sent & -> & _ & Hk).
  exists s', sub, sent. split; [done|]. rewrite <- Hk by done.
  unfold queue_of at 1. by rewrite He, lookup_empty.
Qed.

End response_lemmas.

(** ** Closed instances *)

Module ResponseLimiterExamples.

#[local] Existing Instance Toy.chain.
#[local] Existing Instance Toy.libp2p.
#[local] Existing Instance ToyTimers.first_expired_queue.

Definition peer7 : @PeerId Toy.libp2p := 7.

(** The default quotas allow two pongs in ten seconds. *)
Definition fresh : ResponseLimiter :=
  unwrap (ResponseLimiter_new RateLimiterConfig_default tt 0 0) eq_refl.

Definition pong (n : Z) : QueuedResponse :=
  mkQueuedResponse peer7 1 n (RpcSuccess (RespPong n)) Protocol.Ping 0.

Definition four_pongs : list ResponseOp :=
  [RAllows 0 (pong 1); RAllows 0 (pong 2); RAllows 0 (pong 3); RAllows 0 (pong 4);
   RPoll (Duration_from_secs 1) []; RPoll (Duration_from_secs 6) []].

Lemma fresh_queues : delayed_responses fresh = ∅.
Proof. evaluate. Qed.

(** Two are sent at once, the third when its timer fires, the fourth is still queued. *)
Example four_pongs_run :
  match response_run fresh four_pongs with
  | Some (s, submitted, sent) =>
      (map qp_substream_id submitted, map qp_substream_id sent,
       map qp_substream_id (queue_of s (peer7, Protocol.Ping)))
  | None => ([], [], [])
  end = ([1; 2; 3; 4], [1; 2; 3], [4]).
Proof. evaluate. Qed.

Lemma response_poll_terminates_witness :
  exists responses s', response_poll_ready fresh 0 [] = Some (responses, s') /\ response_inv s'.
Proof.
  apply (response_poll_terminates fresh 0 []). split; intros k q Hk; rewrite fresh_queues in Hk;
    by rewrite lookup_empty in Hk.
Defined.

Lemma response_order_witness :
  exists s' submitted sent,
    response_run fresh four_pongs = Some (s', submitted, sent) /\
    of_key (peer7, Protocol.Ping) submitted =
      of_key (peer7, Protocol.Ping) sent ++ queue_of s' (peer7, Protocol.Ping).
Proof.
  apply (response_order fresh four_pongs peer7 Protocol.Ping); [exact fresh_queues|by repeat constructor].
Defined.

End ResponseLimiterExamples.
