(* ===== verification/Events.v ===== *)
(** * Events between the RPC behaviour and its connection handlers

    The types of [rpc/mod.rs], [rpc/handler.rs] and [rpc/protocol.rs] that both sides use. *)

From S2P Require Import Prelude Chain Protocol Messages Text.

(** The bytes of a text, as [ErrorType] and [String] values hold them. *)
Definition bytes (s : chars) : list Z := map (fun c => Z.of_N (Ascii.N_of_ascii c)) s.

(** [RPCError]; the SSZ errors of the serialization library are kept as their messages. *)
Inductive RPCError :=
  | SszReadError (message : list Z)
  | SszWriteError (message : list Z)
  | IoError (message : list Z)
  | ErrorResponse (code : RpcErrorResponse) (message : list Z)
  | StreamTimeout
  | UnsupportedProtocol
  | IncompleteStream
  | InvalidData (message : list Z)
  | InternalError (message : list Z)
  | NegotiationTimeout
  | HandlerRejected
  | Disconnected.

#[export] Instance RPCError_eq_dec : EqDecision RPCError.
Proof. solve_decision. Defined.

(** [InboundRequestId]: a connection and a substream of it. *)
Record InboundRequestId := mkInboundRequestId {
  ir_connection_id : Z;
  ir_substream_id : Z;
}.

#[export] Instance InboundRequestId_eq_dec : EqDecision InboundRequestId.
Proof. solve_decision. Defined.

#[export] Instance InboundRequestId_countable : Countable InboundRequestId.
Proof.
  refine (inj_countable' (fun r => (ir_connection_id r, ir_substream_id r))
    (fun x => mkInboundRequestId x.1 x.2) _). by intros [].
Defined.

Section events.
Context `{ChainTypes} {Id : Type}.

Inductive RPCReceived :=
  | RecvRequest (request_id : InboundRequestId) (req : RequestType)
  | RecvResponse (id : Id) (response : RpcSuccessResponse)
  | RecvEndOfStream (id : Id) (termination : ResponseTermination).

Inductive HandlerErr :=
  | InboundErr (id : Z) (proto : Protocol) (error : RPCError)
  | OutboundErr (id : Id) (proto : Protocol) (error : RPCError).

Inductive HandlerEvent :=
  | HandlerOk (r : RPCReceived)
  | HandlerError (e : HandlerErr)
  | HandlerClose (e : RPCError).

End events.
Arguments RPCReceived {_} Id.
Arguments HandlerErr Id : clear implicits.
Arguments HandlerEvent {_} Id.
