(* ===== verification/Rpc.v ===== *)
(** * The RPC behaviour ([rpc/mod.rs])

    The behaviour owns the two limiters, the inbound requests awaiting an answer and the queue of
    events for the swarm.  [None] stands for a panic of the code. *)

From S2P Require Import Prelude Timers Chain Protocol Messages Text RateLimiter.
From S2P Require Import RateConfig SelfLimiter ResponseLimiter Events.

Section rpc.
Context `{ChainTypes} `{Libp2p} `{HashIter} `{DelayQueue} {Id : Type}.

Record ActiveInboundRequest := mkActive {
  ai_peer_id : PeerId;
  ai_request_type : RequestType;
  ai_peer_disconnected : bool;
}.

Record RPCMessage := mkRPCMessage {
  rm_peer_id : PeerId;
  rm_connection_id : Z;
  rm_message : result (RPCReceived Id) (HandlerErr Id);
}.

(** [NotifyHandler] and the [ToSwarm] actions the behaviour uses. *)
Inductive NotifyHandlerKind :=
  | NotifyOne (connection_id : Z)
  | NotifyAny.

Inductive BehaviourAction :=
  | NotifyHandler (peer_id : PeerId) (handler : NotifyHandlerKind) (event : RPCSend Id)
  | GenerateEvent (m : RPCMessage)
  | CloseConnectionAll (peer_id : PeerId).

Record RPC := mkRPC {
  response_limiter : option ResponseLimiter;
  outbound_request_limiter : SelfRateLimiter Id;
  active_inbound_requests : gmap InboundRequestId ActiveInboundRequest;
  events : list BehaviourAction;
  rpc_seq_number : Z;
}.

Definition set_events (s : RPC) (ev : list BehaviourAction) : RPC :=
  mkRPC (response_limiter s) (outbound_request_limiter s) (active_inbound_requests s) ev
    (rpc_seq_number s).

(** [self.events.push]. *)
Definition push_event (s : RPC) (e : BehaviourAction) : RPC := set_events s (events s ++ [e]).

Definition set_active (s : RPC) (m : gmap InboundRequestId ActiveInboundRequest) : RPC :=
  mkRPC (response_limiter s) (outbound_request_limiter s) m (events s) (rpc_seq_number s).

Definition set_outbound (s : RPC) (l : SelfRateLimiter Id) : RPC :=
  mkRPC (response_limiter s) l (active_inbound_requests s) (events s) (rpc_seq_number s).

Definition set_response_limiter (s : RPC) (l : option ResponseLimiter) : RPC :=
  mkRPC l (outbound_request_limiter s) (active_inbound_requests s) (events s) (rpc_seq_number s).

Definition RPC_new (c : ChainConfig) (epoch : Epoch) (inbound outbound : option RateLimiterConfig)
  (seq_number : Z) (now : Instant) : option RPC :=
  let limiter :=
    match inbound with
    | Some config =>
        match ResponseLimiter_new config c epoch now with Ok l => Some (Some l) | Err _ => None end
    | None => Some None
    end in
  match limiter, SelfRateLimiter_new outbound c epoch now with
  | Some limiter, Ok outbound => Some (mkRPC limiter outbound ∅ [] seq_number)
  | _, _ => None
  end.

Definition send_response_inner (s : RPC) (now : Instant) (ts : Duration) (peer_id : PeerId)
  (protocol : Protocol) (request_id : InboundRequestId) (response : RpcResponse) : RPC :=
  let push s :=
    push_event s (NotifyHandler peer_id (NotifyOne (ir_connection_id request_id))
                    (SendResponse (ir_substream_id request_id) response)) in
  match response_limiter s with
  | Some l =>
      let '(allowed, l) := response_allows l now ts peer_id protocol (ir_connection_id request_id)
                             (ir_substream_id request_id) response in
      let s := set_response_limiter s (Some l) in
      if allowed : bool then push s else s
  | None => push s
  end.

Definition is_success (r : RpcResponse) : bool :=
  match r with RpcSuccess _ => true | _ => false end.

Definition send_response (s : RPC) (now : Instant) (ts : Duration) (request_id : InboundRequestId)
  (response : RpcResponse) : option (result unit RpcResponse * RPC) :=
  match active_inbound_requests s !! request_id with
  | None => Some (Err response, s)
  | Some a =>
      let s := set_active s (delete request_id (active_inbound_requests s)) in
      let protocol := request_protocol (ai_request_type a) in
      match terminator protocol with
      | None => None
      | Some t =>
          let s := if bool_decide (is_Some t) && is_success response
                   then set_active s (<[request_id := a]> (active_inbound_requests s)) else s in
          if ai_peer_disconnected a then Some (Ok tt, s)
          else Some (Ok tt, send_response_inner s now ts (ai_peer_id a) protocol request_id response)
      end
  end.

Definition rpc_send_request (s : RPC) (now : Instant) (ts : Duration) (peer_id : PeerId)
  (request_id : Id) (req : RequestType) : RPC :=
  match self_allows (outbound_request_limiter s) now ts peer_id request_id req with
  | (Ok event, l) => push_event (set_outbound s l) (NotifyHandler peer_id NotifyAny event)
  | (Err _, l) => set_outbound s l
  end.

Definition rpc_shutdown (s : RPC) (peer_id : PeerId) (id : Id) (reason : GoodbyeReason) : RPC :=
  push_event s (NotifyHandler peer_id NotifyAny (SendShutdown id reason)).

Definition update_seq_number (s : RPC) (seq_number : Z) : RPC :=
  mkRPC (response_limiter s) (outbound_request_limiter s) (active_inbound_requests s) (events s)
    seq_number.

Definition rpc_ping (s : RPC) (now : Instant) (ts : Duration) (peer_id : PeerId) (id : Id) : RPC :=
  rpc_send_request s now ts peer_id id (ReqPing (rpc_seq_number s)).

Definition disconnected_error (peer_id : PeerId) (connection_id : Z) (id : Id) (proto : Protocol)
  : BehaviourAction :=
  GenerateEvent (mkRPCMessage peer_id connection_id (Err (OutboundErr id proto Disconnected))).

(** The closure of the last loop of [on_swarm_event]. *)
Definition fail_pending (peer_id : PeerId) (connection_id : Z) (e : BehaviourAction)
  : BehaviourAction :=
  match e with
  | NotifyHandler p _ (SendRequest request_id req) =>
      if decide (p = peer_id)
      then disconnected_error peer_id connection_id request_id (request_protocol req) else e
  | _ => e
  end.

Definition mark_disconnected (peer_id : PeerId) (a : ActiveInboundRequest) : ActiveInboundRequest :=
  if decide (ai_peer_id a = peer_id) then mkActive (ai_peer_id a) (ai_request_type a) true else a.

(** [on_swarm_event] for [ConnectionClosed]; it ignores the other events. *)
Definition on_connection_closed (s : RPC) (peer_id : PeerId) (connection_id : Z)
  (remaining_established : Z) : RPC :=
  if 0 <? remaining_established then s
  else
    let '(failed, l) := self_peer_disconnected (outbound_request_limiter s) peer_id in
    let s := set_outbound s l in
    let s := set_events s (events s ++
               map (fun '(id, proto) => disconnected_error peer_id connection_id id proto) failed) in
    let s := set_active s (mark_disconnected peer_id <$> active_inbound_requests s) in
    let s := set_response_limiter s
               ((fun l => response_peer_disconnected l peer_id) <$> response_limiter s) in
    set_events s (map (fail_pending peer_id connection_id) (events s)).

(** The requests counted against the limit on concurrent inbound requests. *)
Definition counts_against (peer_id : PeerId) (protocol : Protocol)
  (kv : InboundRequestId * ActiveInboundRequest) : Prop :=
  ai_peer_id kv.2 = peer_id /\ request_protocol (ai_request_type kv.2) = protocol /\
  ai_peer_disconnected kv.2 = false.

#[export] Instance counts_against_dec peer_id protocol kv : Decision (counts_against peer_id protocol kv).
Proof. unfold counts_against. apply _. Defined.

Definition inbound_count (m : gmap InboundRequestId ActiveInboundRequest) (peer_id : PeerId)
  (protocol : Protocol) : Z := map_count (counts_against peer_id protocol) m.

Definition is_ping (r : RequestType) : bool := match r with ReqPing _ => true | _ => false end.

Definition rate_limited_message : list Z :=
  ErrorType_from
    (bytes (lit "Rate limited. There are already " ++ print_u64 MAX_CONCURRENT_REQUESTS ++
            lit " active requests with the same protocol")).

(** The request branch of [on_connection_handler_event]. *)
Definition on_inbound_request (s : RPC) (now : Instant) (ts : Duration) (peer_id : PeerId)
  (connection_id : Z) (request_id : InboundRequestId) (request_type : RequestType) : option RPC :=
  let protocol := request_protocol request_type in
  if MAX_CONCURRENT_REQUESTS <=? inbound_count (active_inbound_requests s) peer_id protocol then
    Some (send_response_inner s now ts peer_id protocol request_id
            (RpcError RateLimited rate_limited_message))
  else
    let s := set_active s
               (<[request_id := mkActive peer_id request_type false]> (active_inbound_requests s)) in
    let after_pong :=
      if is_ping request_type then
        match send_response s now ts request_id (RpcSuccess (RespPong (rpc_seq_number s))) with
        | Some (Ok _, s) => Some s
        | _ => None
        end
      else Some s in
    match after_pong with
    | Some s =>
        Some (push_event s (GenerateEvent
                (mkRPCMessage peer_id connection_id (Ok (RecvRequest request_id request_type)))))
    | None => None
    end.

Definition err_protocol (e : HandlerErr Id) : Protocol :=
  match e with InboundErr _ proto _ => proto | OutboundErr _ proto _ => proto end.

Definition on_connection_handler_event (s : RPC) (now : Instant) (ts : Duration) (peer_id : PeerId)
  (connection_id : Z) (event : HandlerEvent Id) : option RPC :=
  let generate s m := push_event s (GenerateEvent (mkRPCMessage peer_id connection_id m)) in
  let completed s p := set_outbound s (request_completed (outbound_request_limiter s) peer_id p) in
  match event with
  | HandlerOk (RecvRequest request_id request_type) =>
      on_inbound_request s now ts peer_id connection_id request_id request_type
  | HandlerOk (RecvResponse id response) =>
      match terminator (success_protocol response) with
      | None => None
      | Some t =>
          let s := match t with None => completed s (success_protocol response) | Some _ => s end in
          Some (generate s (Ok (RecvResponse id response)))
      end
  | HandlerOk (RecvEndOfStream id termination) =>
      Some (generate (completed s (as_protocol termination)) (Ok (RecvEndOfStream id termination)))
  | HandlerError err => Some (generate (completed s (err_protocol err)) (Err err))
  | HandlerClose _ => Some (push_event s (CloseConnectionAll peer_id))
  end.

Definition response_event (r : QueuedResponse) : BehaviourAction :=
  NotifyHandler (qp_peer_id r) (NotifyOne (qp_connection_id r))
    (SendResponse (qp_substream_id r) (qp_response r)).

(** [poll]; [None] as event stands for [Poll::Pending]. *)
Definition rpc_behaviour_poll (s : RPC) (now : Instant) (ts : Duration)
  (response_ticks request_ticks : list Instant) : option (option BehaviourAction * RPC) :=
  let polled :=
    match response_limiter s with
    | Some l =>
        match response_poll_ready l now response_ticks with
        | Some (responses, l) =>
            Some (set_events (set_response_limiter s (Some l)) (events s ++ map response_event responses))
        | None => None
        end
    | None => Some s
    end in
  match polled with
  | None => None
  | Some s =>
      let '(ready, l) := self_poll_ready (outbound_request_limiter s) now ts request_ticks in
      let s := set_outbound s l in
      let s := match ready with
               | Some (peer_id, event) => push_event s (NotifyHandler peer_id NotifyAny event)
               | None => s
               end in
      match events s with
      | e :: rest => Some (Some e, set_events s rest)
      | [] => Some (None, s)
      end
  end.

End rpc.
Arguments RPCMessage {_ _} Id.
Arguments BehaviourAction {_ _} Id.
Arguments RPC {_ _} Id.

(** ** Runs of the behaviour *)

Section rpc_spec.
Context `{ChainTypes} `{Libp2p} `{HashIter} `{DelayQueue} {Id : Type}.
Implicit Types (s : RPC Id).

Inductive RpcOp :=
  | OSendResponse (now : Instant) (ts : Duration) (request_id : InboundRequestId) (response : RpcResponse)
  | OSendRequest (now : Instant) (ts : Duration) (peer_id : PeerId) (id : Id) (req : RequestType)
  | OShutdown (peer_id : PeerId) (id : Id) (reason : GoodbyeReason)
  | OUpdateSeqNumber (seq_number : Z)
  | OPing (now : Instant) (ts : Duration) (peer_id : PeerId) (id : Id)
  | OConnectionClosed (peer_id : PeerId) (connection_id remaining : Z)
  | OHandlerEvent (now : Instant) (ts : Duration) (peer_id : PeerId) (connection_id : Z)
      (event : HandlerEvent Id)
  | OPoll (now : Instant) (ts : Duration) (response_ticks request_ticks : list Instant).

(** One call: the new state and the action the swarm receives, if any; [None] for a panic. *)
Definition rpc_step s (op : RpcOp) : option (RPC Id * list (BehaviourAction Id)) :=
  match op with
  | OSendResponse now ts id r =>
      match send_response s now ts id r with Some (_, s') => Some (s', []) | None => None end
  | OSendRequest now ts peer id req => Some (rpc_send_request s now ts peer id req, [])
  | OShutdown peer id reason => Some (rpc_shutdown s peer id reason, [])
  | OUpdateSeqNumber n => Some (update_seq_number s n, [])
  | OPing now ts peer id => Some (rpc_ping s now ts peer id, [])
  | OConnectionClosed peer con remaining => Some (on_connection_closed s peer con remaining, [])
  | OHandlerEvent now ts peer con ev =>
      match on_connection_handler_event s now ts peer con ev with
      | Some s' => Some (s', [])
      | None => None
      end
  | OPoll now ts t1 t2 =>
      match rpc_behaviour_poll s now ts t1 t2 with
      | Some (e, s') => Some (s', option_list e)
      | None => None
      end
  end.

Fixpoint rpc_run s (ops : list RpcOp) : option (RPC Id * list (BehaviourAction Id)) :=
  match ops with
  | [] => Some (s, [])
  | op :: ops =>
      match rpc_step s op with
      | Some (s1, d1) =>
          match rpc_run s1 ops with
          | Some (s2, d2) => Some (s2, d1 ++ d2)
          | None => None
          end
      | None => None
      end
  end.

(** The state [RPC::new] builds. *)
Definition rpc_initial s : Prop :=
  self_initial (outbound_request_limiter s) /\
  (forall l, response_limiter s = Some l -> delayed_responses l = ∅) /\
  active_inbound_requests s = ∅ /\ events s = [].

(** The outbound request an action settles: it goes to a handler, or its failure to the application. *)
Definition event_ids (e : BehaviourAction Id) : list Id :=
  match e with
  | NotifyHandler _ _ (SendRequest id _) => [id]
  | GenerateEvent m => match rm_message m with Err (OutboundErr id _ _) => [id] | _ => [] end
  | _ => []
  end.

(** The requests a call brings in: those the application submits, and those a handler reports as
    failed. *)
Definition op_ids (op : RpcOp) : list Id :=
  match op with
  | OSendRequest _ _ _ id _ | OPing _ _ _ id => [id]
  | OHandlerEvent _ _ _ _ (HandlerError (OutboundErr id _ _)) => [id]
  | _ => []
  end.

Definition rpc_ids s : list Id :=
  flat_map event_ids (events s) ++ pending_ids (outbound_request_limiter s).

(** A peer can only send requests of the protocols the node lists for negotiation. *)
Definition op_ok (op : RpcOp) : Prop :=
  match op with
  | OHandlerEvent _ _ _ _ (HandlerOk (RecvRequest _ req)) => offered (request_protocol req)
  | _ => True
  end.

(** A response to a request for light client updates: its protocol is one the node may ask for, and the
    behaviour looks up its terminator. *)
Definition updates_response (ev : HandlerEvent Id) : bool :=
  match ev with
  | HandlerOk (RecvResponse _ r) => bool_decide (success_protocol r = Protocol.LightClientUpdatesByRange)
  | _ => false
  end.

Definition receives_updates (op : RpcOp) : Prop :=
  match op with OHandlerEvent _ _ _ _ ev => updates_response ev = true | _ => False end.

Record rpc_inv s : Prop := {
  rv_outbound : self_inv (outbound_request_limiter s);
  rv_response : forall l, response_limiter s = Some l -> response_inv l;
  rv_inbound : forall peer p,
    inbound_count (active_inbound_requests s) peer p <= MAX_CONCURRENT_REQUESTS;
  rv_offered : forall id a, active_inbound_requests s !! id = Some a ->
    offered (request_protocol (ai_request_type a));
}.

End rpc_spec.

(** ** Lemmas *)

Section rpc_lemmas.
Context `{ChainTypes} `{Libp2p} `{HashIter} `{DelayQueue} {Id : Type}.
Implicit Types (s : RPC Id).

Lemma flat_map_snoc (l : list (BehaviourAction Id)) e :
  flat_map event_ids (l ++ [e]) = flat_map event_ids l ++ event_ids e.
Proof. rewrite flat_map_app. simpl. by rewrite app_nil_r. Qed.

Lemma rpc_inv_events s ev : rpc_inv s -> rpc_inv (set_events s ev).
Proof. by intros []. Qed.

Lemma rpc_inv_push s e : rpc_inv s -> rpc_inv (push_event s e).
Proof. apply rpc_inv_events. Qed.

Lemma rpc_inv_outbound s l : rpc_inv s -> self_inv l -> rpc_inv (set_outbound s l).
Proof. by intros []. Qed.

Lemma rpc_inv_response s l :
  rpc_inv s -> (forall l', l = Some l' -> response_inv l') -> rpc_inv (set_response_limiter s l).
Proof. by intros []. Qed.

Lemma rpc_inv_delete s (id : InboundRequestId) : rpc_inv s -> rpc_inv (set_active s (delete id (active_inbound_requests s))).
Proof.
  intros [Ho Hr Hi Hf]. split; simpl; [done..| |].
  - intros peer p. etrans; [apply map_count_delete_le|apply Hi].
  - intros id' a [_ Ha]%lookup_delete_Some. eauto.
Qed.

Lemma delete_insert_active s (id : InboundRequestId) a :
  active_inbound_requests s !! id = Some a ->
  set_active (set_active s (delete id (active_inbound_requests s)))
    (<[id := a]> (delete id (active_inbound_requests s))) = s.
Proof. intros Ha. rewrite insert_delete_id by done. by destruct s. Qed.

Lemma rpc_inv_insert s id peer req :
  rpc_inv s -> offered (request_protocol req) ->
  inbound_count (active_inbound_requests s) peer (request_protocol req) < MAX_CONCURRENT_REQUESTS ->
  rpc_inv (set_active s (<[id := mkActive peer req false]> (active_inbound_requests s))).
Proof.
  intros [Ho Hr Hi Hf] Hoff Hlt. split; simpl; [done..| |].
  - intros peer' p'. etrans; [apply map_count_insert_le|]. unfold indicator. case_decide as Hc.
    + destruct Hc as (? & ? & _); simplify_eq/=. unfold inbound_count in Hlt. lia.
    + specialize (Hi peer' p'). unfold inbound_count in Hi. lia.
  - intros id' a. rewrite lookup_insert. case_decide; [|eauto]. by intros [= <-].
Qed.

Lemma send_response_inner_ok s now ts peer p id r :
  rpc_inv s ->
  rpc_inv (send_response_inner s now ts peer p id r) /\
  rpc_ids (send_response_inner s now ts peer p id r) = rpc_ids s.
Proof.
  intros Hs. unfold send_response_inner, rpc_ids. destruct (response_limiter s) as [l|] eqn:El.
  - pose proof (response_allows_spec l now (mkQueuedResponse peer (ir_connection_id id)
      (ir_substream_id id) r p ts) (rv_response s Hs l El)) as Ha. simpl in Ha.
    destruct (response_allows _ _ _ _ _ _ _ _) as [b l']. destruct Ha as [Hl' _].
    assert (rpc_inv (set_response_limiter s (Some l'))) by (apply rpc_inv_response; naive_solver).
    destruct b; [|done]. split; [by apply rpc_inv_push|]. simpl. by rewrite flat_map_snoc, app_nil_r.
  - split; [by apply rpc_inv_push|]. simpl. by rewrite flat_map_snoc, app_nil_r.
Qed.

Lemma send_response_ok s now ts id r :
  rpc_inv s ->
  exists res s', send_response s now ts id r = Some (res, s') /\ rpc_inv s' /\ rpc_ids s' = rpc_ids s /\
    (res = Ok tt <-> is_Some (active_inbound_requests s !! id)).
Proof.
  intros Hs. unfold send_response. destruct (active_inbound_requests s !! id) as [a|] eqn:Ea.
  2: { eexists _, _. split_and!; [done..|]. split; [done|by intros []]. }
  destruct (terminator_offered _ (rv_offered s Hs id a Ea)) as [t ->].
  cbv zeta. match goal with |- context [if ai_peer_disconnected a then Some (Ok tt, ?x) else _] => set (s1 := x) end.
  assert (rpc_inv s1 /\ rpc_ids s1 = rpc_ids s) as [Hs1 Hi1].
  { subst s1. case_match; [simpl; by rewrite delete_insert_active|]. split; [by apply rpc_inv_delete|done]. }
  destruct (ai_peer_disconnected a).
  - eexists _, _. split_and!; [done..|]. split; [by eauto|done].
  - destruct (send_response_inner_ok s1 now ts (ai_peer_id a)
      (request_protocol (ai_request_type a)) id r Hs1) as [Hs2 Hi2].
    eexists _, _. split_and!; [done|done|congruence|]. split; [by eauto|done].
Qed.

Lemma rpc_send_request_ok s now ts peer id req :
  rpc_inv s ->
  rpc_inv (rpc_send_request s now ts peer id req) /\
  id :: rpc_ids s ≡ₚ rpc_ids (rpc_send_request s now ts peer id req).
Proof.
  intros Hs. unfold rpc_send_request, rpc_ids.
  pose proof (self_allows_inv _ now ts peer id req (rv_outbound s Hs)) as Hi.
  pose proof (self_allows_pending _ now ts peer id req (rv_outbound s Hs)) as Hp.
  destruct (self_allows _ _ _ _ _ _) as [[e|] l]; simpl in *.
  - split; [by apply rpc_inv_push, rpc_inv_outbound|]. rewrite flat_map_snoc.
    rewrite Permutation_middle, Hp, (assoc_L (++)). do 2 f_equiv. by destruct e.
  - split; [by apply rpc_inv_outbound|]. by rewrite Permutation_middle, Hp.
Qed.

Lemma event_ids_fail_pending (peer : PeerId) con (l : list (BehaviourAction Id)) :
  flat_map event_ids (map (fail_pending peer con) l) = flat_map event_ids l.
Proof.
  induction l as [|e l IH]; simpl; [done|]. rewrite IH. f_equal.
  destruct e as [p h [| |]| |]; simpl; try done. by case_decide.
Qed.

Lemma event_ids_disconnected (peer : PeerId) con (f : list (Id * Protocol)) :
  flat_map event_ids (map (fun '(id, proto) => disconnected_error peer con id proto) f) = f.*1.
Proof. induction f as [|[id p] f IH]; simpl; [done|]. by rewrite IH. Qed.

Lemma on_connection_closed_ok s peer con remaining :
  rpc_inv s ->
  rpc_inv (on_connection_closed s peer con remaining) /\
  rpc_ids s ≡ₚ rpc_ids (on_connection_closed s peer con remaining).
Proof.
  intros Hs. unfold on_connection_closed. case_match; [done|].
  pose proof (self_peer_disconnected_inv _ peer (rv_outbound s Hs)) as Hi.
  pose proof (self_peer_disconnected_pending (outbound_request_limiter s) peer) as Hp.
  destruct (self_peer_disconnected _ _) as [failed l]. destruct Hs as [Ho Hr Hin Hf]. split.
  - split; simpl; [done|..].
    + intros l' (l0 & Hl0 & ->)%fmap_Some. by apply response_peer_disconnected_spec, Hr.
    + intros peer' p'. etrans; [apply map_count_fmap_le|apply Hin].
      intros k a. unfold counts_against, mark_disconnected; simpl. case_decide; naive_solver.
    + intros id a. rewrite lookup_fmap. intros (a0 & Ha & ->)%fmap_Some. unfold mark_disconnected.
      case_decide; simpl; eauto.
  - unfold rpc_ids; simpl. rewrite event_ids_fail_pending, flat_map_app, event_ids_disconnected.
    simpl in Hp. by rewrite Hp, (assoc_L (++)).
Qed.

Lemma on_inbound_request_ok s now ts peer con id req :
  rpc_inv s -> offered (request_protocol req) ->
  exists s', on_inbound_request s now ts peer con id req = Some s' /\ rpc_inv s' /\ rpc_ids s' = rpc_ids s.
Proof.
  intros Hs Hoff. unfold on_inbound_request. case_match eqn:Hc; bool_to_Prop.
  - eexists. split; [done|]. by apply send_response_inner_ok.
  - set (s1 := set_active s _).
    assert (rpc_inv s1) as Hs1 by by apply rpc_inv_insert.
    assert (rpc_ids s1 = rpc_ids s) as Hi1 by done.
    assert (active_inbound_requests s1 !! id = Some (mkActive peer req false)) as Ha
      by apply lookup_insert_eq.
    assert (forall s2, rpc_inv s2 -> rpc_ids s2 = rpc_ids s1 -> let s' := push_event s2 (GenerateEvent
      (mkRPCMessage peer con (Ok (RecvRequest id req)))) in rpc_inv s' /\ rpc_ids s' = rpc_ids s) as Hpush.
    { intros s2 Hs2 Hi2. split; [by apply rpc_inv_push|]. rewrite <- Hi1, <- Hi2.
      unfold rpc_ids; simpl. by rewrite flat_map_snoc, app_nil_r. }
    destruct (is_ping req); [|eexists; split; [done|by apply Hpush]].
    destruct (send_response_ok s1 now ts id (RpcSuccess (RespPong (rpc_seq_number s1))) Hs1)
      as (res & s2 & -> & Hs2 & Hi2 & Hres).
    rewrite Ha in Hres. rewrite (proj2 Hres) by eauto. eexists. split; [done|by apply Hpush].
Qed.

Lemma generate_ok s s0 peer con m :
  rpc_inv s /\ rpc_ids s = rpc_ids s0 ->
  let s' := push_event s (GenerateEvent (mkRPCMessage peer con m)) in
  rpc_inv s' /\
  match m with Err (OutboundErr id _ _) => [id] | _ => [] end ++ rpc_ids s0 ≡ₚ rpc_ids s'.
Proof.
  intros [Hs <-]. split; [by apply rpc_inv_push|]. unfold rpc_ids; simpl. rewrite flat_map_snoc; simpl.
  rewrite <- (assoc_L (++)). apply Permutation_app_swap_app.
Qed.

Lemma completed_ok s peer p :
  rpc_inv s ->
  let s' := set_outbound s (request_completed (outbound_request_limiter s) peer p) in
  rpc_inv s' /\ rpc_ids s' = rpc_ids s.
Proof.
  intros Hs. split; [|done]. apply rpc_inv_outbound; [done|]. by apply request_completed_inv, rv_outbound.
Qed.

Lemma on_connection_handler_event_ok s now ts peer con ev :
  rpc_inv s -> op_ok (OHandlerEvent now ts peer con ev) -> updates_response ev = false ->
  exists s', on_connection_handler_event s now ts peer con ev = Some s' /\ rpc_inv s' /\
    op_ids (OHandlerEvent now ts peer con ev) ++ rpc_ids s ≡ₚ rpc_ids s'.
Proof.
  intros Hs Hok Hup. destruct ev as [[id req|id r|id t]|e|e]; simpl in *.
  - destruct (on_inbound_request_ok s now ts peer con id req Hs Hok) as (s' & -> & Hs' & Hi).
    exists s'. by rewrite Hi.
  - apply bool_decide_eq_false in Hup. destruct (terminator_offered _ Hup) as [t ->]. eexists. split; [done|].
    apply (generate_ok _ s peer con (Ok (RecvResponse id r))).
    destruct t; [done|]. by apply completed_ok.
  - eexists. split; [done|]. apply (generate_ok _ s peer con (Ok (RecvEndOfStream id t))).
    by apply completed_ok.
  - eexists. split; [done|]. pose proof (generate_ok _ s peer con (Err e)
      (completed_ok s peer (err_protocol e) Hs)) as [Hg Hp].
    split; [done|]. rewrite <- Hp. by destruct e.
  - eexists. split; [done|]. split; [by apply rpc_inv_push|]. unfold rpc_ids; simpl.
    by rewrite flat_map_snoc, app_nil_r.
Qed.

Lemma updates_response_panics s now ts peer con ev :
  updates_response ev = true -> on_connection_handler_event s now ts peer con ev = None.
Proof. destruct ev as [[|id r|]| |]; simpl; try done. by intros ->%bool_decide_eq_true. Qed.

Lemma event_ids_responses l : flat_map event_ids (map (response_event (Id := Id)) l) = [].
Proof. by induction l. Qed.

Lemma poll_tail_ok s now ts ticks :
  rpc_inv s ->
  exists e s', (let '(ready, l) := self_poll_ready (outbound_request_limiter s) now ts ticks in
      let s := set_outbound s l in
      let s := match ready with
               | Some (peer_id, event) => push_event s (NotifyHandler peer_id NotifyAny event)
               | None => s
               end in
      match events s with
      | e :: rest => Some (Some e, set_events s rest)
      | [] => Some (None, s)
      end) = Some (e, s') /\ rpc_inv s' /\ rpc_ids s ≡ₚ flat_map event_ids (option_list e) ++ rpc_ids s'.
Proof.
  intros Hs. pose proof (self_poll_ready_ok (outbound_request_limiter s) now ts ticks
    (rv_outbound s Hs)) as Hp.
  destruct (self_poll_ready _ _ _ _) as [ready l]. destruct Hp as [Hl Hp]. cbv zeta.
  set (s1 := match ready with Some _ => _ | None => _ end).
  assert (rpc_inv s1 /\ rpc_ids s ≡ₚ rpc_ids s1) as [Hs1 Hi1].
  { subst s1. unfold rpc_ids. destruct ready as [[peer ev]|]; simpl in *.
    - split; [by apply rpc_inv_push, rpc_inv_outbound|].
      rewrite flat_map_snoc, Hp, (assoc_L (++)). do 2 f_equiv. by destruct ev.
    - split; [by apply rpc_inv_outbound|]. by rewrite Hp. }
  clearbody s1. unfold rpc_ids in Hi1. destruct (events s1) as [|e rest] eqn:Ev.
  - eexists _, _. split_and!; [done..|]. unfold rpc_ids at 2. by rewrite Ev.
  - eexists _, _. split_and!; [done|by apply rpc_inv_events|]. rewrite Hi1. unfold rpc_ids; simpl.
    by rewrite app_nil_r, (assoc_L (++)).
Qed.

Lemma rpc_behaviour_poll_ok s now ts t1 t2 :
  rpc_inv s ->
  exists e s', rpc_behaviour_poll s now ts t1 t2 = Some (e, s') /\ rpc_inv s' /\
    rpc_ids s ≡ₚ flat_map event_ids (option_list e) ++ rpc_ids s'.
Proof.
  intros Hs. unfold rpc_behaviour_poll. destruct (response_limiter s) as [l|] eqn:El.
  - destruct (response_poll_ready_spec l now t1 (rv_response s Hs l El)) as (sent & l' & -> & Hl' & _).
    set (s1 := set_events _ _).
    assert (rpc_inv s1) by (apply rpc_inv_events, rpc_inv_response; naive_solver).
    assert (rpc_ids s = rpc_ids s1) as ->
      by (unfold rpc_ids; simpl; by rewrite flat_map_app, event_ids_responses, app_nil_r).
    by apply poll_tail_ok.
  - by apply poll_tail_ok.
Qed.

Lemma rpc_step_ok s op :
  rpc_inv s -> op_ok op -> ~ receives_updates op ->
  exists s' d, rpc_step s op = Some (s', d) /\ rpc_inv s' /\
    op_ids op ++ rpc_ids s ≡ₚ flat_map event_ids d ++ rpc_ids s'.
Proof.
  intros Hs Hok Hup. destruct op as [now ts id r|now ts peer id req|peer id reason|n|now ts peer id
    |peer con remaining|now ts peer con ev|now ts t1 t2]; simpl.
  - destruct (send_response_ok s now ts id r Hs) as (res & s' & -> & Hs' & <- & _). eauto 10.
  - destruct (rpc_send_request_ok s now ts peer id req Hs). eauto 10.
  - eexists _, _. split_and!; [done|by apply rpc_inv_push|]. unfold rpc_ids; simpl.
    by rewrite flat_map_snoc, app_nil_r.
  - eexists _, _. split_and!; [done|by destruct Hs|done].
  - destruct (rpc_send_request_ok s now ts peer id (ReqPing (rpc_seq_number s)) Hs). eauto 10.
  - destruct (on_connection_closed_ok s peer con remaining Hs). eauto 10.
  - destruct (on_connection_handler_event_ok s now ts peer con ev Hs Hok (not_true_is_false _ Hup))
      as (s' & -> & Hs' & Hp).
    eauto 10.
  - destruct (rpc_behaviour_poll_ok s now ts t1 t2 Hs) as (e & s' & -> & Hs' & Hp). eauto 10.
Qed.

#[local] Instance receives_updates_dec op : Decision (receives_updates (Id := Id) op).
Proof. destruct op; simpl; apply _. Defined.

(** A run panics at the first response to a request for light client updates, and only there. *)
Lemma rpc_run_ok ops : forall s,
  rpc_inv s -> Forall op_ok ops ->
  (Exists receives_updates ops /\ rpc_run s ops = None) \/
  (Forall (fun op => ~ receives_updates op) ops /\
   exists s' d, rpc_run s ops = Some (s', d) /\ rpc_inv s' /\
     flat_map op_ids ops ++ rpc_ids s ≡ₚ flat_map event_ids d ++ rpc_ids s').
Proof.
  induction ops as [|op ops IH]; intros s Hs Hops; simpl; [by right; eauto 10|].
  apply Forall_cons in Hops as [Hop Hops]. destruct (decide (receives_updates op)) as [Hup|Hup].
  { left. split; [by left|]. destruct op; try done. cbn [rpc_step]. by rewrite updates_response_panics. }
  destruct (rpc_step_ok s op Hs Hop Hup) as (s1 & d1 & -> & Hs1 & Hp1).
  destruct (IH s1 Hs1 Hops) as [[Hex ->]|(Hno & s2 & d2 & -> & Hs2 & Hp2)]; [left; by auto|right].
  split; [by constructor|]. eexists _, _. split_and!; [done..|].
  rewrite flat_map_app, <- !(assoc_L (++)), <- Hp2.
  rewrite Permutation_app_swap_app, Hp1. apply Permutation_app_swap_app.
Qed.

Lemma rpc_initial_inv s : rpc_initial s -> rpc_inv s /\ rpc_ids s = [].
Proof.
  intros (Ho & Hr & Ha & He). split; [split|].
  - by apply self_initial_inv.
  - intros l Hl. specialize (Hr l Hl). split; rewrite Hr; intros k q Hk; by rewrite lookup_empty in Hk.
  - intros peer p. rewrite Ha. unfold inbound_count. rewrite map_count_empty. by vm_compute.
  - intros id a. by rewrite Ha, lookup_empty.
  - destruct Ho as (_ & Hd & _ & Hr0). unfold rpc_ids, pending_ids, delayed_ids.
    by rewrite He, Hd, Hr0, map_to_list_empty.
Qed.

End rpc_lemmas.

(** ** Theorems *)

Section rpc_theorems.
Context `{ChainTypes} `{Libp2p} `{HashIter} `{DelayQueue} {Id : Type}.
Implicit Types (s : RPC Id).

(** The behaviour's invariant.  Any sequence of calls from a fresh behaviour, with requests of
    protocols the node offers, keeps: at most [MAX_CONCURRENT_REQUESTS] inbound requests of a connected
    peer on a protocol awaiting an answer, the same bound on outbound requests, and both limiters'
    queues non-empty with their timers running.  It panics exactly if a response to a request for light
    client updates arrives. *)
Theorem rpc_invariant s ops :
  rpc_initial s -> Forall op_ok ops ->
  (Exists receives_updates ops /\ rpc_run s ops = None) \/
  (Forall (fun op => ~ receives_updates op) ops /\
   exists s' delivered, rpc_run s ops = Some (s', delivered) /\ rpc_inv s').
Proof.
  intros [Hs _]%rpc_initial_inv Hops.
  destruct (rpc_run_ok ops s Hs Hops) as [?|(? & s' & d & -> & Hs' & _)]; eauto 10.
Qed.

(** C35: every outbound request is settled exactly once.  In any sequence of calls from a fresh
    behaviour, with requests of protocols the node offers, the requests the application submitted
    together with the failures the handlers reported are, as a multiset, the requests handed to a handler
    and the failures handed to the application, plus those still in the event queue or held by the
    limiter.  Closing a connection keeps this: it turns the requests of the peer into failures and loses
    none.  The calls all return unless a response to a request for light client updates arrives, and then
    the behaviour panics. *)
Theorem rpc_requests_conserved s ops :
  rpc_initial s -> Forall op_ok ops ->
  (Exists receives_updates ops /\ rpc_run s ops = None) \/
  (Forall (fun op => ~ receives_updates op) ops /\
   exists s' delivered, rpc_run s ops = Some (s', delivered) /\
     flat_map op_ids ops ≡ₚ
     flat_map event_ids delivered ++ flat_map event_ids (events s') ++
     pending_ids (outbound_request_limiter s')).
Proof.
  intros [Hs Hi]%rpc_initial_inv Hops.
  destruct (rpc_run_ok ops s Hs Hops) as [?|(Hno & s' & d & -> & _ & Hp)]; [by left|right].
  rewrite Hi, app_nil_r in Hp. eauto.
Qed.

(** What answering an inbound request does.  An unknown request gives the response back and
    changes nothing.  A known one is removed unless its protocol has several responses and this one
    is a success.  A response to a peer that has disconnected is dropped; any other is either pushed
    to the connection and substream the request came from, or queued for them behind the earlier
    responses to the same peer on the same protocol. *)
Theorem send_response_routes s now ts id r :
  rpc_inv s ->
  exists res s', send_response s now ts id r = Some (res, s') /\
  match active_inbound_requests s !! id with
  | None => res = Err r /\ s' = s
  | Some a =>
      let p := request_protocol (ai_request_type a) in
      res = Ok tt /\
      active_inbound_requests s' =
        (if decide (terminator p <> Some None /\ is_success r = true)
         then active_inbound_requests s else delete id (active_inbound_requests s)) /\
      if ai_peer_disconnected a then events s' = events s /\ response_limiter s' = response_limiter s
      else
        events s' = events s ++
          [NotifyHandler (ai_peer_id a) (NotifyOne (ir_connection_id id))
             (SendResponse (ir_substream_id id) r)] \/
        events s' = events s /\
        exists l l', response_limiter s = Some l /\ response_limiter s' = Some l' /\
          queue_of l' (ai_peer_id a, p) = queue_of l (ai_peer_id a, p) ++
            [mkQueuedResponse (ai_peer_id a) (ir_connection_id id) (ir_substream_id id) r p ts]
  end.
Proof.
  intros Hs. unfold send_response. destruct (active_inbound_requests s !! id) as [a|] eqn:Ea; [|by eauto].
  destruct (terminator_offered _ (rv_offered s Hs id a Ea)) as [t Et]. rewrite Et. cbv zeta.
  match goal with |- context [if ai_peer_disconnected a then Some (Ok tt, ?x) else _] => set (s1 := x) end.
  assert (active_inbound_requests s1 =
    (if decide (Some t <> Some None /\ is_success r = true)
     then active_inbound_requests s else delete id (active_inbound_requests s)) /\
    events s1 = events s /\ response_limiter s1 = response_limiter s) as (Ha1 & He1 & Hr1).
  { subst s1. destruct t, (is_success r); simpl;
      repeat (case_decide || case_bool_decide); simpl; try (by naive_solver); split_and!; try done.
    all: by rewrite insert_delete_id. }
  destruct (ai_peer_disconnected a); [by eauto 10|]. eexists _, _. split; [done|].
  unfold send_response_inner. rewrite Hr1. destruct (response_limiter s) as [l|] eqn:El.
  - set (qr := mkQueuedResponse (ai_peer_id a) (ir_connection_id id) (ir_substream_id id) r
      (request_protocol (ai_request_type a)) ts).
    pose proof (response_allows_spec l now qr (rv_response s Hs l El)) as Hl. simpl in Hl.
    destruct (response_allows _ _ _ _ _ _ _ _) as [b l'] eqn:Eb. destruct Hl as [_ Hq].
    specialize (Hq (ai_peer_id a, request_protocol (ai_request_type a))).
    rewrite of_key_same in Hq by (by repeat constructor).
    destruct b; simpl; split_and!; try done.
    + left. by rewrite He1.
    + right. split; [done|]. exists l, l'. done.
  - simpl. rewrite He1. split_and!; auto.
Qed.

(** A closed connection leaves nothing behind for the peer.  When the last connection of a peer
    closes, none of its requests stays in the event queue, no request or response of it stays in the
    queues of the limiters, none of its inbound requests counts against the limit any more, and the
    events and queues of other peers are unchanged. *)
Theorem closed_connection_clears s (peer : PeerId) con :
  let s' := on_connection_closed s peer con 0 in
  (forall h id req, NotifyHandler peer h (SendRequest id req) ∉ events s') /\
  (forall p, delayed_requests (outbound_request_limiter s') !! (peer, p) = None /\
             inbound_count (active_inbound_requests s') peer p = 0 /\
             forall l, response_limiter s' = Some l -> delayed_responses l !! (peer, p) = None) /\
  forall q, q <> peer ->
    (forall h e, NotifyHandler q h e ∈ events s' <-> NotifyHandler q h e ∈ events s) /\
    forall p, delayed_requests (outbound_request_limiter s') !! (q, p) =
                delayed_requests (outbound_request_limiter s) !! (q, p) /\
              active_count (active_requests (outbound_request_limiter s')) q p =
                active_count (active_requests (outbound_request_limiter s)) q p /\
              inbound_count (active_inbound_requests s') q p =
                inbound_count (active_inbound_requests s) q p.
Proof.
  unfold on_connection_closed; simpl.
  match goal with |- context [map (fail_pending peer con) ?l] => set (evs := l) end.
  split_and!.
  - intros h id req (e & He & _)%list_elem_of_fmap.
    destruct e as [p h' [| |]| |]; simpl in He; simplify_eq. by case_decide; simplify_eq.
  - intros p. split_and!.
    + apply map_lookup_filter_None_2. right. intros q _. naive_solver.
    + apply map_count_zero. intros k a. rewrite lookup_fmap. intros (a0 & _ & ->)%fmap_Some.
      unfold counts_against, mark_disconnected; simpl. case_decide; naive_solver.
    + intros l (l0 & Hl0 & ->)%fmap_Some. simpl. apply map_lookup_filter_None_2. right. naive_solver.
  - intros q Hq. split.
    + intros h e. subst evs. rewrite list_elem_of_fmap. split.
      * intros (e0 & He0 & Hin). apply elem_of_app in Hin as [Hin|Hin].
        -- destruct e0 as [p h' [| |]| |]; simpl in He0; simplify_eq; try done. by case_decide; simplify_eq.
        -- apply list_elem_of_fmap in Hin as ([id p] & -> & _). done.
      * intros Hin. exists (NotifyHandler q h e). split; [|apply elem_of_app; by left].
        simpl. destruct e; [|done..]. by case_decide.
    + intros p. split_and!.
      * rewrite map_lookup_filter. destruct (delayed_requests _ !! _); [|done]. simpl. by case_guard.
      * unfold active_count. by rewrite lookup_delete_ne by congruence.
      * apply map_count_fmap. intros k a _. unfold counts_against, mark_disconnected; simpl.
        case_decide; naive_solver.
Qed.

End rpc_theorems.

(** ** Closed instances *)

Module RpcExamples.

#[local] Existing Instance Toy.chain.
#[local] Existing Instance Toy.libp2p.
#[local] Existing Instance ToyTimers.first_expired_queue.

Definition peer7 : @PeerId Toy.libp2p := 7.

(** Both limiters with their default quotas. *)
Definition fresh_rpc : option (RPC Z) :=
  RPC_new tt 0 (Some RateLimiterConfig_default) (Some RateLimiterConfig_default) 5 0.

Definition fresh : RPC Z :=
  mkRPC (Some ResponseLimiterExamples.fresh)
    (unwrap (SelfRateLimiter_new (Some RateLimiterConfig_default) tt 0 0) eq_refl) ∅ [] 5.

Example fresh_is_new : fresh_rpc = Some fresh.
Proof. reflexivity. Qed.

Lemma fresh_initial : rpc_initial fresh.
Proof. split_and!; [done| |done..]. intros l [= <-]. done. Qed.

(** A session: two requests of ours, one of the peer, a ping of the peer, and the peer leaves. *)
Definition status : StatusMessage := StatusMsgV1 (mkStatusV1 0 0 0 0 0).
Definition session : list (RpcOp (Id := Z)) :=
  [OSendRequest 0 0 peer7 1 (ReqStatus status); OPing 0 0 peer7 2;
   OHandlerEvent 0 0 peer7 1 (HandlerOk (RecvRequest (mkInboundRequestId 1 0) (ReqPing 9)));
   OHandlerEvent 0 0 peer7 1 (HandlerOk (RecvRequest (mkInboundRequestId 1 1) (ReqStatus status)));
   OPoll 0 0 [] []; OConnectionClosed peer7 1 0; OPoll 0 0 [] []; OPoll 0 0 [] []].

Lemma session_ok : Forall op_ok session.
Proof. by repeat constructor. Qed.

Lemma session_no_updates : ~ Exists receives_updates session.
Proof. intros Hex. repeat (apply Exists_cons in Hex as [?|Hex]; [done|]). by apply Exists_nil in Hex. Qed.

Lemma rpc_invariant_witness :
  exists s' delivered, rpc_run fresh session = Some (s', delivered) /\ rpc_inv s'.
Proof.
  destruct (rpc_invariant fresh session fresh_initial session_ok) as [[Hex _]|[_ Hr]]; [|exact Hr].
  exfalso. by apply session_no_updates in Hex.
Defined.

(** Request 1 reached a handler, request 2 was turned into a failure. *)
Lemma rpc_requests_conserved_witness :
  exists s' delivered, rpc_run fresh session = Some (s', delivered) /\
    [1; 2] ≡ₚ flat_map event_ids delivered ++ flat_map event_ids (events s') ++
      pending_ids (outbound_request_limiter s').
Proof.
  destruct (rpc_requests_conserved fresh session fresh_initial session_ok) as [[Hex _]|[_ Hr]]; [|exact Hr].
  exfalso. by apply session_no_updates in Hex.
Defined.

Definition with_request : RPC Z :=
  set_active fresh {[mkInboundRequestId 1 1 := mkActive peer7 (ReqStatus status) false]}.

Lemma with_request_inv : rpc_inv with_request.
Proof.
  apply (rpc_inv_insert fresh (mkInboundRequestId 1 1) peer7 (ReqStatus status)).
  - exact (proj1 (rpc_initial_inv fresh fresh_initial)).
  - done.
  - done.
Qed.

Lemma send_response_routes_witness :
  exists res s', send_response with_request 0 0 (mkInboundRequestId 1 1) (RpcSuccess (RespStatus status))
    = Some (res, s') /\ res = Ok tt.
Proof.
  destruct (send_response_routes with_request 0 0 (mkInboundRequestId 1 1)
    (RpcSuccess (RespStatus status)) with_request_inv) as (res & s' & E & Hres).
  exists res, s'. split; [exact E|]. exact (proj1 Hres).
Defined.

(** An error on an inbound request frees an outbound slot.  Two pings of ours to a peer are in
    flight, the maximum.  The peer's own ping request then fails on its substream; the behaviour
    decreases the count of our requests although neither has ended. *)
Theorem inbound_error_frees_outbound_slot :
  let two := [OPing 0 0 peer7 1; OPing 0 0 peer7 2] in
  let err := OHandlerEvent 0 0 peer7 1 (HandlerError (InboundErr 0 Protocol.Ping StreamTimeout)) in
  let count ops :=
    match rpc_run fresh ops with
    | Some (s, _) => active_count (active_requests (outbound_request_limiter s)) peer7 Protocol.Ping
    | None => None
    end in
  (count two, count (two ++ [err])) = (Some 2, Some 1).
Proof. evaluate. Qed.

(** A request ended by an error response is completed twice.  Two ranges of blocks are requested
    from a peer.  The first is answered by an error; its handler reports the error and, when the
    substream has closed, an end of stream.  Each report decreases the count, so no request counts as
    active while the second is still in flight. *)
Theorem error_response_completes_twice :
  let range := ReqBlocksByRange (OldBBR_V2 (mkOldBBRV2 0 8 1)) in
  let two := [OSendRequest 0 0 peer7 1 range; OSendRequest 0 0 peer7 2 range] in
  let reports :=
    [OHandlerEvent 0 0 peer7 1
       (HandlerError (OutboundErr 1 Protocol.BlocksByRange (ErrorResponse ServerError [])));
     OHandlerEvent 0 0 peer7 1 (HandlerOk (RecvEndOfStream 1 ResponseTermination.BlocksByRange))] in
  let count ops :=
    match rpc_run fresh ops with
    | Some (s, _) =>
        active_count (active_requests (outbound_request_limiter s)) peer7 Protocol.BlocksByRange
    | None => None
    end in
  (count two, count (two ++ reports)) = (Some 2, None).
Proof. evaluate. Qed.

End RpcExamples.
