(* ===== verification/ForkContext.v ===== *)
(** * The fork context ([types/fork_context.rs])

    The forks of the chain by epoch, the current one among them, and the digests by which messages
    name the fork they belong to.  A [BTreeMap] is the list of its entries by increasing key; [None]
    stands for a panic of the code. *)

From S2P Require Import Prelude Chain.

(** ** [BTreeMap] *)

Section btree.
Context {V : Type}.

Fixpoint btree_insert (k : Z) (v : V) (m : list (Z * V)) : list (Z * V) :=
  match m with
  | [] => [(k, v)]
  | (k', v') :: r =>
      if k <? k' then (k, v) :: m
      else if k =? k' then (k, v) :: r
      else (k', v') :: btree_insert k v r
  end.

(** [Iterator::collect]: later entries replace earlier ones with the same key. *)
Definition btree_collect (l : list (Z * V)) : list (Z * V) :=
  foldl (fun m kv => btree_insert kv.1 kv.2 m) [] l.

(** [range(k..)] and [range(..=k)]. *)
Definition btree_from (k : Z) (m : list (Z * V)) : list (Z * V) := filter (fun kv => k <= kv.1) m.
Definition btree_upto (k : Z) (m : list (Z * V)) : list (Z * V) := filter (fun kv => kv.1 <= k) m.

End btree.

(** ** The context *)

Section fork_context.
Context `{ChainTypes}.

Record HardFork := mkHardFork {
  fork_name : Phase;
  fork_epoch : Epoch;
  fork_digest : ForkDigest;
}.

Definition HardFork_new (name : Phase) (digest : ForkDigest) (epoch : Epoch) : HardFork :=
  mkHardFork name epoch digest.

Record ForkContext := mkForkContext {
  chain_config : ChainConfig;
  current_fork : HardFork;
  epoch_to_forks : list (Epoch * HardFork);
}.

(** The epochs at which a named fork or a blob-parameter-only fork starts. *)
Definition fork_epochs (config : ChainConfig) : list Epoch :=
  map (config_fork_epoch config) (filter (fun p => config_is_phase_enabled config p = true) Phase_all)
  ++ config_blob_schedule_epochs config.

Definition hard_fork_at (config : ChainConfig) (genesis_validators_root : H256) (epoch : Epoch)
  : Epoch * HardFork :=
  let phase := config_phase_at_epoch config epoch in
  let digest := compute_fork_digest config genesis_validators_root epoch in
  (epoch, HardFork_new phase digest epoch).

Definition ForkContext_new (config : ChainConfig) (current_slot : Slot)
  (genesis_validators_root : H256) : option ForkContext :=
  let forks := btree_collect (map (hard_fork_at config genesis_validators_root) (fork_epochs config)) in
  let current_epoch := compute_epoch_at_slot current_slot in
  current ← last (filter (fun f => fork_epoch f <= current_epoch) forks.*2);
  Some (mkForkContext config current forks).

Definition fork_exists (c : ForkContext) (phase : Phase) : bool :=
  negb (config_fork_epoch (chain_config c) phase =? FAR_FUTURE_EPOCH).

Definition current_fork_name (c : ForkContext) : Phase := fork_name (current_fork c).
Definition current_fork_epoch (c : ForkContext) : Epoch := fork_epoch (current_fork c).
Definition current_fork_digest (c : ForkContext) : ForkDigest := fork_digest (current_fork c).

(** [range(current_fork_epoch..).nth(1)], which three methods read. *)
Definition fork_after_current (c : ForkContext) : option HardFork :=
  snd <$> btree_from (current_fork_epoch c) (epoch_to_forks c) !! 1%nat.

Definition next_fork_digest (c : ForkContext) : option ForkDigest :=
  fork_digest <$> fork_after_current c.

Definition next_fork (c : ForkContext) : option (Phase * ForkDigest * Epoch) :=
  (fun fork => (fork_name fork, fork_digest fork, fork_epoch fork)) <$> fork_after_current c.

Definition update_current_fork (c : ForkContext) : ForkContext :=
  let next := default (HardFork_new (current_fork_name c) ForkDigest_default FAR_FUTURE_EPOCH)
                (fork_after_current c) in
  mkForkContext (chain_config c) next (epoch_to_forks c).

Definition genesis_context_bytes (c : ForkContext) : option ForkDigest :=
  (fun kv => fork_digest kv.2) <$> head (epoch_to_forks c).

Definition get_fork_from_context_bytes (c : ForkContext) (context : ForkDigest) : option Phase :=
  fork_name <$> List.find (fun f => bool_decide (fork_digest f = context)) (epoch_to_forks c).*2.

Definition context_bytes (c : ForkContext) (epoch : Epoch) : option ForkDigest :=
  (fun kv => fork_digest kv.2) <$> last (btree_upto epoch (epoch_to_forks c)).

Definition to_context_bytes (c : ForkContext) (phase : Phase) : option ForkDigest :=
  let epoch := config_fork_epoch (chain_config c) phase in
  context_bytes c epoch.

Definition all_fork_digests (c : ForkContext) : list ForkDigest :=
  map fork_digest (epoch_to_forks c).*2.

Definition all_fork_epochs (c : ForkContext) : list Epoch := (epoch_to_forks c).*1.

End fork_context.

(** ** Lemmas on the map *)

Section btree_lemmas.
Context {V : Type}.
Implicit Types m : list (Z * V).

Abbreviation by_key := (fun a b : Z * V => a.1 < b.1).

Lemma btree_insert_elem k v m kv :
  kv ∈ btree_insert k v m -> kv = (k, v) \/ kv ∈ m.
Proof.
  induction m as [|[k' v'] m IH]; simpl; [set_solver|].
  repeat case_match; set_solver.
Qed.

Lemma btree_insert_sorted k v m :
  StronglySorted by_key m -> StronglySorted by_key (btree_insert k v m).
Proof.
  induction 1 as [|[k' v'] m Hs IH Hf]; simpl; [by repeat constructor|].
  repeat case_match; bool_to_Prop; simplify_eq/=.
  - constructor; [by constructor|]. constructor; [done|].
    eapply Forall_impl; [exact Hf|]. simpl. lia.
  - by constructor.
  - constructor; [done|]. apply Forall_forall. intros x [->|Hx]%btree_insert_elem; simpl; [lia|].
    by rewrite Forall_forall in Hf; apply Hf.
Qed.

Lemma btree_insert_in k v m : (k, v) ∈ btree_insert k v m.
Proof. induction m as [|[k' v'] m IH]; simpl; [set_solver|]. repeat case_match; set_solver. Qed.

Lemma btree_insert_keep k v m kv : kv ∈ m -> kv.1 <> k -> kv ∈ btree_insert k v m.
Proof.
  induction m as [|[k' v'] m IH]; simpl; [set_solver|]. intros [->|Hin]%elem_of_cons Hne; simpl in *.
  - repeat case_match; bool_to_Prop; set_solver.
  - repeat case_match; set_solver.
Qed.

(** A map collected from keys and a function of them has exactly the keys, sorted. *)
Lemma btree_collect_spec (f : Z -> V) (keys : list Z) :
  let m := btree_collect (map (fun k => (k, f k)) keys) in
  StronglySorted by_key m /\ forall kv, kv ∈ m <-> kv.1 ∈ keys /\ kv.2 = f kv.1.
Proof.
  unfold btree_collect. induction keys as [|k keys IH] using rev_ind; simpl.
  { split; [constructor|]. set_solver. }
  rewrite map_app, foldl_app. simpl. destruct IH as [Hs Hin].
  split; [by apply btree_insert_sorted|]. intros [k' v']. simpl. split.
  - intros [[= -> ->]|Hm]%btree_insert_elem; [set_solver|]. apply Hin in Hm. set_solver.
  - intros [[Hk| ->%list_elem_of_singleton]%elem_of_app ->].
    + destruct (decide (k' = k)) as [->|Hne]; [apply btree_insert_in|].
      apply btree_insert_keep; [|done]. by apply Hin.
    + apply btree_insert_in.
Qed.

(** A sorted map is what it has up to a key, then the rest. *)
Lemma btree_split e m :
  StronglySorted by_key m -> m = btree_upto e m ++ filter (fun kv => e < kv.1) m.
Proof.
  unfold btree_upto. induction 1 as [|kv m Hs IH Hf]; [done|].
  rewrite !filter_cons. destruct (decide (kv.1 <= e)).
  - rewrite decide_False by lia. simpl. by f_equal.
  - rewrite decide_True by lia.
    assert (Hn : filter (fun kv => kv.1 <= e) m = []).
    { apply filter_none. intros x Hx. rewrite Forall_forall in Hf.
      specialize (Hf x Hx). simpl in *. lia. }
    rewrite Hn in *. simpl in *. by rewrite <- IH.
Qed.

Lemma btree_from_suffix pre k v post :
  StronglySorted by_key (pre ++ (k, v) :: post) ->
  btree_from k (pre ++ (k, v) :: post) = (k, v) :: post.
Proof.
  unfold btree_from. intros Hs. rewrite filter_app.
  assert (Hpre : filter (fun kv => k <= kv.1) pre = []).
  { apply filter_none. intros x Hx.
    pose proof (StronglySorted_app_1_elem_of _ _ _ x (k, v) Hs Hx ltac:(set_solver)). simpl in *. lia. }
  rewrite Hpre. simpl. apply StronglySorted_app_1_r in Hs. apply StronglySorted_inv in Hs as [_ Hf].
  rewrite filter_cons_True by (simpl; lia). f_equal.
  apply filter_all. intros x Hx. rewrite Forall_forall in Hf. specialize (Hf x Hx). simpl in *. lia.
Qed.

End btree_lemmas.

(** ** Lemmas on the context *)

Section fork_context_lemmas.
Context `{ChainTypes}.
Implicit Types (c : ForkContext).

(** The map of a context made for [config]. *)
Record forks_of config root c : Prop := {
  fo_config : chain_config c = config;
  fo_sorted : StronglySorted (fun a b => a.1 < b.1) (epoch_to_forks c);
  fo_elem : forall kv, kv ∈ epoch_to_forks c <-> kv.1 ∈ fork_epochs config /\ kv = hard_fork_at config root kv.1;
}.

(** The latest fork epoch that is not after [e]. *)
Definition active_fork config (e f : Epoch) : Prop :=
  f ∈ fork_epochs config /\ f <= e /\ forall f', f' ∈ fork_epochs config -> f' <= e -> f' <= f.

(** The context stands at the fork [f], with [post] to come. *)
Definition stands_at c pre f post : Prop :=
  epoch_to_forks c = pre ++ (fork_epoch f, f) :: post /\ current_fork c = f.

Lemma last_of_snoc {A} (l : list A) x : last l = Some x -> exists l', l = l' ++ [x].
Proof. rewrite last_Some. done. Qed.

Lemma values_filter config root (m : list (Epoch * HardFork)) e :
  (forall kv, kv ∈ m -> kv = hard_fork_at config root kv.1) ->
  filter (fun f => fork_epoch f <= e) m.*2 = (btree_upto e m).*2.
Proof.
  unfold btree_upto. induction m as [|kv m IH]; intros Hm; [done|].
  assert (Hk : fork_epoch kv.2 = kv.1) by (rewrite (Hm kv) by set_solver; done).
  assert (IH' := IH (fun x Hx => Hm x (list_elem_of_further _ _ _ Hx))).
  rewrite fmap_cons, !filter_cons, Hk. by case_decide; rewrite IH', ?fmap_cons.
Qed.

Lemma collect_forks config root current :
  forks_of config root (mkForkContext config current
    (btree_collect (map (hard_fork_at config root) (fork_epochs config)))).
Proof.
  destruct (btree_collect_spec (fun k => (hard_fork_at config root k).2) (fork_epochs config)) as [Hs Hin].
  split; [done..|]. intros [k v]. rewrite Hin. simpl.
  split; intros [? E]; (split; [done|]); [by rewrite E|]. by injection E.
Qed.

Lemma new_eq config slot root :
  ForkContext_new config slot root =
  let forks := btree_collect (map (hard_fork_at config root) (fork_epochs config)) in
  (fun kv => mkForkContext config kv.2 forks) <$> last (btree_upto (compute_epoch_at_slot slot) forks).
Proof.
  unfold ForkContext_new. rewrite (values_filter config root).
  - rewrite fmap_last. by destruct (last _).
  - intros kv Hkv. apply (collect_forks config root
      (HardFork_new Phase0 ForkDigest_default 0)), proj2 in Hkv. done.
Qed.

Lemma new_spec config slot root c :
  ForkContext_new config slot root = Some c ->
  forks_of config root c /\
  exists pre f, let e := compute_epoch_at_slot slot in
    stands_at c pre f (filter (fun kv => e < kv.1) (epoch_to_forks c)) /\
    btree_upto e (epoch_to_forks c) = pre ++ [(fork_epoch f, f)].
Proof.
  rewrite new_eq. cbv zeta. set (e := compute_epoch_at_slot slot).
  intros ([k f] & Hl & ->)%fmap_Some. pose proof (collect_forks config root f) as Hf.
  split; [done|]. apply last_of_snoc in Hl as [pre Hpre].
  assert (k = fork_epoch f) as ->.
  { assert (Hk : (k, f) ∈ btree_collect (map (hard_fork_at config root) (fork_epochs config))).
    { apply (list_elem_of_filter (fun kv => kv.1 <= e)). unfold btree_upto in Hpre. rewrite Hpre. set_solver. }
    apply Hf in Hk as [_ Hk]. simpl in Hk. by injection Hk as ->. }
  exists pre, f. split; [|done]. split; [|done].
  rewrite (btree_split e _ (fo_sorted _ _ _ Hf)) at 1. simpl. rewrite Hpre. by rewrite <- app_assoc.
Qed.

Lemma after_current config root c pre f post :
  forks_of config root c -> stands_at c pre f post -> fork_after_current c = snd <$> head post.
Proof.
  intros Hf [He Hc]. unfold fork_after_current, current_fork_epoch. rewrite Hc, He.
  rewrite btree_from_suffix by (rewrite <- He; apply Hf). by destruct post.
Qed.

Lemma update_forks_of config root c :
  forks_of config root c -> forks_of config root (update_current_fork c).
Proof. by intros [? ? ?]; split. Qed.

Lemma update_step config root c pre f k g post :
  forks_of config root c -> stands_at c pre f ((k, g) :: post) ->
  stands_at (update_current_fork c) (pre ++ [(fork_epoch f, f)]) g post.
Proof.
  intros Hf Hst. pose proof (after_current _ _ _ _ _ _ Hf Hst) as Ha. destruct Hst as [He Hc].
  assert (k = fork_epoch g) as ->.
  { assert (Hk : (k, g) ∈ epoch_to_forks c) by (rewrite He; set_solver).
    apply Hf in Hk as [_ Hk]. simpl in Hk. by injection Hk as ->. }
  split; simpl; [by rewrite <- app_assoc|]. by rewrite Ha.
Qed.

Lemma update_iter config root mid : forall c pre f post,
  forks_of config root c -> stands_at c pre f (mid ++ post) ->
  exists pre', stands_at (Nat.iter (length mid) update_current_fork c) pre'
    (default f (snd <$> last mid)) post.
Proof.
  induction mid as [|[k g] mid IH]; intros c pre f post Hf Hst; [by exists pre|].
  pose proof (update_step _ _ _ _ _ _ _ _ Hf Hst) as Hst'.
  destruct (IH _ _ _ _ (update_forks_of _ _ _ Hf) Hst') as [pre' Hp].
  exists pre'. simpl. rewrite <- Nat.iter_succ, Nat.iter_succ_r.
  replace (default f (snd <$> last ((k, g) :: mid))) with (default g (snd <$> last mid)); [done|].
  destruct mid as [|kv mid] using rev_ind; [done|]. by rewrite app_comm_cons, !last_snoc.
Qed.

Lemma update_keeps n c :
  chain_config (Nat.iter n update_current_fork c) = chain_config c /\
  epoch_to_forks (Nat.iter n update_current_fork c) = epoch_to_forks c.
Proof. by induction n. Qed.

Lemma new_forks config slot root c :
  ForkContext_new config slot root = Some c ->
  epoch_to_forks c = btree_collect (map (hard_fork_at config root) (fork_epochs config)).
Proof. unfold ForkContext_new. destruct (last _); [|done]. by intros [= <-]. Qed.

(** The last entry up to an epoch is the fork active at it. *)
Lemma last_upto_active config root c e kv :
  forks_of config root c -> last (btree_upto e (epoch_to_forks c)) = Some kv ->
  active_fork config e kv.1 /\ kv = hard_fork_at config root kv.1.
Proof.
  intros [_ Hs Hin] Hl. apply last_of_snoc in Hl as [pre Hp].
  assert (Hkv : kv ∈ btree_upto e (epoch_to_forks c)) by (rewrite Hp; set_solver).
  apply list_elem_of_filter in Hkv as [Hle Hkv]. apply Hin in Hkv as [Hkv E].
  split; [|done]. split_and!; [done..|]. intros f' Hf' Hle'.
  assert (Hm : hard_fork_at config root f' ∈ btree_upto e (epoch_to_forks c)).
  { apply list_elem_of_filter. split; [done|]. by apply Hin. }
  rewrite Hp in Hm. apply elem_of_app in Hm as [Hm|Hm%list_elem_of_singleton]; [|by rewrite <- Hm].
  pose proof (btree_split e _ Hs) as Hsplit. rewrite Hsplit, Hp, <- app_assoc in Hs.
  pose proof (StronglySorted_app_1_elem_of _ _ _ _ kv Hs Hm ltac:(set_solver)) as Hlt. simpl in Hlt. lia.
Qed.

Lemma upto_nonempty config root c e f :
  forks_of config root c -> f ∈ fork_epochs config -> f <= e ->
  is_Some (last (btree_upto e (epoch_to_forks c))).
Proof.
  intros Hf Hin Hle. apply last_is_Some. intros E.
  apply (filter_nil_not_elem_of _ _ (hard_fork_at config root f)) in E; [|done].
  apply E, Hf. by split.
Qed.

Lemma genesis_first config root c :
  forks_of config root c -> 0 ∈ fork_epochs config -> Forall (fun f => 0 <= f) (fork_epochs config) ->
  genesis_context_bytes c = Some (compute_fork_digest config root 0).
Proof.
  intros [_ Hs Hin] H0 Hpos. unfold genesis_context_bytes.
  assert (Hz : hard_fork_at config root 0 ∈ epoch_to_forks c) by by apply Hin.
  destruct (epoch_to_forks c) as [|kv m]; [by apply not_elem_of_nil in Hz|]. simpl.
  destruct (proj1 (Hin kv)) as [Hkv E]; [set_solver|].
  rewrite Forall_forall in Hpos. pose proof (Hpos _ Hkv).
  apply elem_of_cons in Hz as [<-|Hz]; [done|].
  apply StronglySorted_inv in Hs as [_ Hs]. rewrite Forall_forall in Hs.
  specialize (Hs _ Hz). simpl in Hs. lia.
Qed.

Lemma find_digest config root c d :
  forks_of config root c ->
  match get_fork_from_context_bytes c d with
  | Some p => exists f, f ∈ fork_epochs config /\ d = compute_fork_digest config root f /\
      p = config_phase_at_epoch config f
  | None => forall f, f ∈ fork_epochs config -> d <> compute_fork_digest config root f
  end.
Proof.
  intros Hf. unfold get_fork_from_context_bytes. destruct (List.find _ _) as [h|] eqn:Hfind; simpl.
  - apply List.find_some in Hfind as [Hh Hd%bool_decide_eq_true]. apply list_elem_of_In in Hh.
    apply list_elem_of_fmap in Hh as ([k h'] & -> & Hk). apply Hf in Hk as [Hk E]. simpl in *.
    injection E as ->. by exists k.
  - intros f Hin ->. assert (Hk : hard_fork_at config root f ∈ epoch_to_forks c) by by apply Hf.
    apply (list_elem_of_fmap_2 snd) in Hk.
    apply list_elem_of_In, (List.find_none _ _ Hfind), bool_decide_eq_false in Hk. done.
Qed.

End fork_context_lemmas.

(** ** Theorems *)

Section fork_context_theorems.
Context `{ChainTypes}.

(** The digests of the forks.  For a configuration with a fork at genesis, [new] succeeds at any
    slot and the current fork is the one active at its epoch; the context bytes of an epoch are the
    digest of the fork active at it, those of genesis the digest at epoch 0; when the forks have
    distinct digests, each digest is recognised as the phase of its fork; and no other context is
    recognised. *)
Theorem fork_digests config slot root :
  0 ∈ fork_epochs config -> Forall (fun f => 0 <= f) (fork_epochs config) ->
  0 <= compute_epoch_at_slot slot ->
  exists c, ForkContext_new config slot root = Some c /\
    active_fork config (compute_epoch_at_slot slot) (current_fork_epoch c) /\
    (forall e, 0 <= e -> exists f,
       active_fork config e f /\ context_bytes c e = Some (compute_fork_digest config root f)) /\
    genesis_context_bytes c = Some (compute_fork_digest config root 0) /\
    (forall f, f ∈ fork_epochs config ->
       (forall f', f' ∈ fork_epochs config ->
          compute_fork_digest config root f' = compute_fork_digest config root f -> f' = f) ->
       get_fork_from_context_bytes c (compute_fork_digest config root f) =
         Some (config_phase_at_epoch config f)) /\
    (forall d, d ∉ map (compute_fork_digest config root) (fork_epochs config) ->
       get_fork_from_context_bytes c d = None).
Proof.
  intros H0 Hpos Hslot. destruct (ForkContext_new config slot root) as [c|] eqn:Hnew.
  2: { rewrite new_eq in Hnew. apply fmap_None in Hnew.
       destruct (upto_nonempty config root _ _ 0 (collect_forks config root
         (HardFork_new Phase0 ForkDigest_default 0)) H0 Hslot) as [kv E]. simpl in E. congruence. }
  destruct (new_spec _ _ _ _ Hnew) as (Hf & pre & f & [He Hc] & Hp).
  exists c. split; [done|]. split_and!.
  - pose proof (last_upto_active config root c (compute_epoch_at_slot slot) (fork_epoch f, f) Hf) as Ha.
    rewrite Hp, last_snoc in Ha. unfold current_fork_epoch. rewrite Hc. by apply Ha.
  - intros e Hle. destruct (upto_nonempty _ _ _ e 0 Hf H0 Hle) as [kv Hl].
    destruct (last_upto_active _ _ _ _ _ Hf Hl) as [Ha E].
    exists kv.1. split; [done|]. unfold context_bytes. rewrite Hl. simpl. by rewrite E.
  - by apply (genesis_first config root).
  - intros f' Hf' Hinj. pose proof (find_digest config root c (compute_fork_digest config root f') Hf) as Hd.
    destruct (get_fork_from_context_bytes _ _) as [p|].
    + destruct Hd as (f'' & Hin & E & ->). by rewrite (Hinj f'').
    + by destruct (Hd f').
  - intros d Hd. pose proof (find_digest config root c d Hf) as Hfd.
    destruct (get_fork_from_context_bytes _ _) as [p|]; [|done].
    destruct Hfd as (f' & Hin & -> & _). destruct Hd. by apply list_elem_of_fmap_2.
Qed.

(** C32: stepping is rebuilding.  A context built at a slot, updated once for every fork between its
    epoch and a later one, is the context built at the later slot. *)
Theorem update_current_fork_rebuilds config root s1 s2 c1 c2 :
  ForkContext_new config s1 root = Some c1 -> ForkContext_new config s2 root = Some c2 ->
  compute_epoch_at_slot s1 <= compute_epoch_at_slot s2 ->
  Nat.iter (length (filter (fun f => compute_epoch_at_slot s1 < f <= compute_epoch_at_slot s2)
                      (all_fork_epochs c1))) update_current_fork c1 = c2.
Proof.
  intros H1 H2 Hle. pose proof (new_forks _ _ _ _ H1) as Hm1. pose proof (new_forks _ _ _ _ H2) as Hm2.
  destruct (new_spec _ _ _ _ H1) as (Hf1 & pre1 & f1 & Hst1 & _).
  destruct (new_spec _ _ _ _ H2) as (Hf2 & pre2 & f2 & [He2 Hc2] & _). cbv zeta in Hst1, He2.
  set (e1 := compute_epoch_at_slot s1) in *. set (e2 := compute_epoch_at_slot s2) in *.
  set (mid := btree_upto e2 (filter (fun kv => e1 < kv.1) (epoch_to_forks c1))).
  assert (Hpost : filter (fun kv => e1 < kv.1) (epoch_to_forks c1) =
                  mid ++ filter (fun kv => e2 < kv.1) (epoch_to_forks c2)).
  { rewrite (btree_split e2 (filter _ _)) at 1 by (apply StronglySorted_filter, Hf1). unfold mid. f_equal.
    rewrite list_filter_filter, Hm1, Hm2. apply list_filter_iff. intros kv. lia. }
  rewrite Hpost in Hst1. destruct (update_iter _ _ _ _ _ _ _ Hf1 Hst1) as [pre' [He Hc]].
  replace (length (filter _ _)) with (length mid).
  2: { unfold mid, btree_upto, all_fork_epochs. rewrite filter_fmap_length, list_filter_filter.
       f_equal. apply list_filter_iff. intros kv. lia. }
  set (c := Nat.iter (length mid) update_current_fork c1) in *.
  destruct (update_keeps (length mid) c1) as [Hcfg Hmap]. fold c in Hcfg, Hmap.
  rewrite Hmap, Hm1, <- Hm2 in He. set (post2 := filter _ _) in He2, He.
  rewrite He2 in He. rewrite !(cons_middle (_, _)), !app_assoc in He.
  apply app_inv_tail, app_inj_tail in He as [_ He].
  injection He as _ He.
  rewrite (fo_config _ _ _ Hf1), <- (fo_config _ _ _ Hf2) in Hcfg. rewrite Hm1, <- Hm2 in Hmap.
  destruct c, c2; simpl in *. congruence.
Qed.

End fork_context_theorems.

(** ** Closed instances *)

Module ForkContextExamples.

#[local] Existing Instance Toy.chain.

(** The toy chain forks every ten epochs and at epoch 65, which changes blob parameters only. *)
Definition at_slot (slot : Slot) : option ForkContext := ForkContext_new tt slot 0.

Example context_at_42 :
  (fun c => (current_fork_name c, current_fork_epoch c, next_fork c, context_bytes c 12,
             get_fork_from_context_bytes c 1065)) <$> at_slot (42 * 32) =
  Some (Deneb, 40, Some (Electra, 1050, 50), Some 1010, Some Fulu).
Proof. vm_compute. reflexivity. Qed.

(** Past the last fork an update leaves a fork that never starts, with the default digest. *)
Example update_past_last :
  (fun c => (current_fork (update_current_fork c))) <$> at_slot (80 * 32) =
  Some (mkHardFork Gloas FAR_FUTURE_EPOCH 0).
Proof. vm_compute. reflexivity. Qed.

Lemma fork_digests_witness :
  exists c, at_slot 1344 = Some c /\ get_fork_from_context_bytes c 1050 = Some Electra.
Proof.
  destruct (@fork_digests Toy.chain tt 1344 0) as (c & E & _ & _ & _ & Hd & _).
  - vm_compute. left.
  - vm_compute. repeat constructor; discriminate.
  - vm_compute. discriminate.
  - exists c. split; [exact E|]. apply (Hd 50).
    + apply list_elem_of_In. vm_compute. tauto.
    + intros f' _ E'. change (1000 + f' = 1000 + 50) in E'. lia.
Defined.

Definition forks_between (e1 e2 : Epoch) (c : ForkContext) : nat :=
  length (filter (fun f => e1 < f <= e2) (all_fork_epochs c)).

Example seven_forks : forks_between 0 66 <$> at_slot 0 = Some 7%nat.
Proof. evaluate. Qed.

Example at_epoch_66 : current_fork_epoch <$> at_slot 2112 = Some 65.
Proof. evaluate. Qed.

Lemma update_current_fork_rebuilds_witness :
  exists c1 c2, at_slot 0 = Some c1 /\ at_slot 2112 = Some c2 /\
    Nat.iter 7 update_current_fork c1 = c2.
Proof.
  destruct (proj1 (fmap_Some _ _ _) seven_forks) as (c1 & E1 & E7).
  destruct (proj1 (fmap_Some _ _ _) at_epoch_66) as (c2 & E2 & _).
  exists c1, c2. split; [exact E1|]. split; [exact E2|]. rewrite E7.
  apply (@update_current_fork_rebuilds Toy.chain tt 0 0 2112 c1 c2 E1 E2). vm_compute. discriminate.
Defined.

End ForkContextExamples.
