(* ===== verification/Handler.v ===== *)
(** * The connection handler of the RPC ([rpc/handler.rs])

    One handler per connection drives the substreams of inbound and outbound requests, with a timeout
    for each, opens outbound substreams from a queue, and shuts the connection down.  Substreams, the
    clock and the negotiation of substreams belong to libp2p; what they deliver during a poll is the
    argument [PollEnv].  [None] stands for a panic of the code. *)

From S2P Require Import Prelude Timers Chain Protocol Messages Text RateLimiter RateConfig.
From S2P Require Import SelfLimiter Events ForkContext.

(** [ErrorType]'s [Display], which uses the [regex] crate. *)
Class ErrorDisplay := { ErrorType_to_string : list Z -> list Z }.

Definition IO_ERROR_RETRIES : Z := 3.
Definition SHUTDOWN_TIMEOUT_SECS : Z := 15.
Definition MAX_INBOUND_SUBSTREAMS : Z := 32.
Definition RESP_TIMEOUT : Duration := Duration_from_secs 10.

(** [u32] subtraction as a release build computes it. *)
Definition u32_wrapping_sub (a b : Z) : Z := (a - b) mod 2 ^ 32.

Module HandlerState.

Inductive HandlerState :=
  | Active
  | ShuttingDown (deadline : Instant)
  | Deactivated.

End HandlerState.
Abbreviation HandlerState := HandlerState.HandlerState.

(** The errors with which libp2p reports a failed outbound substream. *)
Inductive StreamUpgradeError :=
  | UpgradeTimeout
  | UpgradeApply (e : RPCError)
  | UpgradeNegotiationFailed
  | UpgradeIo (message : list Z).

Section handler.
Context `{ChainTypes} `{HashIter} `{DelayQueue} `{DelayKeys} `{ErrorDisplay} {Id : Type}.

(** ** State *)

(** A framed inbound substream: the responses its sink has taken, and whether it is closed. *)
Record InboundSubstream := mkSubstream {
  written : list RpcResponse;
  closed : bool;
}.

(** The suspension points of the future of [send_message_to_inbound_substream]. *)
Inductive SendFuture :=
  | FutTerminate (substream : InboundSubstream) (message : RpcResponse)
  | FutSend (substream : InboundSubstream) (message : RpcResponse) (last_chunk : bool)
  | FutClose (substream : InboundSubstream) (send_result : result unit RPCError).

Inductive InboundState :=
  | Idle (substream : InboundSubstream)
  | Busy (fut : SendFuture)
  | InboundPoisoned.

Record InboundInfo := mkInboundInfo {
  ii_state : InboundState;
  pending_items : list RpcResponse;
  ii_protocol : Protocol;
  ii_max_remaining_chunks : Z;
  ii_delay_key : option Z;
}.

Inductive OutboundSubstreamState :=
  | RequestPendingResponse (request : RequestType)
  | Closing
  | OutboundPoisoned.

Record OutboundInfo := mkOutboundInfo {
  oi_state : OutboundSubstreamState;
  oi_delay_key : Z;
  oi_proto : Protocol;
  oi_max_remaining_chunks : option Z;
  oi_req_id : Id;
}.

Record RPCHandler := mkRPCHandler {
  connection_id : Z;
  events_out : list (HandlerEvent Id);
  dial_queue : list (Id * RequestType);
  dial_negotiated : Z;
  inbound_substreams : gmap Z InboundInfo;
  inbound_substreams_delay : KeyedQueue Z;
  outbound_substreams : gmap Z OutboundInfo;
  outbound_substreams_delay : KeyedQueue Z;
  current_inbound_substream_id : Z;
  current_outbound_substream_id : Z;
  max_dial_negotiated : Z;
  handler_state : HandlerState;
  outbound_io_error_retries : Z;
}.

Definition RPCHandler_new (connection_id : Z) : RPCHandler :=
  mkRPCHandler connection_id [] [] 0 ∅ [] ∅ [] 0 0 8 HandlerState.Active 0.

(** Field updates. *)
Definition set_events_out (h : RPCHandler) (e : list (HandlerEvent Id)) : RPCHandler :=
  mkRPCHandler (connection_id h) e (dial_queue h) (dial_negotiated h) (inbound_substreams h)
    (inbound_substreams_delay h) (outbound_substreams h) (outbound_substreams_delay h)
    (current_inbound_substream_id h) (current_outbound_substream_id h) (max_dial_negotiated h)
    (handler_state h) (outbound_io_error_retries h).

Definition push_out (h : RPCHandler) (e : HandlerEvent Id) : RPCHandler :=
  set_events_out h (events_out h ++ [e]).

Definition set_dial (h : RPCHandler) (q : list (Id * RequestType)) (n : Z) : RPCHandler :=
  mkRPCHandler (connection_id h) (events_out h) q n (inbound_substreams h)
    (inbound_substreams_delay h) (outbound_substreams h) (outbound_substreams_delay h)
    (current_inbound_substream_id h) (current_outbound_substream_id h) (max_dial_negotiated h)
    (handler_state h) (outbound_io_error_retries h).

Definition set_state (h : RPCHandler) (s : HandlerState) : RPCHandler :=
  mkRPCHandler (connection_id h) (events_out h) (dial_queue h) (dial_negotiated h)
    (inbound_substreams h) (inbound_substreams_delay h) (outbound_substreams h)
    (outbound_substreams_delay h) (current_inbound_substream_id h)
    (current_outbound_substream_id h) (max_dial_negotiated h) s (outbound_io_error_retries h).

Definition set_retries (h : RPCHandler) (n : Z) : RPCHandler :=
  mkRPCHandler (connection_id h) (events_out h) (dial_queue h) (dial_negotiated h)
    (inbound_substreams h) (inbound_substreams_delay h) (outbound_substreams h)
    (outbound_substreams_delay h) (current_inbound_substream_id h)
    (current_outbound_substream_id h) (max_dial_negotiated h) (handler_state h) n.

Definition set_inbound (h : RPCHandler) (m : gmap Z InboundInfo) (q : KeyedQueue Z) : RPCHandler :=
  mkRPCHandler (connection_id h) (events_out h) (dial_queue h) (dial_negotiated h) m q
    (outbound_substreams h) (outbound_substreams_delay h) (current_inbound_substream_id h)
    (current_outbound_substream_id h) (max_dial_negotiated h) (handler_state h)
    (outbound_io_error_retries h).

Definition set_outbound (h : RPCHandler) (m : gmap Z OutboundInfo) (q : KeyedQueue Z) : RPCHandler :=
  mkRPCHandler (connection_id h) (events_out h) (dial_queue h) (dial_negotiated h)
    (inbound_substreams h) (inbound_substreams_delay h) m q (current_inbound_substream_id h)
    (current_outbound_substream_id h) (max_dial_negotiated h) (handler_state h)
    (outbound_io_error_retries h).

Definition set_ids (h : RPCHandler) (inbound outbound : Z) : RPCHandler :=
  mkRPCHandler (connection_id h) (events_out h) (dial_queue h) (dial_negotiated h)
    (inbound_substreams h) (inbound_substreams_delay h) (outbound_substreams h)
    (outbound_substreams_delay h) inbound outbound (max_dial_negotiated h) (handler_state h)
    (outbound_io_error_retries h).

Definition set_ii_state (i : InboundInfo) (s : InboundState) : InboundInfo :=
  mkInboundInfo s (pending_items i) (ii_protocol i) (ii_max_remaining_chunks i) (ii_delay_key i).

Definition set_pending (i : InboundInfo) (l : list RpcResponse) : InboundInfo :=
  mkInboundInfo (ii_state i) l (ii_protocol i) (ii_max_remaining_chunks i) (ii_delay_key i).

Definition set_oi_state (i : OutboundInfo) (s : OutboundSubstreamState) : OutboundInfo :=
  mkOutboundInfo s (oi_delay_key i) (oi_proto i) (oi_max_remaining_chunks i) (oi_req_id i).

Definition is_deactivated (s : HandlerState) : bool :=
  match s with HandlerState.Deactivated => true | _ => false end.

Definition is_active (s : HandlerState) : bool :=
  match s with HandlerState.Active => true | _ => false end.

(** ** Messages from the behaviour *)

(** The loop of [shutdown], which empties the queue from its end. *)
Definition fail_dials (q : list (Id * RequestType)) : list (HandlerEvent Id) :=
  map (fun d => HandlerError (OutboundErr d.1 (request_protocol d.2) Disconnected)) (rev q).

Definition shutdown (h : RPCHandler) (now : Instant) (goodbye_reason : option (Id * GoodbyeReason))
  : RPCHandler :=
  if is_active (handler_state h) then
    let h := set_events_out h (events_out h ++ fail_dials (dial_queue h)) in
    let h := set_dial h
               match goodbye_reason with
               | Some (id, reason) => [(id, ReqGoodbye reason)]
               | None => []
               end (dial_negotiated h) in
    set_state h (HandlerState.ShuttingDown (now + Duration_from_secs SHUTDOWN_TIMEOUT_SECS))
  else h.

Definition handler_send_request (h : RPCHandler) (id : Id) (req : RequestType) : RPCHandler :=
  if is_active (handler_state h)
  then set_dial h (dial_queue h ++ [(id, req)]) (dial_negotiated h)
  else push_out h (HandlerError (OutboundErr id (request_protocol req) Disconnected)).

Definition handler_send_response (h : RPCHandler) (inbound_id : Z) (response : RpcResponse)
  : RPCHandler :=
  match inbound_substreams h !! inbound_id with
  | None => h
  | Some inbound_info =>
      let h :=
        match response with
        | RpcError code reason =>
            push_out h (HandlerError (InboundErr inbound_id (ii_protocol inbound_info)
                          (ErrorResponse code (ErrorType_to_string reason))))
        | _ => h
        end in
      if is_deactivated (handler_state h) then h
      else set_inbound h
             (<[inbound_id := set_pending inbound_info (pending_items inbound_info ++ [response])]>
                (inbound_substreams h)) (inbound_substreams_delay h)
  end.

Definition on_behaviour_event (h : RPCHandler) (now : Instant) (rpc_event : RPCSend Id) : RPCHandler :=
  match rpc_event with
  | SendRequest id req => handler_send_request h id req
  | SendResponse inbound_id response => handler_send_response h inbound_id response
  | SendShutdown id reason => shutdown h now (Some (id, reason))
  end.

Definition connection_keep_alive (h : RPCHandler) : bool := negb (is_deactivated (handler_state h)).

(** ** Events of the connection *)

Definition exceeded_limit (max_allowed requested : Z) : RPCError :=
  InvalidData (bytes (lit "requested exceeded limit. allowed: " ++ print_u64 max_allowed ++
                      lit ", requested: " ++ print_u64 requested)).

(** The check on the size of a request: the protocol and error to report when it asks for too much. *)
Definition request_excess (fork_context : ForkContext) (req : RequestType) : option (Protocol * RPCError) :=
  let phase := current_fork_name fork_context in
  let config := chain_config fork_context in
  match req with
  | ReqBlocksByRange request =>
      let max_allowed := config_max_request_blocks config phase in
      if max_allowed <? OldBlocksByRangeRequest_count request
      then Some (Protocol.BlocksByRange, exceeded_limit max_allowed (OldBlocksByRangeRequest_count request))
      else None
  | ReqBlobsByRange request =>
      let epoch := compute_epoch_at_slot (blbr_start_slot request) in
      let max_requested_blobs := max_blobs_requested request config epoch in
      let max_allowed := config_max_request_blob_sidecars config phase in
      if max_allowed <? max_requested_blobs
      then Some (Protocol.BlobsByRange, exceeded_limit max_allowed max_requested_blobs)
      else None
  | _ => None
  end.

Definition is_goodbye (r : RequestType) : bool := match r with ReqGoodbye _ => true | _ => false end.

(** A request that is refused: the error is reported and the connection shut down. *)
Definition reject_inbound (h : RPCHandler) (now : Instant) (proto : Protocol) (error : RPCError)
  : RPCHandler :=
  shutdown (push_out h (HandlerError (InboundErr (current_inbound_substream_id h) proto error))) now None.

(** The end of [on_fully_negotiated_inbound], reached by every request that is not refused. *)
Definition accept_inbound (h : RPCHandler) (now : Instant) (req : RequestType) : RPCHandler :=
  let h := if is_goodbye req then shutdown h now None else h in
  let id := current_inbound_substream_id h in
  let h := push_out h (HandlerOk (RecvRequest (mkInboundRequestId (connection_id h) id) req)) in
  set_ids h (usize_wrapping_add id 1) (current_outbound_substream_id h).

Definition on_fully_negotiated_inbound (h : RPCHandler) (now : Instant) (fork_context : ForkContext)
  (req : RequestType) (substream : InboundSubstream) : RPCHandler :=
  if is_active (handler_state h) then
    match request_excess fork_context req with
    | Some (proto, error) => reject_inbound h now proto error
    | None =>
        let max_responses :=
          max_responses req (chain_config fork_context) (current_fork_epoch fork_context) in
        if 0 <? max_responses then
          if Z.of_nat (size (inbound_substreams h)) <? MAX_INBOUND_SUBSTREAMS then
            let id := current_inbound_substream_id h in
            let '(delay_key, delay) := kq_insert (inbound_substreams_delay h) now id RESP_TIMEOUT in
            let info := mkInboundInfo (Idle substream) [] (request_protocol req) max_responses
                          (Some delay_key) in
            accept_inbound (set_inbound h (<[id := info]> (inbound_substreams h)) delay) now req
          else reject_inbound h now (request_protocol req) HandlerRejected
        else accept_inbound h now req
    end
  else h.

Definition on_fully_negotiated_outbound (h : RPCHandler) (now : Instant) (fork_context : ForkContext)
  (id : Id) (request : RequestType) : RPCHandler :=
  let h := set_dial h (dial_queue h) (u32_wrapping_sub (dial_negotiated h) 1) in
  let h := set_retries h 0 in
  let proto := request_protocol request in
  let h := if is_deactivated (handler_state h)
           then push_out h (HandlerError (OutboundErr id proto Disconnected)) else h in
  let max_responses :=
    max_responses request (chain_config fork_context) (current_fork_epoch fork_context) in
  if 0 <? max_responses then
    let max_remaining_chunks :=
      if expect_exactly_one_response request then None else Some max_responses in
    let outbound_id := current_outbound_substream_id h in
    let '(delay_key, delay) := kq_insert (outbound_substreams_delay h) now outbound_id RESP_TIMEOUT in
    let h := set_outbound h
      (<[outbound_id := mkOutboundInfo (RequestPendingResponse request) delay_key proto
                          max_remaining_chunks id]> (outbound_substreams h)) delay in
    set_ids h (current_inbound_substream_id h) (usize_wrapping_add outbound_id 1)
  else h.

Definition on_dial_upgrade_error (h : RPCHandler) (id : Id) (req : RequestType)
  (error : StreamUpgradeError) : RPCHandler :=
  let h := set_dial h (dial_queue h) (u32_wrapping_sub (dial_negotiated h) 1) in
  let report h error :=
    push_out (set_retries h 0) (HandlerError (OutboundErr id (request_protocol req) error)) in
  let retry error :=
    let h := set_retries h (u8_wrapping_add (outbound_io_error_retries h) 1) in
    if outbound_io_error_retries h <? IO_ERROR_RETRIES
    then handler_send_request h id req else report h error in
  match error with
  | UpgradeTimeout => report h NegotiationTimeout
  | UpgradeApply (IoError e) => retry (IoError e)
  | UpgradeNegotiationFailed => report h UnsupportedProtocol
  | UpgradeIo io_err => retry (IoError io_err)
  | UpgradeApply other => report h other
  end.

(** ** Polling *)

(** What the runtime delivers during one poll: the time; for every inbound substream the results of
    the operations on it that complete, in order, after which operations are pending; for every
    outbound substream what polling it for a response gives ([None] is pending), and whether closing
    it completes. *)
Record PollEnv := mkPollEnv {
  pe_now : Instant;
  pe_io : Z -> list (result unit RPCError);
  pe_next : Z -> option (option (result RpcResponse RPCError));
  pe_close : Z -> bool;
}.

Inductive HandlerPoll :=
  | PollPending
  | PollNotify (e : HandlerEvent Id)
  | PollDial (id : Id) (req : RequestType).

Definition is_error (r : RpcResponse) : bool := match r with RpcError _ _ => true | _ => false end.

Definition send_message_to_inbound_substream (substream : InboundSubstream) (message : RpcResponse)
  (last_chunk : bool) : SendFuture :=
  match message with
  | RpcStreamTermination _ => FutTerminate substream message
  | _ => FutSend substream message last_chunk
  end.

(** The result of [substream.close()], given what the sink answers. *)
Definition close_result (substream : InboundSubstream) (r : result unit RPCError)
  : result (InboundSubstream * bool) RPCError :=
  match r with
  | Ok _ => Ok (mkSubstream (written substream) true, true)
  | Err e => Err e
  end.

(** The result of the send error or else of closing. *)
Definition after_close (send_result : result unit RPCError)
  (close : result (InboundSubstream * bool) RPCError) : result (InboundSubstream * bool) RPCError :=
  match send_result with Err e => Err e | Ok _ => close end.

(** Polling the future: its output, or the point at which it is suspended, and the operations'
    results that are left. *)
Definition poll_send (fut : SendFuture) (io : list (result unit RPCError))
  : (result (InboundSubstream * bool) RPCError + SendFuture) * list (result unit RPCError) :=
  match fut, io with
  | FutTerminate substream _, r :: io => (inl (close_result substream r), io)
  | FutClose substream send_result, r :: io => (inl (after_close send_result (close_result substream r)), io)
  | FutSend substream message last_chunk, send_result :: io =>
      let substream :=
        if is_ok send_result then mkSubstream (written substream ++ [message]) (closed substream)
        else substream in
      if last_chunk || is_error message || negb (is_ok send_result) then
        match io with
        | r :: io => (inl (after_close send_result (close_result substream r)), io)
        | [] => (inr (FutClose substream send_result), [])
        end
      else (inl (Ok (substream, false)), io)
  | _, [] => (inr fut, [])
  end.

(** Whether the request was still being answered: the last item queued does not end the stream. *)
Definition still_active (i : InboundInfo) : bool :=
  match last (pending_items i) with Some l => negb (close_after l) | None => false end.

Definition remove_key (delay : KeyedQueue Z) (key : option Z) : option (KeyedQueue Z) :=
  match key with Some k => kq_remove delay k | None => Some delay end.

(** The loop over one inbound substream; the result has the substream, the timeouts, the events to
    append and whether the substream is to be removed. *)
Fixpoint drive_inbound_loop (fuel : nat) (deactivated : bool) (now : Instant) (id : Z)
  (io : list (result unit RPCError)) (info : InboundInfo) (delay : KeyedQueue Z)
  : option (InboundInfo * KeyedQueue Z * list (HandlerEvent Id) * bool) :=
  match fuel with
  | O => None
  | S fuel =>
      let report error := HandlerError (InboundErr id (ii_protocol info) error) in
      match ii_state info with
      | Idle substream =>
          if negb deactivated then
            match pending_items info with
            | message :: rest =>
                let last_chunk := ii_max_remaining_chunks info <=? 1 in
                let fut := send_message_to_inbound_substream substream message last_chunk in
                drive_inbound_loop fuel deactivated now id io
                  (set_ii_state (set_pending info rest) (Busy fut)) delay
            | [] => Some (info, delay, [], false)
            end
          else
            match io with
            | [] => Some (info, delay, [], false)
            | res :: _ =>
                let* delay := remove_key delay (ii_delay_key info) in
                Some (set_ii_state info InboundPoisoned, delay,
                  (match res with Err error => [report error] | Ok _ => [] end) ++
                  (if still_active info then [report Disconnected] else []), true)
            end
      | Busy fut =>
          match poll_send fut io with
          | (inl (Ok (substream, false)), io) =>
              let info := mkInboundInfo (ii_state info) (pending_items info) (ii_protocol info)
                            (saturating_sub (ii_max_remaining_chunks info) 1) (ii_delay_key info) in
              let* delay := match ii_delay_key info with
                      | Some k => kq_reset delay k now RESP_TIMEOUT
                      | None => Some delay
                      end in
              match pending_items info with
              | message :: rest =>
                  if negb deactivated then
                    let last_chunk := ii_max_remaining_chunks info <=? 1 in
                    let fut := send_message_to_inbound_substream substream message last_chunk in
                    drive_inbound_loop fuel deactivated now id io
                      (set_ii_state (set_pending info rest) (Busy fut)) delay
                  else Some (set_ii_state info (Idle substream), delay, [], false)
              | [] => Some (set_ii_state info (Idle substream), delay, [], false)
              end
          | (inl (Ok (_, true)), _) =>
              let* delay := remove_key delay (ii_delay_key info) in
              Some (set_ii_state info InboundPoisoned, delay, [], true)
          | (inl (Err error), _) =>
              let* delay := remove_key delay (ii_delay_key info) in
              Some (set_ii_state info InboundPoisoned, delay, [report error], true)
          | (inr fut, _) => Some (set_ii_state info (Busy fut), delay, [], false)
          end
      | InboundPoisoned => None
      end
  end.

(** Every iteration but the last takes a queued item, or is the one after the substream was idle. *)
Definition drive_fuel (info : InboundInfo) : nat := S (S (length (pending_items info))).

Definition drive_inbound (deactivated : bool) (env : PollEnv) (id : Z) (info : InboundInfo)
  (delay : KeyedQueue Z) : option (InboundInfo * KeyedQueue Z * list (HandlerEvent Id) * bool) :=
  drive_inbound_loop (drive_fuel info) deactivated (pe_now env) id (pe_io env id) info delay.

Definition timed_out_message : list Z := ErrorType_from (bytes (lit "Request timed out")).

(** A timeout of an inbound substream. *)
Definition expire_inbound (info : InboundInfo) : InboundInfo :=
  mkInboundInfo (ii_state info)
    (if still_active info then pending_items info ++ [RpcError ServerError timed_out_message]
     else pending_items info)
    (ii_protocol info) (ii_max_remaining_chunks info) None.

(** The loop over the expired timeouts of inbound substreams; every iteration takes an entry of the
    queue. *)
Fixpoint purge_inbound (fuel : nat) (now : Instant) (h : RPCHandler) : RPCHandler :=
  match fuel with
  | O => h
  | S fuel =>
      match poll_expired (inbound_substreams_delay h) now with
      | None => h
      | Some i =>
          match inbound_substreams_delay h !! i with
          | None => h
          | Some ((_, id), _) =>
              let h := set_inbound h (inbound_substreams h) (dq_remove (inbound_substreams_delay h) i) in
              purge_inbound fuel now
                match inbound_substreams h !! id with
                | Some info =>
                    push_out (set_inbound h (<[id := expire_inbound info]> (inbound_substreams h))
                                (inbound_substreams_delay h))
                      (HandlerError (InboundErr id (ii_protocol info) StreamTimeout))
                | None => h
                end
          end
      end
  end.

(** The loop over the expired timeouts of outbound substreams, which returns at the first substream. *)
Fixpoint purge_outbound (fuel : nat) (now : Instant) (h : RPCHandler)
  : option (HandlerEvent Id) * RPCHandler :=
  match fuel with
  | O => (None, h)
  | S fuel =>
      match poll_expired (outbound_substreams_delay h) now with
      | None => (None, h)
      | Some i =>
          match outbound_substreams_delay h !! i with
          | None => (None, h)
          | Some ((_, id), _) =>
              let h := set_outbound h (outbound_substreams h) (dq_remove (outbound_substreams_delay h) i) in
              match outbound_substreams h !! id with
              | Some info =>
                  (Some (HandlerError (OutboundErr (oi_req_id info) (oi_proto info) StreamTimeout)),
                   set_outbound h (delete id (outbound_substreams h)) (outbound_substreams_delay h))
              | None => purge_outbound fuel now h
              end
          end
      end
  end.

(** The loop over the inbound substreams. *)
Fixpoint drive_inbound_all (deactivated : bool) (env : PollEnv) (l : list (Z * InboundInfo))
  (m : gmap Z InboundInfo) (delay : KeyedQueue Z)
  : option (gmap Z InboundInfo * KeyedQueue Z * list (HandlerEvent Id) * list Z) :=
  match l with
  | [] => Some (m, delay, [], [])
  | (id, info) :: l =>
      match drive_inbound deactivated env id info delay with
      | Some (info, delay, events, remove) =>
          match drive_inbound_all deactivated env l (<[id := info]> m) delay with
          | Some (m, delay, events', removed) =>
              Some (m, delay, events ++ events', (if remove then [id] else []) ++ removed)
          | None => None
          end
      | None => None
      end
  end.

Definition drive_inbound_substreams (env : PollEnv) (deactivated : bool) (h : RPCHandler)
  : option RPCHandler :=
  match drive_inbound_all deactivated env (hash_iter (inbound_substreams h))
          (inbound_substreams h) (inbound_substreams_delay h) with
  | Some (m, delay, events, removed) =>
      Some (set_events_out (set_inbound h (foldr delete m removed) delay) (events_out h ++ events))
  | None => None
  end.

(** The report of a response. *)
Definition received (info : OutboundInfo) (response : RpcResponse) : HandlerEvent Id :=
  match response with
  | RpcStreamTermination t => HandlerOk (RecvEndOfStream (oi_req_id info) t)
  | RpcSuccess resp => HandlerOk (RecvResponse (oi_req_id info) resp)
  | RpcError code r =>
      HandlerError (OutboundErr (oi_req_id info) (oi_proto info)
        (ErrorResponse code (ErrorType_to_string r)))
  end.

(** One outbound substream: an event to return at once, or none. *)
Definition drive_outbound (env : PollEnv) (deactivated : bool) (id : Z) (h : RPCHandler)
  : option (option (HandlerEvent Id) * RPCHandler) :=
  let* info := outbound_substreams h !! id in
  let put info delay := set_outbound h (<[id := info]> (outbound_substreams h)) delay in
  let drop_substream : option RPCHandler :=
    let* delay := kq_remove (outbound_substreams_delay h) (oi_delay_key info) in
    Some (set_outbound h (delete id (outbound_substreams h)) delay) in
  match oi_state info return option (option (HandlerEvent Id) * RPCHandler) with
  | RequestPendingResponse request =>
      if deactivated then
        Some (None, push_out (put (set_oi_state info Closing) (outbound_substreams_delay h))
                (HandlerError (OutboundErr (oi_req_id info) (oi_proto info) Disconnected)))
      else
        match pe_next env id return option (option (HandlerEvent Id) * RPCHandler) with
        | Some (Some (Ok response)) =>
            let closing := put (set_oi_state info Closing) (outbound_substreams_delay h) in
            let* h' := (if expect_exactly_one_response request || close_after response then Some closing
                  else
                    let max_remaining_chunks :=
                      match oi_max_remaining_chunks info with
                      | Some count => saturating_sub count 1
                      | None => 0
                      end in
                    if max_remaining_chunks =? 0 then Some closing
                    else
                      let* delay := kq_reset (outbound_substreams_delay h) (oi_delay_key info) (pe_now env) RESP_TIMEOUT in
                      Some (put (mkOutboundInfo (RequestPendingResponse request) (oi_delay_key info)
                                   (oi_proto info) (Some max_remaining_chunks) (oi_req_id info)) delay)) in
            Some (Some (received info response), h')
        | Some None =>
            let* h' := drop_substream in
            if expect_exactly_one_response request then
              Some (Some (HandlerError (OutboundErr (oi_req_id info) (request_protocol request)
                                          IncompleteStream)), h')
            else
              let* termination := stream_termination request in
              Some (Some (HandlerOk (RecvEndOfStream (oi_req_id info) termination)), h')
        | None => Some (None, h)
        | Some (Some (Err e)) =>
            let* h' := drop_substream in
            Some (Some (HandlerError (OutboundErr (oi_req_id info) (oi_proto info) e)), h')
        end
  | Closing =>
      if pe_close env id then
        let* h' := drop_substream in
        let* t := terminator (oi_proto info) in
        Some ((fun termination => HandlerOk (RecvEndOfStream (oi_req_id info) termination)) <$> t, h')
      else Some (None, h)
  | OutboundPoisoned => None
  end.

Fixpoint drive_outbound_all (env : PollEnv) (deactivated : bool) (ids : list Z) (h : RPCHandler)
  : option (option (HandlerEvent Id) * RPCHandler) :=
  match ids with
  | [] => Some (None, h)
  | id :: ids =>
      match drive_outbound env deactivated id h with
      | Some (Some e, h) => Some (Some e, h)
      | Some (None, h) => drive_outbound_all env deactivated ids h
      | None => None
      end
  end.

Definition is_nil {A} (l : list A) : bool := match l with [] => true | _ => false end.

(** The end of [poll]: opening a substream, and the end of a shutdown. *)
Definition poll_dial (h : RPCHandler) : HandlerPoll * RPCHandler :=
  let finish :=
    match handler_state h with
    | HandlerState.ShuttingDown _ =>
        if is_nil (dial_queue h) && (size (outbound_substreams h) =? 0)%nat &&
           (size (inbound_substreams h) =? 0)%nat && is_nil (events_out h) && (dial_negotiated h =? 0)
        then (PollNotify (HandlerClose Disconnected), set_state h HandlerState.Deactivated)
        else (PollPending, h)
    | _ => (PollPending, h)
    end in
  match dial_queue h with
  | (id, req) :: rest =>
      if dial_negotiated h <? max_dial_negotiated h
      then (PollDial id req, set_dial h rest (dial_negotiated h + 1))
      else finish
  | [] => finish
  end.

Definition handler_poll (env : PollEnv) (h : RPCHandler) : option (HandlerPoll * RPCHandler) :=
  match events_out h with
  | e :: rest => Some (PollNotify e, set_events_out h rest)
  | [] =>
      let expired :=
        match handler_state h with
        | HandlerState.ShuttingDown deadline => deadline <=? pe_now env
        | _ => false
        end in
      if expired
      then Some (PollNotify (HandlerClose Disconnected), set_state h HandlerState.Deactivated)
      else
        let h := purge_inbound (length (inbound_substreams_delay h)) (pe_now env) h in
        match purge_outbound (length (outbound_substreams_delay h)) (pe_now env) h with
        | (Some e, h) => Some (PollNotify e, h)
        | (None, h) =>
            let deactivated := is_deactivated (handler_state h) in
            let* h := drive_inbound_substreams env deactivated h in
            match drive_outbound_all env deactivated (hash_iter (outbound_substreams h)).*1 h with
            | Some (Some e, h) => Some (PollNotify e, h)
            | Some (None, h) => Some (poll_dial h)
            | None => None
            end
        end
  end.

End handler.

Arguments OutboundInfo {_} Id.
Arguments RPCHandler {_} Id.
Arguments HandlerPoll {_} Id.

(** ** Runs

    A run interleaves messages of the behaviour, negotiated substreams, failed negotiations and polls.
    The world remembers the substreams libp2p is negotiating for the handler, the events polls have
    delivered, and the requests whose substream was dropped because they expect no response. *)

Section handler_spec.
Context `{ChainTypes} `{HashIter} `{DelayQueue} `{DelayKeys} `{ErrorDisplay} {Id : Type}.

Record World := mkWorld {
  w_handler : RPCHandler Id;
  w_dialing : list (Id * RequestType);
  w_delivered : list (HandlerEvent Id);
  w_dropped : list (Id * RequestType);
}.

Definition world_new (c : Z) : World := mkWorld (RPCHandler_new c) [] [] [].

Inductive HandlerOp :=
  | HBehaviour (now : Instant) (e : RPCSend Id)
  | HInbound (now : Instant) (fork_context : ForkContext) (req : RequestType)
  | HOutbound (now : Instant) (fork_context : ForkContext) (n : nat)
  | HDialError (n : nat) (error : StreamUpgradeError)
  | HPoll (env : PollEnv).

Definition expects_none (fork_context : ForkContext) (req : RequestType) : bool :=
  max_responses req (chain_config fork_context) (current_fork_epoch fork_context) <=? 0.

Definition handler_step (w : World) (op : HandlerOp) : option World :=
  let h := w_handler w in
  let set h := mkWorld h (w_dialing w) (w_delivered w) (w_dropped w) in
  match op with
  | HBehaviour now e => Some (set (on_behaviour_event h now e))
  | HInbound now fc req =>
      Some (set (on_fully_negotiated_inbound h now fc req (mkSubstream [] false)))
  | HOutbound now fc n =>
      match w_dialing w !! n with
      | Some (id, req) =>
          Some (mkWorld (on_fully_negotiated_outbound h now fc id req) (delete n (w_dialing w))
                  (w_delivered w)
                  (w_dropped w ++ if expects_none fc req then [(id, req)] else []))
      | None => Some w
      end
  | HDialError n error =>
      match w_dialing w !! n with
      | Some (id, req) =>
          Some (mkWorld (on_dial_upgrade_error h id req error) (delete n (w_dialing w))
                  (w_delivered w) (w_dropped w))
      | None => Some w
      end
  | HPoll env =>
      match handler_poll env h with
      | Some (PollPending, h) => Some (set h)
      | Some (PollNotify e, h) =>
          Some (mkWorld h (w_dialing w) (w_delivered w ++ [e]) (w_dropped w))
      | Some (PollDial id req, h) =>
          Some (mkWorld h (w_dialing w ++ [(id, req)]) (w_delivered w) (w_dropped w))
      | None => None
      end
  end.

Fixpoint handler_run (w : World) (ops : list HandlerOp) : option World :=
  match ops with
  | [] => Some w
  | op :: ops => match handler_step w op with Some w => handler_run w ops | None => None end
  end.

(** The requests a step submits. *)
Definition submitted (op : HandlerOp) : list (Id * RequestType) :=
  match op with HBehaviour _ (SendRequest id req) => [(id, req)] | _ => [] end.

(** The protocols the handler may come to speak in a run: those of the requests submitted, and that of
    the goodbye it says by itself. *)
Definition asked_in (ops : list HandlerOp) (p : Protocol) : Prop :=
  p = Protocol.Goodbye \/ p ∈ map (fun r => request_protocol r.2) (flat_map submitted ops).

(** A poll that finishes closing the substream of a request for light client updates. *)
Definition closes_updates (h : RPCHandler Id) (env : PollEnv) : Prop :=
  exists id i, outbound_substreams h !! id = Some i /\ oi_state i = Closing /\
    oi_proto i = Protocol.LightClientUpdatesByRange /\ pe_close env id = true.

(** ** Response streams

    What an inbound substream has been given, in order: the responses written to the sink, the one
    being sent, and the queued ones.  A substream whose sink has failed has lost the one being sent. *)

Definition fut_substream (f : SendFuture) : InboundSubstream :=
  match f with FutTerminate s _ => s | FutSend s _ _ => s | FutClose s _ => s end.

Definition stream_written (i : InboundInfo) : list RpcResponse :=
  match ii_state i with Idle s => written s | Busy f => written (fut_substream f) | InboundPoisoned => [] end.

Definition in_flight (i : InboundInfo) : list RpcResponse :=
  match ii_state i with
  | Busy (FutTerminate _ m) => [m]
  | Busy (FutSend _ m _) => [m]
  | _ => []
  end.

Definition sink_failed (i : InboundInfo) : bool :=
  match ii_state i with Busy (FutClose _ (Err _)) => true | _ => false end.

Definition stream_content (i : InboundInfo) : list RpcResponse :=
  stream_written i ++ in_flight i ++ pending_items i.

(** The number of responses the peer was promised: those written and those still expected. *)
Definition stream_budget (i : InboundInfo) : Z :=
  Z.of_nat (length (stream_written i)) + ii_max_remaining_chunks i -
  match ii_state i with Busy (FutClose _ (Ok _)) => 1 | _ => 0 end.

Definition stream_ok (i : InboundInfo) : Prop :=
  1 <= ii_max_remaining_chunks i /\
  match ii_state i with
  | Busy (FutSend _ _ last_chunk) => last_chunk = (ii_max_remaining_chunks i <=? 1)
  | InboundPoisoned => False
  | _ => True
  end.

(** A later state of the same substream. *)
Record stream_grows (i i' : InboundInfo) : Prop := {
  sg_written : stream_written i `prefix_of` stream_written i';
  sg_content : sink_failed i' = false -> stream_content i `prefix_of` stream_content i';
  sg_failed : sink_failed i = true -> sink_failed i' = true;
  sg_budget : stream_budget i' = stream_budget i;
}.

(** ** The invariant *)

Definition outbound_ok (asked : Protocol -> Prop) (i : OutboundInfo Id) : Prop :=
  asked (oi_proto i) /\
  match oi_state i with
  | RequestPendingResponse req => oi_proto i = request_protocol req /\ is_goodbye req = false
  | Closing => True
  | OutboundPoisoned => False
  end.

Record handler_inv (asked : Protocol -> Prop) (dialing : list (Id * RequestType)) (h : RPCHandler Id) : Prop := {
  hv_dial : dial_negotiated h = Z.of_nat (length dialing);
  hv_max : max_dial_negotiated h = 8;
  hv_dial_max : dial_negotiated h <= 8;
  hv_in_timers : timers_ok ii_delay_key (inbound_substreams_delay h) (inbound_substreams h);
  hv_out_timers :
    timers_ok (fun i => Some (oi_delay_key i)) (outbound_substreams_delay h) (outbound_substreams h);
  hv_in_size : Z.of_nat (size (inbound_substreams h)) <= MAX_INBOUND_SUBSTREAMS;
  hv_in : map_Forall (fun id i => id < current_inbound_substream_id h /\ stream_ok i)
            (inbound_substreams h);
  hv_out : map_Forall (fun id i => id < current_outbound_substream_id h /\ outbound_ok asked i)
             (outbound_substreams h);
  hv_asked : Forall (fun d => asked (request_protocol d.2)) (dial_queue h ++ dialing);
  hv_retries : 0 <= outbound_io_error_retries h < IO_ERROR_RETRIES;
}.

(** The substream identifiers given out are below [n]. *)
Definition ids_upto (n : Z) (h : RPCHandler Id) : Prop :=
  0 <= current_inbound_substream_id h <= n /\ 0 <= current_outbound_substream_id h <= n.

(** Polling repeatedly. *)
Fixpoint poll_all (envs : list PollEnv) (h : RPCHandler Id) : option (list (HandlerPoll Id) * RPCHandler Id) :=
  match envs with
  | [] => Some ([], h)
  | env :: envs =>
      match handler_poll env h with
      | Some (p, h) =>
          match poll_all envs h with Some (ps, h) => Some (p :: ps, h) | None => None end
      | None => None
      end
  end.

(** ** Requests

    [ends r e]: the event [e] ends the request [r] for the application; a response does if the request
    expects exactly one. *)

Definition ends (r : Id * RequestType) (e : HandlerEvent Id) : Prop :=
  match e with
  | HandlerError (OutboundErr id _ _) => id = r.1
  | HandlerOk (RecvEndOfStream id _) => id = r.1
  | HandlerOk (RecvResponse id _) => id = r.1 /\ expect_exactly_one_response r.2 = true
  | _ => False
  end.

(** [carries i r]: the substream is still to report the end of the request. *)
Definition carries (i : OutboundInfo Id) (r : Id * RequestType) : Prop :=
  oi_req_id i = r.1 /\
  (oi_state i = RequestPendingResponse r.2 \/
   oi_state i = Closing /\ exists t, terminator (oi_proto i) = Some (Some t)).

(** A request that is queued, has ended, or is carried by a substream. *)
Definition accounted (queued : list (Id * RequestType)) (m : gmap Z (OutboundInfo Id))
  (events : list (HandlerEvent Id)) (r : Id * RequestType) : Prop :=
  r ∈ queued \/ (exists e, e ∈ events /\ ends r e) \/ (exists x i, m !! x = Some i /\ carries i r).

Definition world_accounts (w : World) (r : Id * RequestType) : Prop :=
  accounted (dial_queue (w_handler w) ++ w_dialing w ++ w_dropped w) (outbound_substreams (w_handler w))
    (w_delivered w ++ events_out (w_handler w)) r.

End handler_spec.
Arguments World {_} Id.
Arguments HandlerOp {_} Id.

(** ** Lemmas *)

Section handler_lemmas.
Context `{ChainTypes} `{HashIter} `{DelayQueue} `{DelayKeys} `{ErrorDisplay} {Id : Type}.
Implicit Types (h : RPCHandler Id).

(** The protocols the handler may be asked to speak. *)
Context {asked : Protocol -> Prop}.
Hypothesis asks_goodbye : asked Protocol.Goodbye.

Lemma inv_set_events d h e : handler_inv asked d h -> handler_inv asked d (set_events_out h e).
Proof. by intros []; split. Qed.

Lemma inv_push_out d h e : handler_inv asked d h -> handler_inv asked d (push_out h e).
Proof. apply inv_set_events. Qed.

Lemma inv_set_state d h s : handler_inv asked d h -> handler_inv asked d (set_state h s).
Proof. by intros []; split. Qed.

Lemma inv_set_retries d h n : handler_inv asked d h -> 0 <= n < IO_ERROR_RETRIES -> handler_inv asked d (set_retries h n).
Proof. by intros [] ?; split. Qed.

Lemma inv_set_queue d h q :
  handler_inv asked d h -> Forall (fun d => asked (request_protocol d.2)) q ->
  handler_inv asked d (set_dial h q (dial_negotiated h)).
Proof. intros [] Hq; split; try done. simpl. apply Forall_app in hv_asked0 as [_ ?]. by apply Forall_app. Qed.

Lemma inv_shutdown d h now g : handler_inv asked d h -> handler_inv asked d (shutdown h now g).
Proof.
  intros Hv. unfold shutdown. case_match; [|done]. apply inv_set_state.
  apply (inv_set_queue d (set_events_out h (events_out h ++ fail_dials (dial_queue h)))).
  - by apply inv_set_events.
  - repeat case_match; by repeat constructor.
Qed.

Lemma inv_send_request d h id req :
  handler_inv asked d h -> asked (request_protocol req) -> handler_inv asked d (handler_send_request h id req).
Proof.
  intros Hv Ho. unfold handler_send_request. case_match; [|by apply inv_push_out].
  apply inv_set_queue; [done|]. apply Forall_app. split; [|by repeat constructor].
  destruct Hv. by apply Forall_app in hv_asked0 as [? _].
Qed.

Lemma inv_set_inbound d h m q :
  handler_inv asked d h -> timers_ok ii_delay_key q m -> Z.of_nat (size m) <= MAX_INBOUND_SUBSTREAMS ->
  map_Forall (fun id i => id < current_inbound_substream_id h /\ stream_ok i) m ->
  handler_inv asked d (set_inbound h m q).
Proof. by intros [] ? ? ?; split. Qed.

Lemma inv_set_outbound d h m q :
  handler_inv asked d h -> timers_ok (fun i => Some (oi_delay_key i)) q m ->
  map_Forall (fun id i => id < current_outbound_substream_id h /\ outbound_ok asked i) m ->
  handler_inv asked d (set_outbound h m q).
Proof. by intros [] ? ?; split. Qed.

Lemma inv_set_ids d h a b :
  handler_inv asked d h -> current_inbound_substream_id h <= a -> current_outbound_substream_id h <= b ->
  handler_inv asked d (set_ids h a b).
Proof.
  intros [] ? ?; split; try done; simpl; eapply map_Forall_impl; try done; simpl; intros ? ? []; split; try done; lia.
Qed.

(** Replacing an inbound substream. *)
Lemma inv_put_inbound d h id i i' :
  handler_inv asked d h -> inbound_substreams h !! id = Some i ->
  ii_delay_key i' = ii_delay_key i -> stream_ok i' ->
  handler_inv asked d (set_inbound h (<[id := i']> (inbound_substreams h)) (inbound_substreams_delay h)).
Proof.
  intros Hv Hl Hk Hs. apply inv_set_inbound; [done| | |].
  - eapply timers_update; [apply Hv|done..].
  - rewrite map_size_insert_Some by eauto. apply Hv.
  - apply map_Forall_insert_2; [|apply Hv]. split; [|done]. by apply (hv_in _ _ _ Hv id i).
Qed.

Lemma inv_send_response d h id r : handler_inv asked d h -> handler_inv asked d (handler_send_response h id r).
Proof.
  intros Hv. unfold handler_send_response. destruct (inbound_substreams h !! id) as [i|] eqn:Hl; [|done].
  set (h1 := match r with RpcError _ _ => _ | _ => _ end).
  assert (Hv1 : handler_inv asked d h1 /\ inbound_substreams h1 = inbound_substreams h).
  { unfold h1. destruct r; split; try done; by apply inv_push_out. }
  destruct Hv1 as [Hv1 E]. case_match; [done|]. rewrite <- E in Hl.
  apply (inv_put_inbound d h1 id i); try done. by apply (hv_in _ _ _ Hv1 id i).
Qed.

Lemma inv_behaviour d h now e :
  handler_inv asked d h -> Forall (fun r => asked (request_protocol r.2)) (submitted (HBehaviour now e)) ->
  handler_inv asked d (on_behaviour_event h now e).
Proof.
  intros Hv Hok. destruct e; simpl.
  - apply inv_send_request; [done|]. by apply Forall_cons in Hok as [? _].
  - by apply inv_send_response.
  - by apply inv_shutdown.
Qed.

(** The end of a negotiation frees its slot. *)
Lemma inv_dial_done d h n id req :
  handler_inv asked d h -> d !! n = Some (id, req) ->
  handler_inv asked (delete n d) (set_dial h (dial_queue h) (u32_wrapping_sub (dial_negotiated h) 1)) /\
  asked (request_protocol req).
Proof.
  intros [Hd ? Hm ? ? ? ? ? Ho ?] Hn. pose proof (delete_Permutation _ _ _ Hn) as Hp.
  pose proof (Permutation_length Hp) as Hlen. simpl in Hlen.
  apply Forall_app in Ho as [Hq Ho]. rewrite Hp in Ho. apply Forall_cons in Ho as [Hr Ho].
  split; [|done]. unfold u32_wrapping_sub. rewrite Z.mod_small by lia.
  split; simpl; try done; try lia. by apply Forall_app.
Qed.

Lemma inv_dial_error d h n id req error :
  handler_inv asked d h -> d !! n = Some (id, req) ->
  handler_inv asked (delete n d) (on_dial_upgrade_error h id req error).
Proof.
  intros Hv Hn. destruct (inv_dial_done _ _ _ _ _ Hv Hn) as [Hv' Ho].
  unfold on_dial_upgrade_error. set (h' := set_dial _ _ _) in *.
  assert (Hreport : forall h1 e, handler_inv asked (delete n d) h1 ->
    handler_inv asked (delete n d) (push_out (set_retries h1 0) e)).
  { intros h1 e Hv1. by apply inv_push_out, inv_set_retries. }
  pose proof (hv_retries _ _ _ Hv) as Hret.
  assert (E : u8_wrapping_add (outbound_io_error_retries h') 1 = outbound_io_error_retries h + 1).
  { unfold u8_wrapping_add, as_u8, IO_ERROR_RETRIES in *. rewrite Z.mod_small by (simpl; lia). done. }
  assert (Hboth : forall e, handler_inv asked (delete n d)
    (let h1 := set_retries h' (outbound_io_error_retries h + 1) in
     if outbound_io_error_retries h1 <? IO_ERROR_RETRIES then handler_send_request h1 id req
     else push_out (set_retries h1 0) e)).
  { intros e. simpl. destruct (_ <? _) eqn:Hlt; bool_to_Prop.
    - apply inv_send_request; [|done]. apply inv_set_retries; [done|lia].
    - apply inv_push_out. destruct Hv'; by split. }
  destruct error as [|[]| |]; cbv zeta beta; rewrite ?E; first [apply Hboth|by apply Hreport].
Qed.

Lemma ids_small n : 0 <= n < USIZE_MAX -> usize_wrapping_add n 1 = n + 1.
Proof. intros. unfold usize_wrapping_add. apply as_u64_small. unfold_arith. lia. Qed.

Lemma inv_outbound d h now fc n id req k :
  handler_inv asked d h -> d !! n = Some (id, req) -> ids_upto k h -> k < USIZE_MAX ->
  let h' := on_fully_negotiated_outbound h now fc id req in
  handler_inv asked (delete n d) h' /\ ids_upto (k + 1) h'.
Proof.
  intros Hv Hn Hk Hlt. destruct (inv_dial_done _ _ _ _ _ Hv Hn) as [Hv' Ho].
  unfold on_fully_negotiated_outbound. set (h1 := set_retries _ _).
  assert (Hv1 : handler_inv asked (delete n d) h1) by (by apply inv_set_retries).
  assert (Hid1 : ids_upto k h1) by done. clearbody h1. clear Hv Hv' Hk.
  set (h2 := if is_deactivated _ then _ else _).
  assert (Hv2 : handler_inv asked (delete n d) h2 /\ ids_upto k h2).
  { unfold h2. case_match; [|done]. split; [by apply inv_push_out|done]. }
  destruct Hv2 as [Hv2 Hid2]. clearbody h2. clear Hv1 Hid1. unfold ids_upto in *.
  case_match; [|split; [done|lia]]. bool_to_Prop. rewrite ids_small by lia.
  destruct (kq_insert _ _ _ _) as [key q] eqn:Hq. split; [|simpl; lia].
  assert (Hfresh : outbound_substreams h2 !! current_outbound_substream_id h2 = None).
  { destruct (outbound_substreams h2 !! _) as [i|] eqn:Hl; [|done].
    apply (hv_out _ _ _ Hv2) in Hl. lia. }
  set (i := mkOutboundInfo _ _ _ _ _).
  pose proof (timers_insert (fun i => Some (oi_delay_key i)) _ _ _ i now RESP_TIMEOUT
    (hv_out_timers _ _ _ Hv2) Hfresh) as Ht. rewrite Hq in Ht.
  pose proof (inv_set_ids _ _ (current_inbound_substream_id h2) (current_outbound_substream_id h2 + 1) Hv2
    ltac:(lia) ltac:(lia)) as Hv3.
  apply (inv_set_outbound _ _ _ _ Hv3); [by apply Ht|].
  simpl. apply map_Forall_insert_2; [|apply (hv_out _ _ _ Hv3)].
  split; [lia|]. split; [done|]. split; [done|]. by destruct req.
Qed.

Lemma shutdown_frame h now g :
  inbound_substreams (shutdown h now g) = inbound_substreams h /\
  current_inbound_substream_id (shutdown h now g) = current_inbound_substream_id h /\
  current_outbound_substream_id (shutdown h now g) = current_outbound_substream_id h.
Proof. unfold shutdown. by case_match. Qed.

Lemma inv_reject d h now p e k :
  handler_inv asked d h -> ids_upto k h ->
  handler_inv asked d (reject_inbound h now p e) /\ ids_upto (k + 1) (reject_inbound h now p e).
Proof.
  intros Hv Hk. split; [by apply inv_shutdown, inv_push_out|]. unfold ids_upto, reject_inbound in *.
  destruct (shutdown_frame (push_out h (HandlerError
    (InboundErr (current_inbound_substream_id h) p e))) now None) as (_ & -> & ->). simpl. lia.
Qed.

Lemma inv_accept d h now req k :
  handler_inv asked d (set_ids h (current_inbound_substream_id h + 1) (current_outbound_substream_id h)) ->
  ids_upto k h -> k < USIZE_MAX ->
  handler_inv asked d (accept_inbound h now req) /\ ids_upto (k + 1) (accept_inbound h now req).
Proof.
  intros Hv [Hi Ho] Hlt. set (h1 := set_ids h _ _) in Hv.
  assert (E : accept_inbound h now req =
    push_out (if is_goodbye req then shutdown h1 now None else h1)
      (HandlerOk (RecvRequest (mkInboundRequestId (connection_id h) (current_inbound_substream_id h)) req))).
  { unfold accept_inbound, shutdown, h1. simpl.
    destruct (is_goodbye req), (is_active (handler_state h)); simpl; by rewrite ids_small by lia. }
  rewrite E. split; [apply inv_push_out; case_match; [by apply inv_shutdown|done]|].
  unfold ids_upto. destruct (is_goodbye req); simpl; [|lia].
  destruct (shutdown_frame h1 now None) as (_ & -> & ->). simpl. lia.
Qed.

Lemma inv_inbound d h now fc req k :
  handler_inv asked d h -> ids_upto k h -> k < USIZE_MAX ->
  let h' := on_fully_negotiated_inbound h now fc req (mkSubstream [] false) in
  handler_inv asked d h' /\ ids_upto (k + 1) h'.
Proof.
  intros Hv Hk Hlt. unfold on_fully_negotiated_inbound.
  case_match; [|split; [done|unfold ids_upto in *; lia]].
  case_match; [case_match; by apply inv_reject|].
  assert (Hv1 := inv_set_ids _ _ (current_inbound_substream_id h + 1) (current_outbound_substream_id h) Hv
    ltac:(lia) ltac:(lia)).
  case_match; [|by apply inv_accept]. case_match; [|by apply inv_reject]. bool_to_Prop.
  destruct (kq_insert _ _ _ _) as [key q] eqn:Hq. apply inv_accept; [|done..].
  assert (Hfresh : inbound_substreams h !! current_inbound_substream_id h = None).
  { destruct (inbound_substreams h !! _) as [i|] eqn:Hl; [|done]. apply (hv_in _ _ _ Hv) in Hl. lia. }
  set (i := mkInboundInfo _ _ _ _ _).
  pose proof (timers_insert ii_delay_key _ _ _ i now RESP_TIMEOUT (hv_in_timers _ _ _ Hv) Hfresh) as Ht.
  rewrite Hq in Ht. apply (inv_set_inbound _ _ _ _ Hv1); [by apply Ht| |].
  - simpl. rewrite (map_size_insert_None _ _ _ Hfresh). lia.
  - apply map_Forall_insert_2; [|apply (hv_in _ _ _ Hv1)]. simpl. split; [lia|]. split; [simpl; lia|done].
Qed.

Lemma inv_purge_inbound d n now h :
  handler_inv asked d h -> handler_inv asked d (purge_inbound n now h).
Proof.
  revert h. induction n as [|n IH]; intros h Hv; simpl; [done|].
  destruct (poll_expired _ _) as [i|]; [|done].
  destruct (inbound_substreams_delay h !! i) as [[[k id] dl]|] eqn:Hi; [|done].
  destruct (timers_expire _ _ _ _ _ _ _ (hv_in_timers _ _ _ Hv) Hi) as (info & Hl & Hk & _ & Ht).
  simpl. rewrite Hl. apply IH. apply inv_push_out.
  apply (inv_set_inbound d h); [done|by apply Ht| |].
  - rewrite map_size_insert_Some by eauto. apply Hv.
  - apply map_Forall_insert_2; [|apply Hv]. by apply (hv_in _ _ _ Hv id info).
Qed.

Lemma inv_purge_outbound d n now h :
  handler_inv asked d h -> handler_inv asked d (purge_outbound n now h).2.
Proof.
  intros Hv. destruct n as [|n]; simpl; [done|].
  destruct (poll_expired _ _) as [i|]; [|done].
  destruct (outbound_substreams_delay h !! i) as [[[k id] dl]|] eqn:Hi; [|done].
  destruct (timers_expire _ _ _ _ _ _ _ (hv_out_timers _ _ _ Hv) Hi) as (info & Hl & Hk & Ht & _).
  simpl. rewrite Hl. apply (inv_set_outbound d h); [done|done|].
  apply map_Forall_delete, Hv.
Qed.

Lemma remove_key_ok q (m : gmap Z InboundInfo) id i :
  timers_ok ii_delay_key q m -> m !! id = Some i ->
  exists q', remove_key q (ii_delay_key i) = Some q' /\ timers_ok ii_delay_key q' (delete id m).
Proof.
  intros Hq Hl. destruct (ii_delay_key i) as [k|] eqn:Hk; simpl; [by eapply timers_remove|].
  exists q. split; [done|]. by eapply timers_delete_unkeyed.
Qed.

(** Closes the branches of a loop that return. *)
Ltac give := do 4 eexists; split; [reflexivity|]; simpl; first [done | split_and!; (done || congruence)].

(** The loop over a substream ends without a panic. *)
Lemma drive_inbound_loop_ok m id i0 deact now fuel : forall io i q,
  timers_ok ii_delay_key q m -> m !! id = Some i0 -> ii_delay_key i0 = ii_delay_key i ->
  ii_state i <> InboundPoisoned -> (length (pending_items i) < fuel)%nat ->
  exists i' q' ev rm, drive_inbound_loop (Id := Id) fuel deact now id io i q = Some (i', q', ev, rm) /\
    if (rm : bool) then timers_ok ii_delay_key q' (delete id m)
    else timers_ok ii_delay_key q' m /\ ii_delay_key i' = ii_delay_key i /\ ii_state i' <> InboundPoisoned.
Proof.
  induction fuel as [|fuel IH]; intros io i q Hq Hl Hk Hs Hf; [lia|]. simpl.
  destruct (remove_key_ok q m id i0 Hq Hl) as (qr & Hr & Hqr). rewrite Hk in Hr.
  destruct (ii_state i) as [sub|fut|] eqn:Est; [| |done].
  - destruct (negb deact).
    + destruct (pending_items i) as [|msg rest]; [give|].
      simpl in Hf. refine (IH _ (set_ii_state (set_pending i rest) _) _ _ _ _ _ _); simpl; (done || lia).
    + destruct io as [|res io]; [give|]. rewrite Hr. give.
  - destruct (poll_send fut io) as [[[[sub [|]]|e]|fut'] io'].
    + rewrite Hr. give.
    + simpl. set (i1 := mkInboundInfo _ _ _ _ _).
      assert (Hreset : exists q', (match ii_delay_key i with
          | Some k => kq_reset q k now RESP_TIMEOUT | None => Some q end) = Some q' /\
          timers_ok ii_delay_key q' m).
      { destruct (ii_delay_key i) eqn:Hki; [|by exists q]. by eapply timers_reset. }
      destruct Hreset as (q1 & -> & Hq1).
      destruct (pending_items i) as [|msg rest]; [give|].
      destruct (negb deact); [|give]. simpl in Hf.
      refine (IH _ (set_ii_state (set_pending i1 rest) _) _ _ _ _ _ _); simpl; (done || lia).
    + rewrite Hr. give.
    + give.
Qed.

(** ** Growth of response streams *)

Lemma grows_refl i : stream_grows i i.
Proof. by split. Qed.

Lemma grows_trans i1 i2 i3 : stream_grows i1 i2 -> stream_grows i2 i3 -> stream_grows i1 i3.
Proof.
  intros [Hw Hc Hf Hb] [Hw' Hc' Hf' Hb']. split; [by etrans| |by auto|by etrans].
  intros H3'. etrans; [apply Hc|by apply Hc']. destruct (sink_failed i2); [|done]. by rewrite Hf' in H3'.
Qed.

(** Starting to send the first queued item. *)
Lemma grows_start i msg rest s :
  pending_items i = msg :: rest -> ii_state i = Idle s -> stream_ok i ->
  let i' := set_ii_state (set_pending i rest)
    (Busy (send_message_to_inbound_substream s msg (ii_max_remaining_chunks i <=? 1))) in
  stream_ok i' /\ stream_grows i i'.
Proof.
  intros Hp Hs [Hrem _]. unfold stream_ok, send_message_to_inbound_substream.
  split; [by destruct msg|].
  split; unfold stream_budget, stream_content, stream_written, in_flight, sink_failed;
    rewrite Hs, ?Hp; simpl; destruct msg; try done; reflexivity.
Qed.

Lemma grows_poll_send i fut io :
  ii_state i = Busy fut -> stream_ok i ->
  match poll_send fut io with
  | (inr fut', _) => let i' := set_ii_state i (Busy fut') in stream_ok i' /\ stream_grows i i'
  | (inl (Ok (sub, false)), _) =>
      let i' := mkInboundInfo (Idle sub) (pending_items i) (ii_protocol i)
                  (saturating_sub (ii_max_remaining_chunks i) 1) (ii_delay_key i) in
      stream_ok i' /\ stream_grows i i'
  | _ => True
  end.
Proof.
  intros Hs [Hrem Hok]. rewrite Hs in Hok.
  assert (Hsame : let i' := set_ii_state i (Busy fut) in stream_ok i' /\ stream_grows i i').
  { replace (set_ii_state i (Busy fut)) with i by (destruct i; simpl in *; by subst).
    split; [|apply grows_refl]. unfold stream_ok. by rewrite Hs. }
  destruct fut as [s m|s m last|s r]; destruct io as [|res io]; simpl; try done.
  - by destruct res.
  - destruct (last || is_error m || negb (is_ok res)) eqn:Ec.
    + destruct io as [|res' io]; [|destruct res; simpl; [|done]; by destruct res'].
      unfold stream_ok. simpl. split; [done|].
      split; unfold stream_budget, stream_content, stream_written, in_flight, sink_failed;
        rewrite Hs; simpl; destruct res; simpl; try done; rewrite ?length_app; simpl; try lia.
      * by apply prefix_app_r.
      * intros _. by rewrite <- app_assoc.
    + apply orb_false_iff in Ec as [[-> _]%orb_false_iff Er]. symmetry in Hok. bool_to_Prop.
      destruct res; [|done]. simpl. unfold stream_ok, saturating_sub. simpl. split; [lia|].
      split; unfold stream_budget, stream_content, stream_written, in_flight, sink_failed;
        rewrite Hs; simpl; try done; rewrite ?length_app; simpl; try lia.
      * by apply prefix_app_r.
      * intros _. by rewrite <- app_assoc.
  - destruct r; simpl; [by destruct res|done].
Qed.

Lemma drive_inbound_loop_grows deact now id fuel : forall io i q i' q' ev,
  stream_ok i -> drive_inbound_loop (Id := Id) fuel deact now id io i q = Some (i', q', ev, false) ->
  stream_ok i' /\ stream_grows i i'.
Proof.
  induction fuel as [|fuel IH]; intros io i q i' q' ev Hok; simpl; [done|].
  assert (Hrefl : stream_ok i /\ stream_grows i i) by (split; [done|apply grows_refl]).
  assert (Hstep : forall i1 io1 q1, stream_ok i1 /\ stream_grows i i1 ->
    drive_inbound_loop (Id := Id) fuel deact now id io1 i1 q1 = Some (i', q', ev, false) ->
    stream_ok i' /\ stream_grows i i').
  { intros i1 io1 q1 [Hok1 Hg1] [Hok' Hg']%IH; [|done]. split; [done|by eapply grows_trans]. }
  destruct (ii_state i) as [s|fut|] eqn:Hs; [| |done].
  - destruct (negb deact).
    + destruct (pending_items i) as [|msg rest] eqn:Hp; [intros [= <- _ _]; done|].
      apply Hstep. by apply (grows_start i msg rest s).
    + destruct io as [|res io]; [intros [= <- _ _]; done|]. by destruct (remove_key _ _).
  - pose proof (grows_poll_send i fut io Hs Hok) as Hg.
    destruct (poll_send fut io) as [[[[sub [|]]|e]|fut'] io1].
    + by destruct (remove_key _ _).
    + cbv zeta in Hg. simpl. destruct (match ii_delay_key i with Some _ => _ | None => _ end); [|done].
      destruct (pending_items i) as [|msg rest] eqn:Hp; [intros [= <- _ _]; done|].
      destruct (negb deact); [|intros [= <- _ _]; done].
      destruct Hg as [Hok1 Hg1].
      destruct (grows_start (mkInboundInfo (Idle sub) (msg :: rest) (ii_protocol i)
        (saturating_sub (ii_max_remaining_chunks i) 1) (ii_delay_key i)) msg rest sub eq_refl eq_refl Hok1)
        as [Hok2 Hg2].
      apply Hstep. split; [done|by eapply grows_trans].
    + by destruct (remove_key _ _).
    + intros [= <- _ _]. done.
Qed.

Lemma stream_ok_live i : stream_ok i -> ii_state i <> InboundPoisoned.
Proof. intros [_ ?] E. by rewrite E in *. Qed.

Lemma lookup_foldr_delete {A} (m : gmap Z A) (l : list Z) id :
  foldr delete m l !! id = if decide (id ∈ l) then None else m !! id.
Proof.
  induction l as [|x l IH]; simpl; [done|]. rewrite lookup_delete, IH.
  repeat case_decide; set_solver.
Qed.

(** What the loop over the substreams leaves of a table. *)
Definition driven (m m' : gmap Z InboundInfo) : Prop :=
  forall id i', m' !! id = Some i' ->
  exists i, m !! id = Some i /\ (stream_ok i -> stream_ok i' /\ stream_grows i i').

Lemma drive_inbound_all_ok deact env l : forall m q done,
  NoDup l.*1 -> timers_ok ii_delay_key q (foldr delete m done) ->
  (forall id i, (id, i) ∈ l -> foldr delete m done !! id = Some i /\ stream_ok i) ->
  exists m' q' ev rm, drive_inbound_all (Id := Id) deact env l m q = Some (m', q', ev, rm) /\
    timers_ok ii_delay_key q' (foldr delete m' (rm ++ done)) /\
    driven (foldr delete m done) (foldr delete m' (rm ++ done)).
Proof.
  induction l as [|[id i] l IH]; intros m q done Hnd Hq Hl.
  { exists m, q, [], []. split_and!; [done..|]. intros id i' ?. exists i'.
    split; [done|]. intros ?. split; [done|apply grows_refl]. }
  apply NoDup_cons in Hnd as [Hid Hnd]. destruct (Hl id i) as [Hi Hst]; [set_solver|].
  simpl. unfold drive_inbound.
  destruct (drive_inbound_loop_ok _ id i deact (pe_now env) (drive_fuel i) (pe_io env id) i q Hq Hi
    eq_refl (stream_ok_live i Hst)) as (i' & q' & ev & rm & Hloop & Hrm); [unfold drive_fuel; lia|].
  rewrite Hloop.
  assert (Hnot : id ∉ done) by (rewrite lookup_foldr_delete in Hi; by case_decide).
  set (done' := if rm then id :: done else done).
  assert (Hm : foldr delete (<[id := i']> m) done' =
    if rm then delete id (foldr delete m done) else <[id := i']> (foldr delete m done)).
  { apply map_eq. intros x. unfold done'. destruct rm; simpl;
      rewrite ?lookup_delete, ?lookup_insert, !lookup_foldr_delete, ?lookup_insert;
      repeat case_decide; congruence. }
  destruct (IH (<[id := i']> m) q' done') as (m1 & q1 & ev1 & rm1 & -> & Ht & Hd); [done|..].
  - rewrite Hm. destruct rm; [done|]. destruct Hrm as (? & ? & ?). by eapply timers_update.
  - intros x ix Hx. destruct (Hl x ix) as [Hlx Hsx]; [set_solver|]. split; [|done]. rewrite Hm.
    assert (x <> id) by (intros ->; apply Hid; apply list_elem_of_fmap; by exists (id, ix)).
    destruct rm; [by rewrite lookup_delete_ne|by rewrite lookup_insert_ne].
  - exists m1, q1, (ev ++ ev1), ((if rm then [id] else []) ++ rm1). split; [done|].
    assert (E : foldr delete m1 (((if rm then [id] else []) ++ rm1) ++ done) =
                foldr delete m1 (rm1 ++ done')).
    { apply map_eq. intros x. rewrite !lookup_foldr_delete. unfold done'.
      destruct rm; repeat case_decide; set_solver. }
    rewrite E. split; [done|]. intros x ix Hx. destruct (Hd x ix Hx) as (i1 & Hi1 & Hs1).
    rewrite Hm in Hi1. destruct rm.
    + rewrite lookup_delete in Hi1. case_decide; [done|]. eauto.
    + rewrite lookup_insert in Hi1. case_decide; [|eauto]. subst. injection Hi1 as <-.
      exists i. split; [done|]. intros _. apply drive_inbound_loop_grows in Hloop as [Hok' Hg']; [|done].
      destruct (Hs1 Hok') as [? ?]. split; [done|]. by eapply grows_trans.
Qed.

(** A later table of inbound substreams: those that were there have grown. *)
Definition table_grows h h' : Prop :=
  current_inbound_substream_id h <= current_inbound_substream_id h' /\
  forall id i', inbound_substreams h' !! id = Some i' -> id < current_inbound_substream_id h ->
  exists i, inbound_substreams h !! id = Some i /\ stream_grows i i'.

Lemma inv_drive_inbound d env deact h :
  handler_inv asked d h -> exists h', drive_inbound_substreams env deact h = Some h' /\ handler_inv asked d h' /\
    table_grows h h' /\ exists m q ev, h' = set_events_out (set_inbound h m q) (events_out h ++ ev).
Proof.
  intros Hv. unfold drive_inbound_substreams.
  destruct (drive_inbound_all_ok deact env (hash_iter (inbound_substreams h)) (inbound_substreams h)
    (inbound_substreams_delay h) []) as (m & q & ev & rm & -> & Ht & Hd).
  - apply NoDup_fst_hash_iter.
  - apply Hv.
  - intros id i Hin%elem_of_hash_iter. simpl. split; [done|]. by apply (hv_in _ _ _ Hv id i).
  - rewrite app_nil_r in *. simpl in Hd. eexists. split; [done|]. split.
    2: { split; [|by eauto]. split; [done|]. simpl. intros id i' Hi' _.
         destruct (Hd _ _ Hi') as (i & Hi & Hs). exists i. split; [done|]. apply Hs.
         by apply (hv_in _ _ _ Hv id i). }
    apply inv_set_events, inv_set_inbound; [done..| |].
    + pose proof (hv_in_size _ _ _ Hv).
      assert (size (foldr delete m rm) <= size (inbound_substreams h))%nat; [|lia].
      rewrite <- !size_dom. apply subseteq_size. intros x [i' Hx]%elem_of_dom.
      destruct (Hd _ _ Hx) as (i & Hi & _). by eapply elem_of_dom_2.
    + intros id i' Hi'. destruct (Hd _ _ Hi') as (i & Hi & Hs).
      destruct (hv_in _ _ _ Hv id i Hi) as [? ?]. split; [done|]. by apply Hs.
Qed.

(** Dropping and replacing an outbound substream. *)
Lemma drop_outbound_ok d h id i :
  handler_inv asked d h -> outbound_substreams h !! id = Some i ->
  exists q, kq_remove (outbound_substreams_delay h) (oi_delay_key i) = Some q /\
    handler_inv asked d (set_outbound h (delete id (outbound_substreams h)) q).
Proof.
  intros Hv Hl.
  destruct (timers_remove _ _ _ _ _ _ (hv_out_timers _ _ _ Hv) Hl eq_refl) as (q & Hq & Ht).
  exists q. split; [done|]. apply inv_set_outbound; [done..|]. apply map_Forall_delete, Hv.
Qed.

Lemma inv_put_outbound d h id i i' q :
  handler_inv asked d h -> outbound_substreams h !! id = Some i -> oi_delay_key i' = oi_delay_key i ->
  timers_ok (fun i => Some (oi_delay_key i)) q (outbound_substreams h) -> outbound_ok asked i' ->
  handler_inv asked d (set_outbound h (<[id := i']> (outbound_substreams h)) q).
Proof.
  intros Hv Hl Hk Ht Hok. apply inv_set_outbound; [done| |].
  - eapply timers_update; [done..|]. simpl. by rewrite Hk.
  - apply map_Forall_insert_2; [|apply Hv]. split; [|done]. by apply (hv_out _ _ _ Hv id i).
Qed.

Lemma stream_termination_some req :
  expect_exactly_one_response req = false -> is_goodbye req = false ->
  exists t, stream_termination req = Some t /\ terminator (request_protocol req) = Some (Some t).
Proof. destruct req as [[]| | [] | [] | | | | | | | | | |[]]; simpl; try done;
  eexists; split; reflexivity. Qed.

(** A substream is driven without a panic, unless it is that of a request for light client updates and
    has just closed. *)
Lemma drive_outbound_ok d env deact id h i :
  handler_inv asked d h -> outbound_substreams h !! id = Some i ->
  match drive_outbound env deact id h with
  | Some (ev, h') => handler_inv asked d h' /\
      forall x, x <> id -> outbound_substreams h' !! x = outbound_substreams h !! x
  | None => oi_state i = Closing /\ oi_proto i = Protocol.LightClientUpdatesByRange /\ pe_close env id = true
  end.
Proof.
  intros Hv Hl. destruct (hv_out _ _ _ Hv id i Hl) as [Hid [Hoff Hst]].
  destruct (drop_outbound_ok d h id i Hv Hl) as (q & Hq & Hdrop).
  assert (Hdel : forall x, x <> id ->
    outbound_substreams (set_outbound h (delete id (outbound_substreams h)) q) !! x =
    outbound_substreams h !! x) by (intros; simpl; by rewrite lookup_delete_ne).
  assert (Hins : forall i' q' x, x <> id ->
    outbound_substreams (set_outbound h (<[id := i']> (outbound_substreams h)) q') !! x =
    outbound_substreams h !! x) by (intros; simpl; by rewrite lookup_insert_ne).
  unfold drive_outbound. rewrite Hl, Hq. cbv zeta.
  destruct (oi_state i) as [req| |] eqn:Est; [| |done].
  - destruct Hst as [Hp Hg].
    assert (Hclosing : handler_inv asked d (set_outbound h (<[id := set_oi_state i Closing]> (outbound_substreams h))
                                        (outbound_substreams_delay h))).
    { eapply inv_put_outbound; try done. apply Hv. }
    destruct deact; [split; [by apply inv_push_out|by apply Hins]|].
    destruct (pe_next env id) as [[[response|e]|]|]; [|by auto| |by auto].
    + destruct (expect_exactly_one_response req || close_after response); [by auto|].
      destruct (_ =? 0); [by auto|].
      destruct (timers_reset _ _ _ _ _ _ (pe_now env) RESP_TIMEOUT (hv_out_timers _ _ _ Hv) Hl eq_refl)
        as (q' & -> & Hq'). split; [|auto]. by eapply inv_put_outbound.
    + destruct (expect_exactly_one_response req) eqn:E1; [by auto|].
      destruct (stream_termination_some req E1 Hg) as (t & -> & _). auto.
  - destruct (pe_close env id); [|done]. destruct (oi_proto i) eqn:Hp; simpl; auto.
Qed.

Lemma drive_outbound_all_ok d env deact ids : forall h,
  handler_inv asked d h -> NoDup ids -> (forall id, id ∈ ids -> is_Some (outbound_substreams h !! id)) ->
  match drive_outbound_all env deact ids h with
  | Some (ev, h') => handler_inv asked d h'
  | None => exists id i, id ∈ ids /\ outbound_substreams h !! id = Some i /\ oi_state i = Closing /\
      oi_proto i = Protocol.LightClientUpdatesByRange /\ pe_close env id = true
  end.
Proof.
  induction ids as [|id ids IH]; intros h Hv Hnd Hin; simpl; [done|].
  apply NoDup_cons in Hnd as [Hid Hnd]. destruct (Hin id) as [i Hi]; [set_solver|].
  pose proof (drive_outbound_ok d env deact id h i Hv Hi) as Ho.
  destruct (drive_outbound env deact id h) as [[[e|] h']|]; [by destruct Ho| |exists id, i; set_solver].
  destruct Ho as [Hv' Hoth]. assert (Hsame : forall x, x ∈ ids -> outbound_substreams h' !! x = outbound_substreams h !! x).
  { intros x Hx. apply Hoth. by intros ->. }
  specialize (IH h' Hv' Hnd). destruct (drive_outbound_all env deact ids h') as [[ev h'']|].
  - apply IH. intros x Hx. rewrite Hsame by done. apply Hin. set_solver.
  - destruct IH as (x & ix & Hx & Hl & Hc); [intros x Hx; rewrite Hsame by done; apply Hin; set_solver|].
    exists x, ix. rewrite <- Hsame by done. set_solver.
Qed.

(** The slot a dial takes. *)
Definition dialing_after (d : list (Id * RequestType)) (p : HandlerPoll Id) : list (Id * RequestType) :=
  match p with PollDial id req => d ++ [(id, req)] | _ => d end.

Lemma inv_poll_dial d h :
  handler_inv asked d h -> handler_inv asked (dialing_after d (poll_dial h).1) (poll_dial h).2.
Proof.
  intros Hv. unfold poll_dial. set (finish := match handler_state h with HandlerState.ShuttingDown _ => _ | _ => _ end).
  assert (Hfin : handler_inv asked (dialing_after d finish.1) finish.2).
  { unfold finish. repeat case_match; try done. by apply inv_set_state. }
  destruct (dial_queue h) as [|[id req] rest] eqn:Eq; [done|]. case_match; [|done]. bool_to_Prop.
  clear Hfin finish. destruct Hv as [Hd Hm ? ? ? ? ? ? Ho ?]. rewrite Eq in Ho.
  split; simpl; try done; try lia; [rewrite length_app; simpl; lia|].
  rewrite Forall_app in *. destruct Ho as [Ho1 Ho2]. apply Forall_cons in Ho1 as [? ?].
  split; [done|]. apply Forall_app. split; [done|by repeat constructor].
Qed.

(** ** Frames: what the steps of a poll leave alone *)

Definition inbound_only h h' : Prop :=
  exists m q ev, h' = set_events_out (set_inbound h m q) (events_out h ++ ev).

Lemma inbound_only_refl h : inbound_only h h.
Proof. exists (inbound_substreams h), (inbound_substreams_delay h), []. destruct h. by rewrite app_nil_r. Qed.

Lemma inbound_only_trans h h1 h2 : inbound_only h h1 -> inbound_only h1 h2 -> inbound_only h h2.
Proof.
  intros (m & q & ev & ->) (m' & q' & ev' & ->). exists m', q', (ev ++ ev'). simpl. by rewrite <- app_assoc.
Qed.

Lemma inbound_only_put h m q : inbound_only h (set_inbound h m q).
Proof. exists m, q, []. destruct h. by rewrite app_nil_r. Qed.

Lemma inbound_only_push h e : inbound_only h (push_out h e).
Proof. by exists (inbound_substreams h), (inbound_substreams_delay h), [e]; destruct h. Qed.

Lemma purge_inbound_frame n now : forall h, inbound_only h (purge_inbound n now h).
Proof.
  induction n as [|n IH]; intros h; simpl; [apply inbound_only_refl|].
  case_match; [|apply inbound_only_refl]. case_match; [|apply inbound_only_refl]. repeat case_match.
  - eapply inbound_only_trans; [|apply IH].
    eapply inbound_only_trans; [|apply inbound_only_push].
    eapply inbound_only_trans; [|apply inbound_only_put]. apply inbound_only_put.
  - eapply inbound_only_trans; [|apply IH]. apply inbound_only_put.
Qed.

Lemma purge_outbound_frame n now : forall h,
  exists m q, (purge_outbound n now h).2 = set_outbound h m q.
Proof.
  induction n as [|n IH]; intros h; simpl.
  { exists (outbound_substreams h), (outbound_substreams_delay h). by destruct h. }
  assert (Hrefl : exists m q, h = set_outbound h m q).
  { exists (outbound_substreams h), (outbound_substreams_delay h). by destruct h. }
  destruct (poll_expired _ _) as [i|]; [|done].
  destruct (outbound_substreams_delay h !! i) as [[[k id] d]|]; [|done].
  simpl. destruct (outbound_substreams h !! id) as [info|]; [by eexists _, _|].
  destruct (IH (set_outbound h (outbound_substreams h) (dq_remove (outbound_substreams_delay h) i)))
    as (m & q & ->). by exists m, q.
Qed.

Lemma purge_outbound_none n now : forall h h',
  purge_outbound n now h = (None, h') -> outbound_substreams h' = outbound_substreams h.
Proof.
  induction n as [|n IH]; intros h h'; simpl; [by intros [= <-]|].
  destruct (poll_expired _ _) as [i|]; [|by intros [= <-]].
  destruct (outbound_substreams_delay h !! i) as [[[k id] d]|]; [|by intros [= <-]].
  simpl. destruct (outbound_substreams h !! id); [done|]. by intros ->%IH.
Qed.

Lemma handler_poll_ok d env h :
  handler_inv asked d h ->
  match handler_poll env h with
  | Some (p, h') => handler_inv asked (dialing_after d p) h'
  | None => closes_updates h env
  end.
Proof.
  intros Hv. unfold handler_poll. destruct (events_out h) as [|e rest]; [|by apply inv_set_events].
  destruct (match handler_state h with HandlerState.ShuttingDown _ => _ | _ => _ end); [by apply inv_set_state|].
  pose proof (inv_purge_inbound d (length (inbound_substreams_delay h)) (pe_now env) h Hv) as Hv1.
  destruct (purge_inbound_frame (length (inbound_substreams_delay h)) (pe_now env) h) as (m1 & q1 & ev1 & E1).
  set (h1 := purge_inbound _ _ _) in *. clearbody h1.
  pose proof (inv_purge_outbound d (length (outbound_substreams_delay h1)) (pe_now env) h1 Hv1) as Hv2.
  destruct (purge_outbound _ _ _) as [[e|] h2] eqn:E2; simpl in Hv2; [done|].
  apply purge_outbound_none in E2.
  destruct (inv_drive_inbound d env (is_deactivated (handler_state h2)) h2 Hv2) as (h3 & -> & Hv3 & _ & m3 & q3 & ev3 & E3).
  assert (Eo : outbound_substreams h3 = outbound_substreams h) by (rewrite E3; simpl; by rewrite E2, E1).
  pose proof (drive_outbound_all_ok d env (is_deactivated (handler_state h2))
    (hash_iter (outbound_substreams h3)).*1 h3 Hv3) as Ho.
  destruct (drive_outbound_all _ _ _ h3) as [[[e|] h4]|]; [apply Ho|assert (Hv4 : handler_inv asked d h4); [apply Ho|]|].
  all: try apply NoDup_fst_hash_iter.
  all: try (intros id ([? i] & -> & Hin)%list_elem_of_fmap; apply elem_of_hash_iter in Hin; by eauto).
  - destruct (poll_dial h4) as [p h5] eqn:E. pose proof (inv_poll_dial d h4 Hv4) as Hv5. by rewrite E in Hv5.
  - destruct Ho as (id & i & _ & Hl & Hc); [apply NoDup_fst_hash_iter| |].
    { intros id ([? i] & -> & Hin)%list_elem_of_fmap. apply elem_of_hash_iter in Hin. by eauto. }
    exists id, i. rewrite <- Eo. auto.
Qed.

(** ** Accounting lemmas *)

Lemma acc_mono Q Q' (m : gmap Z (OutboundInfo Id)) E E' r :
  accounted Q m E r -> Q ⊆ Q' -> E ⊆ E' -> accounted Q' m E' r.
Proof.
  intros [Hq|[(e & He & Hr)|Hm]] HQ HE; [left; by apply HQ| |by right; right].
  right; left. exists e. split; [by apply HE|done].
Qed.

Lemma acc_drop Q (m : gmap Z (OutboundInfo Id)) E E' r id i :
  m !! id = Some i -> (carries i r -> exists e, e ∈ E' /\ ends r e) -> E ⊆ E' ->
  accounted Q m E r -> accounted Q (delete id m) E' r.
Proof.
  intros Hl Hc HE [?|[(e & He & Hr)|(x & j & Hx & Hj)]]; [by left| |].
  - right; left. exists e. split; [by apply HE|done].
  - destruct (decide (x = id)) as [->|Hne].
    + right; left. apply Hc. congruence.
    + right; right. exists x, j. by rewrite lookup_delete_ne.
Qed.

Lemma acc_put Q (m : gmap Z (OutboundInfo Id)) E E' r id i i' :
  m !! id = Some i -> (carries i r -> carries i' r \/ exists e, e ∈ E' /\ ends r e) -> E ⊆ E' ->
  accounted Q m E r -> accounted Q (<[id := i']> m) E' r.
Proof.
  intros Hl Hc HE [?|[(e & He & Hr)|(x & j & Hx & Hj)]]; [by left| |].
  - right; left. exists e. split; [by apply HE|done].
  - destruct (decide (x = id)) as [->|Hne].
    + destruct Hc as [Hc|Hc]; [congruence| |by right; left].
      right; right. exists id, i'. by rewrite lookup_insert_eq.
    + right; right. exists x, j. by rewrite lookup_insert_ne.
Qed.

Lemma acc_fresh Q (m : gmap Z (OutboundInfo Id)) E r x i :
  m !! x = None -> accounted Q m E r -> accounted Q (<[x := i]> m) E r.
Proof.
  intros Hx [?|[?|(y & j & Hy & ?)]]; [by left|by right; left|]. right; right. exists y, j.
  by rewrite lookup_insert_ne by congruence.
Qed.

Lemma acc_purge_outbound d n now h Q E r :
  handler_inv asked d h -> accounted Q (outbound_substreams h) E r ->
  let '(ev, h') := purge_outbound n now h in
  accounted Q (outbound_substreams h') (E ++ option_list ev) r.
Proof.
  intros Hv Ha. destruct n as [|n]; simpl; [by rewrite app_nil_r|].
  destruct (poll_expired _ _) as [i|]; [|simpl; by rewrite app_nil_r].
  destruct (outbound_substreams_delay h !! i) as [[[k id] dl]|] eqn:Hi; [|simpl; by rewrite app_nil_r].
  destruct (timers_expire _ _ _ _ _ _ _ (hv_out_timers _ _ _ Hv) Hi) as (info & Hl & _).
  simpl. rewrite Hl. simpl. apply (acc_drop Q _ E _ r id info); [done| |set_solver|done].
  intros [Hid _]. exists (HandlerError (OutboundErr (oi_req_id info) (oi_proto info) StreamTimeout)).
  split; [set_solver|done].
Qed.

Lemma outbound_form h m q : set_outbound h m q = set_events_out (set_outbound h m q) (events_out h ++ []).
Proof. destruct h. simpl. by rewrite app_nil_r. Qed.

(** One outbound substream: the event returned ends what the substream carried, unless it still
    carries it. *)
Lemma acc_drive_outbound d env deact id h i ev h' :
  handler_inv asked d h -> outbound_substreams h !! id = Some i -> drive_outbound env deact id h = Some (ev, h') ->
  exists m q evs, h' = set_events_out (set_outbound h m q) (events_out h ++ evs) /\
    forall Q E r, accounted Q (outbound_substreams h) E r -> accounted Q m (E ++ evs ++ option_list ev) r.
Proof.
  intros Hv Hl. destruct (hv_out _ _ _ Hv id i Hl) as [Hid [Hoff Hst]].
  destruct (drop_outbound_ok d h id i Hv Hl) as (q0 & Hq0 & _).
  assert (Hdrop : forall e m0, m0 = delete id (outbound_substreams h) ->
    (forall r, carries i r -> exists e', e = Some e' /\ ends r e') ->
    forall Q E r, accounted Q (outbound_substreams h) E r -> accounted Q m0 (E ++ [] ++ option_list e) r).
  { intros e m0 -> Hc Q E r. apply acc_drop with i; [done| |set_solver]. intros (e' & -> & He)%Hc.
    exists e'. split; [|done]. simpl. set_solver. }
  assert (Hput : forall evs e i',
    (forall r, carries i r -> carries i' r \/ exists e', e' ∈ evs ++ option_list e /\ ends r e') ->
    forall Q E r, accounted Q (outbound_substreams h) E r ->
      accounted Q (<[id := i']> (outbound_substreams h)) (E ++ evs ++ option_list e) r).
  { intros evs e i' Hc Q E r. apply acc_put with i; [done| |set_solver]. intros [?|(e' & He & ?)]%Hc; [by left|].
    right. exists e'. split; [|done]. apply elem_of_app. by right. }
  unfold drive_outbound. rewrite Hl, Hq0. cbv zeta. unfold carries in *.
  destruct (oi_state i) as [req| |] eqn:Est; [| |done].
  - destruct Hst as [Hp Hg].
    destruct deact.
    { intros [= <- <-]. eexists _, _, [_]. split; [done|]. apply Hput. intros r [Hr _]. right.
      eexists. split; [apply list_elem_of_singleton; reflexivity|done]. }
    destruct (pe_next env id) as [[[response|e]|]|].
    + destruct (expect_exactly_one_response req) eqn:E1; cbn [orb].
      { intros [= <- <-]. rewrite outbound_form. eexists _, _, []. split; [done|]. apply Hput.
        intros r [Hr [[= ->]|[? _]]]; [|done]. right. eexists. split; [apply list_elem_of_singleton; reflexivity|].
        by destruct response. }
      destruct (close_after response) eqn:E2.
      { intros [= <- <-]. rewrite outbound_form. eexists _, _, []. split; [done|]. apply Hput.
        intros r [Hr _]. right. eexists. split; [apply list_elem_of_singleton; reflexivity|]. by destruct response. }
      destruct (_ =? 0).
      { intros [= <- <-]. rewrite outbound_form. eexists _, _, []. split; [done|]. apply Hput.
        intros r [Hr [[= ->]|[? _]]]; [|done]. left. simpl. split; [done|]. right. split; [done|].
        rewrite Hp. destruct (stream_termination_some _ E1 Hg) as (t & _ & ->). by exists t. }
      destruct (kq_reset _ _ _ _); [|done]. intros [= <- <-]. rewrite outbound_form. eexists _, _, []. split; [done|].
      apply Hput. intros r [Hr [[= ->]|[? _]]]; [|done]. left. simpl. auto.
    + intros [= <- <-]. rewrite outbound_form. eexists _, _, []. split; [done|]. apply Hdrop; [done|].
      intros r [Hr _]. by eexists.
    + destruct (expect_exactly_one_response req).
      * intros [= <- <-]. rewrite outbound_form. eexists _, _, []. split; [done|]. apply Hdrop; [done|].
        intros r [Hr _]. by eexists.
      * destruct (stream_termination req) as [t|]; [|done].
        intros [= <- <-]. rewrite outbound_form. eexists _, _, []. split; [done|]. apply Hdrop; [done|].
        intros r [Hr _]. by eexists.
    + intros [= <- <-]. eexists (outbound_substreams h), (outbound_substreams_delay h), [].
      split; [destruct h; simpl; by rewrite app_nil_r|]. intros Q E r. simpl. by rewrite app_nil_r.
  - destruct (pe_close env id).
    + destruct (terminator (oi_proto i)) as [t|]; [|done].
      intros [= <- <-]. rewrite outbound_form. eexists _, _, []. split; [done|]. apply Hdrop; [done|].
      intros r [Hr [?|[_ [t' [= ->]]]]]; [done|]. by eexists.
    + intros [= <- <-]. eexists (outbound_substreams h), (outbound_substreams_delay h), [].
      split; [destruct h; simpl; by rewrite app_nil_r|]. intros Q E r. simpl. by rewrite app_nil_r.
Qed.

Lemma acc_drive_outbound_all d env deact ids : forall h ev h',
  handler_inv asked d h -> NoDup ids -> (forall id, id ∈ ids -> is_Some (outbound_substreams h !! id)) ->
  drive_outbound_all env deact ids h = Some (ev, h') ->
  exists m q evs, h' = set_events_out (set_outbound h m q) (events_out h ++ evs) /\
    forall Q E r, accounted Q (outbound_substreams h) E r -> accounted Q m (E ++ evs ++ option_list ev) r.
Proof.
  induction ids as [|id ids IH]; intros h ev h' Hv Hnd Hin; simpl.
  { intros [= <- <-]. eexists (outbound_substreams h), (outbound_substreams_delay h), [].
    split; [destruct h; simpl; by rewrite app_nil_r|]. intros Q E r. simpl. by rewrite app_nil_r. }
  apply NoDup_cons in Hnd as [Hid Hnd]. destruct (Hin id) as [i Hi]; [set_solver|].
  pose proof (drive_outbound_ok d env deact id h i Hv Hi) as Ho.
  destruct (drive_outbound env deact id h) as [[ev1 h1]|] eqn:E1; [|done]. destruct Ho as [Hv1 Hoth].
  destruct (acc_drive_outbound d env deact id h i ev1 h1 Hv Hi E1) as (m1 & q1 & evs1 & Hh1 & Ha1).
  destruct ev1 as [e1|]; [intros [= <- <-]; by eauto|]. intros E2.
  destruct (IH h1 ev h') as (m & q & evs & -> & Ha); [done..| |done|].
  - intros x Hx. rewrite Hoth by (intros ->; done). apply Hin. set_solver.
  - rewrite Hh1. exists m, q, (evs1 ++ evs). split; [simpl; by rewrite <- app_assoc|].
    intros Q E r Hacc. rewrite Hh1 in Ha. simpl in Ha.
    specialize (Ha1 _ _ _ Hacc). simpl in Ha1. rewrite app_nil_r in Ha1.
    specialize (Ha _ _ _ Ha1). by rewrite <- !app_assoc in *.
Qed.

(** The events a poll delivers and the dials it starts. *)
Definition poll_events (p : HandlerPoll Id) : list (HandlerEvent Id) :=
  match p with PollNotify e => [e] | _ => [] end.

Definition same_ids h h' : Prop :=
  current_inbound_substream_id h' = current_inbound_substream_id h /\
  current_outbound_substream_id h' = current_outbound_substream_id h.

Lemma acc_poll_dial h :
  let '(p, h') := poll_dial h in
  events_out h' = events_out h /\ same_ids h h' /\
  forall D E r, accounted (dial_queue h ++ D) (outbound_substreams h) E r ->
    accounted (dial_queue h' ++ dialing_after D p) (outbound_substreams h') (E ++ poll_events p) r.
Proof.
  unfold poll_dial.
  set (finish := match handler_state h with HandlerState.ShuttingDown _ => _ | _ => _ end).
  assert (Hfin : let '(p, h') := finish in events_out h' = events_out h /\ same_ids h h' /\
    forall D E r, accounted (dial_queue h ++ D) (outbound_substreams h) E r ->
    accounted (dial_queue h' ++ dialing_after D p) (outbound_substreams h') (E ++ poll_events p) r).
  { unfold finish. repeat case_match; simplify_eq; (split; [done|]; split; [done|]); intros ??? Ha; simpl;
      rewrite ?app_nil_r; try done; (eapply acc_mono; [exact Ha|set_solver|set_solver]). }
  clearbody finish. destruct (dial_queue h) as [|[id req] rest] eqn:Eq; [done|].
  destruct (_ <? _); [|done]. split; [done|]. split; [done|]. intros D E r Ha. simpl.
  eapply acc_mono; [exact Ha|set_solver|set_solver].
Qed.

Lemma acc_poll d env h p h' :
  handler_inv asked d h -> handler_poll env h = Some (p, h') ->
  same_ids h h' /\ forall D V r,
    accounted (dial_queue h ++ D) (outbound_substreams h) (V ++ events_out h) r ->
    accounted (dial_queue h' ++ dialing_after D p) (outbound_substreams h')
      (V ++ poll_events p ++ events_out h') r.
Proof.
  intros Hv. unfold handler_poll. destruct (events_out h) as [|e rest] eqn:Ee.
  2: { intros [= <- <-]. split; [done|]. intros D V r Ha. done. }
  destruct (match handler_state h with HandlerState.ShuttingDown _ => _ | _ => _ end).
  { intros [= <- <-]. split; [done|]. intros D V r Ha. simpl. rewrite Ee.
    eapply acc_mono; [exact Ha|done|set_solver]. }
  pose proof (inv_purge_inbound d (length (inbound_substreams_delay h)) (pe_now env) h Hv) as Hv1.
  destruct (purge_inbound_frame (length (inbound_substreams_delay h)) (pe_now env) h) as (m1 & q1 & ev1 & E1).
  rewrite Ee in E1. simpl in E1. set (h1 := purge_inbound _ _ _) in *. clearbody h1.
  pose proof (inv_purge_outbound d (length (outbound_substreams_delay h1)) (pe_now env) h1 Hv1) as Hv2.
  destruct (purge_outbound_frame (length (outbound_substreams_delay h1)) (pe_now env) h1) as (m2 & q2 & E2).
  pose proof (fun Q E r => acc_purge_outbound d (length (outbound_substreams_delay h1)) (pe_now env) h1
    Q E r Hv1) as Ha2.
  destruct (purge_outbound _ _ _) as [oe h2]. simpl in Hv2, E2.
  assert (Eo1 : outbound_substreams h1 = outbound_substreams h) by by rewrite E1. rewrite Eo1 in Ha2.
  destruct oe as [e|].
  { intros [= <- <-]. split; [by rewrite E2, E1|]. intros D V r Ha%Ha2. rewrite E2 in Ha |- *.
    rewrite E1. simpl in *. rewrite app_nil_r in Ha. eapply acc_mono; [exact Ha|done|set_solver]. }
  destruct (inv_drive_inbound d env (is_deactivated (handler_state h2)) h2 Hv2)
    as (h3 & -> & Hv3 & _ & m3 & q3 & ev3 & E3).
  destruct (drive_outbound_all env _ _ h3) as [[ev h4]|] eqn:E4; [|done].
  apply acc_drive_outbound_all with (d := d) in E4 as (m4 & q4 & ev4 & E4 & Ha4); [|done| |].
  2: { apply NoDup_fst_hash_iter. }
  2: { intros id ([? i] & -> & Hin)%list_elem_of_fmap. apply elem_of_hash_iter in Hin. by eauto. }
  assert (Eo3 : outbound_substreams h3 = outbound_substreams h2) by by rewrite E3. rewrite Eo3 in Ha4.
  assert (Ef : dial_queue h4 = dial_queue h /\ outbound_substreams h4 = m4 /\
    events_out h4 = ev1 ++ ev3 ++ ev4 /\ same_ids h h4).
  { rewrite E4, E3, E2, E1. simpl. by rewrite <- app_assoc. }
  destruct Ef as (Eq & <- & Eev & Eid). clear E1 E2 E3 E4.
  assert (Hacc : forall D V r, accounted (dial_queue h ++ D) (outbound_substreams h) (V ++ []) r ->
    accounted (dial_queue h4 ++ D) (outbound_substreams h4) (V ++ ev4 ++ option_list ev) r).
  { intros D V r Ha%Ha2. rewrite Eq. simpl in Ha. rewrite !app_nil_r in Ha. by apply Ha4. }
  intros Hp. destruct ev as [e|].
  - injection Hp as <- <-. split; [done|]. intros D V r Ha%Hacc. simpl in *. rewrite Eev.
    eapply acc_mono; [exact Ha|done|set_solver].
  - injection Hp as Hp. pose proof (acc_poll_dial h4) as Hd. rewrite Hp in Hd.
    destruct Hd as (Ev & Eid2 & Hd). unfold same_ids in *. split; [destruct Eid, Eid2; split; congruence|].
    intros D V r Ha%Hacc%Hd. rewrite Ev, Eev. eapply acc_mono; [exact Ha|done|]. simpl. set_solver.
Qed.

(** Steps of the handler that lose no request. *)
Definition keeps_acc h h' : Prop := forall D V r,
  accounted (dial_queue h ++ D) (outbound_substreams h) (V ++ events_out h) r ->
  accounted (dial_queue h' ++ D) (outbound_substreams h') (V ++ events_out h') r.

Lemma keeps_refl h : keeps_acc h h.
Proof. by intros D V r. Qed.

Lemma keeps_trans h h1 h2 : keeps_acc h h1 -> keeps_acc h1 h2 -> keeps_acc h h2.
Proof. intros H12 H23 D V r Ha. by apply H23, H12. Qed.

Lemma keeps_push h e : keeps_acc h (push_out h e).
Proof. intros D V r Ha. eapply acc_mono; [exact Ha|done|set_solver]. Qed.

Lemma keeps_shutdown h now g : keeps_acc h (shutdown h now g).
Proof.
  intros D V r Ha. unfold shutdown. destruct (is_active _); [|done]. simpl.
  destruct Ha as [[Hq|Hd]%elem_of_app|[(e & He & Hr)|Hm]].
  - right; left. exists (HandlerError (OutboundErr r.1 (request_protocol r.2) Disconnected)).
    split; [|done]. rewrite !elem_of_app. right; right. unfold fail_dials.
    apply list_elem_of_fmap. exists r. split; [done|]. by rewrite list_elem_of_In, <- in_rev, <- list_elem_of_In.
  - left. set_solver.
  - right; left. exists e. split; [set_solver|done].
  - by right; right.
Qed.

Lemma keeps_send_request h id req : keeps_acc h (handler_send_request h id req).
Proof.
  unfold handler_send_request. case_match; [|apply keeps_push].
  intros D V r Ha. eapply acc_mono; [exact Ha|set_solver|done].
Qed.

Lemma send_request_accounts h id req D V :
  let h' := handler_send_request h id req in
  accounted (dial_queue h' ++ D) (outbound_substreams h') (V ++ events_out h') (id, req).
Proof.
  unfold handler_send_request. case_match; simpl; [left; set_solver|].
  right; left. eexists. split; [rewrite !elem_of_app; right; right; by apply list_elem_of_singleton|done].
Qed.

Lemma keeps_send_response h id r : keeps_acc h (handler_send_response h id r).
Proof.
  unfold handler_send_response. destruct (inbound_substreams h !! id) as [i|]; [|apply keeps_refl].
  set (h1 := match r with RpcError _ _ => _ | _ => _ end).
  assert (H1' : keeps_acc h h1) by (unfold h1; destruct r; [apply keeps_refl|apply keeps_push|apply keeps_refl]).
  clearbody h1. by case_match.
Qed.

Lemma keeps_behaviour h now e : keeps_acc h (on_behaviour_event h now e).
Proof.
  destruct e; simpl; [apply keeps_send_request|apply keeps_send_response|apply keeps_shutdown].
Qed.

Lemma keeps_accept h now req : keeps_acc h (accept_inbound h now req).
Proof.
  unfold accept_inbound. eapply keeps_trans; [|apply keeps_push].
  case_match; [apply keeps_shutdown|apply keeps_refl].
Qed.

Lemma keeps_inbound h now fc req sub : keeps_acc h (on_fully_negotiated_inbound h now fc req sub).
Proof.
  assert (Hrej : forall p e, keeps_acc h (reject_inbound h now p e)).
  { intros p e. eapply keeps_trans; [apply keeps_push|apply keeps_shutdown]. }
  unfold on_fully_negotiated_inbound. repeat case_match; first [apply Hrej|apply keeps_accept|apply keeps_refl|exact (keeps_accept (set_inbound h _ _) now req)].
Qed.

(** A finished negotiation moves its request to a substream, or drops it. *)
Lemma acc_outbound d h now fc n id req D V r k :
  handler_inv asked d h -> d !! n = Some (id, req) -> ids_upto k h -> k < USIZE_MAX ->
  accounted (dial_queue h ++ d ++ D) (outbound_substreams h) (V ++ events_out h) r ->
  let h' := on_fully_negotiated_outbound h now fc id req in
  accounted (dial_queue h' ++ delete n d ++ D ++ (if expects_none fc req then [(id, req)] else []))
    (outbound_substreams h') (V ++ events_out h') r.
Proof.
  intros Hv Hn Hk Hlt Ha. pose proof (delete_Permutation _ _ _ Hn) as Hp.
  unfold on_fully_negotiated_outbound, expects_none.
  set (h1 := set_retries _ _). set (h2 := if is_deactivated _ then _ else _).
  assert (E2 : dial_queue h2 = dial_queue h /\ outbound_substreams h2 = outbound_substreams h /\
    current_outbound_substream_id h2 = current_outbound_substream_id h /\
    events_out h ⊆ events_out h2) by (unfold h2; case_match; simpl; set_solver).
  clearbody h2. destruct E2 as (Eq & Em & Ei & Ee).
  assert (Hcase : r = (id, req) \/
    accounted (dial_queue h2 ++ delete n d ++ D) (outbound_substreams h2) (V ++ events_out h2) r).
  { rewrite Eq, Em. destruct Ha as [Hq|[(e & ? & ?)|?]].
    - rewrite !elem_of_app, Hp, elem_of_cons in Hq. unfold accounted. rewrite !elem_of_app. naive_solver.
    - right; right; left. exists e. set_solver.
    - by right; right; right. }
  rewrite Z.leb_antisym. destruct (0 <? _); cbn [negb].
  - destruct (kq_insert _ _ _ _) as [key q]. simpl. rewrite app_nil_r.
    destruct Hcase as [->|Hc].
    + right; right. eexists _, _. split; [by rewrite lookup_insert_eq|]. split; [done|by left].
    + apply acc_fresh; [|done]. rewrite Em, Ei.
      destruct (outbound_substreams h !! _) as [i|] eqn:Hl; [|done]. apply (hv_out _ _ _ Hv) in Hl. lia.
  - destruct Hcase as [->|Hc]; [left; set_solver|]. eapply acc_mono; [exact Hc|set_solver|done].
Qed.

Lemma acc_dial_error d h n id req error D V r :
  handler_inv asked d h -> d !! n = Some (id, req) ->
  accounted (dial_queue h ++ d ++ D) (outbound_substreams h) (V ++ events_out h) r ->
  let h' := on_dial_upgrade_error h id req error in
  accounted (dial_queue h' ++ delete n d ++ D) (outbound_substreams h') (V ++ events_out h') r.
Proof.
  intros Hv Hn Ha. pose proof (delete_Permutation _ _ _ Hn) as Hp.
  assert (Hcase : r = (id, req) \/
    accounted (dial_queue h ++ delete n d ++ D) (outbound_substreams h) (V ++ events_out h) r).
  { destruct Ha as [Hq|Ha]; [|by right; right].
    rewrite !elem_of_app, Hp, elem_of_cons in Hq. unfold accounted. rewrite !elem_of_app. naive_solver. }
  assert (Hreport : forall h1 e, dial_queue h1 = dial_queue h -> outbound_substreams h1 = outbound_substreams h ->
    events_out h1 = events_out h ->
    let h' := push_out h1 (HandlerError (OutboundErr id (request_protocol req) e)) in
    accounted (dial_queue h' ++ delete n d ++ D) (outbound_substreams h') (V ++ events_out h') r).
  { intros h1 e E1 E2 E3. simpl. rewrite E1, E2, E3. destruct Hcase as [->|Hc].
    - right; left. eexists. split; [rewrite !elem_of_app; right; right; by apply list_elem_of_singleton|done].
    - eapply acc_mono; [exact Hc|done|set_solver]. }
  assert (Hretry : forall h1, dial_queue h1 = dial_queue h -> outbound_substreams h1 = outbound_substreams h ->
    events_out h1 = events_out h ->
    let h' := handler_send_request h1 id req in
    accounted (dial_queue h' ++ delete n d ++ D) (outbound_substreams h') (V ++ events_out h') r).
  { intros h1 E1 E2 E3. destruct Hcase as [->|Hc]; [apply send_request_accounts|].
    apply keeps_send_request. by rewrite E1, E2, E3. }
  unfold on_dial_upgrade_error. destruct error as [|[]| |]; repeat case_match;
    first [by apply Hreport|by apply Hretry].
Qed.

Lemma ids_mono k h : ids_upto k h -> ids_upto (k + 1) h.
Proof. unfold ids_upto. lia. Qed.

Lemma ids_behaviour k h now e : ids_upto k h -> ids_upto k (on_behaviour_event h now e).
Proof.
  unfold ids_upto. destruct e; simpl.
  - unfold handler_send_request. by case_match.
  - unfold handler_send_response. by repeat case_match.
  - by destruct (shutdown_frame h now (Some (id, reason))) as (_ & -> & ->).
Qed.

Lemma ids_dial_error k h id req error : ids_upto k h -> ids_upto k (on_dial_upgrade_error h id req error).
Proof.
  unfold ids_upto, on_dial_upgrade_error, handler_send_request.
  destruct error as [|[]| |]; by repeat case_match.
Qed.

(** One step of a run. *)
Lemma handler_step_ok k (w : World Id) op :
  handler_inv asked (w_dialing w) (w_handler w) -> ids_upto k (w_handler w) -> k < USIZE_MAX ->
  Forall (fun r => asked (request_protocol r.2)) (submitted op) ->
  match handler_step w op with
  | Some w' => handler_inv asked (w_dialing w') (w_handler w') /\ ids_upto (k + 1) (w_handler w') /\
      forall r, world_accounts w r \/ r ∈ submitted op -> world_accounts w' r
  | None => exists env, op = HPoll env /\ closes_updates (w_handler w) env
  end.
Proof.
  intros Hv Hk Hlt Hok. unfold world_accounts. destruct op as [now e|now fc req|now fc n|n error|env]; simpl.
  - split; [by apply inv_behaviour|].
    split; [by apply ids_mono, ids_behaviour|]. intros r [Hr|Hr]; [by apply keeps_behaviour|].
    destruct e as [id req| |]; simpl in *; try set_solver. apply list_elem_of_singleton in Hr as ->.
    apply send_request_accounts.
  - destruct (inv_inbound _ _ now fc req k Hv Hk Hlt).
    split_and!; [done..|]. intros r [Hr|Hr]; [by apply keeps_inbound|set_solver].
  - destruct (w_dialing w !! n) as [[id req]|] eqn:En; simpl.
    + destruct (inv_outbound _ _ now fc n id req k Hv En Hk Hlt).
      split_and!; [done..|]. intros r [Hr|Hr]; [by eapply acc_outbound|set_solver].
    + split; [done|]. split; [by apply ids_mono|]. intros r [|]; [done|set_solver].
  - destruct (w_dialing w !! n) as [[id req]|] eqn:En; simpl.
    + split; [by apply inv_dial_error|].
      split; [by apply ids_mono, ids_dial_error|]. intros r [Hr|Hr]; [by apply acc_dial_error|set_solver].
    + split; [done|]. split; [by apply ids_mono|]. intros r [|]; [done|set_solver].
  - pose proof (handler_poll_ok _ env _ Hv) as Hp. destruct (handler_poll env (w_handler w)) as [[p h']|] eqn:E; [|by eauto].
    destruct (acc_poll _ env _ p h' Hv E) as [[Ei Eo] Ha].
    assert (Hids : ids_upto (k + 1) h') by (unfold ids_upto in *; lia).
    destruct p as [|e|id req]; simpl in *; (split; [done|]; split; [done|]);
      (intros r [Hr|Hr]; [|set_solver]); apply Ha in Hr; simpl; [done|by rewrite <- app_assoc|].
    eapply acc_mono; [exact Hr|set_solver|done].
Qed.

(** A run, step by step: if it stops, then at a poll that finishes closing the substream of a request for
    light client updates. *)
Lemma handler_run_ok ops : forall k (w : World Id),
  handler_inv asked (w_dialing w) (w_handler w) -> ids_upto k (w_handler w) ->
  k + Z.of_nat (length ops) <= USIZE_MAX ->
  Forall (fun r => asked (request_protocol r.2)) (flat_map submitted ops) ->
  match handler_run w ops with
  | Some w' => handler_inv asked (w_dialing w') (w_handler w') /\
      ids_upto (k + Z.of_nat (length ops)) (w_handler w') /\
      forall r, world_accounts w r \/ r ∈ flat_map submitted ops -> world_accounts w' r
  | None => exists ops1 env ops2 w', ops = ops1 ++ HPoll env :: ops2 /\ handler_run w ops1 = Some w' /\
      handler_inv asked (w_dialing w') (w_handler w') /\ closes_updates (w_handler w') env
  end.
Proof.
  induction ops as [|op ops IH]; intros k w Hv Hk Hlen Hok; cbn [handler_run flat_map length] in *.
  { split_and!; try done; [by rewrite Z.add_0_r|]. intros r [|]; [done|set_solver]. }
  apply Forall_app in Hok as [Hop Hok].
  pose proof (handler_step_ok k w op Hv Hk ltac:(lia) Hop) as Hs. destruct (handler_step w op) as [w1|] eqn:E.
  - destruct Hs as (Hv1 & Hk1 & Ha1). specialize (IH (k + 1) w1 Hv1 Hk1 ltac:(lia) Hok).
    destruct (handler_run w1 ops) as [w'|].
    + destruct IH as (Hv' & Hk' & Ha'). split_and!; [done| |].
      * by replace (k + Z.of_nat (S (length ops))) with (k + 1 + Z.of_nat (length ops)) by lia.
      * intros r Hr. apply Ha'. rewrite elem_of_app in Hr. destruct Hr as [Hr|[Hr|Hr]]; [left..|by right];
          apply Ha1; tauto.
    + destruct IH as (ops1 & env & ops2 & w' & -> & Hr & Hc). exists (op :: ops1), env, ops2, w'.
      split; [done|]. cbn [handler_run]. by rewrite E.
  - destruct Hs as (env & -> & Hc). by exists [], env, ops, w.
Qed.

Lemma world_new_inv c : handler_inv asked (w_dialing (world_new (Id := Id) c)) (w_handler (world_new c)) /\
  ids_upto 0 (w_handler (world_new (Id := Id) c)).
Proof.
  split; [|done]. split; simpl; try done; try apply timers_empty; apply map_Forall_empty.
Qed.

(** ** Response streams over a run *)

Lemma table_grows_same h h' :
  inbound_substreams h' = inbound_substreams h ->
  current_inbound_substream_id h' = current_inbound_substream_id h -> table_grows h h'.
Proof. intros Em Ei. split; [lia|]. rewrite Em. intros id i' Hl _. exists i'. split; [done|apply grows_refl]. Qed.

Lemma table_grows_trans h1 h2 h3 : table_grows h1 h2 -> table_grows h2 h3 -> table_grows h1 h3.
Proof.
  intros [Hc1 Ht1] [Hc2 Ht2]. split; [lia|]. intros id i3 Hl Hlt.
  destruct (Ht2 id i3 Hl ltac:(lia)) as (i2 & Hl2 & Hg2).
  destruct (Ht1 id i2 Hl2 Hlt) as (i1 & Hl1 & Hg1). exists i1. split; [done|by eapply grows_trans].
Qed.

Lemma grows_push i l : stream_grows i (set_pending i (pending_items i ++ l)).
Proof.
  split; try done. intros _. unfold stream_content. simpl. rewrite !app_assoc. by apply prefix_app_r.
Qed.

Lemma table_grows_put h id i i' q :
  inbound_substreams h !! id = Some i -> stream_grows i i' ->
  table_grows h (set_inbound h (<[id := i']> (inbound_substreams h)) q).
Proof.
  intros Hl Hg. split; [done|]. simpl. intros x ix. rewrite lookup_insert. case_decide; [|eauto using grows_refl].
  intros [= <-] _. subst. by exists i.
Qed.

Lemma table_send_response h id r : table_grows h (handler_send_response h id r).
Proof.
  unfold handler_send_response. destruct (inbound_substreams h !! id) as [i|] eqn:Hl; [|by apply table_grows_same].
  set (h1 := match r with RpcError _ _ => _ | _ => _ end).
  assert (H1' : table_grows h h1 /\ inbound_substreams h1 = inbound_substreams h)
    by (unfold h1; destruct r; (split; [by apply table_grows_same|done])).
  destruct H1' as [Hg Em]. case_match; [done|]. eapply table_grows_trans; [exact Hg|].
  eapply table_grows_put; [by rewrite Em|apply grows_push].
Qed.

Lemma table_shutdown h now g : table_grows h (shutdown h now g).
Proof. destruct (shutdown_frame h now g) as (? & ? & _). by apply table_grows_same. Qed.

Lemma table_behaviour h now e : table_grows h (on_behaviour_event h now e).
Proof.
  destruct e; simpl; [|apply table_send_response|apply table_shutdown].
  unfold handler_send_request. case_match; by apply table_grows_same.
Qed.

Lemma table_accept h now req k :
  ids_upto k h -> k < USIZE_MAX ->
  inbound_substreams (accept_inbound h now req) = inbound_substreams h /\
  current_inbound_substream_id (accept_inbound h now req) = current_inbound_substream_id h + 1.
Proof.
  intros [Hi _] Hlt. unfold accept_inbound. simpl.
  destruct (is_goodbye req); [destruct (shutdown_frame h now None) as (-> & -> & _)|]; simpl;
    by rewrite ids_small by lia.
Qed.

Lemma table_inbound h now fc req k sub :
  ids_upto k h -> k < USIZE_MAX -> table_grows h (on_fully_negotiated_inbound h now fc req sub).
Proof.
  intros Hk Hlt. assert (Hrej : forall p e, table_grows h (reject_inbound h now p e)).
  { intros p e. eapply table_grows_trans; [|apply table_shutdown]. by apply table_grows_same. }
  unfold on_fully_negotiated_inbound. case_match; [|by apply table_grows_same].
  case_match; [case_match; apply Hrej|]. case_match.
  - case_match; [|apply Hrej]. destruct (kq_insert _ _ _ _) as [key q].
    match goal with |- table_grows h (accept_inbound ?h1 _ _) =>
      destruct (table_accept h1 now req k) as [Em Ei]; [done..|]; split; [rewrite Ei; simpl; lia|] end.
    rewrite Em. simpl. intros id i'. rewrite lookup_insert. case_decide; [lia|]. intros Hl _.
    exists i'. split; [done|apply grows_refl].
  - destruct (table_accept h now req k Hk Hlt) as [Em Ei]. split; [lia|]. rewrite Em. intros id i' Hl _.
    exists i'. split; [done|apply grows_refl].
Qed.

Lemma table_purge_inbound n now : forall h, table_grows h (purge_inbound n now h).
Proof.
  induction n as [|n IH]; intros h; simpl; [by apply table_grows_same|].
  destruct (poll_expired _ _) as [i|]; [|by apply table_grows_same].
  destruct (inbound_substreams_delay h !! i) as [[[k id] dl]|] eqn:Hi; [|by apply table_grows_same].
  destruct (inbound_substreams h !! id) as [info|] eqn:Hl.
  - eapply table_grows_trans; [|apply IH].
    set (h1 := set_inbound h (<[id := expire_inbound info]> (inbound_substreams h))
                 (dq_remove (inbound_substreams_delay h) i)).
    eapply (table_grows_trans _ h1); [|by apply table_grows_same].
    apply (table_grows_put h id info); [done|]. unfold expire_inbound.
    destruct (still_active info); split; try done; intros _; unfold stream_content; simpl.
    rewrite !app_assoc. by apply prefix_app_r.
  - eapply table_grows_trans; [|apply IH]. by apply table_grows_same.
Qed.

Lemma table_poll d env h p h' :
  handler_inv asked d h -> handler_poll env h = Some (p, h') -> table_grows h h'.
Proof.
  intros Hv. unfold handler_poll. destruct (events_out h) as [|e rest].
  2: { intros [= <- <-]. by apply table_grows_same. }
  destruct (match handler_state h with HandlerState.ShuttingDown _ => _ | _ => _ end).
  { intros [= <- <-]. by apply table_grows_same. }
  pose proof (table_purge_inbound (length (inbound_substreams_delay h)) (pe_now env) h) as Ht1.
  pose proof (inv_purge_inbound d (length (inbound_substreams_delay h)) (pe_now env) h Hv) as Hv1.
  set (h1 := purge_inbound _ _ _) in *. clearbody h1.
  pose proof (inv_purge_outbound d (length (outbound_substreams_delay h1)) (pe_now env) h1 Hv1) as Hv2.
  destruct (purge_outbound_frame (length (outbound_substreams_delay h1)) (pe_now env) h1) as (m2 & q2 & E2).
  destruct (purge_outbound _ _ _) as [oe h2]. simpl in Hv2, E2.
  assert (Ht2 : table_grows h h2).
  { eapply table_grows_trans; [exact Ht1|]. rewrite E2. by apply table_grows_same. }
  destruct oe as [e|]; [by intros [= <- <-]|].
  destruct (inv_drive_inbound d env (is_deactivated (handler_state h2)) h2 Hv2)
    as (h3 & -> & Hv3 & Ht3 & _).
  destruct (drive_outbound_all env _ _ h3) as [[ev h4]|] eqn:E4; [|done].
  apply acc_drive_outbound_all with (d := d) in E4 as (m4 & q4 & ev4 & E4 & _); [|done| |].
  2: { apply NoDup_fst_hash_iter. }
  2: { intros id ([? i] & -> & Hin)%list_elem_of_fmap. apply elem_of_hash_iter in Hin. by eauto. }
  assert (Ht4 : table_grows h h4).
  { eapply table_grows_trans; [exact Ht2|]. eapply table_grows_trans; [exact Ht3|]. rewrite E4.
    by apply table_grows_same. }
  destruct ev as [e|]; [by intros [= <- <-]|]. intros [= E5].
  eapply table_grows_trans; [exact Ht4|]. unfold poll_dial in E5. repeat case_match; simplify_eq; by apply table_grows_same.
Qed.

Lemma table_outbound h now fc id req : table_grows h (on_fully_negotiated_outbound h now fc id req).
Proof.
  unfold on_fully_negotiated_outbound. destruct (is_deactivated _); (destruct (0 <? _); [|by apply table_grows_same]);
    by apply table_grows_same.
Qed.

Lemma table_dial_error h id req error : table_grows h (on_dial_upgrade_error h id req error).
Proof.
  unfold on_dial_upgrade_error, handler_send_request.
  destruct error as [|[]| |]; repeat case_match; by apply table_grows_same.
Qed.

Lemma table_step k (w w' : World Id) op :
  handler_inv asked (w_dialing w) (w_handler w) -> ids_upto k (w_handler w) -> k < USIZE_MAX ->
  handler_step w op = Some w' -> table_grows (w_handler w) (w_handler w').
Proof.
  intros Hv Hk Hlt. destruct op as [now e|now fc req|now fc n|n error|env]; simpl.
  - intros [= <-]. apply table_behaviour.
  - intros [= <-]. by eapply table_inbound.
  - destruct (w_dialing w !! n) as [[id req]|]; intros [= <-]; [apply table_outbound|by apply table_grows_same].
  - destruct (w_dialing w !! n) as [[id req]|]; intros [= <-]; [apply table_dial_error|by apply table_grows_same].
  - destruct (handler_poll env (w_handler w)) as [[p h']|] eqn:E; [|done].
    apply (table_poll _ _ _ _ _ Hv) in E. destruct p; by intros [= <-].
Qed.

Lemma table_run ops : forall k (w w' : World Id),
  handler_inv asked (w_dialing w) (w_handler w) -> ids_upto k (w_handler w) ->
  k + Z.of_nat (length ops) <= USIZE_MAX ->
  Forall (fun r => asked (request_protocol r.2)) (flat_map submitted ops) ->
  handler_run w ops = Some w' -> table_grows (w_handler w) (w_handler w').
Proof.
  induction ops as [|op ops IH]; intros k w w' Hv Hk Hlen Hok; cbn [handler_run].
  { intros [= <-]. by apply table_grows_same. }
  cbn [length flat_map] in Hlen, Hok. apply Forall_app in Hok as [Hop Hok].
  pose proof (handler_step_ok k w op Hv Hk ltac:(lia) Hop) as Hs. destruct (handler_step w op) as [w1|] eqn:E1; [|done].
  destruct Hs as (Hv1 & Hk1 & _).
  intros Hr. eapply table_grows_trans; [by eapply table_step; [..|exact E1]; [done..|lia]|].
  eapply (IH (k + 1)); try done. lia.
Qed.

End handler_lemmas.

(** ** Theorems *)

Section handler_theorems.
Context `{ChainTypes} `{HashIter} `{DelayQueue} `{DelayKeys} `{ErrorDisplay} {Id : Type}.

Lemma handler_run_app (ops1 ops2 : list (HandlerOp Id)) : forall w,
  handler_run w (ops1 ++ ops2) = match handler_run w ops1 with Some w1 => handler_run w1 ops2 | None => None end.
Proof. induction ops1 as [|op ops1 IH]; intros w; [done|]. cbn. destruct (handler_step w op); [apply IH|done]. Qed.

(** The requests of a run are among those asked for in it. *)
Lemma asked_submitted (ops : list (HandlerOp Id)) l :
  l ⊆ flat_map submitted ops -> Forall (fun r => asked_in ops (request_protocol r.2)) l.
Proof.
  intros Hl. apply Forall_forall. intros r Hr. right. apply list_elem_of_fmap. exists r. split; [done|by apply Hl].
Qed.

Lemma asked_run c (ops ops' : list (HandlerOp Id)) :
  Z.of_nat (length ops) <= USIZE_MAX -> flat_map submitted ops ⊆ flat_map submitted ops' ->
  match handler_run (world_new c) ops with
  | Some w => handler_inv (asked_in ops') (w_dialing w) (w_handler w) /\
      ids_upto (Z.of_nat (length ops)) (w_handler w) /\
      forall r, r ∈ flat_map submitted ops -> world_accounts w r
  | None => exists ops1 env ops2 w, ops = ops1 ++ HPoll env :: ops2 /\ handler_run (world_new c) ops1 = Some w /\
      handler_inv (asked_in ops') (w_dialing w) (w_handler w) /\ closes_updates (w_handler w) env
  end.
Proof.
  intros Hlen Hsub. destruct (world_new_inv (Id := Id) (asked := asked_in ops') c) as [Hv Hk].
  pose proof (handler_run_ok (or_introl eq_refl) ops 0 (world_new c) Hv Hk Hlen (asked_submitted ops' _ Hsub)) as Hr.
  destruct (handler_run _ ops); [|done]. destruct Hr as (? & ? & Ha). split_and!; [done..|]. auto.
Qed.

(** A closing substream of light client updates was asked for. *)
Lemma closes_asked (ops : list (HandlerOp Id)) d (h : RPCHandler Id) env :
  handler_inv (asked_in ops) d h -> closes_updates h env ->
  asked_in ops Protocol.LightClientUpdatesByRange.
Proof. intros Hv (id & i & Hl & _ & <- & _). by apply (hv_out _ _ _ Hv id i Hl). Qed.

(** C4: the handler's invariant.  In any run on a new connection, whatever the network delivers and
    whatever requests are submitted, every timeout the handler removes or resets is in its queue, no
    substream is polled in its temporary state, and the loops end.  At most 32 inbound substreams are
    open, at most 8 outbound ones are being negotiated, the counter of those is exact, and every protocol
    spoken was asked for.  There is one way to panic: a poll that finishes closing the substream of a
    request for light client updates, which only a run that submits such a request can have. *)
Theorem handler_invariant c (ops : list (HandlerOp Id)) :
  Z.of_nat (length ops) <= USIZE_MAX ->
  match handler_run (world_new c) ops with
  | Some w => handler_inv (asked_in ops) (w_dialing w) (w_handler w)
  | None => asked_in ops Protocol.LightClientUpdatesByRange /\
      exists ops1 env ops2 w, ops = ops1 ++ HPoll env :: ops2 /\
        handler_run (world_new c) ops1 = Some w /\ closes_updates (w_handler w) env
  end.
Proof.
  intros Hlen. pose proof (asked_run c ops ops Hlen (reflexivity _)) as Hr.
  destruct (handler_run _ ops) as [w|]; [by destruct Hr|].
  destruct Hr as (ops1 & env & ops2 & w & E & Hr & Hv & Hc). split; [by eapply closes_asked|by exists ops1, env, ops2, w].
Qed.

(** C3: no request is lost.  In any run, every request the behaviour handed to the handler is waiting
    for a substream, being negotiated, or carried by a substream that is still to report its end, or
    its end has been reported, unless its substream was dropped because it expects no response.  The run
    returns unless it asks for light client updates. *)
Theorem handler_requests_accounted c (ops : list (HandlerOp Id)) :
  Z.of_nat (length ops) <= USIZE_MAX ->
  match handler_run (world_new c) ops with
  | Some w => forall r, r ∈ flat_map submitted ops -> world_accounts w r
  | None => asked_in ops Protocol.LightClientUpdatesByRange
  end.
Proof.
  intros Hlen. pose proof (asked_run c ops ops Hlen (reflexivity _)) as Hr.
  destruct (handler_run _ ops) as [w|]; [by destruct Hr as (_ & _ & Ha)|].
  destruct Hr as (ops1 & env & ops2 & w & E & Hr & Hv & Hc). by eapply closes_asked.
Qed.

(** C24: responses are written in order and within the promise.  Between two moments of a run at which
    an inbound substream is open, what it was given at the first (written, being sent and queued) is a
    prefix of what it was given at the second, unless its sink has failed; what it has written only
    grows; and never more responses are written than the request was promised, a number that stays the
    same.  The run returns unless it asks for light client updates. *)
Theorem handler_stream_order c (ops1 ops2 : list (HandlerOp Id)) id i2 :
  Z.of_nat (length (ops1 ++ ops2)) <= USIZE_MAX ->
  asked_in (ops1 ++ ops2) Protocol.LightClientUpdatesByRange /\ handler_run (world_new c) (ops1 ++ ops2) = None \/
  exists w1 w2, handler_run (world_new c) ops1 = Some w1 /\ handler_run w1 ops2 = Some w2 /\
    (inbound_substreams (w_handler w2) !! id = Some i2 ->
     Z.of_nat (length (stream_written i2)) <= stream_budget i2 /\
     (id < current_inbound_substream_id (w_handler w1) ->
      exists i1, inbound_substreams (w_handler w1) !! id = Some i1 /\ stream_grows i1 i2)).
Proof.
  intros Hlen. pose proof (asked_run c (ops1 ++ ops2) (ops1 ++ ops2) Hlen (reflexivity _)) as Hr.
  destruct (handler_run _ (ops1 ++ ops2)) as [w2|] eqn:E.
  2: { left. destruct Hr as (l1 & env & l2 & w & _ & Hr & Hv & Hc). split; [by eapply closes_asked|done]. }
  right. destruct Hr as (Hv2 & _). rewrite handler_run_app in E.
  destruct (handler_run _ ops1) as [w1|] eqn:E1; [|done]. exists w1, w2. split_and!; [done..|]. intros Hl.
  rewrite length_app in Hlen. split.
  - destruct (hv_in _ _ _ Hv2 id i2 Hl) as [_ [Hrem _]]. unfold stream_budget. repeat case_match; lia.
  - intros Hlt. pose proof (asked_run c ops1 (ops1 ++ ops2) ltac:(lia)) as Hr1. rewrite E1 in Hr1.
    destruct Hr1 as (Hv1 & Hk1 & _); [rewrite flat_map_app; set_solver|].
    destruct (table_run (or_introl eq_refl) ops2 _ w1 w2 Hv1 Hk1 ltac:(lia)) as [_ Ht]; [|done|by apply Ht].
    apply asked_submitted. rewrite flat_map_app. set_solver.
Qed.

Lemma hash_iter_singleton {V} (k : Z) (v : V) : hash_iter ({[k := v]} : gmap Z V) = [(k, v)].
Proof.
  pose proof (hash_iter_perm ({[k := v]} : gmap Z V)) as Hp. rewrite map_to_list_singleton in Hp.
  by apply Permutation_singleton_r in Hp.
Qed.

Lemma poll_not_expired {K} (k : K) deadline now : now < deadline -> poll_expired [(k, deadline)] now = None.
Proof.
  intros Hlt. destruct (poll_expired _ now) as [i|] eqn:E; [|done].
  apply poll_expired_Some in E as (k' & d & Hi & Hle). destruct i; simplify_eq/=. lia.
Qed.

Lemma poll_expired_nil {K} now : poll_expired ([] : list (K * Instant)) now = None.
Proof. destruct (poll_expired _ now) as [i|] eqn:E; [|done]. by apply poll_expired_Some in E as (? & ? & ? & _). Qed.

Lemma hash_iter_empty {V} : hash_iter (∅ : gmap Z V) = [].
Proof.
  pose proof (hash_iter_perm (∅ : gmap Z V)) as Hp. rewrite map_to_list_empty in Hp. by apply Permutation_nil_r in Hp.
Qed.

(** A handler with nothing but one outbound substream, whose timeout has not passed. *)
Record one_outbound (h : RPCHandler Id) (now : Instant) (i : OutboundInfo Id) : Prop := {
  oo_state : handler_state h = HandlerState.Active;
  oo_events : events_out h = [];
  oo_inbound : inbound_substreams h = ∅;
  oo_inbound_delay : inbound_substreams_delay h = [];
  oo_outbound : outbound_substreams h = {[0 := i]};
  oo_outbound_delay : exists deadline, outbound_substreams_delay h = [((oi_delay_key i, 0), deadline)] /\ now < deadline;
}.

(** What a poll of it comes to. *)
Lemma poll_one_outbound (h : RPCHandler Id) env i :
  one_outbound h (pe_now env) i ->
  handler_poll env h =
    match drive_outbound env false 0 h with
    | Some (Some e, h) => Some (PollNotify e, h)
    | Some (None, h) => Some (poll_dial h)
    | None => None
    end.
Proof.
  intros [Hs He Hi Hid Ho (dl & Hod & Hlt)]. unfold handler_poll. rewrite He, Hs, Hid. cbn [length purge_inbound].
  rewrite Hod. cbn [length purge_outbound]. rewrite Hod, (poll_not_expired _ _ _ Hlt), Hs. cbn [is_deactivated].
  unfold drive_inbound_substreams. rewrite Hi, Hid, hash_iter_empty. cbn [drive_inbound_all foldr].
  assert (E : set_events_out (set_inbound h ∅ []) (events_out h ++ []) = h).
  { rewrite <- Hi, <- Hid, app_nil_r. by destruct h. }
  rewrite E, Ho, hash_iter_singleton. cbn [fmap list_fmap fst drive_outbound_all].
  destruct (drive_outbound env false 0 h) as [[[e|] h']|]; done.
Qed.

(** C15: asking for light client updates panics.  On a new connection, a request for light client updates
    that expects a response is submitted and its substream is negotiated; the peer answers in time, with
    whatever response.  The response is reported, and the poll that then finishes closing the substream
    panics: [Protocol::terminator] is not implemented for this protocol. *)
Theorem updates_request_panics c (id : Id) req t fc env0 env1 env2 r :
  0 < lcu_count req -> pe_now env1 < t + RESP_TIMEOUT -> pe_now env2 < t + RESP_TIMEOUT ->
  pe_next env1 0 = Some (Some (Ok r)) -> pe_close env2 0 = true ->
  let ops := [HBehaviour t (SendRequest id (ReqLightClientUpdatesByRange req)); HPoll env0; HOutbound t fc 0; HPoll env1] in
  (exists w e, handler_run (world_new c) ops = Some w /\ w_delivered w = [e] /\
     ends (id, ReqLightClientUpdatesByRange req) e) /\
  handler_run (world_new c) (ops ++ [HPoll env2]) = None.
Proof.
  intros Hc Ht1 Ht2 Hn Hcl ops.
  set (h0 := set_dial (RPCHandler_new (Id := Id) c) [(id, ReqLightClientUpdatesByRange req)] 0).
  assert (E0 : handler_poll env0 h0 = Some (PollDial id (ReqLightClientUpdatesByRange req), set_dial h0 [] 1)).
  { unfold handler_poll. cbn. unfold drive_inbound_substreams. cbn. rewrite hash_iter_empty. cbn.
    by rewrite hash_iter_empty. }
  set (h1 := on_fully_negotiated_outbound (set_dial h0 [] 1) t fc id (ReqLightClientUpdatesByRange req)).
  assert (Hone : exists i, (forall now, now < t + RESP_TIMEOUT -> one_outbound h1 now i) /\ oi_req_id i = id /\
    oi_state i = RequestPendingResponse (ReqLightClientUpdatesByRange req) /\ oi_proto i = Protocol.LightClientUpdatesByRange).
  { unfold h1, on_fully_negotiated_outbound, kq_insert. cbn. destruct (Z.ltb_spec 0 (lcu_count req)); [|lia]. cbn.
    eexists (mkOutboundInfo _ _ _ _ _). split; [|done]. intros now Hlt. split; try done. by eexists. }
  destruct Hone as (i & Hone & Hid & Hst & Hp).
  assert (E1 : handler_poll env1 h1 = Some (PollNotify (received i r),
    set_outbound h1 (<[0 := set_oi_state i Closing]> (outbound_substreams h1)) (outbound_substreams_delay h1))).
  { rewrite (poll_one_outbound _ _ i) by by apply Hone. unfold drive_outbound.
    rewrite (oo_outbound _ _ _ (Hone _ Ht1)), lookup_singleton_eq, Hst, Hn. done. }
  set (h2 := set_outbound h1 _ _) in E1.
  assert (E2 : handler_poll env2 h2 = None).
  { assert (Ho : one_outbound h2 (pe_now env2) (set_oi_state i Closing)).
    { destruct (Hone _ Ht2) as [? ? ? ? Ho ?]. split; try done. unfold h2. cbn [outbound_substreams set_outbound]. rewrite Ho. apply insert_singleton_eq. }
    rewrite (poll_one_outbound _ _ _ Ho). unfold drive_outbound.
    rewrite (oo_outbound _ _ _ Ho), lookup_singleton_eq. cbn [set_oi_state oi_state oi_proto oi_delay_key].
    rewrite Hcl, Hp. by destruct (kq_remove _ _). }
  assert (Er : handler_run (world_new c) ops = Some (mkWorld h2 [] [received i r] [])).
  { unfold ops. cbn [handler_run handler_step world_new w_handler w_dialing w_delivered w_dropped].
    change (on_behaviour_event _ _ _) with h0. rewrite E0. cbn [w_dialing w_handler app lookup list_lookup].
    fold h1. cbn [w_handler]. rewrite E1. cbn [w_dialing w_delivered w_dropped delete list_delete app].
    unfold expects_none. cbn. destruct (Z.leb_spec (lcu_count req) 0); [lia|done]. }
  split.
  - eexists _, _. split; [exact Er|]. split; [done|]. rewrite <- Hid. by destruct r.
  - rewrite handler_run_app, Er. cbn. by rewrite E2.
Qed.

(** C25: which requests of the peer are admitted.  A handler that is not active ignores the request.  An
    active one reports a request that asks for too much, or for which 32 substreams are already open,
    as an error and shuts down within 15 seconds.  Any other request is reported to the behaviour under
    the connection and the next substream identifier; if it expects responses, its substream is open
    with exactly that number promised and a timeout of 10 seconds, and only then; a goodbye also shuts
    the handler down. *)
Theorem inbound_admission (h : RPCHandler Id) now fc req :
  let h' := on_fully_negotiated_inbound h now fc req (mkSubstream [] false) in
  let id := current_inbound_substream_id h in
  let n := max_responses req (chain_config fc) (current_fork_epoch fc) in
  let refused :=
    if request_excess fc req is Some e then Some e
    else if (0 <? n) && (MAX_INBOUND_SUBSTREAMS <=? Z.of_nat (size (inbound_substreams h)))
    then Some (request_protocol req, HandlerRejected) else None in
  if is_active (handler_state h) then
    match refused with
    | Some (p, e) =>
        handler_state h' = HandlerState.ShuttingDown (now + Duration_from_secs 15) /\
        inbound_substreams h' = inbound_substreams h /\
        events_out h' = events_out h ++ [HandlerError (InboundErr id p e)] ++ fail_dials (dial_queue h)
    | None =>
        last (events_out h') = Some (HandlerOk (RecvRequest (mkInboundRequestId (connection_id h) id) req)) /\
        is_active (handler_state h') = negb (is_goodbye req) /\
        if 0 <? n
        then exists i key, inbound_substreams h' !! id = Some i /\ stream_content i = [] /\
               stream_budget i = n /\ ii_delay_key i = Some key /\
               ((key, id), now + Duration_from_secs 10) ∈ inbound_substreams_delay h'
        else inbound_substreams h' = inbound_substreams h
    end
  else h' = h.
Proof.
  cbv zeta. unfold on_fully_negotiated_inbound.
  destruct (is_active (handler_state h)) eqn:Ea; [|done].
  assert (Hrej : forall p e, let h' := reject_inbound h now p e in
    handler_state h' = HandlerState.ShuttingDown (now + Duration_from_secs 15) /\
    inbound_substreams h' = inbound_substreams h /\
    events_out h' = events_out h ++
      [HandlerError (InboundErr (current_inbound_substream_id h) p e)] ++ fail_dials (dial_queue h)).
  { intros p e. unfold reject_inbound, shutdown. simpl. rewrite Ea. simpl. by rewrite <- app_assoc. }
  assert (Hacc : forall h1 : RPCHandler Id, is_active (handler_state h1) = true ->
    let h' := accept_inbound h1 now req in
    last (events_out h') = Some (HandlerOk (RecvRequest
      (mkInboundRequestId (connection_id h1) (current_inbound_substream_id h1)) req)) /\
    is_active (handler_state h') = negb (is_goodbye req) /\ inbound_substreams h' = inbound_substreams h1 /\
    inbound_substreams_delay h' = inbound_substreams_delay h1).
  { intros h1 Ea1. unfold accept_inbound, shutdown. rewrite Ea1.
    destruct (is_goodbye req); simpl; by rewrite last_snoc. }
  destruct (request_excess fc req) as [[p e]|]; [apply Hrej|].
  destruct (0 <? _) eqn:En; simpl; [|destruct (Hacc h Ea) as (? & ? & ? & _); done].
  rewrite Z.leb_antisym. destruct (_ <? MAX_INBOUND_SUBSTREAMS); cbn [negb]; [|apply Hrej].
  unfold kq_insert. set (h1 := set_inbound _ _ _).
  destruct (Hacc h1 Ea) as (Hl & Hs & Em & Eq). split_and!; [done..|].
  rewrite Em, Eq. eexists _, _. split; [simpl; by rewrite lookup_insert_eq|]. split_and!; try done.
  - unfold stream_budget. simpl. lia.
  - simpl. set_solver.
Qed.

(** C26: a shutdown ends.  From the moment the deadline has passed, the handler reports the events it
    still holds, one per poll and in order, then the closing of the connection, and is deactivated:
    the connection is not kept alive any more, whatever the network does. *)
Theorem shutdown_completes (h : RPCHandler Id) deadline envs :
  handler_state h = HandlerState.ShuttingDown deadline ->
  Forall (fun env => deadline <= pe_now env) envs -> length envs = S (length (events_out h)) ->
  exists h', poll_all envs h =
    Some (map PollNotify (events_out h) ++ [PollNotify (HandlerClose Disconnected)], h') /\
    connection_keep_alive h' = false /\ events_out h' = [].
Proof.
  remember (events_out h) as l eqn:El. revert h El envs.
  induction l as [|e l IH]; intros h El [|env envs] Hs Hd Hlen; try done; simpl in Hlen |- *;
    apply Forall_cons in Hd as [Hd1 Hd]; unfold handler_poll; rewrite <- El.
  - rewrite Hs. rewrite (proj2 (Z.leb_le _ _) Hd1). destruct envs; [|done]. simpl.
    eexists. split; [done|]. by split.
  - destruct (IH (set_events_out h l) eq_refl envs) as (h' & -> & Hk & He); [done..|lia|]. by exists h'.
Qed.

End handler_theorems.

(** ** Closed instances *)

Module HandlerExamples.

#[local] Existing Instance Toy.chain.
#[local] Existing Instance ToyTimers.first_expired_queue.
#[local] Existing Instance ToyTimers.increasing_keys.

#[local] Instance plain_display : ErrorDisplay := {| ErrorType_to_string := fun m => m |}.

Definition context : ForkContext (H := Toy.chain) := mkForkContext tt (mkHardFork Deneb 40 1040) [].

Definition range (count : Z) : RequestType := ReqBlocksByRange (OldBBR_V2 (mkOldBBRV2 0 count 1)).

(** A poll at a time at which nothing of the network is ready, and variations. *)
Definition quiet (now : Instant) : PollEnv := mkPollEnv now (fun _ => []) (fun _ => None) (fun _ => false).
Definition delivers (now : Instant) (r : RpcResponse) : PollEnv :=
  mkPollEnv now (fun _ => []) (fun _ => Some (Some (Ok r))) (fun _ => false).
Definition closes (now : Instant) : PollEnv := mkPollEnv now (fun _ => []) (fun _ => None) (fun _ => true).
Definition sends (now : Instant) (n : nat) : PollEnv :=
  mkPollEnv now (fun _ => replicate n (Ok tt)) (fun _ => None) (fun _ => false).

Definition pong (n : Z) : RpcResponse := RpcSuccess (RespBlocksByRange n).

(** The peer asks for two blocks; three are offered, the second ends the stream. *)
Definition serving : list (HandlerOp Z) :=
  [HInbound 0 context (range 2); HPoll (quiet 0); HBehaviour 0 (SendResponse 0 (pong 1))].
Definition served : list (HandlerOp Z) :=
  [HPoll (sends 0 1); HBehaviour 0 (SendResponse 0 (pong 2)); HBehaviour 0 (SendResponse 0 (pong 3))].

Example serving_run :
  (fun w => stream_written <$> inbound_substreams (w_handler w) !! 0) <$>
    handler_run (world_new 1) (serving ++ served) = Some (Some [pong 1]) /\
  (fun w => size (inbound_substreams (w_handler w))) <$>
    handler_run (world_new 1) (serving ++ served ++ [HPoll (sends 0 2)]) = Some 0%nat.
Proof. split; evaluate. Qed.

(** Two requests of ours: one times out, one is answered. *)
Definition asking : list (HandlerOp Z) :=
  [HBehaviour 0 (SendRequest 7 (ReqPing 1)); HBehaviour 0 (SendRequest 8 (ReqPing 2)); HPoll (quiet 0);
   HPoll (quiet 0); HOutbound 0 context 0; HPoll (delivers 0 (RpcSuccess (RespPong 5)));
   HDialError 0 UpgradeTimeout; HPoll (quiet 0)].

Example asking_run :
  w_delivered <$> handler_run (world_new 1) asking =
  Some [HandlerOk (RecvResponse 7 (RespPong 5)); HandlerError (OutboundErr 8 Protocol.Ping NegotiationTimeout)].
Proof. evaluate. Qed.

Lemma asking_no_updates : ~ asked_in asking Protocol.LightClientUpdatesByRange.
Proof. intros [?|Hin]; [done|]. apply list_elem_of_In in Hin. by repeat destruct Hin as [|Hin]. Qed.

Lemma serving_no_updates : ~ asked_in (serving ++ served) Protocol.LightClientUpdatesByRange.
Proof. intros [?|Hin]; [done|]. by apply list_elem_of_In in Hin. Qed.

Lemma handler_invariant_witness :
  exists w, handler_run (world_new 1) asking = Some w /\ handler_inv (asked_in asking) (w_dialing w) (w_handler w).
Proof.
  pose proof (handler_invariant 1 asking ltac:(vm_compute; discriminate)) as Hr.
  destruct (handler_run (world_new 1) asking) as [w|]; [by exists w|]. destruct Hr as [Hr _]. by apply asking_no_updates in Hr.
Defined.

Lemma handler_requests_accounted_witness :
  exists w, handler_run (world_new 1) asking = Some w /\
    forall r, r ∈ [(7, ReqPing 1); (8, ReqPing 2)] -> world_accounts w r.
Proof.
  pose proof (handler_requests_accounted 1 asking ltac:(vm_compute; discriminate)) as Hr.
  destruct (handler_run (world_new 1) asking) as [w|]; [by exists w|]. by apply asking_no_updates in Hr.
Defined.

Lemma handler_stream_order_witness :
  exists w1 w2, handler_run (world_new 1) serving = Some w1 /\ handler_run w1 served = Some w2 /\
    forall i2, inbound_substreams (w_handler w2) !! 0 = Some i2 ->
      Z.of_nat (length (stream_written i2)) <= stream_budget i2.
Proof.
  pose proof (fun i2 => handler_stream_order 1 serving served 0 i2 ltac:(vm_compute; discriminate)) as H.
  destruct (H (mkInboundInfo InboundPoisoned [] Protocol.Ping 0 None)) as [[Ha _]|(w1 & w2 & E1 & E2 & _)];
    [by apply serving_no_updates in Ha|].
  exists w1, w2. split; [exact E1|]. split; [exact E2|]. intros i2 Hl.
  destruct (H i2) as [[Ha _]|(w1' & w2' & E1' & E2' & H2)]; [by apply serving_no_updates in Ha|].
  rewrite E1 in E1'. injection E1' as <-. rewrite E2 in E2'. injection E2' as <-. exact (proj1 (H2 Hl)).
Defined.

Lemma shutdown_completes_witness :
  exists h' : RPCHandler Z,
    poll_all [quiet (Duration_from_secs 15)] (shutdown (RPCHandler_new 1) 0 None) =
      Some ([PollNotify (HandlerClose Disconnected)], h') /\
    connection_keep_alive h' = false /\ events_out h' = [].
Proof.
  apply (shutdown_completes (shutdown (RPCHandler_new 1) 0 None) (Duration_from_secs 15)).
  - reflexivity.
  - repeat constructor. vm_compute. discriminate.
  - reflexivity.
Defined.

(** A peer answers a request for one light client update with an error. *)
Lemma updates_request_panics_witness :
  handler_run (world_new (Id := Z) 1)
    [HBehaviour 0 (SendRequest 7 (ReqLightClientUpdatesByRange (mkLCUpdates 0 1))); HPoll (quiet 0);
     HOutbound 0 context 0; HPoll (delivers 0 (RpcError ServerError [])); HPoll (closes 0)] = None.
Proof.
  exact (proj2 (updates_request_panics 1 7 (mkLCUpdates 0 1) 0 context (quiet 0) (delivers 0 (RpcError ServerError []))
    (closes 0) (RpcError ServerError []) eq_refl eq_refl eq_refl eq_refl eq_refl)).
Defined.

(** An error response is followed by an end of stream.  The substream of a range of blocks is closed
    after an error response, and closing it reports an end of stream for the same request. *)
Theorem error_then_end_of_stream :
  w_delivered <$> handler_run (world_new 1)
    [HBehaviour 0 (SendRequest 7 (range 8)); HPoll (quiet 0); HOutbound 0 context 0;
     HPoll (delivers 0 (RpcError ServerError [])); HPoll (closes 0)] =
  Some [HandlerError (OutboundErr 7 Protocol.BlocksByRange (ErrorResponse ServerError []));
        HandlerOk (RecvEndOfStream 7 ResponseTermination.BlocksByRange)].
Proof. evaluate. Qed.

(** A substream negotiated after deactivation is reported twice.  The handler reports the request as
    disconnected but stores the substream all the same; the next poll reports it again. *)
Theorem deactivated_outbound_reported_twice :
  w_delivered <$> handler_run (world_new 1)
    [HBehaviour 0 (SendRequest 7 (range 8)); HPoll (quiet 0); HBehaviour 0 (SendShutdown 9 GoodbyeReason.Fault);
     HPoll (quiet (Duration_from_secs 15)); HOutbound (Duration_from_secs 15) context 0;
     HPoll (quiet (Duration_from_secs 15)); HPoll (quiet (Duration_from_secs 15));
     HPoll (quiet (Duration_from_secs 15))] =
  Some [HandlerClose Disconnected; HandlerError (OutboundErr 7 Protocol.BlocksByRange Disconnected);
        HandlerError (OutboundErr 7 Protocol.BlocksByRange Disconnected)].
Proof. evaluate. Qed.

End HandlerExamples.
