(* ===== verification/Limits.v ===== *)
(** * Wire formats and length bounds ([rpc/protocol.rs], [rpc/methods.rs])

    What the network layer uses of the [ssz], [snap], [unsigned-varint] and [hex] crates, the protocols
    a node offers during negotiation, and the bounds every message length must satisfy before the
    message is read. *)

From S2P Require Import Prelude Chain Protocol Messages Text Events ForkContext.

(** ** The crates the codecs are built on

    Bytes are numbers below 256.  A reader or writer that fails returns the text of its error. *)

Definition blen (b : Bytes) : Z := Z.of_nat (length b).

Class SszWrite (A : Type) := to_ssz : A -> result Bytes (list Z).
Class SszRead (A : Type) := from_ssz_default : Bytes -> result A (list Z).
(** [SszSize::SIZE] of a type of fixed size. *)
Class SszSize (A : Type) := SIZE : Z.
Arguments SIZE A {_}.

(** The kinds of [std::io::Error] the decoder distinguishes. *)
Inductive ErrorKind := UnexpectedEof | OtherKind.
Record IoErr := mkIoErr { io_kind : ErrorKind; io_message : list Z }.

Inductive PresetName := Minimal | Mainnet | Medalla.

Class Wire `{ChainTypes} := {
  (** The preset. *)
  preset_name : PresetName;
  MaxExtraDataBytes : Z;
  NumberOfColumns : nat;

  (** [ssz], fixed-size and repository types. *)
  u64_write :: SszWrite Z;
  u64_read :: SszRead Z;
  u64_size :: SszSize Z;
  H256_write :: SszWrite H256;
  H256_read :: SszRead H256;
  H256_size :: SszSize H256;
  status_v1_write :: SszWrite StatusMessageV1;
  status_v1_read :: SszRead StatusMessageV1;
  status_v1_size :: SszSize StatusMessageV1;
  status_v2_write :: SszWrite StatusMessageV2;
  status_v2_read :: SszRead StatusMessageV2;
  status_v2_size :: SszSize StatusMessageV2;
  metadata_v1_write :: SszWrite MetaDataV1_;
  metadata_v1_read :: SszRead MetaDataV1_;
  metadata_v1_size :: SszSize MetaDataV1_;
  metadata_v2_write :: SszWrite MetaDataV2_;
  metadata_v2_read :: SszRead MetaDataV2_;
  metadata_v3_write :: SszWrite MetaDataV3_;
  metadata_v3_read :: SszRead MetaDataV3_;
  metadata_v3_size :: SszSize MetaDataV3_;
  range_v1_write :: SszWrite OldBlocksByRangeRequestV1;
  range_v1_read :: SszRead OldBlocksByRangeRequestV1;
  range_v2_write :: SszWrite OldBlocksByRangeRequestV2;
  range_v2_read :: SszRead OldBlocksByRangeRequestV2;
  range_v2_size :: SszSize OldBlocksByRangeRequestV2;
  blobs_range_write :: SszWrite BlobsByRangeRequest;
  blobs_range_read :: SszRead BlobsByRangeRequest;
  blobs_range_size :: SszSize BlobsByRangeRequest;
  columns_range_write :: SszWrite DataColumnsByRangeRequest;
  columns_range_read :: SszRead DataColumnsByRangeRequest;
  light_client_range_write :: SszWrite LightClientUpdatesByRangeRequest;
  light_client_range_read :: SszRead LightClientUpdatesByRangeRequest;
  BlobIdentifier_SIZE : Z;

  (** [ssz] lists with a maximal length given at run time, and error messages. *)
  roots_write :: SszWrite (list H256);
  roots_read : Z -> Bytes -> result (list H256) (list Z);
  blob_ids_write :: SszWrite (list (H256 * Z));
  blob_ids_read : Z -> Bytes -> result (list (H256 * Z)) (list Z);
  column_ids_write :: SszWrite (list (H256 * list Z));
  column_ids_read : Z -> Bytes -> result (list (H256 * list Z)) (list Z);
  error_message_write : list Z -> result Bytes (list Z);
  error_message_read : Bytes -> result (list Z) (list Z);

  (** Response payloads.  A combined type writes the container of its fork; the reader of a phase
      reads that phase's container and wraps it in the variant of the same name. *)
  block_write :: SszWrite SignedBeaconBlock;
  block_read : Phase -> Bytes -> result SignedBeaconBlock (list Z);
  blob_write :: SszWrite BlobSidecar;
  blob_read :: SszRead BlobSidecar;
  column_write :: SszWrite DataColumnSidecar;
  column_read : Phase -> Bytes -> result DataColumnSidecar (list Z);
  bootstrap_write :: SszWrite LightClientBootstrap;
  bootstrap_read : Phase -> Bytes -> result LightClientBootstrap (list Z);
  optimistic_write :: SszWrite LightClientOptimisticUpdate;
  optimistic_read : Phase -> Bytes -> result LightClientOptimisticUpdate (list Z);
  finality_write :: SszWrite LightClientFinalityUpdate;
  finality_read : Phase -> Bytes -> result LightClientFinalityUpdate (list Z);
  update_write :: SszWrite LightClientUpdate;
  update_read : Phase -> Bytes -> result LightClientUpdate (list Z);

  (** Slots of the payloads. *)
  block_slot : SignedBeaconBlock -> Slot;
  blob_slot : BlobSidecar -> Slot;
  column_slot : DataColumnSidecar -> Slot;
  bootstrap_slot : LightClientBootstrap -> Slot;
  optimistic_signature_slot : LightClientOptimisticUpdate -> Slot;
  finality_signature_slot : LightClientFinalityUpdate -> Slot;
  update_signature_slot : LightClientUpdate -> Slot;

  (** SSZ sizes of the mainnet light client containers of Altair. *)
  AltairLightClientUpdate_SIZE : Z;
  AltairLightClientFinalityUpdate_SIZE : Z;
  AltairLightClientOptimisticUpdate_SIZE : Z;
  AltairLightClientBootstrap_SIZE : Z;
  (** SSZ lengths of the default and the full mainnet data columns of Fulu and Gloas. *)
  DATA_COLUMN_FULU_MIN : Z;
  DATA_COLUMN_FULU_MAX : Z;
  DATA_COLUMN_GLOAS_MIN : Z;
  DATA_COLUMN_GLOAS_MAX : Z;

  (** [ForkDigest::as_bytes], [ForkDigest::from_slice] and [hex::encode]. *)
  digest_as_bytes : ForkDigest -> Bytes;
  digest_from_slice : Bytes -> ForkDigest;
  hex_encode : Bytes -> list Z;

  (** [Uvi<usize>]: [Ok None] asks for more bytes; [Ok (Some (n, rest))] has consumed the prefix. *)
  uvi_encode : Z -> Bytes;
  uvi_decode : Bytes -> result (option (Z * Bytes)) (list Z);

  (** [snap]: what a [FrameEncoder] over a [Vec] holds after [write_all] and [flush]; [read_exact] of
      the given number of bytes through a [FrameDecoder] over the given bytes, with the number of
      bytes it has taken from them; the worst-case length of compressed data. *)
  frame_encode : Bytes -> Bytes;
  frame_read_exact : Bytes -> Z -> result Bytes IoErr * Z;
  max_compress_len : Z -> Z;
}.

(** ** Length bounds *)

Definition SIGNED_BEACON_BLOCK_PHASE0_MIN : Z := 404.
Definition SIGNED_BEACON_BLOCK_PHASE0_MAX : Z := 157756.
Definition SIGNED_BEACON_BLOCK_ALTAIR_MAX : Z := 157916.
Definition SIGNED_BEACON_BLOCK_BELLATRIX_MAX : Z := 1125899911195388.

Definition BLOB_SIDECAR_MIN : Z := 131928.
Definition BLOB_SIDECAR_MAX : Z := 131928.
Definition BLOB_SIDECAR_MINIMAL_MIN : Z := 131704.
Definition BLOB_SIDECAR_MINIMAL_MAX : Z := 131704.

Definition ERROR_TYPE_MIN : Z := 0.
Definition ERROR_TYPE_MAX : Z := 256.

Record RpcLimits := mkRpcLimits { limits_min : Z; limits_max : Z }.

Definition RpcLimits_new (min max : Z) : RpcLimits := mkRpcLimits min max.

Definition is_out_of_bounds (l : RpcLimits) (length max_rpc_size : Z) : bool :=
  (Z.min (limits_max l) max_rpc_size <? length) || (length <? limits_min l).

Definition rpc_block_limits_by_fork (current_fork : Phase) : RpcLimits :=
  match current_fork with
  | Phase0 => RpcLimits_new SIGNED_BEACON_BLOCK_PHASE0_MIN SIGNED_BEACON_BLOCK_PHASE0_MAX
  | Altair => RpcLimits_new SIGNED_BEACON_BLOCK_PHASE0_MIN SIGNED_BEACON_BLOCK_ALTAIR_MAX
  | _ => RpcLimits_new SIGNED_BEACON_BLOCK_PHASE0_MIN SIGNED_BEACON_BLOCK_BELLATRIX_MAX
  end.

Section limits.
Context `{Wire}.

(** [usize] arithmetic as a release build computes it. *)
Definition rpc_light_client_updates_by_range_limits_by_fork (current_fork : Phase) : RpcLimits :=
  let altair_fixed_len := AltairLightClientUpdate_SIZE in
  match current_fork with
  | Phase0 => RpcLimits_new 0 0
  | Altair | Bellatrix => RpcLimits_new altair_fixed_len altair_fixed_len
  | Capella | Deneb | Electra | Fulu | Gloas =>
      RpcLimits_new altair_fixed_len (as_u64 (altair_fixed_len + MaxExtraDataBytes * 1))
  end.

Definition rpc_light_client_finality_update_limits_by_fork (current_fork : Phase) : RpcLimits :=
  let altair_fixed_len := AltairLightClientFinalityUpdate_SIZE in
  match current_fork with
  | Phase0 => RpcLimits_new 0 0
  | Altair | Bellatrix => RpcLimits_new altair_fixed_len altair_fixed_len
  | Capella | Deneb | Electra | Fulu | Gloas =>
      RpcLimits_new altair_fixed_len (as_u64 (altair_fixed_len + MaxExtraDataBytes * 1))
  end.

Definition rpc_light_client_optimistic_update_limits_by_fork (current_fork : Phase) : RpcLimits :=
  let altair_fixed_len := AltairLightClientOptimisticUpdate_SIZE in
  match current_fork with
  | Phase0 => RpcLimits_new 0 0
  | Altair | Bellatrix => RpcLimits_new altair_fixed_len altair_fixed_len
  | Capella | Deneb | Electra | Fulu | Gloas =>
      RpcLimits_new altair_fixed_len (as_u64 (altair_fixed_len + MaxExtraDataBytes * 1))
  end.

Definition rpc_light_client_bootstrap_limits_by_fork (current_fork : Phase) : RpcLimits :=
  let altair_fixed_len := AltairLightClientBootstrap_SIZE in
  match current_fork with
  | Phase0 => RpcLimits_new 0 0
  | Altair | Bellatrix => RpcLimits_new altair_fixed_len altair_fixed_len
  | Capella | Deneb | Electra | Fulu | Gloas =>
      RpcLimits_new altair_fixed_len (as_u64 (altair_fixed_len + MaxExtraDataBytes * 1))
  end.

Definition rpc_blob_limits : RpcLimits :=
  match preset_name with
  | Minimal => RpcLimits_new BLOB_SIDECAR_MINIMAL_MIN BLOB_SIDECAR_MINIMAL_MAX
  | Mainnet | Medalla => RpcLimits_new BLOB_SIDECAR_MIN BLOB_SIDECAR_MAX
  end.

Definition rpc_data_column_limits (phase : Phase) : RpcLimits :=
  if Phase_leb Gloas phase then RpcLimits_new DATA_COLUMN_GLOAS_MIN DATA_COLUMN_GLOAS_MAX
  else RpcLimits_new DATA_COLUMN_FULU_MIN DATA_COLUMN_FULU_MAX.

(** [SszSize], [SszRead] and [SszWrite] of [GoodbyeReason]. *)
#[export] Instance GoodbyeReason_size : SszSize GoodbyeReason := SIZE Z.
#[export] Instance GoodbyeReason_read : SszRead GoodbyeReason := fun bytes =>
  let? id := from_ssz_default (A := Z) bytes in Ok (GoodbyeReason_from_u64 id).
#[export] Instance GoodbyeReason_write : SszWrite GoodbyeReason := fun r =>
  to_ssz (GoodbyeReason_into_u64 r).

(** [MetaData::to_ssz]. *)
Definition MetaData_to_ssz (m : MetaData) : result Bytes (list Z) :=
  match m with MDV1 md => to_ssz md | MDV2 md => to_ssz md | MDV3 md => to_ssz md end.

(** Lengths of requests with one column and with as many as the preset has. *)
Definition ssz_min_len : result Z (list Z) :=
  let? b := to_ssz (mkDCByRange 0 0 [0]) in Ok (blen b).

Definition ssz_max_len : result Z (list Z) :=
  let? b := to_ssz (mkDCByRange 0 0 (repeat 0 NumberOfColumns)) in Ok (blen b).

(** [None] is the panic of [expect]. *)
Definition rpc_request_limits (p : ProtocolId) (chain_config : ChainConfig) (phase : Phase)
  : option RpcLimits :=
  match SupportedProtocol_protocol (versioned_protocol p) with
  | Protocol.Status => Some (RpcLimits_new (SIZE StatusMessageV1) (SIZE StatusMessageV2))
  | Protocol.Goodbye => Some (RpcLimits_new (SIZE GoodbyeReason) (SIZE GoodbyeReason))
  | Protocol.BlocksByRange =>
      Some (RpcLimits_new (SIZE OldBlocksByRangeRequestV2) (SIZE OldBlocksByRangeRequestV2))
  | Protocol.BlocksByRoot =>
      Some (RpcLimits_new 0 (as_u64 (config_max_request_blocks chain_config Phase0 * SIZE H256)))
  | Protocol.BlobsByRange =>
      Some (RpcLimits_new (SIZE BlobsByRangeRequest) (SIZE BlobsByRangeRequest))
  | Protocol.BlobsByRoot =>
      Some (RpcLimits_new 0
        (as_u64 (config_max_request_blob_sidecars chain_config phase * BlobIdentifier_SIZE)))
  | Protocol.DataColumnsByRoot =>
      Some (RpcLimits_new 0 (config_max_data_columns_by_root_request chain_config))
  | Protocol.DataColumnsByRange =>
      let min := match ssz_min_len with Ok n => n | Err _ => 0 end in
      match ssz_max_len with
      | Ok max => Some (RpcLimits_new min max)
      | Err _ => None
      end
  | Protocol.Ping => Some (RpcLimits_new (SIZE Z) (SIZE Z))
  | Protocol.LightClientBootstrap => Some (RpcLimits_new (SIZE H256) (SIZE H256))
  | Protocol.LightClientOptimisticUpdate => Some (RpcLimits_new 0 0)
  | Protocol.LightClientFinalityUpdate => Some (RpcLimits_new 0 0)
  | Protocol.LightClientUpdatesByRange => Some (RpcLimits_new 0 0)
  | Protocol.MetaData => Some (RpcLimits_new 0 0)
  end.

Definition rpc_response_limits (p : ProtocolId) (fork_context : ForkContext) : RpcLimits :=
  match SupportedProtocol_protocol (versioned_protocol p) with
  | Protocol.Status => RpcLimits_new (SIZE StatusMessageV1) (SIZE StatusMessageV2)
  | Protocol.Goodbye => RpcLimits_new 0 0
  | Protocol.BlocksByRange => rpc_block_limits_by_fork (current_fork_name fork_context)
  | Protocol.BlocksByRoot => rpc_block_limits_by_fork (current_fork_name fork_context)
  | Protocol.BlobsByRange => rpc_blob_limits
  | Protocol.BlobsByRoot => rpc_blob_limits
  | Protocol.DataColumnsByRoot => rpc_data_column_limits (current_fork_name fork_context)
  | Protocol.DataColumnsByRange => rpc_data_column_limits (current_fork_name fork_context)
  | Protocol.Ping => RpcLimits_new (SIZE Z) (SIZE Z)
  | Protocol.MetaData => RpcLimits_new (SIZE MetaDataV1_) (SIZE MetaDataV3_)
  | Protocol.LightClientBootstrap =>
      rpc_light_client_bootstrap_limits_by_fork (current_fork_name fork_context)
  | Protocol.LightClientOptimisticUpdate =>
      rpc_light_client_optimistic_update_limits_by_fork (current_fork_name fork_context)
  | Protocol.LightClientFinalityUpdate =>
      rpc_light_client_finality_update_limits_by_fork (current_fork_name fork_context)
  | Protocol.LightClientUpdatesByRange =>
      rpc_light_client_updates_by_range_limits_by_fork (current_fork_name fork_context)
  end.

End limits.

(** ** The protocols a node offers *)

Section supported.
Context `{Wire}.

Definition currently_supported (fork_context : ForkContext) : list ProtocolId :=
  let id v := ProtocolId_new v SSZSnappy in
  let supported := map id [StatusV2; StatusV1; GoodbyeV1; BlocksByRangeV2; BlocksByRangeV1;
                           BlocksByRootV2; BlocksByRootV1; PingV1] in
  let supported := supported ++
    (if config_is_peerdas_scheduled (chain_config fork_context)
     then map id [MetaDataV3; MetaDataV2; MetaDataV1]
     else map id [MetaDataV2; MetaDataV1]) in
  let supported := supported ++
    (if fork_exists fork_context Deneb then map id [BlobsByRootV1; BlobsByRangeV1] else []) in
  supported ++
    (if config_is_peerdas_scheduled (chain_config fork_context)
     then map id [DataColumnsByRootV1; DataColumnsByRangeV1] else []).

Record RPCProtocol := mkRPCProtocol {
  rp_chain_config : ChainConfig;
  rp_fork_context : ForkContext;
  rp_max_rpc_size : Z;
  rp_enable_light_client_server : bool;
}.

Definition protocol_info (self : RPCProtocol) : list ProtocolId :=
  let supported_protocols := currently_supported (rp_fork_context self) in
  if rp_enable_light_client_server self then
    supported_protocols ++
      [ProtocolId_new LightClientBootstrapV1 SSZSnappy;
       ProtocolId_new LightClientOptimisticUpdateV1 SSZSnappy;
       ProtocolId_new LightClientFinalityUpdateV1 SSZSnappy]
  else supported_protocols.

End supported.

(** ** Lemmas and theorems *)

(** The version number a protocol identifier carries. *)
Definition version_number (s : SupportedProtocol) : nat :=
  match s with
  | MetaDataV3 => 3
  | StatusV2 | BlocksByRangeV2 | BlocksByRootV2 | MetaDataV2 => 2
  | _ => 1
  end.

(** What negotiation relies on: the offers are told apart by their identifiers, none is for the
    protocol the code does not implement, and newer versions of a protocol come before older ones. *)
Definition preferred_before (a b : ProtocolId) : Prop :=
  protocol_id a <> protocol_id b /\
  (SupportedProtocol_protocol (versioned_protocol a) = SupportedProtocol_protocol (versioned_protocol b) ->
   (version_number (versioned_protocol b) < version_number (versioned_protocol a))%nat).

#[export] Instance preferred_before_dec a b : Decision (preferred_before a b).
Proof. unfold preferred_before. apply _. Defined.

Section limits_theorems.
Context `{Wire}.

(** C31: the list of protocols a node offers, for every configuration: all identifiers are different,
    each is the identifier its version prints to, none is for [LightClientUpdatesByRange] (whose
    stream terminator is not implemented), and of two versions of a protocol the newer is listed
    first, so negotiation prefers it. *)
Theorem protocol_info_ordered (self : RPCProtocol) :
  StronglySorted preferred_before (protocol_info self) /\
  Forall (fun p => offered (SupportedProtocol_protocol (versioned_protocol p)) /\
                   p = ProtocolId_new (versioned_protocol p) SSZSnappy) (protocol_info self).
Proof.
  unfold protocol_info, currently_supported.
  destruct (config_is_peerdas_scheduled _), (fork_exists _ _), (rp_enable_light_client_server self);
    (split; [refine (StronglySorted_decide preferred_before _ _); evaluate | repeat constructor; done]).
Qed.

(** The bounds on the length of block responses only widen from one phase to the next, as their
    comment asks, so a block that was acceptable under an earlier phase stays acceptable. *)
Theorem block_limits_widen p q length max_size :
  Phase_leb p q = true ->
  is_out_of_bounds (rpc_block_limits_by_fork p) length max_size = false ->
  is_out_of_bounds (rpc_block_limits_by_fork q) length max_size = false.
Proof.
  unfold is_out_of_bounds. destruct p, q; simpl; try done; intros _ ?; bool_to_Prop;
    apply orb_false_iff; rewrite Z.ltb_ge, Z.ltb_ge;
    unfold SIGNED_BEACON_BLOCK_PHASE0_MAX, SIGNED_BEACON_BLOCK_ALTAIR_MAX,
      SIGNED_BEACON_BLOCK_BELLATRIX_MAX in *; lia.
Qed.

End limits_theorems.

Module LimitsExamples.

(** An Altair block of 157,800 bytes is still accepted under Deneb. *)
Lemma block_limits_widen_witness :
  is_out_of_bounds (rpc_block_limits_by_fork Altair) 157800 10485760 = false /\
  is_out_of_bounds (rpc_block_limits_by_fork Deneb) 157800 10485760 = false.
Proof.
  split; [reflexivity|]. exact (block_limits_widen Altair Deneb 157800 10485760 eq_refl eq_refl).
Defined.

End LimitsExamples.
