(* ===== verification/Codec.v ===== *)
(** * The SSZ-snappy codecs of the RPC ([rpc/codec.rs])

    The inbound codec reads requests and writes responses, the outbound codec writes requests and reads
    responses.  A decoder is called with the bytes received so far; it takes from the front of the
    buffer what it has understood and keeps the rest of its progress in the codec.  [None] stands for a
    panic of the code. *)

From S2P Require Import Prelude Chain Protocol Messages Text Events ForkContext Limits.

Definition CONTEXT_BYTES_LEN : nat := 4.

(** The [Debug] form of a protocol version. *)
Definition SupportedProtocol_debug (v : SupportedProtocol) : string :=
  match v with
  | StatusV1 => "StatusV1" | StatusV2 => "StatusV2" | GoodbyeV1 => "GoodbyeV1"
  | BlocksByRangeV1 => "BlocksByRangeV1" | BlocksByRangeV2 => "BlocksByRangeV2"
  | BlocksByRootV1 => "BlocksByRootV1" | BlocksByRootV2 => "BlocksByRootV2"
  | BlobsByRangeV1 => "BlobsByRangeV1" | BlobsByRootV1 => "BlobsByRootV1"
  | DataColumnsByRootV1 => "DataColumnsByRootV1" | DataColumnsByRangeV1 => "DataColumnsByRangeV1"
  | PingV1 => "PingV1" | MetaDataV1 => "MetaDataV1" | MetaDataV2 => "MetaDataV2"
  | MetaDataV3 => "MetaDataV3" | LightClientBootstrapV1 => "LightClientBootstrapV1"
  | LightClientOptimisticUpdateV1 => "LightClientOptimisticUpdateV1"
  | LightClientFinalityUpdateV1 => "LightClientFinalityUpdateV1"
  | LightClientUpdatesByRangeV1 => "LightClientUpdatesByRangeV1"
  end%string.

Definition str (s : string) : list Z := bytes (lit s).

Section codec.
Context `{Wire}.

(** The [?] operator on the errors of the [ssz] crate. *)
Definition ssz_read {A} (r : result A (list Z)) : result A RPCError := map_err SszReadError r.
Definition ssz_write {A} (r : result A (list Z)) : result A RPCError := map_err SszWriteError r.

(** [RpcSuccessResponse::slot]. *)
Definition success_slot (r : RpcSuccessResponse) : option Slot :=
  match r with
  | RespBlocksByRange block | RespBlocksByRoot block => Some (block_slot block)
  | RespBlobsByRange blob | RespBlobsByRoot blob => Some (blob_slot blob)
  | RespDataColumnsByRange column | RespDataColumnsByRoot column => Some (column_slot column)
  | RespLightClientBootstrap b => Some (bootstrap_slot b)
  | RespLightClientOptimisticUpdate update => Some (optimistic_signature_slot update)
  | RespLightClientFinalityUpdate update => Some (finality_signature_slot update)
  | RespLightClientUpdatesByRange update => Some (update_signature_slot update)
  | RespMetaData _ | RespStatus _ | RespPong _ => None
  end.

(** ** Shared functions *)

Definition handle_error {T} (err : IoErr) (num_bytes max_compressed_len : Z)
  : result (option T) RPCError :=
  match io_kind err with
  | UnexpectedEof =>
      if max_compressed_len <=? num_bytes then
        Err (InvalidData (str "Received malicious snappy message, num_bytes " ++
                          bytes (print_u64 num_bytes) ++ str ", max_compressed_len " ++
                          bytes (print_u64 max_compressed_len)))
      else Ok None
  | OtherKind => Err (IoError (io_message err))
  end.

(** [None] is the panic of [ForkContext::context_bytes]. *)
Definition response_context_bytes (protocol : ProtocolId) (fork_context : ForkContext)
  (resp : RpcResponse) : option (option ForkDigest) :=
  if has_context_bytes protocol then
    match resp with
    | RpcSuccess rpc_variant =>
        match success_slot rpc_variant with
        | Some slot =>
            let epoch := compute_epoch_at_slot slot in
            let* digest := context_bytes fork_context epoch in Some (Some digest)
        | None => Some None
        end
    | _ => Some None
    end
  else Some None.

(** The result, the new value of the stored length and the bytes left. *)
Definition handle_length (len : option Z) (src : Bytes) : result (option Z) RPCError * option Z * Bytes :=
  match len with
  | Some length => (Ok (Some length), len, src)
  | None =>
      match uvi_decode src with
      | Err e => (Err (IoError e), len, src)
      | Ok (Some (length, rest)) => (Ok (Some length), Some length, rest)
      | Ok None => (Ok None, len, src)
      end
  end.

(** The reading of a payload of known length, common to the three decoders: through a snappy decoder
    over at most [max_compressed_len] bytes.  [inl] is the payload and the bytes left, [inr] the
    result of [handle_error]. *)
Definition read_payload {T} (length : Z) (src : Bytes) : (Bytes * Bytes) + result (option T) RPCError :=
  let max_compressed_len := max_compress_len length in
  let limit_reader := take (Z.to_nat max_compressed_len) src in
  match frame_read_exact limit_reader length with
  | (Ok decoded_buffer, n) => inl (decoded_buffer, drop (Z.to_nat n) src)
  | (Err e, position) => inr (handle_error e position max_compressed_len)
  end.

Definition context_bytes_to_phase (context_bytes : ForkDigest) (fork_context : ForkContext)
  : result Phase RPCError :=
  ok_or (get_fork_from_context_bytes fork_context context_bytes)
    (ErrorResponse InvalidRequest
      (str "Context bytes " ++ hex_encode (digest_as_bytes context_bytes) ++
       str " do not correspond to a valid fork")).

Definition handle_rpc_request (config : ChainConfig) (v : SupportedProtocol) (decoded_buffer : Bytes)
  (current_phase : Phase) : result (option RequestType) RPCError :=
  match v with
  | StatusV1 =>
      let? m := ssz_read (from_ssz_default decoded_buffer) in Ok (Some (ReqStatus (StatusMsgV1 m)))
  | StatusV2 =>
      let? m := ssz_read (from_ssz_default decoded_buffer) in Ok (Some (ReqStatus (StatusMsgV2 m)))
  | GoodbyeV1 =>
      let? r := ssz_read (from_ssz_default decoded_buffer) in Ok (Some (ReqGoodbye r))
  | BlocksByRangeV2 =>
      let? r := ssz_read (from_ssz_default decoded_buffer) in Ok (Some (ReqBlocksByRange (OldBBR_V2 r)))
  | BlocksByRangeV1 =>
      let? r := ssz_read (from_ssz_default decoded_buffer) in Ok (Some (ReqBlocksByRange (OldBBR_V1 r)))
  | BlocksByRootV2 =>
      let? l := ssz_read (roots_read (config_max_request_blocks config current_phase) decoded_buffer) in
      Ok (Some (ReqBlocksByRoot (BBRoot_V2 l)))
  | BlocksByRootV1 =>
      let? l := ssz_read (roots_read (config_max_request_blocks config current_phase) decoded_buffer) in
      Ok (Some (ReqBlocksByRoot (BBRoot_V1 l)))
  | BlobsByRangeV1 =>
      let? r := ssz_read (from_ssz_default decoded_buffer) in Ok (Some (ReqBlobsByRange r))
  | BlobsByRootV1 =>
      let? l := ssz_read (blob_ids_read (config_max_request_blob_sidecars config current_phase)
                           decoded_buffer) in
      Ok (Some (ReqBlobsByRoot (mkBlobsByRoot l)))
  | DataColumnsByRangeV1 =>
      let? r := ssz_read (from_ssz_default decoded_buffer) in Ok (Some (ReqDataColumnsByRange r))
  | DataColumnsByRootV1 =>
      let? l := ssz_read (column_ids_read (config_max_request_blocks config current_phase)
                           decoded_buffer) in
      Ok (Some (ReqDataColumnsByRoot (mkDCByRoot l)))
  | PingV1 =>
      let? d := ssz_read (from_ssz_default decoded_buffer) in Ok (Some (ReqPing d))
  | LightClientBootstrapV1 =>
      let? r := ssz_read (from_ssz_default decoded_buffer) in Ok (Some (ReqLightClientBootstrap r))
  | LightClientOptimisticUpdateV1 => Ok (Some ReqLightClientOptimisticUpdate)
  | LightClientFinalityUpdateV1 => Ok (Some ReqLightClientFinalityUpdate)
  | LightClientUpdatesByRangeV1 =>
      let? r := ssz_read (from_ssz_default decoded_buffer) in Ok (Some (ReqLightClientUpdatesByRange r))
  | MetaDataV3 =>
      match decoded_buffer with
      | _ :: _ => Err (InternalError (str "Metadata requests shouldn't reach decoder"))
      | [] => Ok (Some (ReqMetaData MetadataRequest_V3))
      end
  | MetaDataV2 =>
      match decoded_buffer with
      | _ :: _ => Err (InternalError (str "Metadata requests shouldn't reach decoder"))
      | [] => Ok (Some (ReqMetaData MetadataRequest_V2))
      end
  | MetaDataV1 =>
      match decoded_buffer with
      | _ :: _ => Err (InvalidData (str "Metadata request"))
      | [] => Ok (Some (ReqMetaData MetadataRequest_V1))
      end
  end.

Definition invalid_fork {T} (message : string) : result (option T) RPCError :=
  Err (ErrorResponse InvalidRequest (str message)).

Definition no_context_bytes {T} (v : SupportedProtocol) : result (option T) RPCError :=
  Err (ErrorResponse InvalidRequest
    (str "No context bytes provided for " ++ str (SupportedProtocol_debug v) ++ str " response")).

(** The arms of [handle_rpc_response] that depend on the context bytes. *)
Definition blobs_by_range_response (decoded_buffer : Bytes) (fork_name : option Phase)
  : result (option RpcSuccessResponse) RPCError :=
  match fork_name with
  | Some (Deneb | Electra | Fulu | Gloas) =>
      let? b := ssz_read (from_ssz_default decoded_buffer) in Ok (Some (RespBlobsByRange b))
  | Some (Phase0 | Altair | Bellatrix | Capella) =>
      invalid_fork "Invalid fork name for blobs by range"
  | None => no_context_bytes BlobsByRangeV1
  end.

Definition blobs_by_root_response (decoded_buffer : Bytes) (fork_name : option Phase)
  : result (option RpcSuccessResponse) RPCError :=
  match fork_name with
  | Some (Deneb | Electra | Fulu | Gloas) =>
      let? b := ssz_read (from_ssz_default decoded_buffer) in Ok (Some (RespBlobsByRoot b))
  | Some (Phase0 | Altair | Bellatrix | Capella) =>
      invalid_fork "Invalid fork name for blobs by root"
  | None => no_context_bytes BlobsByRootV1
  end.

Definition data_columns_by_root_response (decoded_buffer : Bytes) (fork_name : option Phase)
  : result (option RpcSuccessResponse) RPCError :=
  match fork_name with
  | Some Gloas =>
      let? c := ssz_read (column_read Gloas decoded_buffer) in Ok (Some (RespDataColumnsByRoot c))
  | Some Fulu =>
      let? c := ssz_read (column_read Fulu decoded_buffer) in Ok (Some (RespDataColumnsByRoot c))
  | Some (Phase0 | Altair | Bellatrix | Capella | Deneb | Electra) =>
      invalid_fork "Invalid fork name for data columns by root"
  | None => no_context_bytes DataColumnsByRootV1
  end.

Definition data_columns_by_range_response (decoded_buffer : Bytes) (fork_name : option Phase)
  : result (option RpcSuccessResponse) RPCError :=
  match fork_name with
  | Some Gloas =>
      let? c := ssz_read (column_read Gloas decoded_buffer) in Ok (Some (RespDataColumnsByRange c))
  | Some Fulu =>
      let? c := ssz_read (column_read Fulu decoded_buffer) in Ok (Some (RespDataColumnsByRange c))
  | Some (Phase0 | Altair | Bellatrix | Capella | Deneb | Electra) =>
      invalid_fork "Invalid fork name for data columns by range"
  | None => no_context_bytes DataColumnsByRangeV1
  end.

Definition light_client_bootstrap_response (decoded_buffer : Bytes) (fork_name : option Phase)
  : result (option RpcSuccessResponse) RPCError :=
  match fork_name with
  | Some Phase0 =>
      invalid_fork "light_client_bootstrap topic invalid for given fork Some(Phase0)"
  | Some (Altair | Bellatrix) =>
      let? b := ssz_read (bootstrap_read Altair decoded_buffer) in
      Ok (Some (RespLightClientBootstrap b))
  | Some phase =>
      let? b := ssz_read (bootstrap_read phase decoded_buffer) in
      Ok (Some (RespLightClientBootstrap b))
  | None => no_context_bytes LightClientBootstrapV1
  end.

Definition light_client_optimistic_update_response (decoded_buffer : Bytes) (fork_name : option Phase)
  : result (option RpcSuccessResponse) RPCError :=
  match fork_name with
  | Some Phase0 =>
      invalid_fork "light_client_optimistic_update topic invalid for given fork Some(Phase0)"
  | Some (Altair | Bellatrix) =>
      let? u := ssz_read (optimistic_read Altair decoded_buffer) in
      Ok (Some (RespLightClientOptimisticUpdate u))
  | Some phase =>
      let? u := ssz_read (optimistic_read phase decoded_buffer) in
      Ok (Some (RespLightClientOptimisticUpdate u))
  | None => no_context_bytes LightClientOptimisticUpdateV1
  end.

Definition light_client_finality_update_response (decoded_buffer : Bytes) (fork_name : option Phase)
  : result (option RpcSuccessResponse) RPCError :=
  match fork_name with
  | Some Phase0 =>
      invalid_fork "light_client_finality_update topic invalid for given fork Some(Phase0)"
  | Some (Altair | Bellatrix) =>
      let? u := ssz_read (finality_read Altair decoded_buffer) in
      Ok (Some (RespLightClientFinalityUpdate u))
  | Some phase =>
      let? u := ssz_read (finality_read phase decoded_buffer) in
      Ok (Some (RespLightClientFinalityUpdate u))
  | None => no_context_bytes LightClientFinalityUpdateV1
  end.

Definition light_client_updates_by_range_response (decoded_buffer : Bytes) (fork_name : option Phase)
  : result (option RpcSuccessResponse) RPCError :=
  match fork_name with
  | Some Phase0 =>
      invalid_fork "light_client_updates topic invalid for given fork Some(Phase0)"
  | Some (Altair | Bellatrix) =>
      let? u := ssz_read (update_read Altair decoded_buffer) in
      Ok (Some (RespLightClientUpdatesByRange u))
  | Some phase =>
      let? u := ssz_read (update_read phase decoded_buffer) in
      Ok (Some (RespLightClientUpdatesByRange u))
  | None => no_context_bytes LightClientUpdatesByRangeV1
  end.

Definition blocks_by_range_v2_response (decoded_buffer : Bytes) (fork_name : option Phase)
  : result (option RpcSuccessResponse) RPCError :=
  match fork_name with
  | Some phase =>
      let? b := ssz_read (block_read phase decoded_buffer) in Ok (Some (RespBlocksByRange b))
  | None => no_context_bytes BlocksByRangeV2
  end.

Definition blocks_by_root_v2_response (decoded_buffer : Bytes) (fork_name : option Phase)
  : result (option RpcSuccessResponse) RPCError :=
  match fork_name with
  | Some phase =>
      let? b := ssz_read (block_read phase decoded_buffer) in Ok (Some (RespBlocksByRoot b))
  | None => no_context_bytes BlocksByRootV2
  end.

Definition handle_rpc_response (v : SupportedProtocol) (decoded_buffer : Bytes)
  (fork_name : option Phase) : result (option RpcSuccessResponse) RPCError :=
  match v with
  | StatusV1 =>
      let? m := ssz_read (from_ssz_default decoded_buffer) in Ok (Some (RespStatus (StatusMsgV1 m)))
  | StatusV2 =>
      let? m := ssz_read (from_ssz_default decoded_buffer) in Ok (Some (RespStatus (StatusMsgV2 m)))
  | GoodbyeV1 => Err (InvalidData (str "Goodbye RPC message has no valid response"))
  | BlocksByRangeV1 =>
      let? b := ssz_read (block_read Phase0 decoded_buffer) in Ok (Some (RespBlocksByRange b))
  | BlocksByRootV1 =>
      let? b := ssz_read (block_read Phase0 decoded_buffer) in Ok (Some (RespBlocksByRoot b))
  | BlobsByRangeV1 => blobs_by_range_response decoded_buffer fork_name
  | BlobsByRootV1 => blobs_by_root_response decoded_buffer fork_name
  | DataColumnsByRootV1 => data_columns_by_root_response decoded_buffer fork_name
  | DataColumnsByRangeV1 => data_columns_by_range_response decoded_buffer fork_name
  | PingV1 =>
      let? d := ssz_read (from_ssz_default decoded_buffer) in Ok (Some (RespPong d))
  | MetaDataV1 =>
      let? m := ssz_read (from_ssz_default decoded_buffer) in Ok (Some (RespMetaData (MDV1 m)))
  | LightClientBootstrapV1 => light_client_bootstrap_response decoded_buffer fork_name
  | LightClientOptimisticUpdateV1 => light_client_optimistic_update_response decoded_buffer fork_name
  | LightClientFinalityUpdateV1 => light_client_finality_update_response decoded_buffer fork_name
  | LightClientUpdatesByRangeV1 => light_client_updates_by_range_response decoded_buffer fork_name
  | MetaDataV3 =>
      let? m := ssz_read (from_ssz_default decoded_buffer) in Ok (Some (RespMetaData (MDV3 m)))
  | MetaDataV2 =>
      let? m := ssz_read (from_ssz_default decoded_buffer) in Ok (Some (RespMetaData (MDV2 m)))
  | BlocksByRangeV2 => blocks_by_range_v2_response decoded_buffer fork_name
  | BlocksByRootV2 => blocks_by_root_v2_response decoded_buffer fork_name
  end.

(** ** The inbound codec *)

Record InboundCodec := mkInboundCodec {
  ic_chain_config : ChainConfig;
  ic_protocol : ProtocolId;
  ic_len : option Z;
  ic_max_packet_size : Z;
  ic_fork_context : ForkContext;
}.

Definition InboundCodec_new (chain_config : ChainConfig) (protocol : ProtocolId)
  (max_packet_size : Z) (fork_context : ForkContext) : InboundCodec :=
  mkInboundCodec chain_config protocol None max_packet_size fork_context.

Definition set_ic_len (c : InboundCodec) (len : option Z) : InboundCodec :=
  mkInboundCodec (ic_chain_config c) (ic_protocol c) len (ic_max_packet_size c) (ic_fork_context c).

(** The bytes of a response; [None] is the panic of [unreachable!]. *)
Definition response_bytes (self : InboundCodec) (item : RpcResponse) : option (result Bytes RPCError) :=
  match item with
  | RpcSuccess resp =>
      match resp with
      | RespStatus res =>
          match versioned_protocol (ic_protocol self) with
          | StatusV1 => Some (ssz_write (to_ssz (status_v1 res)))
          | StatusV2 => Some (ssz_write (to_ssz (status_v2 res)))
          | _ => None
          end
      | RespBlocksByRange res => Some (ssz_write (to_ssz res))
      | RespBlocksByRoot res => Some (ssz_write (to_ssz res))
      | RespBlobsByRange res => Some (ssz_write (to_ssz res))
      | RespBlobsByRoot res => Some (ssz_write (to_ssz res))
      | RespDataColumnsByRoot res => Some (ssz_write (to_ssz res))
      | RespDataColumnsByRange res => Some (ssz_write (to_ssz res))
      | RespLightClientBootstrap res => Some (ssz_write (to_ssz res))
      | RespLightClientOptimisticUpdate res => Some (ssz_write (to_ssz res))
      | RespLightClientFinalityUpdate res => Some (ssz_write (to_ssz res))
      | RespLightClientUpdatesByRange res => Some (ssz_write (to_ssz res))
      | RespPong data => Some (ssz_write (to_ssz data))
      | RespMetaData res =>
          match versioned_protocol (ic_protocol self) with
          | MetaDataV1 => Some (ssz_write (MetaData_to_ssz (metadata_v1 res)))
          | MetaDataV2 => Some (ssz_write (MetaData_to_ssz (metadata_v2 res)))
          | MetaDataV3 => Some (ssz_write (MetaData_to_ssz
                            (metadata_v3 (chain_config (ic_fork_context self)) res)))
          | _ => None
          end
      end
  | RpcError _ err => Some (ssz_write (error_message_write err))
  | RpcStreamTermination _ => None
  end.

(** The result and the destination buffer. *)
Definition encode_response (self : InboundCodec) (item : RpcResponse) (dst : Bytes)
  : option (result unit RPCError * Bytes) :=
  let* bytes := response_bytes self item in
  match bytes with
  | Err e => Some (Err e, dst)
  | Ok bytes =>
      if ic_max_packet_size self <? blen bytes then
        Some (Err (InternalError (str "attempting to encode data > max_packet_size")), dst)
      else
        let* context := response_context_bytes (ic_protocol self) (ic_fork_context self) item in
        let dst := match context with
                   | Some digest => dst ++ digest_as_bytes digest
                   | None => dst
                   end in
        let dst := dst ++ uvi_encode (blen bytes) in
        let dst := dst ++ frame_encode bytes in
        Some (Ok tt, dst)
  end.

Definition Inbound_encode (self : InboundCodec) (item : RpcResponse) (_dst : Bytes)
  : option (result unit RPCError * Bytes) :=
  let* code := RpcResponse_as_u8 item in
  encode_response self item [code].

(** The result, the codec and the bytes left in the buffer. *)
Definition Inbound_decode (self : InboundCodec) (src : Bytes)
  : option (result (option RequestType) RPCError * InboundCodec * Bytes) :=
  match versioned_protocol (ic_protocol self) with
  | MetaDataV1 => Some (Ok (Some (ReqMetaData MetadataRequest_V1)), self, src)
  | MetaDataV2 => Some (Ok (Some (ReqMetaData MetadataRequest_V2)), self, src)
  | MetaDataV3 => Some (Ok (Some (ReqMetaData MetadataRequest_V3)), self, src)
  | v =>
      let '(length, len, src) := handle_length (ic_len self) src in
      let self := set_ic_len self len in
      match length with
      | Err e => Some (Err e, self, src)
      | Ok None => Some (Ok None, self, src)
      | Ok (Some length) =>
          let* ssz_limits := rpc_request_limits (ic_protocol self) (ic_chain_config self)
                               (current_fork_name (ic_fork_context self)) in
          if is_out_of_bounds ssz_limits length (ic_max_packet_size self) then
            Some (Err (InvalidData
                    (str "RPC request length for protocol " ++ str (SupportedProtocol_debug v) ++
                     str " is out of bounds, length " ++ bytes (print_u64 length))), self, src)
          else
            match read_payload length src with
            | inl (decoded_buffer, src) =>
                Some (handle_rpc_request (ic_chain_config self) v decoded_buffer
                        (current_fork_name (ic_fork_context self)), set_ic_len self None, src)
            | inr r => Some (r, self, src)
            end
      end
  end.

(** ** The outbound codec *)

Record OutboundCodec := mkOutboundCodec {
  oc_len : option Z;
  oc_protocol : ProtocolId;
  oc_max_packet_size : Z;
  oc_phase : option Phase;
  oc_fork_context : ForkContext;
  oc_current_response_code : option Z;
}.

Definition OutboundCodec_new (protocol : ProtocolId) (max_packet_size : Z) (fork_context : ForkContext)
  : OutboundCodec :=
  mkOutboundCodec None protocol max_packet_size None fork_context None.

Definition set_oc_len (c : OutboundCodec) (len : option Z) : OutboundCodec :=
  mkOutboundCodec len (oc_protocol c) (oc_max_packet_size c) (oc_phase c) (oc_fork_context c)
    (oc_current_response_code c).
Definition set_oc_phase (c : OutboundCodec) (phase : option Phase) : OutboundCodec :=
  mkOutboundCodec (oc_len c) (oc_protocol c) (oc_max_packet_size c) phase (oc_fork_context c)
    (oc_current_response_code c).
Definition set_oc_code (c : OutboundCodec) (code : option Z) : OutboundCodec :=
  mkOutboundCodec (oc_len c) (oc_protocol c) (oc_max_packet_size c) (oc_phase c) (oc_fork_context c)
    code.

(** The reading of the context bytes: [Ok true] when the length may be read next. *)
Definition read_context (self : OutboundCodec) (src : Bytes)
  : result bool RPCError * OutboundCodec * Bytes :=
  match has_context_bytes (oc_protocol self), oc_phase self with
  | true, None =>
      if (CONTEXT_BYTES_LEN <=? length src)%nat then
        let digest := digest_from_slice (take CONTEXT_BYTES_LEN src) in
        let src := drop CONTEXT_BYTES_LEN src in
        match context_bytes_to_phase digest (oc_fork_context self) with
        | Ok phase => (Ok true, set_oc_phase self (Some phase), src)
        | Err e => (Err e, self, src)
        end
      else (Ok false, self, src)
  | _, _ => (Ok true, self, src)
  end.

Definition decode_response (self : OutboundCodec) (src : Bytes)
  : result (option RpcSuccessResponse) RPCError * OutboundCodec * Bytes :=
  let '(context, self, src) := read_context self src in
  match context with
  | Err e => (Err e, self, src)
  | Ok false => (Ok None, self, src)
  | Ok true =>
      let '(length, len, src) := handle_length (oc_len self) src in
      let self := set_oc_len self len in
      match length with
      | Err e => (Err e, self, src)
      | Ok None => (Ok None, self, src)
      | Ok (Some length) =>
          let ssz_limits := rpc_response_limits (oc_protocol self) (oc_fork_context self) in
          if is_out_of_bounds ssz_limits length (oc_max_packet_size self) then
            (Err (InvalidData
                    (str "RPC response length is out of bounds, length " ++ bytes (print_u64 length) ++
                     str ", max " ++ bytes (print_u64 (limits_max ssz_limits)) ++
                     str ", min " ++ bytes (print_u64 (limits_min ssz_limits)) ++
                     str ", max_packet_size: " ++ bytes (print_u64 (oc_max_packet_size self)))),
             self, src)
          else
            match read_payload length src with
            | inl (decoded_buffer, src) =>
                let phase := oc_phase self in
                (handle_rpc_response (versioned_protocol (oc_protocol self)) decoded_buffer phase,
                 set_oc_phase (set_oc_len self None) None, src)
            | inr r => (r, self, src)
            end
      end
  end.

Definition decode_error (self : OutboundCodec) (src : Bytes)
  : result (option (list Z)) RPCError * OutboundCodec * Bytes :=
  let '(length, len, src) := handle_length (oc_len self) src in
  let self := set_oc_len self len in
  match length with
  | Err e => (Err e, self, src)
  | Ok None => (Ok None, self, src)
  | Ok (Some length) =>
      if (oc_max_packet_size self <? length) || (ERROR_TYPE_MAX <? length)
         || (length <? ERROR_TYPE_MIN) then
        (Err (InvalidData (str "RPC Error length is out of bounds, length " ++
                           bytes (print_u64 length))), self, src)
      else
        match read_payload length src with
        | inl (decoded_buffer, src) =>
            (let? message := ssz_read (error_message_read decoded_buffer) in Ok (Some message),
             set_oc_len self None, src)
        | inr r => (r, self, src)
        end
  end.

(** The bytes of a request, [None] for the requests without a body. *)
Definition request_bytes (self : OutboundCodec) (item : RequestType)
  : option (option (result Bytes RPCError)) :=
  match item with
  | ReqStatus req =>
      match versioned_protocol (oc_protocol self) with
      | StatusV1 => Some (Some (ssz_write (to_ssz (status_v1 req))))
      | StatusV2 => Some (Some (ssz_write (to_ssz (status_v2 req))))
      | _ => None
      end
  | ReqGoodbye req => Some (Some (ssz_write (to_ssz req)))
  | ReqBlocksByRange (OldBBR_V1 req) => Some (Some (ssz_write (to_ssz req)))
  | ReqBlocksByRange (OldBBR_V2 req) => Some (Some (ssz_write (to_ssz req)))
  | ReqBlocksByRoot (BBRoot_V1 roots) => Some (Some (ssz_write (to_ssz roots)))
  | ReqBlocksByRoot (BBRoot_V2 roots) => Some (Some (ssz_write (to_ssz roots)))
  | ReqBlobsByRange req => Some (Some (ssz_write (to_ssz req)))
  | ReqBlobsByRoot req => Some (Some (ssz_write (to_ssz (blob_ids req))))
  | ReqDataColumnsByRange req => Some (Some (ssz_write (to_ssz req)))
  | ReqDataColumnsByRoot req => Some (Some (ssz_write (to_ssz (data_column_ids req))))
  | ReqPing data => Some (Some (ssz_write (to_ssz data)))
  | ReqLightClientBootstrap root => Some (Some (ssz_write (to_ssz root)))
  | ReqLightClientUpdatesByRange req => Some (Some (ssz_write (to_ssz req)))
  | ReqMetaData _ | ReqLightClientOptimisticUpdate | ReqLightClientFinalityUpdate => Some None
  end.

Definition Outbound_encode (self : OutboundCodec) (item : RequestType) (dst : Bytes)
  : option (result unit RPCError * Bytes) :=
  let* body := request_bytes self item in
  match body with
  | None => Some (Ok tt, dst)
  | Some (Err e) => Some (Err e, dst)
  | Some (Ok bytes) =>
      if oc_max_packet_size self <? blen bytes then
        Some (Err (InternalError (str "attempting to encode data > max_packet_size")), dst)
      else Some (Ok tt, dst ++ uvi_encode (blen bytes) ++ frame_encode bytes)
  end.

(** The response code of the chunk, taken from the front of the buffer when it is not yet known. *)
Definition take_response_code (self : OutboundCodec) (src : Bytes) : Z * OutboundCodec * Bytes :=
  match oc_current_response_code self with
  | Some code => (code, self, src)
  | None =>
      let resp_code := hd 0 src in
      (resp_code, set_oc_code self (Some resp_code), tail src)
  end.

Definition Outbound_decode (self : OutboundCodec) (src : Bytes)
  : result (option RpcResponse) RPCError * OutboundCodec * Bytes :=
  if (length src <=? 1)%nat then (Ok None, self, src)
  else
    let '(response_code, self, src) := take_response_code self src in
    let '(inner_result, self, src) :=
      if is_response response_code then
        let '(r, self, src) := decode_response self src in
        (let? o := r in Ok (RpcSuccess <$> o), self, src)
      else
        let '(r, self, src) := decode_error self src in
        (let? o := r in Ok (RpcError (from_error response_code) <$> o), self, src) in
    match inner_result with
    | Ok (Some _) => (inner_result, set_oc_code self None, src)
    | _ => (inner_result, self, src)
    end.

End codec.

(** ** What the codecs rely on

    The documented behaviour of the crates: readers invert writers, variable-length integers and
    snappy frames are recognised in front of any further bytes and wait on a strict prefix, and
    compressed data stays below the worst-case length for inputs up to 2 GiB. *)

Class SszRoundTrip (A : Type) `{SszWrite A, SszRead A} :=
  ssz_round_trip : forall (x : A) b, to_ssz x = Ok b -> from_ssz_default b = Ok x.

Class WireLaws `{Wire} := {
  u64_law :: SszRoundTrip Z;
  H256_law :: SszRoundTrip H256;
  status_v1_law :: SszRoundTrip StatusMessageV1;
  status_v2_law :: SszRoundTrip StatusMessageV2;
  metadata_v1_law :: SszRoundTrip MetaDataV1_;
  metadata_v2_law :: SszRoundTrip MetaDataV2_;
  metadata_v3_law :: SszRoundTrip MetaDataV3_;
  range_v1_law :: SszRoundTrip OldBlocksByRangeRequestV1;
  range_v2_law :: SszRoundTrip OldBlocksByRangeRequestV2;
  blobs_range_law :: SszRoundTrip BlobsByRangeRequest;
  columns_range_law :: SszRoundTrip DataColumnsByRangeRequest;
  light_client_range_law :: SszRoundTrip LightClientUpdatesByRangeRequest;
  blob_law :: SszRoundTrip BlobSidecar;
  roots_law : forall l b max, to_ssz l = Ok b -> Z.of_nat (length l) <= max -> roots_read max b = Ok l;
  blob_ids_law : forall l b max,
    to_ssz l = Ok b -> Z.of_nat (length l) <= max -> blob_ids_read max b = Ok l;
  column_ids_law : forall l b max,
    to_ssz l = Ok b -> Z.of_nat (length l) <= max -> column_ids_read max b = Ok l;
  error_message_law : forall m b, error_message_write m = Ok b ->
    error_message_read b = Ok m /\ blen b <= ERROR_TYPE_MAX;

  (** The variant a value of a combined type has. *)
  block_phase : SignedBeaconBlock -> Phase;
  block_law : forall x b, to_ssz x = Ok b -> block_read (block_phase x) b = Ok x;
  column_phase : DataColumnSidecar -> Phase;
  column_law : forall x b, to_ssz x = Ok b -> column_read (column_phase x) b = Ok x;
  bootstrap_phase : LightClientBootstrap -> Phase;
  bootstrap_law : forall x b, to_ssz x = Ok b -> bootstrap_read (bootstrap_phase x) b = Ok x;
  optimistic_phase : LightClientOptimisticUpdate -> Phase;
  optimistic_law : forall x b, to_ssz x = Ok b -> optimistic_read (optimistic_phase x) b = Ok x;
  finality_phase : LightClientFinalityUpdate -> Phase;
  finality_law : forall x b, to_ssz x = Ok b -> finality_read (finality_phase x) b = Ok x;
  update_phase : LightClientUpdate -> Phase;
  update_law : forall x b, to_ssz x = Ok b -> update_read (update_phase x) b = Ok x;

  digest_length : forall d, length (digest_as_bytes d) = CONTEXT_BYTES_LEN;
  digest_law : forall d, digest_from_slice (digest_as_bytes d) = d;

  uvi_nonempty : forall n, uvi_encode n <> [];
  uvi_law : forall n rest, in_u64 n -> uvi_decode (uvi_encode n ++ rest) = Ok (Some (n, rest));
  uvi_prefix : forall n p q,
    in_u64 n -> uvi_encode n = p ++ q -> q <> [] -> uvi_decode p = Ok None;
  uvi_wait : forall b, uvi_decode b = Ok None -> (length b < 10)%nat;
  uvi_extend : forall b n rest more,
    uvi_decode b = Ok (Some (n, rest)) -> uvi_decode (b ++ more) = Ok (Some (n, rest ++ more));

  frame_empty : frame_encode [] = [];
  frame_length : forall b, b <> [] -> 2 <= blen (frame_encode b);
  frame_bound : forall b, blen b <= 2 ^ 31 -> blen (frame_encode b) <= max_compress_len (blen b);
  frame_law : forall b rest,
    frame_read_exact (frame_encode b ++ rest) (blen b) = (Ok b, blen (frame_encode b));
  frame_prefix : forall b p q, frame_encode b = p ++ q -> q <> [] ->
    exists e n, frame_read_exact p (blen b) = (Err e, n) /\ io_kind e = UnexpectedEof;
  frame_eof : forall b l e n,
    frame_read_exact b l = (Err e, n) -> io_kind e = UnexpectedEof -> n = blen b;
}.

(** ** Incremental decoding

    A reader keeps a buffer, appends what arrives and calls the decoder after each arrival, until the
    decoder yields an item or an error.  The result is the item, the decoder, the bytes left in the
    buffer and the pieces that have not been looked at. *)

Section feed.
Context {S T : Type} (dec : S -> Bytes -> option (result (option T) RPCError * S * Bytes)).

Fixpoint feed (self : S) (buf : Bytes) (pieces : list Bytes)
  : option (option (result T RPCError) * S * Bytes * list Bytes) :=
  match pieces with
  | [] => Some (None, self, buf, [])
  | piece :: pieces =>
      match dec self (buf ++ piece) with
      | Some (Ok None, self, buf) => feed self buf pieces
      | Some (Ok (Some item), self, buf) => Some (Some (Ok item), self, buf, pieces)
      | Some (Err e, self, buf) => Some (Some (Err e), self, buf, pieces)
      | None => None
      end
  end.

(** A message [wire] is understood however it is cut: the decoder waits on every strict prefix, yields
    [item] on the whole message, and a decoder that has waited behaves on the rest of the message
    as a fresh one on all of it. *)
Record understands (self : S) (least : nat) (wire : Bytes) (item : T) : Prop := {
  wire_least : (least <= length wire)%nat;
  waits : forall p q, wire = p ++ q -> q <> [] ->
    exists self' buf', dec self p = Some (Ok None, self', buf') /\ (least <= length (buf' ++ q))%nat;
  yields : forall rest, dec self (wire ++ rest) = Some (Ok (Some item), self, rest);
  short : forall s b, (length b < least)%nat -> dec s b = Some (Ok None, s, b);
  resumes : forall s b s' b' more, dec s b = Some (Ok None, s', b') ->
    (least <= length (b' ++ more))%nat -> dec s' (b' ++ more) = dec s (b ++ more);
}.

Lemma feed_understood_from self least wire item (Hw : understands self least wire item) :
  forall pieces s buf p rest,
  (forall more, (least <= length (buf ++ more))%nat -> dec s (buf ++ more) = dec self (p ++ more)) ->
  (forall q, wire = p ++ q -> q <> [] /\ (least <= length (buf ++ q))%nat) ->
  (exists q, wire = p ++ q) ->
  p ++ concat pieces = wire ++ rest ->
  exists buf' pieces', feed s buf pieces = Some (Some (Ok item), self, buf', pieces') /\
    buf' ++ concat pieces' = rest.
Proof.
  induction pieces as [|x pieces IH]; intros s buf p rest Hs Hq [q Hp] Hc.
  - simpl in Hc. rewrite app_nil_r in Hc. destruct (Hq q Hp) as [Hne _].
    assert (length p = length (wire ++ rest)) as Hl by by rewrite Hc.
    rewrite length_app, Hp, length_app in Hl. destruct q; [done|simpl in Hl; lia].
  - simpl in Hc. rewrite Hp, <- app_assoc in Hc. apply app_inv_head in Hc. simpl.
    destruct (Hq q Hp) as [Hne Hl].
    destruct (decide (length q <= length x)%nat) as [Hle|Hgt].
    + assert (exists r, x = q ++ r /\ r ++ concat pieces = rest) as (r & -> & Hr).
      { apply app_eq_inv in Hc as [(k & -> & ->)|(k & -> & Hk)]; [by eauto|].
        rewrite length_app in Hle. destruct k; [|simpl in Hle; lia].
        exists []. by rewrite !app_nil_r. }
      rewrite Hs by (rewrite !length_app in *; lia). rewrite app_assoc, <- Hp, (yields _ _ _ _ Hw).
      eauto.
    + assert (exists q', q = x ++ q' /\ q' <> [] /\ concat pieces = q' ++ rest) as (q' & -> & Hne' & Hr).
      { apply app_eq_inv in Hc as [(k & -> & ->)|(k & -> & Hk)].
        - rewrite length_app in Hgt. lia.
        - exists k. split_and!; [done| |done]. intros ->. rewrite app_nil_r in Hgt. lia. }
      destruct (waits _ _ _ _ Hw (p ++ x) q' ltac:(by rewrite <- app_assoc) Hne') as (s1 & b1 & H1 & Hl1).
      assert (forall q0, wire = (p ++ x) ++ q0 -> q0 = q') as Huniq.
      { intros q0. rewrite Hp, <- app_assoc. intros Heq%app_inv_head%app_inv_head. done. }
      assert (p ++ x ++ concat pieces = wire ++ rest) as Hall.
      { rewrite Hp, Hr, <- !app_assoc. done. }
      destruct (decide (least <= length (buf ++ x))%nat) as [Hle2|Hgt2].
      * rewrite (Hs x Hle2), H1. apply (IH _ _ (p ++ x) rest).
        -- intros more Hm. by rewrite (resumes _ _ _ _ Hw _ _ _ _ _ H1 Hm).
        -- intros q0 ->%Huniq. done.
        -- exists q'. by rewrite <- app_assoc.
        -- by rewrite <- app_assoc.
      * rewrite (short _ _ _ _ Hw) by lia. apply (IH _ _ (p ++ x) rest).
        -- intros more Hm. rewrite <- !app_assoc in *. by apply Hs.
        -- intros q0 ->%Huniq. rewrite <- app_assoc. done.
        -- exists q'. by rewrite <- app_assoc.
        -- by rewrite <- app_assoc.
Qed.

Lemma feed_understood self least wire item pieces rest :
  understands self least wire item -> wire <> [] -> concat pieces = wire ++ rest ->
  exists buf' pieces', feed self [] pieces = Some (Some (Ok item), self, buf', pieces') /\
    buf' ++ concat pieces' = rest.
Proof.
  intros Hw Hne Hc. apply (feed_understood_from _ _ _ _ Hw pieces self [] [] rest); simpl; try done.
  - intros q ->. split; [done|]. apply Hw.
  - by exists wire.
Qed.

End feed.

(** ** Lemmas: a decoder that has waited *)

(** Unfolds the reading of a response. *)
Ltac unfold_arms :=
  unfold handle_rpc_response, blobs_by_range_response, blobs_by_root_response,
    data_columns_by_root_response, data_columns_by_range_response, light_client_bootstrap_response,
    light_client_optimistic_update_response, light_client_finality_update_response,
    light_client_updates_by_range_response, blocks_by_range_v2_response, blocks_by_root_v2_response.

Section resume.
Context `{WireLaws}.

Lemma handle_length_more len src l len' src' more :
  handle_length len src = (Ok (Some l), len', src') ->
  len' = Some l /\ handle_length len (src ++ more) = (Ok (Some l), Some l, src' ++ more).
Proof.
  unfold handle_length. destruct len as [n|]; [naive_solver|].
  destruct (uvi_decode src) as [[[n rest]|]|e] eqn:E; intros; simplify_eq.
  by rewrite (uvi_extend _ _ _ more E).
Qed.

Lemma handle_length_wait len src len' src' :
  handle_length len src = (Ok None, len', src') -> len' = len /\ src' = src.
Proof. unfold handle_length. intros. by crush_match. Qed.

Lemma handle_rpc_response_some v b ph : handle_rpc_response v b ph <> Ok None.
Proof.
  unfold_arms. unfold invalid_fork, no_context_bytes, result_bind.
  repeat case_match; discriminate.
Qed.

Lemma read_context_more s b s1 b1 more :
  read_context s b = (Ok true, s1, b1) ->
  read_context s (b ++ more) = (Ok true, s1, b1 ++ more) /\
  (forall x, read_context s1 x = (Ok true, s1, x)) /\
  oc_len s1 = oc_len s /\ oc_current_response_code s1 = oc_current_response_code s.
Proof.
  unfold read_context. destruct (has_context_bytes (oc_protocol s)) eqn:Hh; [|intros; simplify_eq; by rewrite Hh].
  destruct (oc_phase s) eqn:Hp; [intros; simplify_eq; split_and!; by intros; rewrite ?Hh, ?Hp|].
  destruct (_ <=? _)%nat eqn:Hl; [|done]. apply Nat.leb_le in Hl.
  destruct (context_bytes_to_phase _ _) eqn:Hc; [|done]. intros; simplify_eq.
  assert ((CONTEXT_BYTES_LEN <=? length (b ++ more))%nat = true) as ->
    by (apply Nat.leb_le; rewrite length_app; lia).
  rewrite take_app_le, drop_app_le, Hc by done. split_and!; try done. intros x. simpl. by rewrite Hh.
Qed.

Lemma read_context_wait s b s1 b1 :
  read_context s b = (Ok false, s1, b1) -> s1 = s /\ b1 = b.
Proof. unfold read_context. intros. by crush_match. Qed.

Lemma decode_response_resumes s b s' b' more :
  decode_response s b = (Ok None, s', b') ->
  decode_response s' (b' ++ more) = decode_response s (b ++ more) /\
  oc_current_response_code s' = oc_current_response_code s.
Proof.
  unfold decode_response. destruct (read_context s b) as [[[[|]|e] s1] b1] eqn:Hc; [| |done].
  2: { apply read_context_wait in Hc as [-> ->]. intros; by simplify_eq. }
  destruct (read_context_more _ _ _ _ more Hc) as (Hc' & Hid & Hlen & Hcode). rewrite Hc'.
  destruct (handle_length (oc_len s1) b1) as [[[[l|]|e] len] b2] eqn:Hl; [| |done].
  2: { intros; simplify_eq. apply handle_length_wait in Hl as [-> ->].
       destruct s1; simpl in *. rewrite Hid. done. }
  destruct (handle_length_more _ _ _ _ _ more Hl) as [-> Hl']. rewrite Hl'.
  destruct (is_out_of_bounds _ _ _) eqn:Ho; [done|].
  destruct (read_payload l b2) as [[d b3]|r] eqn:Hr.
  - intros [=]. by edestruct handle_rpc_response_some.
  - intros [= -> <- <-].
    assert (forall x, read_context (set_oc_len s1 (Some l)) x = (Ok true, set_oc_len s1 (Some l), x)) as Hid'.
    { intros x. specialize (Hid x). unfold read_context in Hid |- *. simpl in *.
      destruct (has_context_bytes _); [|done]. destruct (oc_phase s1) eqn:Hp; [done|].
      exfalso. clear -Hid Hp. repeat case_match; try discriminate Hid;
        injection Hid as Hs _; apply (f_equal oc_phase) in Hs; simpl in Hs; congruence. }
    rewrite Hid'. simpl in Ho |- *. by rewrite Ho.
Qed.

Lemma decode_error_resumes s b s' b' more :
  decode_error s b = (Ok None, s', b') ->
  decode_error s' (b' ++ more) = decode_error s (b ++ more) /\
  oc_current_response_code s' = oc_current_response_code s.
Proof.
  unfold decode_error.
  destruct (handle_length (oc_len s) b) as [[[[l|]|e] len] b2] eqn:Hl; [| |done].
  2: { intros; simplify_eq. apply handle_length_wait in Hl as [-> ->]. by destruct s. }
  destruct (handle_length_more _ _ _ _ _ more Hl) as [-> Hl']. rewrite Hl'.
  destruct (_ || _) eqn:Ho; [done|].
  destruct (read_payload l b2) as [[d b3]|r] eqn:Hr.
  - intros [= Hm _ _]. by destruct (ssz_read _).
  - intros [= -> <- <-]. simpl in Ho |- *. by rewrite Ho.
Qed.

Lemma Outbound_decode_resumes s b s' b' more :
  Outbound_decode s b = (Ok None, s', b') -> (2 <= length (b' ++ more))%nat ->
  Outbound_decode s' (b' ++ more) = Outbound_decode s (b ++ more).
Proof.
  unfold Outbound_decode. destruct (length b <=? 1)%nat eqn:Hb; [intros; by simplify_eq|].
  apply Nat.leb_gt in Hb. intros Hd Hl.
  assert ((length (b' ++ more) <=? 1)%nat = false) as -> by (apply Nat.leb_gt; lia).
  assert ((length (b ++ more) <=? 1)%nat = false) as -> by (apply Nat.leb_gt; rewrite length_app; lia).
  assert (exists code s1 b1, take_response_code s b = (code, s1, b1) /\
    take_response_code s (b ++ more) = (code, s1, b1 ++ more) /\
    oc_current_response_code s1 = Some code) as (code & s1 & b1 & Ht & Ht' & Hcode).
  { unfold take_response_code. destruct (oc_current_response_code s) eqn:E; [by eauto 10|].
    destruct b as [|x b]; [simpl in Hb; lia|]. simpl. eauto 10. }
  rewrite Ht in Hd. rewrite Ht'.
  assert (forall st x, oc_current_response_code st = Some code ->
    take_response_code st x = (code, st, x)) as Hkept
    by (intros st x E; unfold take_response_code; by rewrite E).
  destruct (is_response code) eqn:Hr.
  - destruct (decode_response s1 b1) as [[[[r|]|e] s2] b2] eqn:E; simpl in Hd; simplify_eq.
    destruct (decode_response_resumes _ _ _ _ more E) as [Heq Hc]. rewrite Hkept by congruence.
    by rewrite Hr, Heq.
  - destruct (decode_error s1 b1) as [[[[r|]|e] s2] b2] eqn:E; simpl in Hd; simplify_eq.
    destruct (decode_error_resumes _ _ _ _ more E) as [Heq Hc]. rewrite Hkept by congruence.
    by rewrite Hr, Heq.
Qed.

Lemma Inbound_decode_resumes s b s' b' more :
  Inbound_decode s b = Some (Ok None, s', b') ->
  Inbound_decode s' (b' ++ more) = Inbound_decode s (b ++ more).
Proof.
  unfold Inbound_decode.
  destruct (handle_length (ic_len s) b) as [[hl len] b2] eqn:Hl.
  destruct hl as [[l|]|e].
  3: { by destruct (versioned_protocol _). }
  2: { apply handle_length_wait in Hl as [-> ->].
       destruct (versioned_protocol (ic_protocol s)) eqn:Hv; intros; simplify_eq; simpl; rewrite Hv; by destruct s. }
  destruct (handle_length_more _ _ _ _ _ more Hl) as [-> Hl']. rewrite Hl'. simpl.
  destruct (rpc_request_limits _ _ _) as [lim|] eqn:Hlim; [|by destruct (versioned_protocol _)].
  destruct (is_out_of_bounds _ _ _) eqn:Ho; [by destruct (versioned_protocol _)|].
  destruct (read_payload l b2) as [[d b3]|r] eqn:Hr.
  - destruct (versioned_protocol _); simpl; unfold result_bind; intros Heq;
      repeat case_match; discriminate Heq.
  - destruct (versioned_protocol (ic_protocol s)) eqn:Hv; intros; simplify_eq; simpl;
      rewrite Hv; simpl; by rewrite ?Hlim, ?Ho.
Qed.

End resume.

(** ** The contract between the two ends of a substream *)

Section contract.
Context `{WireLaws}.

(** The light client containers of Bellatrix are those of Altair. *)
Definition light_client_variant (p : Phase) : Phase :=
  match p with Bellatrix => Altair | p => p end.

(** The phase found in the context bytes is the one the payload was written for. *)
Definition phase_fits (v : SupportedProtocol) (ph : option Phase) (r : RpcSuccessResponse) : Prop :=
  match r with
  | RespBlocksByRange b =>
      if decide (v = BlocksByRangeV1) then block_phase b = Phase0 else ph = Some (block_phase b)
  | RespBlocksByRoot b =>
      if decide (v = BlocksByRootV1) then block_phase b = Phase0 else ph = Some (block_phase b)
  | RespBlobsByRange _ | RespBlobsByRoot _ => exists p, ph = Some p /\ Phase_leb Deneb p = true
  | RespDataColumnsByRange c | RespDataColumnsByRoot c =>
      ph = Some (column_phase c) /\ Phase_leb Fulu (column_phase c) = true
  | RespLightClientBootstrap b =>
      exists p, ph = Some p /\ p <> Phase0 /\ bootstrap_phase b = light_client_variant p
  | RespLightClientOptimisticUpdate u =>
      exists p, ph = Some p /\ p <> Phase0 /\ optimistic_phase u = light_client_variant p
  | RespLightClientFinalityUpdate u =>
      exists p, ph = Some p /\ p <> Phase0 /\ finality_phase u = light_client_variant p
  | RespLightClientUpdatesByRange u =>
      exists p, ph = Some p /\ p <> Phase0 /\ update_phase u = light_client_variant p
  | RespStatus _ | RespPong _ | RespMetaData _ => True
  end.

(** What the peer receives: status and metadata messages in the negotiated version. *)
Definition negotiated_success (v : SupportedProtocol) (config : ChainConfig) (r : RpcSuccessResponse)
  : RpcSuccessResponse :=
  match r with
  | RespStatus m =>
      RespStatus (if decide (v = StatusV1) then StatusMsgV1 (status_v1 m) else StatusMsgV2 (status_v2 m))
  | RespMetaData m =>
      RespMetaData (if decide (v = MetaDataV1) then metadata_v1 m
                    else if decide (v = MetaDataV2) then metadata_v2 m else metadata_v3 config m)
  | r => r
  end.

Definition negotiated_response (self : InboundCodec) (resp : RpcResponse) : RpcResponse :=
  match resp with
  | RpcSuccess r => RpcSuccess (negotiated_success (versioned_protocol (ic_protocol self))
                                  (chain_config (ic_fork_context self)) r)
  | resp => resp
  end.

(** The reader's side: its limit, the bounds of the protocol and the phase of the context bytes. *)
Definition acceptable (sender : InboundCodec) (receiver : OutboundCodec) (resp : RpcResponse)
  (payload : Bytes) : Prop :=
  let v := versioned_protocol (ic_protocol sender) in
  oc_protocol receiver = ic_protocol sender /\
  blen payload <= oc_max_packet_size receiver /\ oc_max_packet_size receiver <= 2 ^ 31 /\
  match resp with
  | RpcSuccess r =>
      success_protocol r = SupportedProtocol_protocol v /\
      is_out_of_bounds (rpc_response_limits (oc_protocol receiver) (oc_fork_context receiver))
        (blen payload) (oc_max_packet_size receiver) = false /\
      if has_context_bytes (ic_protocol sender) then
        payload <> [] /\
        exists slot digest phase, success_slot r = Some slot /\
          context_bytes (ic_fork_context sender) (compute_epoch_at_slot slot) = Some digest /\
          get_fork_from_context_bytes (oc_fork_context receiver) digest = Some phase /\
          phase_fits v (Some phase) r
      else phase_fits v None r
  | RpcError _ _ => True
  | RpcStreamTermination _ => False
  end.

Lemma ssz_write_Ok {A} (r : result A (list Z)) b : ssz_write r = Ok b -> r = Ok b.
Proof. by destruct r; intros [=->]. Qed.

(** Reads back the payload in the goal with the law of its type. *)
Ltac read_back :=
  match goal with
  | E : ssz_write _ = Ok _ |- _ => apply ssz_write_Ok in E; simpl in E
  end;
  first
    [ match goal with
      | E : to_ssz ?x = Ok _ |- context [from_ssz_default _] => rewrite (ssz_round_trip _ _ E)
      | E : to_ssz ?x = Ok _ |- context [block_read _ _] => rewrite (block_law _ _ E)
      | E : to_ssz ?x = Ok _ |- context [column_read _ _] => rewrite (column_law _ _ E)
      | E : to_ssz ?x = Ok _ |- context [bootstrap_read _ _] => rewrite (bootstrap_law _ _ E)
      | E : to_ssz ?x = Ok _ |- context [optimistic_read _ _] => rewrite (optimistic_law _ _ E)
      | E : to_ssz ?x = Ok _ |- context [finality_read _ _] => rewrite (finality_law _ _ E)
      | E : to_ssz ?x = Ok _ |- context [update_read _ _] => rewrite (update_law _ _ E)
      end ]; reflexivity.

Lemma handle_rpc_response_reads ic r b ph :
  response_bytes ic (RpcSuccess r) = Some (Ok b) ->
  success_protocol r = SupportedProtocol_protocol (versioned_protocol (ic_protocol ic)) ->
  phase_fits (versioned_protocol (ic_protocol ic)) ph r ->
  handle_rpc_response (versioned_protocol (ic_protocol ic)) b ph =
    Ok (Some (negotiated_success (versioned_protocol (ic_protocol ic)) (chain_config (ic_fork_context ic)) r)).
Proof.
  unfold response_bytes. unfold_arms.
  destruct (versioned_protocol (ic_protocol ic)), r; simpl; try done;
    intros [= E] _ Hf; try (destruct m; read_back); try read_back.
  all: first
    [ subst ph; read_back
    | rewrite <- Hf; read_back
    | destruct Hf as (p & Hph & Hp & Hv); subst ph; destruct p; try done; simpl in *; rewrite <- Hv; read_back
    | destruct Hf as (p & Hph & Hp); subst ph; destruct p; try done; read_back
    | destruct Hf as [Hph Hp]; subst ph; destruct (column_phase d) eqn:Hd; try done; rewrite <- Hd; read_back ].
Qed.

(** ** Lemmas: reading what was written *)

Lemma blen_app a b : blen (a ++ b) = blen a + blen b.
Proof. unfold blen. rewrite length_app. lia. Qed.

Lemma blen_pos a : a <> [] -> 0 < blen a.
Proof. destruct a; [done|]. unfold blen. simpl. lia. Qed.

Lemma blen_u64 b : blen b <= 2 ^ 31 -> in_u64 (blen b).
Proof. unfold in_u64, U64_MAX, blen. lia. Qed.

Lemma handle_length_whole b rest :
  blen b <= 2 ^ 31 ->
  handle_length None (uvi_encode (blen b) ++ rest) = (Ok (Some (blen b)), Some (blen b), rest).
Proof. intros. unfold handle_length. by rewrite uvi_law by by apply blen_u64. Qed.

Lemma handle_length_part b p q :
  blen b <= 2 ^ 31 -> uvi_encode (blen b) = p ++ q -> q <> [] ->
  handle_length None p = (Ok None, None, p).
Proof.
  intros Hb Hp Hq. unfold handle_length. by rewrite (uvi_prefix _ _ _ (blen_u64 _ Hb) Hp Hq).
Qed.

Lemma read_payload_whole {T} b rest :
  blen b <= 2 ^ 31 -> read_payload (T := T) (blen b) (frame_encode b ++ rest) = inl (b, rest).
Proof.
  intros Hb. unfold read_payload. pose proof (frame_bound b Hb) as Hm.
  rewrite take_app_ge by (unfold blen in *; lia). rewrite frame_law. unfold blen.
  by rewrite Nat2Z.id, drop_app_length.
Qed.

Lemma read_payload_part {T} b p q :
  blen b <= 2 ^ 31 -> frame_encode b = p ++ q -> q <> [] ->
  read_payload (T := T) (blen b) p = inr (Ok None).
Proof.
  intros Hb Hp Hq. unfold read_payload. pose proof (frame_bound b Hb) as Hm.
  rewrite Hp, blen_app in Hm. pose proof (blen_pos q Hq).
  rewrite take_ge by (unfold blen in *; lia).
  destruct (frame_prefix b p q Hp Hq) as (e & n & Hf & Hk). pose proof (frame_eof _ _ _ _ Hf Hk).
  rewrite Hf. unfold handle_error. rewrite Hk.
  case_match; bool_to_Prop; [lia|done].
Qed.

(** The strict prefixes of two consecutive fields. *)
Lemma prefix_split (a b p q : Bytes) :
  a ++ b = p ++ q -> (exists q', a = p ++ q' /\ q' <> [] /\ q = q' ++ b) \/ (exists p', p = a ++ p' /\ b = p' ++ q).
Proof.
  intros [(k & -> & ->)|(k & -> & ->)]%app_eq_inv; [|by eauto].
  destruct k; [right; exists []; by rewrite !app_nil_r|]. left. eauto.
Qed.

(** The length and the payload of a message, as both ends write them. *)
Definition body (b : Bytes) : Bytes := uvi_encode (blen b) ++ frame_encode b.

(** What is left of a prefix [p] of the body after a decoder has waited on it. *)
Definition left_over (b p q rest : Bytes) : Prop := rest = p \/ rest ++ q = frame_encode b.

Definition context_read (s : OutboundCodec) : Prop :=
  has_context_bytes (oc_protocol s) = false \/ oc_phase s <> None.

Lemma read_context_done s b : context_read s -> read_context s b = (Ok true, s, b).
Proof.
  unfold context_read, read_context. intros [->|Hp]; [done|].
  destruct (has_context_bytes _); [|done]. by destruct (oc_phase s).
Qed.

Lemma decode_response_body s b rest :
  context_read s -> oc_len s = None -> blen b <= 2 ^ 31 ->
  is_out_of_bounds (rpc_response_limits (oc_protocol s) (oc_fork_context s)) (blen b)
    (oc_max_packet_size s) = false ->
  decode_response s (body b ++ rest) =
    (handle_rpc_response (versioned_protocol (oc_protocol s)) b (oc_phase s),
     set_oc_phase (set_oc_len s None) None, rest).
Proof.
  intros Hc Hl Hb Ho. unfold decode_response, body. rewrite read_context_done, Hl by done.
  rewrite <- app_assoc, handle_length_whole by done. simpl. rewrite Ho.
  by rewrite read_payload_whole.
Qed.

Lemma decode_response_part s b p q :
  context_read s -> oc_len s = None -> blen b <= 2 ^ 31 ->
  is_out_of_bounds (rpc_response_limits (oc_protocol s) (oc_fork_context s)) (blen b)
    (oc_max_packet_size s) = false ->
  body b = p ++ q -> q <> [] ->
  exists s' rest, decode_response s p = (Ok None, s', rest) /\ left_over b p q rest.
Proof.
  intros Hc Hl Hb Ho Hp Hq. unfold decode_response. rewrite read_context_done, Hl by done.
  apply prefix_split in Hp as [(q' & Hp & Hq' & _)|(p' & -> & Hp)].
  - rewrite (handle_length_part _ _ _ Hb Hp Hq'). unfold left_over. eauto.
  - rewrite handle_length_whole by done. simpl. rewrite Ho, (read_payload_part _ _ _ Hb Hp Hq).
    unfold left_over. eauto.
Qed.

Lemma decode_error_body s m b rest :
  error_message_write m = Ok b -> oc_len s = None -> blen b <= oc_max_packet_size s ->
  decode_error s (body b ++ rest) = (Ok (Some m), set_oc_len s None, rest).
Proof.
  intros Hm Hl Hb. destruct (error_message_law _ _ Hm) as [Hr He]. unfold decode_error, body.
  assert (blen b <= 2 ^ 31) by (unfold ERROR_TYPE_MAX in He; lia).
  rewrite Hl, <- app_assoc, handle_length_whole by done. simpl.
  case_match eqn:Ho; [|by rewrite read_payload_whole, Hr].
  exfalso. apply orb_true_iff in Ho as [[Ho|Ho]%orb_true_iff|Ho]; bool_to_Prop;
    unfold ERROR_TYPE_MIN, ERROR_TYPE_MAX, blen in *; lia.
Qed.

Lemma decode_error_part s m b p q :
  error_message_write m = Ok b -> oc_len s = None -> blen b <= oc_max_packet_size s ->
  body b = p ++ q -> q <> [] ->
  exists s' rest, decode_error s p = (Ok None, s', rest) /\ left_over b p q rest.
Proof.
  intros Hm Hl Hb Hp Hq. destruct (error_message_law _ _ Hm) as [Hr He]. unfold decode_error, body.
  assert (blen b <= 2 ^ 31) by (unfold ERROR_TYPE_MAX in He; lia). rewrite Hl.
  apply prefix_split in Hp as [(q' & Hp & Hq' & _)|(p' & -> & Hp)].
  - rewrite (handle_length_part b p q') by done. unfold left_over. eauto.
  - rewrite handle_length_whole by done. simpl.
    case_match eqn:Ho; [|rewrite (read_payload_part b p' q) by done; unfold left_over; by eauto].
    exfalso. apply orb_true_iff in Ho as [[Ho|Ho]%orb_true_iff|Ho]; bool_to_Prop;
      unfold ERROR_TYPE_MIN, ERROR_TYPE_MAX, blen in *; lia.
Qed.

(** Enough bytes are left for the decoder not to wait for the next one by rule. *)
Lemma left_over_length b p q rest :
  left_over b p q rest -> body b = p ++ q -> q <> [] -> (b = [] -> p <> []) ->
  (2 <= length (rest ++ q))%nat.
Proof.
  intros Hr Hp Hq Hb. unfold body in Hp. pose proof (uvi_nonempty (blen b)) as Hu.
  destruct (decide (b = [])) as [->|Hne].
  - destruct Hr as [->|Hr].
    + specialize (Hb eq_refl). rewrite length_app. destruct p, q; try done. simpl. lia.
    + rewrite frame_empty in Hr. by destruct rest, q.
  - pose proof (frame_length b Hne) as Hf. destruct Hr as [->|Hr].
    + rewrite <- Hp, length_app. unfold blen in Hf. lia.
    + rewrite Hr. unfold blen in Hf. lia.
Qed.

Lemma decode_response_context s d phase x :
  has_context_bytes (oc_protocol s) = true -> oc_phase s = None ->
  get_fork_from_context_bytes (oc_fork_context s) d = Some phase ->
  decode_response s (digest_as_bytes d ++ x) = decode_response (set_oc_phase s (Some phase)) x.
Proof.
  intros Hh Hp Hd. unfold decode_response. rewrite (read_context_done (set_oc_phase s (Some phase)))
    by (right; done).
  assert (read_context s (digest_as_bytes d ++ x) = (Ok true, set_oc_phase s (Some phase), x)) as ->; [|done].
  unfold read_context. rewrite Hh, Hp.
  rewrite (proj2 (Nat.leb_le _ _)) by (rewrite length_app, digest_length; lia).
  rewrite <- (digest_length d), take_app_length, drop_app_length, digest_law.
  unfold context_bytes_to_phase. by rewrite Hd.
Qed.

Lemma decode_response_context_part s d p q :
  has_context_bytes (oc_protocol s) = true -> oc_phase s = None ->
  digest_as_bytes d = p ++ q -> q <> [] -> decode_response s p = (Ok None, s, p).
Proof.
  intros Hh Hp Hd Hq. unfold decode_response, read_context. rewrite Hh, Hp.
  rewrite (proj2 (Nat.leb_gt _ _)); [done|].
  pose proof (digest_length d) as Hl. rewrite Hd, length_app in Hl. destruct q; [done|]. simpl in Hl. lia.
Qed.

(** The layout of an encoded response. *)
Lemma Inbound_encode_layout self resp dst wire payload :
  response_bytes self resp = Some (Ok payload) -> Inbound_encode self resp dst = Some (Ok tt, wire) ->
  exists code context, RpcResponse_as_u8 resp = Some code /\
    response_context_bytes (ic_protocol self) (ic_fork_context self) resp = Some context /\
    wire = code :: (from_option digest_as_bytes [] context ++ body payload).
Proof.
  intros Hb He. unfold Inbound_encode, encode_response in He. rewrite Hb in He.
  destruct (RpcResponse_as_u8 resp) as [code|]; [|done].
  destruct (_ <? _); [done|]. destruct (response_context_bytes _ _ _) as [ctx|]; [|done].
  exists code, ctx. split_and!; try done. injection He as <-. unfold body.
  by destruct ctx; simpl; rewrite <- ?app_assoc.
Qed.

(** One chunk of the stream: the code, then what the inner decoder [inner] understands. *)
Lemma Outbound_decode_chunk s code x :
  oc_current_response_code s = None -> x <> [] ->
  Outbound_decode s (code :: x) =
    let s1 := set_oc_code s (Some code) in
    let '(r, s2, y) :=
      if is_response code
      then let '(r, s2, y) := decode_response s1 x in (let? o := r in Ok (RpcSuccess <$> o), s2, y)
      else let '(r, s2, y) := decode_error s1 x in
           (let? o := r in Ok (RpcError (from_error code) <$> o), s2, y) in
    match r with Ok (Some _) => (r, set_oc_code s2 None, y) | _ => (r, s2, y) end.
Proof.
  intros Hc Hx. unfold Outbound_decode. rewrite (proj2 (Nat.leb_gt _ _)) by (destruct x; [done|simpl; lia]).
  unfold take_response_code. by rewrite Hc.
Qed.

Lemma from_error_as_u8 e : from_error (RpcErrorResponse_as_u8 e) = e.
Proof. by destruct e. Qed.

Lemma body_nonempty b : body b <> [].
Proof. unfold body. pose proof (uvi_nonempty (blen b)). by destruct (uvi_encode _). Qed.

Section delivery.
Context (sender : InboundCodec) (receiver : OutboundCodec).
Hypothesis fresh : receiver = OutboundCodec_new (ic_protocol sender) (oc_max_packet_size receiver)
  (oc_fork_context receiver).

Lemma outbound_yields resp payload dst wire rest :
  response_bytes sender resp = Some (Ok payload) -> Inbound_encode sender resp dst = Some (Ok tt, wire) ->
  acceptable sender receiver resp payload ->
  Outbound_decode receiver (wire ++ rest) = (Ok (Some (negotiated_response sender resp)), receiver, rest).
Proof.
  intros Hb He Ha. destruct (Inbound_encode_layout _ _ _ _ _ Hb He) as (code & ctx & Hcode & Hctx & ->).
  destruct Ha as (Hproto & Hmax & H31 & Ha). rewrite <- app_comm_cons.
  assert (oc_current_response_code receiver = None /\ oc_phase receiver = None /\ oc_len receiver = None)
    as (Hc0 & Hp0 & Hl0) by (rewrite fresh; done).
  rewrite Outbound_decode_chunk by
    (done || (intros E; apply (f_equal length) in E; rewrite !length_app in E;
              pose proof (body_nonempty payload); destruct (body payload); [done|simpl in E; lia])).
  rewrite <- app_assoc. destruct resp as [r|c m|t]; [| |done]; simpl in Hcode; simplify_eq.
  - destruct Ha as (Hpr & Ho & Hctxh). cbv zeta. simpl (is_response 0).
    assert (exists ph, phase_fits (versioned_protocol (ic_protocol sender)) ph r /\
      decode_response (set_oc_code receiver (Some 0)) (from_option digest_as_bytes [] ctx ++ body payload ++ rest)
      = (handle_rpc_response (versioned_protocol (ic_protocol sender)) payload ph,
         set_oc_code receiver (Some 0), rest)) as (ph & Hf & ->).
    { unfold response_context_bytes in Hctx.
      destruct (has_context_bytes (ic_protocol sender)) eqn:Hh.
      - destruct Hctxh as (_ & slot & digest & phase & Hs & Hd & Hg & Hf).
        rewrite Hs, Hd in Hctx. injection Hctx as <-. exists (Some phase). split; [done|].
        simpl. rewrite (decode_response_context _ _ phase) by (simpl; rewrite ?Hproto; done).
        rewrite decode_response_body by (simpl; (done || lia || right; done)).
        simpl. by rewrite fresh.
      - injection Hctx as <-. exists None. split; [done|]. simpl.
        rewrite decode_response_body by (simpl; (done || lia || (left; simpl; by rewrite Hproto))).
        simpl. by rewrite fresh. }
    rewrite (handle_rpc_response_reads _ _ _ _ Hb Hpr Hf). simpl. by rewrite fresh.
  - assert (is_response (RpcErrorResponse_as_u8 c) = false) as -> by by destruct c.
    assert (ctx = None) as ->.
    { unfold response_context_bytes in Hctx. destruct (has_context_bytes _); by simplify_eq. }
    simpl in Hb |- *. injection Hb as Hb%ssz_write_Ok.
    rewrite (decode_error_body _ m) by done. simpl. rewrite from_error_as_u8. by rewrite fresh.
Qed.

Lemma success_waits r payload ctx p q :
  acceptable sender receiver (RpcSuccess r) payload ->
  response_context_bytes (ic_protocol sender) (ic_fork_context sender) (RpcSuccess r) = Some ctx ->
  from_option digest_as_bytes [] ctx ++ body payload = p ++ q -> p <> [] -> q <> [] ->
  exists s' rest, decode_response (set_oc_code receiver (Some 0)) p = (Ok None, s', rest) /\
    (2 <= length (rest ++ q))%nat.
Proof.
  intros (Hproto & Hmax & H31 & Hpr & Ho & Hctxh) Hctx Hp Hpne Hq. unfold response_context_bytes in Hctx.
  assert (oc_phase receiver = None /\ oc_len receiver = None) as (Hp0 & Hl0) by (rewrite fresh; done).
  destruct (has_context_bytes (ic_protocol sender)) eqn:Hh.
  - destruct Hctxh as (Hne & slot & digest & phase & Hs & Hd & Hg & Hf).
    rewrite Hs, Hd in Hctx. injection Hctx as <-. simpl in Hp.
    apply prefix_split in Hp as [(q' & Hp & Hq' & ->)|(p' & -> & Hp)].
    + rewrite (decode_response_context_part _ digest p q') by (simpl; rewrite ?Hproto; done).
      exists (set_oc_code receiver (Some 0)), p. split; [done|].
      rewrite app_assoc, <- Hp, length_app, digest_length. unfold CONTEXT_BYTES_LEN. lia.
    + rewrite (decode_response_context _ _ phase) by (simpl; rewrite ?Hproto; done).
      destruct (decode_response_part (set_oc_phase (set_oc_code receiver (Some 0)) (Some phase))
                  payload p' q) as (s' & rest & -> & Hr); simpl; try (done || lia); [by right|].
      exists s', rest. split; [done|]. by eapply left_over_length.
  - injection Hctx as <-. simpl in Hp.
    destruct (decode_response_part (set_oc_code receiver (Some 0)) payload p q)
      as (s' & rest & -> & Hr); simpl; try (done || lia); [left; simpl; by rewrite Hproto|].
    exists s', rest. split; [done|]. by eapply left_over_length.
Qed.

Lemma outbound_waits resp payload dst wire p q :
  response_bytes sender resp = Some (Ok payload) -> Inbound_encode sender resp dst = Some (Ok tt, wire) ->
  acceptable sender receiver resp payload -> wire = p ++ q -> q <> [] ->
  exists s' rest, Outbound_decode receiver p = (Ok None, s', rest) /\ (2 <= length (rest ++ q))%nat.
Proof.
  intros Hb He Ha Hp Hq. destruct (Inbound_encode_layout _ _ _ _ _ Hb He) as (code & ctx & Hcode & Hctx & Hw).
  assert (2 <= length wire)%nat as Hlen.
  { rewrite Hw. simpl. rewrite length_app. pose proof (body_nonempty payload).
    destruct (body payload); [done|simpl; lia]. }
  destruct (decide (length p <= 1)%nat) as [Hs|Hs].
  { exists receiver, p. split; [|by rewrite <- Hp]. unfold Outbound_decode.
    by rewrite (proj2 (Nat.leb_le _ _) Hs). }
  destruct p as [|code' p]; [simpl in Hs; lia|]. rewrite Hw in Hp. injection Hp as <- Hp.
  assert (p <> []) as Hpne by (intros ->; simpl in Hs; lia).
  assert (oc_current_response_code receiver = None) as Hc0 by (rewrite fresh; done).
  rewrite Outbound_decode_chunk by done. cbv zeta.
  destruct resp as [r|c m|t]; simpl in Hcode; simplify_eq.
  - simpl (is_response 0). destruct (success_waits _ _ _ _ _ Ha Hctx Hp Hpne Hq) as (s' & rest & -> & Hl).
    simpl. eauto.
  - assert (is_response (RpcErrorResponse_as_u8 c) = false) as -> by by destruct c.
    assert (ctx = None) as ->.
    { unfold response_context_bytes in Hctx. destruct (has_context_bytes _); by simplify_eq. }
    destruct Ha as (Hproto & Hmax & _). simpl in Hb, Hp. injection Hb as Hb%ssz_write_Ok.
    assert (oc_len receiver = None) as Hl0 by (rewrite fresh; done).
    destruct (decode_error_part (set_oc_code receiver (Some (RpcErrorResponse_as_u8 c))) m payload p q)
      as (s' & rest & -> & Hr); try done.
    simpl. exists s', rest. split; [done|]. by eapply left_over_length.
Qed.

Lemma outbound_understands resp payload dst wire :
  response_bytes sender resp = Some (Ok payload) -> Inbound_encode sender resp dst = Some (Ok tt, wire) ->
  acceptable sender receiver resp payload ->
  understands (fun s b => Some (Outbound_decode s b)) receiver 2 wire (negotiated_response sender resp).
Proof.
  intros Hb He Ha. constructor.
  - destruct (Inbound_encode_layout _ _ _ _ _ Hb He) as (code & ctx & _ & _ & ->).
    simpl. rewrite length_app. pose proof (body_nonempty payload).
    destruct (body payload); [done|simpl; lia].
  - intros p q Hp Hq. destruct (outbound_waits _ _ _ _ p q Hb He Ha Hp Hq) as (s' & rest & -> & Hl). eauto.
  - intros rest. by rewrite (outbound_yields _ _ _ _ rest Hb He Ha).
  - intros s b Hl. unfold Outbound_decode. rewrite (proj2 (Nat.leb_le _ _)) by lia. done.
  - intros s b s' b' more [= Hd] Hl. f_equal. by apply Outbound_decode_resumes.
Qed.

End delivery.

(** ** Requests *)

Definition negotiated_request (v : SupportedProtocol) (r : RequestType) : RequestType :=
  match r with
  | ReqStatus m =>
      ReqStatus (if decide (v = StatusV1) then StatusMsgV1 (status_v1 m) else StatusMsgV2 (status_v2 m))
  | r => r
  end.

(** A list of a request has at most as many entries as the reader's configuration allows. *)
Definition within_maximum (config : ChainConfig) (phase : Phase) (r : RequestType) : Prop :=
  match r with
  | ReqBlocksByRoot r => BlocksByRootRequest_len r <= config_max_request_blocks config phase
  | ReqBlobsByRoot r =>
      Z.of_nat (length (blob_ids r)) <= config_max_request_blob_sidecars config phase
  | ReqDataColumnsByRoot r =>
      Z.of_nat (length (data_column_ids r)) <= config_max_request_blocks config phase
  | _ => True
  end.

(** The request is of the negotiated version, where that is not up to the encoder. *)
Definition of_version (v : SupportedProtocol) (r : RequestType) : Prop :=
  match r with
  | ReqStatus _ => SupportedProtocol_protocol v = Protocol.Status
  | r => request_versioned_protocol r = v
  end.

Definition acceptable_request (sender : OutboundCodec) (receiver : InboundCodec) (r : RequestType)
  (payload : Bytes) : Prop :=
  let phase := current_fork_name (ic_fork_context receiver) in
  ic_protocol receiver = oc_protocol sender /\ of_version (versioned_protocol (oc_protocol sender)) r /\
  ic_max_packet_size receiver <= 2 ^ 31 /\ within_maximum (ic_chain_config receiver) phase r /\
  exists limits, rpc_request_limits (ic_protocol receiver) (ic_chain_config receiver) phase = Some limits /\
    is_out_of_bounds limits (blen payload) (ic_max_packet_size receiver) = false.

Lemma goodbye_round_trip (x : GoodbyeReason) b : to_ssz x = Ok b -> from_ssz_default b = Ok x.
Proof.
  intros Hx. change (GoodbyeReason_read b = Ok x). unfold GoodbyeReason_read.
  change (to_ssz (GoodbyeReason_into_u64 x) = Ok b) in Hx.
  rewrite (ssz_round_trip _ _ Hx). by destruct x.
Qed.

Lemma handle_rpc_request_reads sender config phase r b :
  request_bytes sender r = Some (Some (Ok b)) ->
  of_version (versioned_protocol (oc_protocol sender)) r -> within_maximum config phase r ->
  handle_rpc_request config (versioned_protocol (oc_protocol sender)) b phase =
    Ok (Some (negotiated_request (versioned_protocol (oc_protocol sender)) r)).
Proof.
  unfold request_bytes, of_version. destruct (versioned_protocol (oc_protocol sender)) eqn:Hv, r;
    simpl; rewrite ?Hv; try done; crush_match; try done; intros [= E] _ Hw; try read_back;
    apply ssz_write_Ok in E; simpl in E.
  all: first [ by rewrite (goodbye_round_trip _ _ E)
             | by rewrite (roots_law _ _ _ E Hw)
             | by rewrite (blob_ids_law _ _ _ E Hw); destruct r
             | by rewrite (column_ids_law _ _ _ E Hw); destruct r ].
Qed.

End contract.

Section requests.
Context `{WireLaws}.

Lemma body_not_metadata sender r b :
  request_bytes sender r = Some (Some (Ok b)) -> of_version (versioned_protocol (oc_protocol sender)) r ->
  SupportedProtocol_protocol (versioned_protocol (oc_protocol sender)) <> Protocol.MetaData.
Proof.
  unfold of_version. destruct (versioned_protocol (oc_protocol sender)), r; simpl; try done;
    by crush_match.
Qed.

(** A decoder of a protocol with a request body. *)
Lemma Inbound_decode_eq self src :
  SupportedProtocol_protocol (versioned_protocol (ic_protocol self)) <> Protocol.MetaData ->
  Inbound_decode self src =
    let v := versioned_protocol (ic_protocol self) in
    let '(length, len, src) := handle_length (ic_len self) src in
    let self := set_ic_len self len in
    match length with
    | Err e => Some (Err e, self, src)
    | Ok None => Some (Ok None, self, src)
    | Ok (Some length) =>
        let* ssz_limits := rpc_request_limits (ic_protocol self) (ic_chain_config self)
                             (current_fork_name (ic_fork_context self)) in
        if is_out_of_bounds ssz_limits length (ic_max_packet_size self) then
          Some (Err (InvalidData
                  (str "RPC request length for protocol " ++ str (SupportedProtocol_debug v) ++
                   str " is out of bounds, length " ++ bytes (print_u64 length))), self, src)
        else
          match read_payload length src with
          | inl (decoded_buffer, src) =>
              Some (handle_rpc_request (ic_chain_config self) v decoded_buffer
                      (current_fork_name (ic_fork_context self)), set_ic_len self None, src)
          | inr r => Some (r, self, src)
          end
    end.
Proof. intros Hv. unfold Inbound_decode. by destruct (versioned_protocol (ic_protocol self)). Qed.

Lemma inbound_understands sender receiver r payload :
  ic_len receiver = None -> request_bytes sender r = Some (Some (Ok payload)) ->
  acceptable_request sender receiver r payload ->
  understands Inbound_decode receiver 0 (body payload)
    (negotiated_request (versioned_protocol (oc_protocol sender)) r).
Proof.
  intros Hl Hb (Hproto & Hver & H31 & Hmax & limits & Hlim & Ho).
  pose proof (body_not_metadata _ _ _ Hb Hver) as Hm. rewrite <- Hproto in Hm.
  assert (blen payload <= 2 ^ 31) as Hlen.
  { unfold is_out_of_bounds in Ho. bool_to_Prop. lia. }
  assert (set_ic_len receiver None = receiver) as Hsame by (destruct receiver; simpl in *; by subst).
  constructor.
  - lia.
  - intros p q Hp Hq. rewrite Inbound_decode_eq, Hl by done. cbv zeta.
    apply prefix_split in Hp as [(q' & Hp & Hq' & _)|(p' & -> & Hp)].
    + rewrite (handle_length_part _ _ _ Hlen Hp Hq'). eexists _, _. split; [done|lia].
    + rewrite handle_length_whole by done. simpl. rewrite Hlim, Ho, (read_payload_part _ _ _ Hlen Hp Hq).
      eexists _, _. split; [done|lia].
  - intros rest. rewrite Inbound_decode_eq, Hl by done. cbv zeta. unfold body.
    rewrite <- app_assoc, handle_length_whole by done. simpl. rewrite Hlim, Ho, read_payload_whole by done.
    rewrite Hproto, (handle_rpc_request_reads _ _ _ _ _ Hb Hver Hmax).
    change (set_ic_len (set_ic_len receiver (Some (blen payload))) None) with (set_ic_len receiver None).
    by rewrite Hsame.
  - lia.
  - intros s b s' b' more Hd _. by apply Inbound_decode_resumes.
Qed.

(** A decoder that waits has little in its buffer. *)
Lemma read_payload_wait {T} l src :
  read_payload (T := T) l src = inr (Ok None) -> blen src < max_compress_len l.
Proof.
  unfold read_payload. destruct (frame_read_exact _ _) as [[b|e] n] eqn:Hf; [done|].
  unfold handle_error. intros [= Hk]. destruct (io_kind e) eqn:Hkind; [|done].
  pose proof (frame_eof _ _ _ _ Hf Hkind) as ->. case_match; [done|]. bool_to_Prop.
  unfold blen in *. rewrite length_take in *. lia.
Qed.

Definition small_wait (len : option Z) (in_bounds : Z -> Prop) (rest : Bytes) : Prop :=
  (length rest < 10)%nat \/ exists l, len = Some l /\ in_bounds l /\ blen rest < max_compress_len l.

Lemma decode_response_wait s src s' rest :
  decode_response s src = (Ok None, s', rest) ->
  small_wait (oc_len s') (fun l => is_out_of_bounds (rpc_response_limits (oc_protocol s) (oc_fork_context s))
    l (oc_max_packet_size s) = false) rest.
Proof.
  unfold decode_response. destruct (read_context s src) as [[[[|]|e] s1] b1] eqn:Hc; [| |done].
  2: { intros [= <- <-]. left. unfold read_context in Hc.
       destruct (has_context_bytes _), (oc_phase s); try done.
       destruct (_ <=? _)%nat eqn:Hle; [by destruct (context_bytes_to_phase _ _)|].
       apply Nat.leb_gt in Hle. unfold CONTEXT_BYTES_LEN in Hle. injection Hc as _ <-. lia. }
  assert (oc_protocol s1 = oc_protocol s /\ oc_fork_context s1 = oc_fork_context s /\
    oc_max_packet_size s1 = oc_max_packet_size s) as (<- & <- & <-).
  { unfold read_context in Hc. by repeat case_match; simplify_eq. }
  destruct (handle_length (oc_len s1) b1) as [[[[l|]|e] len] b2] eqn:Hl; [| |done].
  2: { intros [= <- <-]. left. unfold handle_length in Hl. repeat case_match; simplify_eq.
       by apply uvi_wait. }
  destruct (handle_length_more _ _ _ _ _ [] Hl) as [-> _]. simpl.
  destruct (is_out_of_bounds _ _ _) eqn:Ho; [done|].
  destruct (read_payload l b2) as [[d b3]|r] eqn:Hr.
  - intros [=]. by edestruct handle_rpc_response_some.
  - intros [= -> <- <-]. right. exists l. by apply read_payload_wait in Hr.
Qed.

Lemma decode_error_wait s src s' rest :
  decode_error s src = (Ok None, s', rest) ->
  small_wait (oc_len s') (fun l => l <= oc_max_packet_size s /\ ERROR_TYPE_MIN <= l <= ERROR_TYPE_MAX) rest.
Proof.
  unfold decode_error.
  destruct (handle_length (oc_len s) src) as [[[[l|]|e] len] b2] eqn:Hl; [| |done].
  2: { intros [= <- <-]. left. unfold handle_length in Hl. repeat case_match; simplify_eq.
       by apply uvi_wait. }
  destruct (handle_length_more _ _ _ _ _ [] Hl) as [-> _]. simpl.
  destruct (_ || _) eqn:Ho; [done|]. bool_to_Prop.
  destruct (read_payload l b2) as [[d b3]|r] eqn:Hr.
  - intros [= Hm _ _]. by destruct (ssz_read _).
  - intros [= -> <- <-]. right. exists l. apply read_payload_wait in Hr. split_and!; done || lia.
Qed.

End requests.

(** ** The upgrade of an inbound substream ([RPCProtocol::upgrade_inbound]) *)

Definition REQUEST_TIMEOUT : Z := 15.

(** What a framed stream yields first within [REQUEST_TIMEOUT] seconds. *)
Inductive FirstItem {T : Type} :=
  | FirstTimeout
  | FirstItemOk (r : T)
  | FirstItemErr (e : RPCError)
  | FirstEnd.
Arguments FirstItem T : clear implicits.

Section upgrade.
Context `{Wire}.

(** The codec of the stream, and the request or the error of the upgrade. *)
Definition upgrade_inbound (self : RPCProtocol) (protocol : ProtocolId) (first : FirstItem RequestType)
  : result RequestType RPCError * InboundCodec :=
  let codec := InboundCodec_new (rp_chain_config self) protocol (rp_max_rpc_size self)
                 (rp_fork_context self) in
  (match versioned_protocol protocol with
   | MetaDataV1 => Ok (ReqMetaData MetadataRequest_V1)
   | MetaDataV2 => Ok (ReqMetaData MetadataRequest_V2)
   | MetaDataV3 => Ok (ReqMetaData MetadataRequest_V3)
   | LightClientOptimisticUpdateV1 => Ok ReqLightClientOptimisticUpdate
   | LightClientFinalityUpdateV1 => Ok ReqLightClientFinalityUpdate
   | _ =>
       match first with
       | FirstTimeout => Err StreamTimeout
       | FirstItemOk request => Ok request
       | FirstItemErr e => Err e
       | FirstEnd => Err IncompleteStream
       end
   end, codec).

(** ** The upgrade of an outbound substream ([rpc/outbound.rs]) *)

Record OutboundRequestContainer := mkOutboundRequestContainer {
  orc_req : RequestType;
  orc_fork_context : ForkContext;
  orc_max_rpc_size : Z;
}.

Definition outbound_protocol_info (self : OutboundRequestContainer) : list ProtocolId :=
  request_supported_protocols (orc_req self).

(** [send] and [close] are what the socket answers to the flush of the encoded request and to the
    closing of the writing side; the result has the codec of the stream and the bytes sent. *)
Definition upgrade_outbound (self : OutboundRequestContainer) (protocol : ProtocolId)
  (send close : result unit RPCError) : option (result (OutboundCodec * Bytes) RPCError) :=
  let codec := OutboundCodec_new protocol (orc_max_rpc_size self) (orc_fork_context self) in
  let* encoded := Outbound_encode codec (orc_req self) [] in
  Some (let? _ := encoded.1 in let? _ := send in let? _ := close in Ok (codec, encoded.2)).

End upgrade.

(** ** Theorems *)

Section codec_theorems.
Context `{WireLaws}.

Lemma Inbound_encode_ok sender receiver resp payload dst :
  response_bytes sender resp = Some (Ok payload) -> blen payload <= ic_max_packet_size sender ->
  acceptable sender receiver resp payload ->
  exists wire, Inbound_encode sender resp dst = Some (Ok tt, wire).
Proof.
  intros Hb Hs (_ & _ & _ & Ha). unfold Inbound_encode, encode_response. rewrite Hb.
  rewrite (proj2 (Z.ltb_ge _ _) Hs). unfold response_context_bytes.
  destruct resp as [r|c m|t]; simpl; [|destruct (has_context_bytes _); simpl; by eauto|done].
  destruct Ha as (_ & _ & Hc). destruct (has_context_bytes _); [|by eauto].
  destruct Hc as (_ & slot & digest & phase & -> & -> & _). eauto.
Qed.

(** C27: a response that was serialised and fits the limits of both ends is encoded without a panic,
    and however the network cuts the encoding into pieces, and whatever follows it, the decoder of
    the peer waits until the response is complete, yields exactly the response in the negotiated
    version, is back in its initial state, and leaves the bytes that follow untouched. *)
Theorem response_delivered sender max fork_context resp payload dst :
  let receiver := OutboundCodec_new (ic_protocol sender) max fork_context in
  response_bytes sender resp = Some (Ok payload) -> blen payload <= ic_max_packet_size sender ->
  acceptable sender receiver resp payload ->
  exists wire, Inbound_encode sender resp dst = Some (Ok tt, wire) /\
    forall pieces rest, concat pieces = wire ++ rest ->
    exists buf later,
      feed (fun s b => Some (Outbound_decode s b)) receiver [] pieces =
        Some (Some (Ok (negotiated_response sender resp)), receiver, buf, later) /\
      buf ++ concat later = rest.
Proof.
  intros receiver Hb Hs Ha. destruct (Inbound_encode_ok _ _ _ _ dst Hb Hs Ha) as [wire He].
  exists wire. split; [done|]. intros pieces rest Hc.
  pose proof (outbound_understands sender receiver eq_refl _ _ _ _ Hb He Ha) as Hu.
  eapply feed_understood; [exact Hu| |done].
  intros ->. pose proof (wire_least _ _ _ _ _ Hu) as Hw. simpl in Hw. lia.
Qed.

(** C28: the same for requests: the encoder appends to the buffer a message that the peer's decoder
    reads back however it is cut; a list in the request must not exceed the reader's maximum. *)
Theorem request_delivered sender receiver r payload dst :
  ic_len receiver = None -> request_bytes sender r = Some (Some (Ok payload)) ->
  blen payload <= oc_max_packet_size sender -> acceptable_request sender receiver r payload ->
  exists wire, Outbound_encode sender r dst = Some (Ok tt, dst ++ wire) /\
    forall pieces rest, concat pieces = wire ++ rest ->
    exists buf later,
      feed Inbound_decode receiver [] pieces =
        Some (Some (Ok (negotiated_request (versioned_protocol (oc_protocol sender)) r)), receiver,
              buf, later) /\
      buf ++ concat later = rest.
Proof.
  intros Hl Hb Hs Ha. exists (body payload). split.
  - unfold Outbound_encode. rewrite Hb. by rewrite (proj2 (Z.ltb_ge _ _) Hs).
  - intros pieces rest Hc. eapply feed_understood; [by eapply inbound_understands| |done].
    apply body_nonempty.
Qed.

(** C29: on any bytes at all, a decoder that has returned [Ok None] loses nothing: continuing from its
    new state and buffer gives what decoding everything from the start gives.  (The outbound decoder
    waits without looking while it has at most one byte.) *)
Theorem decoding_resumes :
  (forall s b s' b' more, Outbound_decode s b = (Ok None, s', b') -> (2 <= length (b' ++ more))%nat ->
     Outbound_decode s' (b' ++ more) = Outbound_decode s (b ++ more)) /\
  (forall s b s' b' more, Inbound_decode s b = Some (Ok None, s', b') ->
     Inbound_decode s' (b' ++ more) = Inbound_decode s (b ++ more)).
Proof. split; intros; [by apply Outbound_decode_resumes | by apply Inbound_decode_resumes]. Qed.

(** C30: a peer cannot make the outbound decoder buffer without end: whenever the decoder waits, it
    holds fewer than ten bytes, or it has accepted a length within the bounds of the message and
    holds fewer bytes than the worst-case compression of that length. *)
Theorem waiting_is_bounded s src s' rest :
  Outbound_decode s src = (Ok None, s', rest) ->
  small_wait (oc_len s')
    (fun l => l <= oc_max_packet_size s /\
       (is_out_of_bounds (rpc_response_limits (oc_protocol s) (oc_fork_context s)) l
          (oc_max_packet_size s) = false \/
        ERROR_TYPE_MIN <= l <= ERROR_TYPE_MAX)) rest.
Proof.
  unfold Outbound_decode. destruct (length src <=? 1)%nat eqn:Hs.
  { intros [= <- <-]. left. apply Nat.leb_le in Hs. lia. }
  assert (exists code s1 b1, take_response_code s src = (code, s1, b1) /\
    oc_protocol s1 = oc_protocol s /\ oc_fork_context s1 = oc_fork_context s /\
    oc_max_packet_size s1 = oc_max_packet_size s) as (code & s1 & b1 & -> & <- & <- & <-).
  { unfold take_response_code. destruct (oc_current_response_code s); eauto 10. }
  destruct (is_response code).
  - destruct (decode_response s1 b1) as [[[[r|]|e] s2] b2] eqn:E; intros; simplify_eq/=.
    apply decode_response_wait in E as [?|(l & Hl & Ho & Hr)]; [by left|]. right.
    exists l. split_and!; try done; [|by left]. unfold is_out_of_bounds in Ho. bool_to_Prop. lia.
  - destruct (decode_error s1 b1) as [[[[r|]|e] s2] b2] eqn:E; intros; simplify_eq/=.
    apply decode_error_wait in E as [?|(l & Hl & Ho & Hr)]; [by left|]. right.
    exists l. split_and!; try done; [lia|right; lia].
Qed.

End codec_theorems.

(** ** Examples

    A concrete instance of the formats: every number is one byte, a block is its slot followed by
    padding, and a frame is a marker followed by the data. *)

Module ToyWire.

Definition pad (n : nat) (x : Z) : Bytes := x :: repeat 0 n.

(** A block belongs to the phase of its slot. *)
Definition phase_of (slot : Z) : Phase :=
  @config_phase_at_epoch Toy.chain tt (@compute_epoch_at_slot Toy.chain slot).

Definition read_phased (variant : Z -> Phase) (p : Phase) (b : Bytes) : result Z (list Z) :=
  match b with
  | x :: _ => if decide (variant x = p) then Ok x else Err []
  | [] => Err []
  end.

Definition read_one (b : Bytes) : result Z (list Z) :=
  match b with x :: _ => Ok x | [] => Err [] end.

Definition read_list {A} `{Countable A} (max : Z) (b : Bytes) : result (list A) (list Z) :=
  match b with
  | [Z.pos p] =>
      match decode p with
      | Some l => if Z.of_nat (length l) <=? max then Ok l else Err []
      | None => Err []
      end
  | _ => Err []
  end.

Definition write_list {A} `{Countable A} (l : list A) : result Bytes (list Z) := Ok [Z.pos (encode l)].

Definition frame_read (src : Bytes) (l : Z) : result Bytes IoErr * Z :=
  if l =? 0 then (Ok [], 0)
  else match src with
       | [] => (Err (mkIoErr UnexpectedEof []), 0)
       | marker :: r =>
           if negb (marker =? 255) then (Err (mkIoErr OtherKind (str "corrupt input")), 1)
           else if l <=? blen r then (Ok (take (Z.to_nat l) r), l + 1)
           else (Err (mkIoErr UnexpectedEof []), blen src)
       end.

Definition frame_write (b : Bytes) : Bytes := match b with [] => [] | b => 255 :: b end.

Definition variant_of (slot : Z) : Phase := light_client_variant (phase_of slot).

#[local] Instance wire : @Wire Toy.chain := {
  preset_name := Mainnet; MaxExtraDataBytes := 32; NumberOfColumns := 8;
  u64_write := fun x => Ok [x]; u64_read := read_one; u64_size := 1;
  H256_write := fun x => Ok [x]; H256_read := read_one; H256_size := 1;
  status_v1_write := fun m => Ok [s1_fork_digest m; s1_finalized_root m; s1_finalized_epoch m;
                                  s1_head_root m; s1_head_slot m];
  status_v1_read := fun b => match b with [a; b; c; d; e] => Ok (@mkStatusV1 Toy.chain a b c d e) | _ => Err [] end;
  status_v1_size := 5;
  status_v2_write := fun m => Ok [s2_fork_digest m; s2_finalized_root m; s2_finalized_epoch m;
                                  s2_head_root m; s2_head_slot m; s2_earliest_available_slot m];
  status_v2_read := fun b =>
    match b with [a; b; c; d; e; f] => Ok (@mkStatusV2 Toy.chain a b c d e f) | _ => Err [] end;
  status_v2_size := 6;
  metadata_v1_write := fun m => Ok (md1_seq_number m :: map (Z.b2z) (md1_attnets m));
  metadata_v1_read := fun b =>
    match b with n :: l => Ok (mkMetaDataV1 n (map (Z.eqb 1) l)) | [] => Err [] end;
  metadata_v1_size := 1;
  metadata_v2_write := fun m => Ok [md2_seq_number m; Z.pos (encode (md2_attnets m, md2_syncnets m))];
  metadata_v2_read := fun b =>
    match b with
    | [n; Z.pos p] => match decode p with Some (a, s) => Ok (mkMetaDataV2 n a s) | None => Err [] end
    | _ => Err []
    end;
  metadata_v3_write := fun m => Ok [md3_seq_number m; Z.pos (encode (md3_attnets m, md3_syncnets m));
                                    md3_custody_group_count m];
  metadata_v3_read := fun b =>
    match b with
    | [n; Z.pos p; c] => match decode p with Some (a, s) => Ok (mkMetaDataV3 n a s c) | None => Err [] end
    | _ => Err []
    end;
  metadata_v3_size := 3;
  range_v1_write := fun r => Ok [bbr1_start_slot r; bbr1_count r; bbr1_step r];
  range_v1_read := fun b => match b with [a; b; c] => Ok (mkOldBBRV1 a b c) | _ => Err [] end;
  range_v2_write := fun r => Ok [bbr2_start_slot r; bbr2_count r; bbr2_step r];
  range_v2_read := fun b => match b with [a; b; c] => Ok (mkOldBBRV2 a b c) | _ => Err [] end;
  range_v2_size := 3;
  blobs_range_write := fun r => Ok [blbr_start_slot r; blbr_count r];
  blobs_range_read := fun b => match b with [a; b] => Ok (mkBlobsByRange a b) | _ => Err [] end;
  blobs_range_size := 2;
  columns_range_write := fun r => Ok (dcbr_start_slot r :: dcbr_count r :: dcbr_columns r);
  columns_range_read := fun b => match b with a :: b :: l => Ok (mkDCByRange a b l) | _ => Err [] end;
  light_client_range_write := fun r => Ok [lcu_start_period r; lcu_count r];
  light_client_range_read := fun b => match b with [a; b] => Ok (mkLCUpdates a b) | _ => Err [] end;
  BlobIdentifier_SIZE := 2;
  roots_write := write_list; roots_read := read_list;
  blob_ids_write := write_list; blob_ids_read := read_list;
  column_ids_write := write_list; column_ids_read := read_list;
  error_message_write := fun m => if (length m <=? 256)%nat then Ok m else Err [];
  error_message_read := fun b => Ok b;
  block_write := fun b => Ok (pad 403 b); block_read := read_phased phase_of;
  blob_write := fun b => Ok [b]; blob_read := read_one;
  column_write := fun b => Ok [b]; column_read := read_phased phase_of;
  bootstrap_write := fun b => Ok [b]; bootstrap_read := read_phased variant_of;
  optimistic_write := fun b => Ok [b]; optimistic_read := read_phased variant_of;
  finality_write := fun b => Ok [b]; finality_read := read_phased variant_of;
  update_write := fun b => Ok [b]; update_read := read_phased variant_of;
  block_slot := fun b => b; blob_slot := fun b => b; column_slot := fun b => b;
  bootstrap_slot := fun b => b; optimistic_signature_slot := fun b => b;
  finality_signature_slot := fun b => b; update_signature_slot := fun b => b;
  AltairLightClientUpdate_SIZE := 1; AltairLightClientFinalityUpdate_SIZE := 1;
  AltairLightClientOptimisticUpdate_SIZE := 1; AltairLightClientBootstrap_SIZE := 1;
  DATA_COLUMN_FULU_MIN := 1; DATA_COLUMN_FULU_MAX := 1;
  DATA_COLUMN_GLOAS_MIN := 1; DATA_COLUMN_GLOAS_MAX := 1;
  digest_as_bytes := fun d => [d; 0; 0; 0]; digest_from_slice := fun b => hd 0 b;
  hex_encode := fun b => b;
  uvi_encode := fun n => [n];
  uvi_decode := fun b => match b with n :: rest => Ok (Some (n, rest)) | [] => Ok None end;
  frame_encode := frame_write; frame_read_exact := frame_read;
  max_compress_len := fun n => 32 + n + n / 6;
}.

Lemma read_phased_law (variant : Z -> Phase) x n : read_phased variant (variant x) (pad n x) = Ok x.
Proof. simpl. by rewrite decide_True. Qed.

Lemma read_list_law {A} `{Countable A} (l : list A) b max :
  write_list l = Ok b -> Z.of_nat (length l) <= max -> read_list max b = Ok l.
Proof.
  intros [= <-] Hl. unfold read_list. rewrite decode_encode. by rewrite (proj2 (Z.leb_le _ _) Hl).
Qed.

Lemma bits_law l : map (Z.eqb 1) (map Z.b2z l) = l.
Proof. induction l as [|[|] l IH]; simpl; by rewrite ?IH. Qed.

Lemma frame_read_whole b rest : frame_read (frame_write b ++ rest) (blen b) = (Ok b, blen (frame_write b)).
Proof.
  destruct b as [|x b]; [done|]. unfold frame_read, frame_write.
  rewrite (proj2 (Z.eqb_neq _ 0)) by (unfold blen; simpl; lia).
  rewrite <- app_comm_cons. simpl negb. cbv iota.
  rewrite (proj2 (Z.leb_le _ _)) by (unfold blen; rewrite length_app; lia).
  unfold blen. rewrite Nat2Z.id, take_app_length. f_equal. simpl. lia.
Qed.

Lemma frame_read_part b p q : frame_write b = p ++ q -> q <> [] ->
  exists e n, frame_read p (blen b) = (Err e, n) /\ io_kind e = UnexpectedEof.
Proof.
  destruct b as [|x b]; simpl; [by destruct p, q|]. unfold frame_read.
  rewrite (proj2 (Z.eqb_neq _ 0)) by (unfold blen; simpl; lia).
  intros Hp Hq. destruct p as [|y p]; [by eexists _, _|]. simpl in Hp. injection Hp as <- Hp.
  rewrite (proj2 (Z.leb_gt _ _)); [by eexists _, _|].
  rewrite Hp. unfold blen. rewrite length_app. destruct q; [done|simpl; lia].
Qed.

Lemma frame_read_eof b l e n : frame_read b l = (Err e, n) -> io_kind e = UnexpectedEof -> n = blen b.
Proof. unfold frame_read. intros. repeat case_match; by simplify_eq. Qed.

#[local,refine] Instance laws : @WireLaws Toy.chain wire := {
  block_phase := phase_of; column_phase := phase_of; bootstrap_phase := variant_of;
  optimistic_phase := variant_of; finality_phase := variant_of; update_phase := variant_of;
}.
Proof.
  all: try (intros x b [= <-]; first [done | by destruct x | by apply read_phased_law with (n := 0%nat)
      | by apply read_phased_law with (n := 403%nat)]).
  all: try (intros ???; by apply read_list_law).
  - intros x b [= <-]. destruct x. cbv [from_ssz_default metadata_v1_read wire]. simpl. by rewrite bits_law.
  - intros x b [= <-]. destruct x. cbv [from_ssz_default metadata_v2_read wire]. by rewrite decode_encode.
  - intros x b [= <-]. destruct x. cbv [from_ssz_default metadata_v3_read wire]. by rewrite decode_encode.
  - simpl. intros m b. destruct (length m <=? 256)%nat eqn:Hl; [|done]. intros [= <-].
    apply Nat.leb_le in Hl. unfold blen, ERROR_TYPE_MAX. split; [done|lia].
  - done.
  - done.
  - done.
  - done.
  - simpl. intros n [|x p] q _ Hp Hq; [done|]. injection Hp as _ Hp. by destruct p, q.
  - simpl. intros [|x b]; [simpl; lia|done].
  - simpl. intros [|x b] n rest more; [done|]. by intros [= -> ->].
  - done.
  - simpl. intros [|x b]; [done|]. unfold blen, frame_write. simpl. lia.
  - intros [|x b] _; [done|].
    change (blen ([255] ++ x :: b) <= 32 + blen (x :: b) + blen (x :: b) / 6).
    assert (0 <= blen (x :: b) / 6) by (apply Z.div_pos; unfold blen; lia).
    rewrite blen_app. change (blen [255]) with 1. lia.
  - apply frame_read_whole.
  - apply frame_read_part.
  - apply frame_read_eof.
Defined.

End ToyWire.

Module CodecExamples.

#[local] Existing Instance Toy.chain.
#[local] Existing Instance ToyWire.wire.
#[local] Existing Instance ToyWire.laws.

Definition fork_context : ForkContext := default (mkForkContext tt (mkHardFork Phase0 0 0) [])
  (ForkContext_new tt 1650 0).

Definition blocks_v2 : ProtocolId := ProtocolId_new BlocksByRangeV2 SSZSnappy.
Definition server : InboundCodec := InboundCodec_new tt blocks_v2 10000 fork_context.
Definition client : OutboundCodec := OutboundCodec_new blocks_v2 10000 fork_context.

(** A block of slot 1605, in the Electra phase. *)
Definition response : RpcResponse := RpcSuccess (RespBlocksByRange 1605).
Definition payload : Bytes := ToyWire.pad 403 1605.

Lemma response_acceptable : acceptable server client response payload.
Proof.
  split; [reflexivity|]. split; [done|]. split; [done|]. split; [reflexivity|]. split; [evaluate|].
  split; [done|]. exists 1605, 1050, Electra. split_and!; [reflexivity|evaluate|evaluate|].
  change (Some Electra = Some (ToyWire.phase_of 1605)). evaluate.
Qed.

(** The encoding cut after 1, 3, 7 and 100 bytes, followed by the start of the next chunk. *)
Definition cut (b : Bytes) : list Bytes :=
  [take 1 b; take 2 (drop 1 b); take 4 (drop 3 b); take 93 (drop 7 b); drop 100 b ++ [0; 26]].

Lemma cut_concat b : concat (cut b) = b ++ [0; 26].
Proof.
  unfold cut. simpl. rewrite app_nil_r.
  rewrite <- (take_drop 1 b) at 6. rewrite <- (take_drop 2 (drop 1 b)) at 2. rewrite drop_drop. simpl.
  rewrite <- (take_drop 4 (drop 3 b)) at 2. rewrite drop_drop. simpl.
  rewrite <- (take_drop 93 (drop 7 b)) at 2. rewrite drop_drop. simpl.
  by rewrite <- !app_assoc.
Qed.

Lemma response_delivered_witness :
  exists wire, Inbound_encode server response [] = Some (Ok tt, wire) /\
    exists buf later,
      feed (fun s b => Some (Outbound_decode s b)) client [] (cut wire) =
        Some (Some (Ok response), client, buf, later) /\ buf ++ concat later = [0; 26].
Proof.
  destruct (response_delivered server 10000 fork_context response payload [])
    as (wire & He & Hf); [reflexivity|done|exact response_acceptable|].
  exists wire. split; [exact He|]. exact (Hf (cut wire) [0; 26] (cut_concat wire)).
Defined.

(** The bytes on the wire: the code, the fork digest, the length and the compressed block. *)
Example response_layout :
  Inbound_encode server response [] =
    Some (Ok tt, 0 :: [1050; 0; 0; 0] ++ 404 :: 255 :: payload).
Proof. evaluate. Qed.

(** A request for block roots on the older protocol version. *)
Definition roots_v1 : ProtocolId := ProtocolId_new BlocksByRootV1 SSZSnappy.
Definition roots_server : InboundCodec := InboundCodec_new tt roots_v1 10000 fork_context.
Definition roots_client : OutboundCodec := OutboundCodec_new roots_v1 10000 fork_context.
Definition roots_request : RequestType := ReqBlocksByRoot (BBRoot_V1 [7; 8]).
Definition roots_payload : Bytes := [Z.pos (encode [7; 8])].

Lemma request_delivered_witness :
  exists wire, Outbound_encode roots_client roots_request [9] = Some (Ok tt, 9 :: wire) /\
    exists buf later,
      feed Inbound_decode roots_server [] [[]; take 1 wire; drop 1 wire ++ [5]] =
        Some (Some (Ok roots_request), roots_server, buf, later) /\ buf ++ concat later = [5].
Proof.
  destruct (request_delivered roots_client roots_server roots_request roots_payload [9])
    as (wire & He & Hf); [reflexivity|reflexivity|done| |].
  - split; [reflexivity|]. split; [reflexivity|]. split; [done|]. split; [vm_compute; discriminate|].
    exists (RpcLimits_new 0 1024). split; evaluate.
  - exists wire. split; [exact He|].
    destruct (Hf [[]; take 1 wire; drop 1 wire ++ [5]] [5]) as (buf & later & Hr & Hb).
    { simpl. rewrite app_nil_r, app_assoc, take_drop. done. }
    exists buf, later. split; [exact Hr|exact Hb].
Defined.

Definition split_3 : result (option RpcResponse) RPCError * OutboundCodec * Bytes :=
  Outbound_decode client [0; 26; 4].

Lemma decoding_resumes_witness :
  Outbound_decode split_3.1.2 (split_3.2 ++ [0; 0; 255; 9]) =
    Outbound_decode client [0; 26; 4; 0; 0; 255; 9].
Proof.
  destruct decoding_resumes as [Ho _].
  apply (Ho client [0; 26; 4] split_3.1.2 split_3.2 [0; 0; 255; 9]); [evaluate|].
  vm_compute. lia.
Defined.

Lemma waiting_is_bounded_witness :
  let d := Outbound_decode client (0 :: [1050; 0; 0; 0] ++ 404 :: 255 :: take 200 payload) in
  d.1.1 = Ok None /\ length d.2 = 201%nat /\
  small_wait (oc_len d.1.2)
    (fun l => l <= oc_max_packet_size client /\
       (is_out_of_bounds (rpc_response_limits (oc_protocol client) (oc_fork_context client)) l
          (oc_max_packet_size client) = false \/
        ERROR_TYPE_MIN <= l <= ERROR_TYPE_MAX)) d.2.
Proof.
  intros d. split; [evaluate|]. split; [evaluate|].
  apply (waiting_is_bounded client (0 :: [1050; 0; 0; 0] ++ 404 :: 255 :: take 200 payload) d.1.2 d.2).
  evaluate.
Defined.

End CodecExamples.
