(* ===== verification/Float64.v ===== *)
(** * Binary64 arithmetic

    The [f64] of the source is IEEE 754 binary64, the [spec_float] of the Standard Library with 53 bits
    of precision and maximal exponent 1024.  Operations are the library's, rounded to nearest even.
    The lemmas bound the rounding of products and sums of scores. *)

From Stdlib Require Export SpecFloat.
From S2P Require Import Prelude.

Definition prec64 : Z := 53.
Definition emax64 : Z := 1024.

Abbreviation f64 := spec_float.

Definition f64_add : f64 -> f64 -> f64 := SFadd prec64 emax64.
Definition f64_mul : f64 -> f64 -> f64 := SFmul prec64 emax64.
Definition f64_div : f64 -> f64 -> f64 := SFdiv prec64 emax64.
Definition f64_neg : f64 -> f64 := SFopp.
(** [n as f64], and integer literals. *)
Definition f64_of_Z (n : Z) : f64 := binary_normalize prec64 emax64 n 0 false.

Definition f64_partial_cmp : f64 -> f64 -> option comparison := SFcompare.
Definition f64_lt (x y : f64) : bool := SFltb x y.
Definition f64_le (x y : f64) : bool := SFleb x y.
Definition f64_is_nan (x : f64) : bool := match x with S754_nan => true | _ => false end.
Definition f64_INFINITY : f64 := S754_infinity false.

(** [f64::clamp]. *)
Definition f64_clamp (x lo hi : f64) : f64 :=
  let x := if f64_lt x lo then lo else x in
  if f64_lt hi x then hi else x.

(** [2.0f64.ln()]: the double nearest to the logarithm of two. *)
Definition f64_LN_2 : f64 := S754_finite false 6243314768165359 (-53).

(** A value the arithmetic produces: canonical, and not a NaN. *)
Definition f64_valid (x : f64) : Prop := valid_binary prec64 emax64 x = true.
Definition f64_number (x : f64) : Prop := f64_valid x /\ f64_is_nan x = false.
Definition f64_between (lo hi x : f64) : Prop := f64_le lo x = true /\ f64_le x hi = true.

(** ** Digits and shifts *)

Lemma digits2_bounds p :
  2 ^ (Zpos (digits2_pos p) - 1) <= Zpos p < 2 ^ Zpos (digits2_pos p).
Proof.
  induction p as [p IH|p IH|]; simpl digits2_pos; [| |simpl; lia];
    rewrite !Pos2Z.inj_succ;
    (replace (Z.succ (Zpos (digits2_pos p)) - 1) with (Z.succ (Zpos (digits2_pos p) - 1)) by lia);
    rewrite !Z.pow_succ_r by lia; [rewrite (Pos2Z.inj_xI p)|rewrite (Pos2Z.inj_xO p)]; lia.
Qed.

Lemma digits2_unique p d : 2 ^ (d - 1) <= Zpos p < 2 ^ d -> Zpos (digits2_pos p) = d.
Proof.
  intros Hp. pose proof (digits2_bounds p) as Hd. set (q := Zpos (digits2_pos p)) in *.
  assert (0 <= d) by (destruct (Z.le_gt_cases 0 d); [done|rewrite (Z.pow_neg_r 2 d) in Hp by lia; lia]).
  assert (q - 1 < d) by (apply (Z.pow_lt_mono_r_iff 2); lia).
  assert (d - 1 < q) by (apply (Z.pow_lt_mono_r_iff 2); lia). lia.
Qed.

Lemma iter_pos_nat {A} (f : A -> A) p : forall x, SpecFloat.iter_pos f p x = Nat.iter (Pos.to_nat p) f x.
Proof.
  induction p as [p IH|p IH|]; intros x; [| |done]; cbn [SpecFloat.iter_pos]; rewrite !IH, <- Nat.iter_add.
  - rewrite <- Nat.iter_succ_r. f_equal. lia.
  - f_equal. lia.
Qed.

Lemma shr_1_spec m r s :
  0 <= m -> shr_1 (Build_shr_record m r s) = Build_shr_record (m / 2) (Z.odd m) (r || s).
Proof.
  intros Hm. destruct m as [|p|]; [done| |lia]. destruct p as [p|p|]; simpl; try done; f_equal.
  - rewrite Pos2Z.inj_xI, Z.add_comm, Z.mul_comm, Z.div_add by lia. by rewrite Z.div_small.
  - by rewrite Pos2Z.inj_xO, Z.mul_comm, Z.div_mul.
Qed.

(** Shifting right [n] times divides, and the location is exact when nothing is lost. *)
Lemma shr_iter_spec m n :
  0 <= m ->
  let mrs := Nat.iter n shr_1 (Build_shr_record m false false) in
  shr_m mrs = m / 2 ^ Z.of_nat n /\
  (m mod 2 ^ Z.of_nat n = 0 -> loc_of_shr_record mrs = loc_Exact).
Proof.
  intros Hm. induction n as [|n IH]; cbv zeta in *.
  - simpl. by rewrite Z.div_1_r.
  - rewrite Nat.iter_succ. destruct (Nat.iter n shr_1 _) as [m' r s]. simpl in IH. destruct IH as [-> IH].
    rewrite shr_1_spec by (apply Z.div_pos; lia).
    rewrite Nat2Z.inj_succ, Z.pow_succ_r by lia.
    assert (2 ^ Z.of_nat n > 0) by lia. split.
    + simpl. by rewrite (Z.mul_comm 2), Z.div_div by lia.
    + intros Hmod. rewrite (Z.mul_comm 2), Z.rem_mul_r in Hmod by lia.
      pose proof (Z.mod_pos_bound m (2 ^ Z.of_nat n) ltac:(lia)).
      pose proof (Z.mod_pos_bound (m / 2 ^ Z.of_nat n) 2 ltac:(lia)).
      assert (m mod 2 ^ Z.of_nat n = 0) as Hlow by nia.
      assert ((m / 2 ^ Z.of_nat n) mod 2 = 0) as Hhigh by nia.
      specialize (IH Hlow). rewrite Zmod_odd in Hhigh.
      destruct (Z.odd _); [done|]. by destruct r, s.
Qed.

(** ** Rounding *)

Abbreviation fexp64 := (fexp prec64 emax64).
Abbreviation round64 := (binary_round_aux prec64 emax64).

Lemma fexp64_max e : fexp64 e = Z.max (e - 53) (-1074).
Proof. unfold fexp, emin, prec64, emax64. lia. Qed.

(** The rounded value for a mantissa of at most 53 bits, with the carry to the next exponent. *)
Definition f64_make (sx : bool) (m e : Z) : f64 :=
  match m with
  | Zpos p =>
      if m =? 2 ^ 53 then if e + 1 <=? 971 then S754_finite sx (2 ^ 52) (e + 1) else S754_infinity sx
      else if e <=? 971 then S754_finite sx p e else S754_infinity sx
  | _ => S754_zero sx
  end.

Lemma shr_exact m e n :
  0 <= m -> 0 <= n ->
  shr_m (shr (shr_record_of_loc m loc_Exact) e n).1 = m / 2 ^ n /\
  (m mod 2 ^ n = 0 -> loc_of_shr_record (shr (shr_record_of_loc m loc_Exact) e n).1 = loc_Exact) /\
  (shr (shr_record_of_loc m loc_Exact) e n).2 = e + n.
Proof.
  intros Hm Hn. destruct n as [|p|]; [|simpl|lia].
  - simpl. rewrite Z.div_1_r. split_and!; [done..|lia].
  - rewrite iter_pos_nat. pose proof (shr_iter_spec m (Pos.to_nat p) Hm) as [H1 H2].
    rewrite positive_nat_Z in *. done.
Qed.

Lemma shr_nonpos mrs e n : n <= 0 -> shr mrs e n = (mrs, e).
Proof. by destruct n. Qed.

(** The second normalization: a mantissa below [2 ^ 53] stays, [2 ^ 53] is shifted once. *)
Lemma round_second sx m1 e1 :
  0 <= m1 <= 2 ^ 53 -> -1074 <= e1 ->
  (let '(mrs'', e'') := shr_fexp prec64 emax64 m1 e1 loc_Exact in
   match shr_m mrs'' with
   | Z0 => S754_zero sx
   | Zpos m => if e'' <=? emax64 - prec64 then S754_finite sx m e'' else S754_infinity sx
   | _ => S754_nan
   end) = f64_make sx m1 e1.
Proof.
  intros Hm He. unfold shr_fexp. rewrite fexp64_max. change (emax64 - prec64) with 971.
  unfold f64_make. destruct m1 as [|p|]; [|simpl Zdigits2|lia].
  - simpl Zdigits2. rewrite shr_nonpos by lia. done.
  - pose proof (digits2_bounds p) as Hd. destruct (Zpos p =? 2 ^ 53) eqn:E; bool_to_Prop.
    + assert (p = (2 ^ 53)%positive) as -> by (apply Pos2Z.inj; rewrite E; done).
      change (digits2_pos (2 ^ 53)) with 54%positive.
      replace (Z.max _ _ - e1) with 1 by lia. done.
    + assert (Zpos (digits2_pos p) <= 53).
      { destruct (Z.le_gt_cases (Zpos (digits2_pos p)) 53); [done|].
        pose proof (Z.pow_le_mono_r 2 53 (Zpos (digits2_pos p) - 1)). lia. }
      rewrite shr_nonpos by lia. simpl. done.
Qed.

Lemma round_first m e :
  let e1 := fexp64 (Zpos (digits2_pos m) + e) in
  e <= e1 ->
  exists m1, forall sx, round64 sx (Zpos m) e loc_Exact = f64_make sx m1 e1 /\
    (m1 = Zpos m / 2 ^ (e1 - e) \/
     Zpos m mod 2 ^ (e1 - e) <> 0 /\ m1 = Zpos m / 2 ^ (e1 - e) + 1) /\
    0 <= m1 <= 2 ^ 53 /\ -1074 <= e1 /\ (e1 = -1074 \/ 2 ^ 52 <= m1).
Proof.
  intros e1 He. pose proof (digits2_bounds m) as Hd.
  set (D := Zpos (digits2_pos m)) in *. set (k := e1 - e).
  pose proof (fexp64_max (D + e)) as Hf. fold e1 in Hf.
  assert (0 <= Zpos m / 2 ^ k < 2 ^ 53 /\ (e1 = -1074 \/ 2 ^ 52 <= Zpos m / 2 ^ k)) as [Hq Hlo].
  { assert (0 < 2 ^ k) by (apply Z.pow_pos_nonneg; lia). split; [split|].
    - apply Z.div_pos; lia.
    - apply Z.div_lt_upper_bound; [done|]. rewrite <- Z.pow_add_r by lia.
      eapply Z.lt_le_trans; [apply Hd|]. apply Z.pow_le_mono_r; lia.
    - destruct (Z.eq_dec e1 (-1074)); [by left|right]. apply Z.div_le_lower_bound; [done|].
      rewrite <- Z.pow_add_r by lia. etrans; [|apply Hd]. apply Z.pow_le_mono_r; lia. }
  destruct (shr_exact (Zpos m) e k) as (Hm' & Hx & He'); [lia..|].
  set (l := loc_of_shr_record (shr (shr_record_of_loc (Zpos m) loc_Exact) e k).1) in *.
  exists (round_nearest_even (Zpos m / 2 ^ k) l). intros sx.
  assert (round_nearest_even (Zpos m / 2 ^ k) l = Zpos m / 2 ^ k \/
    Zpos m mod 2 ^ k <> 0 /\ round_nearest_even (Zpos m / 2 ^ k) l = Zpos m / 2 ^ k + 1) as Hr.
  { destruct (Z.eq_dec (Zpos m mod 2 ^ k) 0) as [E|E]; [rewrite (Hx E); by left|].
    destruct l as [|[]]; simpl; auto. case_match; auto. }
  split_and!; [|done|lia..].
  unfold binary_round_aux. unfold shr_fexp at 1. simpl Zdigits2. fold D e1 k.
  destruct (shr _ e k) as [mrs' e']. simpl in Hm', He'. subst e'.
  replace (e + k) with e1 by (unfold k; lia). fold l. rewrite Hm'.
  apply round_second; [lia|]. lia.
Qed.

Lemma f64_make_number sx m e :
  0 <= m <= 2 ^ 53 -> -1074 <= e -> e = -1074 \/ 2 ^ 52 <= m -> f64_number (f64_make sx m e).
Proof.
  intros Hm He Hn. unfold f64_make. destruct m as [|p|]; [done| |lia].
  destruct (Zpos p =? 2 ^ 53) eqn:E; bool_to_Prop.
  - case_match eqn:E2; bool_to_Prop; [|done]. split; [|done]. unfold f64_valid. simpl. unfold bounded, canonical_mantissa.
    change (digits2_pos (2 ^ 52)) with 53%positive. rewrite fexp64_max.
    apply andb_true_intro. split; [apply Z.eqb_eq; lia|apply Z.leb_le; unfold emax64, prec64; lia].
  - case_match eqn:E2; bool_to_Prop; [|done]. split; [|done]. unfold f64_valid. simpl. unfold bounded, canonical_mantissa.
    rewrite fexp64_max. pose proof (digits2_bounds p) as Hd.
    apply andb_true_intro. split; [apply Z.eqb_eq|apply Z.leb_le; unfold emax64, prec64; lia].
    assert (Zpos (digits2_pos p) <= 53).
    { destruct (Z.le_gt_cases (Zpos (digits2_pos p)) 53); [done|].
      pose proof (Z.pow_le_mono_r 2 53 (Zpos (digits2_pos p) - 1)). lia. }
    destruct Hn as [->|Hn]; [lia|]. rewrite (digits2_unique p 53) by (simpl; lia). lia.
Qed.

Lemma valid_fexp s m e : f64_valid (S754_finite s m e) -> fexp64 (Zpos (digits2_pos m) + e) = e /\ e <= 971.
Proof.
  unfold f64_valid; simpl. unfold bounded, canonical_mantissa.
  intros [H1 H2]%andb_true_iff. apply Z.eqb_eq in H1. apply Z.leb_le in H2.
  split; [done|]. unfold emax64, prec64 in H2. lia.
Qed.

Lemma valid_mantissa s m e : f64_valid (S754_finite s m e) -> Zpos m < 2 ^ 53 /\ -1074 <= e.
Proof.
  intros [Hf _]%valid_fexp. rewrite fexp64_max in Hf. split; [|lia].
  pose proof (digits2_bounds m) as [_ Hd]. eapply Z.lt_le_trans; [exact Hd|].
  apply Z.pow_le_mono_r; lia.
Qed.

(** ** Addition never produces a NaN from finite values *)

Lemma shl_align_digits m e e' :
  e' < e ->
  shl_align m e e' = ((Pos.iter xO m (Z.to_pos (e - e'))), e') /\
  Zpos (Pos.iter xO m (Z.to_pos (e - e'))) = Zpos m * 2 ^ (e - e').
Proof.
  intros He. unfold shl_align. destruct (e' - e) as [|p|p] eqn:E; [lia..|].
  replace (e - e') with (Zpos p) by lia. simpl. split; [done|].
  clear E. induction p as [|p IH] using Pos.peano_ind.
  - simpl. lia.
  - rewrite Pos.iter_succ, Pos2Z.inj_xO, IH, Pos2Z.inj_succ, Z.pow_succ_r by lia. lia.
Qed.

Lemma shl_align_fexp m e e' :
  e' < e -> Zpos (Pos.iter xO m (Z.to_pos (e - e'))) = Zpos m * 2 ^ (e - e') ->
  Zpos (digits2_pos (Pos.iter xO m (Z.to_pos (e - e')))) + e' = Zpos (digits2_pos m) + e.
Proof.
  intros He Hm. pose proof (digits2_bounds m) as Hd.
  rewrite (digits2_unique _ (Zpos (digits2_pos m) + (e - e'))); [lia|].
  rewrite Hm. replace (Zpos (digits2_pos m) + (e - e') - 1)
    with (Zpos (digits2_pos m) - 1 + (e - e')) by lia.
  rewrite !Z.pow_add_r by lia. assert (0 < 2 ^ (e - e')) by (apply Z.pow_pos_nonneg; lia). nia.
Qed.

Lemma binary_round_number sx m e : f64_number (binary_round prec64 emax64 sx m e).
Proof.
  unfold binary_round. set (e' := fexp64 (Zpos (digits2_pos m) + e)).
  assert (forall mz ez, ez <= fexp64 (Zpos (digits2_pos mz) + ez) ->
    f64_number (round64 sx (Zpos mz) ez loc_Exact)) as Hgo.
  { intros mz ez Hz. destruct (round_first mz ez Hz) as [m1 Hm1].
    destruct (Hm1 sx) as (-> & _ & ? & ? & ?). by apply f64_make_number. }
  destruct (Z.lt_ge_cases e' e) as [Hlt|Hge].
  - destruct (shl_align_digits m e e' Hlt) as [-> Hm]. apply Hgo.
    by rewrite (shl_align_fexp m e e' Hlt Hm).
  - unfold shl_align. destruct (e' - e) eqn:E; [by apply Hgo..|lia].
Qed.

Lemma f64_of_Z_number n : f64_number (f64_of_Z n).
Proof. unfold f64_of_Z, binary_normalize. destruct n; [done|apply binary_round_number..]. Qed.

Definition f64_finite (x : f64) : bool :=
  match x with S754_zero _ | S754_finite _ _ _ => true | _ => false end.

Lemma f64_add_number x y :
  f64_number x -> f64_number y -> f64_finite x = true -> f64_finite y = true -> f64_number (f64_add x y).
Proof.
  intros Hx Hy Fx Fy. destruct x as [sx| | |sx mx ex], y as [sy| | |sy my ey]; try done.
  - by destruct sx, sy.
  - unfold f64_add, SFadd, binary_normalize. case_match; [done|apply binary_round_number..].
Qed.

(** ** Comparison *)

Lemma f64_cmp_antisym x y : f64_partial_cmp y x = CompOpp <$> f64_partial_cmp x y.
Proof.
  unfold f64_partial_cmp. destruct x as [sx|sx| |sx mx ex], y as [sy|sy| |sy my ey]; simpl; try done;
    try (by destruct sx); try (by destruct sy); try (by destruct sx, sy).
  rewrite (Z.compare_antisym ex ey). change (Pos.compare_cont Eq) with Pos.compare.
  rewrite (Pos.compare_antisym mx my).
  destruct sx, sy, (ex ?= ey); simpl; try done; by destruct (mx ?= my)%positive.
Qed.

Lemma f64_cmp_None x y : f64_partial_cmp x y = None <-> f64_is_nan x = true \/ f64_is_nan y = true.
Proof. unfold f64_partial_cmp. destruct x, y; simpl; split; auto; try done; by intros [|]. Qed.

Lemma f64_lt_not_le x y :
  f64_is_nan x = false -> f64_is_nan y = false -> f64_lt x y = false -> f64_le y x = true.
Proof.
  intros Hx Hy. unfold f64_lt, f64_le, SFltb, SFleb. fold (f64_partial_cmp x y) (f64_partial_cmp y x).
  rewrite (f64_cmp_antisym x y). pose proof (f64_cmp_None x y) as Hn.
  destruct (f64_partial_cmp x y) as [[]|]; simpl; try done.
  rewrite Hx, Hy in Hn. by destruct (proj1 Hn eq_refl).
Qed.

Lemma f64_clamp_between x lo hi :
  f64_number x -> f64_le lo lo = true -> f64_le hi hi = true -> f64_le lo hi = true ->
  f64_lt hi lo = false -> f64_is_nan lo = false -> f64_is_nan hi = false ->
  f64_between lo hi (f64_clamp x lo hi).
Proof.
  intros [_ Hx] Hll Hhh Hlh Hhl Hl Hh. unfold f64_clamp, f64_between.
  destruct (f64_lt x lo) eqn:E1; [by rewrite Hhl|].
  destruct (f64_lt hi x) eqn:E2; [done|]. split; by apply f64_lt_not_le.
Qed.

(** ** Scores: values between -100 and 100 *)

Definition f64_100 : f64 := f64_of_Z 100.
Definition f64_m100 : f64 := f64_of_Z (-100).
Definition score_range (x : f64) : Prop := f64_number x /\ f64_between f64_m100 f64_100 x.

Lemma f64_100_eq : f64_100 = S754_finite false 7036874417766400 (-46).
Proof. vm_compute. reflexivity. Qed.

Lemma f64_m100_eq : f64_m100 = S754_finite true 7036874417766400 (-46).
Proof. vm_compute. reflexivity. Qed.

Lemma f64_1_eq : f64_of_Z 1 = S754_finite false 4503599627370496 (-52).
Proof. vm_compute. reflexivity. Qed.

Lemma score_range_finite x : score_range x -> f64_finite x = true.
Proof. intros [[_ Hn] [H1 H2]]. destruct x as [|[]| |]; done. Qed.

Lemma score_range_mantissa s m e :
  score_range (S754_finite s m e) <->
  f64_valid (S754_finite s m e) /\ e <= -46 /\ Zpos m <= 100 * 2 ^ (- e).
Proof.
  assert (f64_valid (S754_finite s m e) ->
    (f64_between f64_m100 f64_100 (S754_finite s m e) <->
     e < -46 \/ e = -46 /\ Zpos m <= 7036874417766400)) as Hb.
  { intros _. unfold f64_between, f64_le, SFleb.
    rewrite f64_100_eq, f64_m100_eq.
    generalize 7036874417766400%positive. intros M.
    cbn [SFcompare]. change (Pos.compare_cont Eq) with Pos.compare.
    pose proof (Pos.compare_antisym m M) as Hc.
    destruct s; rewrite ?(Z.compare_antisym e (-46));
      destruct (Z.compare_spec e (-46)); cbn [CompOpp]; rewrite ?Hc;
      destruct (Pos.compare_spec m M); cbn [CompOpp]; (split; [intros [? ?]|intros [?|[? ?]]]);
      try done; lia. }
  split.
  - intros [[Hv _] Hr]. apply Hb in Hr; [|done]. pose proof (valid_mantissa _ _ _ Hv) as [Hm _].
    split; [done|]. destruct Hr as [Hlt|[-> Hm']]; [|simpl; lia].
    split; [lia|]. pose proof (Z.pow_le_mono_r 2 47 (- e)). lia.
  - intros (Hv & He & Hm). split; [by split|]. apply Hb; [done|].
    destruct (Z.eq_dec e (-46)) as [->|]; [right; simpl in Hm; lia|lia].
Qed.

Lemma score_range_make sx m e :
  0 <= m <= 2 ^ 53 -> -1074 <= e -> e = -1074 \/ 2 ^ 52 <= m ->
  e <= -46 -> m <= 100 * 2 ^ (- e) -> score_range (f64_make sx m e).
Proof.
  intros Hm He Hn He2 Hm2. pose proof (f64_make_number sx m e Hm He Hn) as Hv.
  unfold f64_make in *. destruct m as [|p|]; [done| |lia].
  destruct (Zpos p =? 2 ^ 53) eqn:E; bool_to_Prop.
  - assert (e <> -46) by (intros ->; simpl in Hm2; lia).
    rewrite (proj2 (Z.leb_le _ _)) in * by lia. apply score_range_mantissa.
    split_and!; [by destruct Hv|lia|].
    pose proof (Z.pow_le_mono_r 2 46 (- (e + 1))). simpl. lia.
  - rewrite (proj2 (Z.leb_le _ _)) in * by lia. apply score_range_mantissa. by destruct Hv.
Qed.

Lemma f64_le_finite m e M E :
  f64_le (S754_finite false m e) (S754_finite false M E) = true -> e < E \/ e = E /\ Zpos m <= Zpos M.
Proof.
  unfold f64_le, SFleb. cbn [SFcompare]. change (Pos.compare_cont Eq) with Pos.compare.
  destruct (Z.compare_spec e E); [|by left|done]. destruct (Pos.compare_spec m M); try done; lia.
Qed.

(** The exact product of two canonical values has at least the digits its exponent needs. *)
Lemma mul_exponent sx mx ex sy my ey :
  f64_valid (S754_finite sx mx ex) -> f64_valid (S754_finite sy my ey) ->
  let D := Zpos (digits2_pos (mx * my)) in
  Zpos (digits2_pos mx) + Zpos (digits2_pos my) - 1 <= D /\ ex + ey <= fexp64 (D + (ex + ey)).
Proof.
  intros [Hfx _]%valid_fexp [Hfy _]%valid_fexp. rewrite fexp64_max in Hfx, Hfy.
  pose proof (digits2_bounds mx) as Hbx. pose proof (digits2_bounds my) as Hby.
  pose proof (digits2_bounds (mx * my)) as Hbp. cbv zeta.
  set (Dx := Zpos (digits2_pos mx)) in *. set (Dy := Zpos (digits2_pos my)) in *.
  set (Dp := Zpos (digits2_pos (mx * my))) in *. rewrite Pos2Z.inj_mul in Hbp.
  assert (Dx + Dy - 1 <= Dp) as HD; [|split; [done|rewrite fexp64_max; lia]].
  assert (Dx - 1 + (Dy - 1) < Dp); [|lia]. apply (Z.pow_lt_mono_r_iff 2); [lia..|].
  rewrite Z.pow_add_r by lia. nia.
Qed.

(** A negative value times a value that is not negative is a number at most zero. *)
Lemma f64_mul_neg_nonneg m e y :
  f64_valid (S754_finite true m e) -> f64_number y -> f64_le (f64_of_Z 0) y = true ->
  f64_number (f64_mul (S754_finite true m e) y) /\
  f64_le (f64_mul (S754_finite true m e) y) (f64_of_Z 0) = true.
Proof.
  intros Hx [Hy Hn] Hpos. destruct y as [sy|[]| |[] my ey]; try done.
  destruct (mul_exponent _ _ _ _ _ _ Hx Hy) as [_ Hk].
  destruct (round_first (m * my) (e + ey) Hk) as [m1 Hm1].
  destruct (Hm1 true) as (Hr & _ & Hb & He & Hc).
  unfold f64_mul, SFmul. simpl xorb. rewrite Hr. split; [by apply f64_make_number|].
  unfold f64_make. repeat case_match; done.
Qed.

Lemma f64_of_Z_nonneg n : 0 <= n -> f64_le (f64_of_Z 0) (f64_of_Z n) = true.
Proof.
  intros Hn. destruct n as [|p|]; [done| |lia]. unfold f64_of_Z, binary_normalize, binary_round.
  assert (forall mz ez, ez <= fexp64 (Zpos (digits2_pos mz) + ez) ->
    f64_le (f64_of_Z 0) (round64 false (Zpos mz) ez loc_Exact) = true) as Hgo.
  { intros mz ez Hz. destruct (round_first mz ez Hz) as [m1 Hm1]. destruct (Hm1 false) as (-> & _).
    unfold f64_make. repeat case_match; done. }
  set (e' := fexp64 (Zpos (digits2_pos p) + 0)).
  destruct (Z.lt_ge_cases e' 0) as [Hlt|Hge].
  - destruct (shl_align_digits p 0 e' Hlt) as [-> Hm]. apply Hgo.
    rewrite (shl_align_fexp p 0 e' Hlt Hm). done.
  - unfold shl_align. destruct (e' - 0) eqn:E; [by apply Hgo..|lia].
Qed.

(** Multiplying a score by a factor between zero and one, rounding included, leaves it in range. *)
Lemma f64_mul_decay x d :
  score_range x -> f64_number d -> f64_between (f64_of_Z 0) (f64_of_Z 1) d -> score_range (f64_mul x d).
Proof.
  intros Hx [Hdv Hdn] [Hd0 Hd1]. destruct d as [sd|[]| |sd md ed]; try done.
  { destruct x as [|[]| |]; try done; by destruct Hx as [[] []]. }
  destruct sd; [done|]. destruct x as [sx|sx| |sx mx ex]; [done|by apply score_range_finite in Hx..|].
  apply score_range_mantissa in Hx as (Hxv & Hex & Hmx).
  assert (ed <= -52 /\ Zpos md <= 2 ^ (- ed)) as [Hed Hmd].
  { pose proof (valid_mantissa _ _ _ Hdv) as [Hm _].
    rewrite f64_1_eq in Hd1. apply f64_le_finite in Hd1 as [Hlt|[-> Hle]].
    - split; [lia|]. pose proof (Z.pow_le_mono_r 2 53 (- ed)). lia.
    - split; [lia|]. exact Hle. }
  unfold f64_mul, SFmul. rewrite Bool.xorb_false_r.
  destruct (mul_exponent _ _ _ _ _ _ Hxv Hdv) as [HD Hk]. pose proof (digits2_bounds (mx * md)) as Hbp.
  set (Dp := Zpos (digits2_pos (mx * md))) in *. rewrite Pos2Z.inj_mul in Hbp.
  assert (Zpos (mx * md) <= 100 * 2 ^ (- (ex + ed))) as Hprod.
  { rewrite Pos2Z.inj_mul. replace (- (ex + ed)) with (- ex + - ed) by lia.
    rewrite Z.pow_add_r by lia. nia. }
  assert (Dp + (ex + ed) <= 7) as HDp.
  { assert (Dp - 1 < 7 + - (ex + ed)); [|lia]. apply (Z.pow_lt_mono_r_iff 2); [lia..|].
    rewrite Z.pow_add_r by lia. rewrite Pos2Z.inj_mul in Hprod. lia. }
  destruct (round_first (mx * md) (ex + ed) Hk) as [m1 Hm1]. destruct (Hm1 sx) as (-> & Hr & Hb & He & Hn).
  fold Dp in Hr, He, Hn |- *. set (e1 := fexp64 (Dp + (ex + ed))) in *.
  assert (e1 <= -46) by (subst e1; rewrite fexp64_max; lia).
  apply score_range_make; [done..|].
  set (k := e1 - (ex + ed)) in *. assert (0 < 2 ^ k) by (apply Z.pow_pos_nonneg; lia).
  assert (Zpos (mx * md) <= 100 * 2 ^ (- e1) * 2 ^ k) as Hle.
  { rewrite <- Z.mul_assoc, <- Z.pow_add_r by lia. by replace (- e1 + k) with (- (ex + ed)) by lia. }
  pose proof (Z.div_mod (Zpos (mx * md)) (2 ^ k) ltac:(lia)) as Hdm.
  pose proof (Z.mod_pos_bound (Zpos (mx * md)) (2 ^ k) ltac:(lia)).
  destruct Hr as [->|[Hne ->]]; nia.
Qed.
