(* ===== verification/Score.v ===== *)
(** * Peer scores ([peer_manager/peerdb/score.rs])

    A score is an IEEE double that actions lower, time decays towards zero and gossipsub shifts; the
    thresholds on it decide whether a peer is healthy, disconnected or banned. *)

From S2P Require Import Prelude Chain Float64.

(** [f64::exp], with what its documentation promises. *)
Class FloatExp := {
  f64_exp : f64 -> f64;
  f64_exp_number : forall x, f64_number x -> f64_number (f64_exp x);
  f64_exp_nonpos : forall x, f64_number x -> f64_le x (f64_of_Z 0) = true ->
    f64_between (f64_of_Z 0) (f64_of_Z 1) (f64_exp x);
}.

Definition GREYLIST_THRESHOLD : f64 := f64_of_Z (-16000).
Definition DEFAULT_SCORE : f64 := f64_of_Z 0.
Definition MIN_SCORE_BEFORE_DISCONNECT : f64 := f64_of_Z (-20).
Definition MIN_SCORE_BEFORE_BAN : f64 := f64_of_Z (-50).
Definition MIN_PEER_SCORE_BEFORE_BAN : f64 := f64_of_Z (-60).
Definition MAX_SCORE : f64 := f64_of_Z 100.
Definition MIN_SCORE : f64 := f64_of_Z (-100).
Definition SCORE_HALFLIFE : f64 := f64_of_Z 600.
Definition BANNED_BEFORE_DECAY : Duration := Duration_from_secs (12 * 3600).
Definition HALFLIFE_DECAY : f64 := f64_div (f64_neg f64_LN_2) SCORE_HALFLIFE.
Definition GOSSIPSUB_NEGATIVE_SCORE_WEIGHT : f64 :=
  f64_div (f64_add MIN_SCORE_BEFORE_DISCONNECT (f64_of_Z 1)) GREYLIST_THRESHOLD.
Definition GOSSIPSUB_POSITIVE_SCORE_WEIGHT : f64 := GOSSIPSUB_NEGATIVE_SCORE_WEIGHT.

Inductive PeerAction := Fatal | LowToleranceError | MidToleranceError | HighToleranceError.

Module ScoreState.

Inductive ScoreState := Healthy | ForcedDisconnect | Banned.

End ScoreState.
Abbreviation ScoreState := ScoreState.ScoreState.

#[export] Instance ScoreState_eq_dec : EqDecision ScoreState.
Proof. solve_decision. Defined.

Record RealScore := mkRealScore {
  peer_score : f64;
  gossipsub_score : f64;
  ignore_negative_gossipsub_score : bool;
  rs_score : f64;
  last_updated : Instant;
}.

Definition RealScore_default (now : Instant) : RealScore :=
  mkRealScore DEFAULT_SCORE DEFAULT_SCORE false DEFAULT_SCORE now.

Definition recompute_score (s : RealScore) : RealScore :=
  let score := peer_score s in
  let score :=
    if f64_le (peer_score s) MIN_PEER_SCORE_BEFORE_BAN then score
    else if f64_le (f64_of_Z 0) (gossipsub_score s) then
      f64_add score (f64_mul (gossipsub_score s) GOSSIPSUB_POSITIVE_SCORE_WEIGHT)
    else if negb (ignore_negative_gossipsub_score s) then
      f64_add score (f64_mul (gossipsub_score s) GOSSIPSUB_NEGATIVE_SCORE_WEIGHT)
    else score in
  mkRealScore (peer_score s) (gossipsub_score s) (ignore_negative_gossipsub_score s) score
    (last_updated s).

Definition update_state (s : RealScore) : RealScore :=
  let was_not_banned := f64_lt MIN_SCORE_BEFORE_BAN (rs_score s) in
  let s := recompute_score s in
  if was_not_banned && f64_le (rs_score s) MIN_SCORE_BEFORE_BAN then
    mkRealScore (peer_score s) (gossipsub_score s) (ignore_negative_gossipsub_score s) (rs_score s)
      (last_updated s + BANNED_BEFORE_DECAY)
  else s.

Definition set_peer_score (s : RealScore) (new_score : f64) : RealScore :=
  update_state (mkRealScore new_score (gossipsub_score s) (ignore_negative_gossipsub_score s)
                  (rs_score s) (last_updated s)).

Definition score_add (s : RealScore) (score : f64) : RealScore :=
  set_peer_score s (f64_clamp (f64_add (peer_score s) score) MIN_SCORE MAX_SCORE).

Definition real_apply_peer_action (s : RealScore) (a : PeerAction) : RealScore :=
  match a with
  | Fatal => set_peer_score s MIN_SCORE
  | LowToleranceError => score_add s (f64_of_Z (-10))
  | MidToleranceError => score_add s (f64_of_Z (-5))
  | HighToleranceError => score_add s (f64_of_Z (-1))
  end.

Section decay.
Context `{FloatExp}.

Definition decay_factor (secs : Z) : f64 := f64_exp (f64_mul HALFLIFE_DECAY (f64_of_Z secs)).

Definition update_at (s : RealScore) (now : Instant) : RealScore :=
  match checked_duration_since now (last_updated s) with
  | Some d =>
      update_state (mkRealScore (f64_mul (peer_score s) (decay_factor (Duration_as_secs d)))
                      (gossipsub_score s) (ignore_negative_gossipsub_score s) (rs_score s) now)
  | None => s
  end.

End decay.

Definition real_update_gossipsub_score (s : RealScore) (now : Instant) (new_score : f64) (ignore : bool)
  : RealScore :=
  if last_updated s <=? now then
    update_state (mkRealScore (peer_score s) new_score ignore (rs_score s) (last_updated s))
  else s.

Definition real_is_good_gossipsub_peer (s : RealScore) : bool :=
  f64_le (f64_of_Z 0) (gossipsub_score s).

Module Score.

Inductive Score := Max | Real (s : RealScore).

End Score.
Abbreviation Score := Score.Score.

Definition Score_default (now : Instant) : Score := Score.Real (RealScore_default now).

(** The methods the [apply!] macro generates. *)
Definition score_apply (f : RealScore -> RealScore) (s : Score) : Score :=
  match s with Score.Max => Score.Max | Score.Real r => Score.Real (f r) end.

Definition apply_peer_action (s : Score) (a : PeerAction) : Score :=
  score_apply (fun r => real_apply_peer_action r a) s.
Definition score_update `{FloatExp} (s : Score) (now : Instant) : Score :=
  score_apply (fun r => update_at r now) s.
Definition score_update_gossipsub (s : Score) (now : Instant) (new_score : f64) (ignore : bool)
  : Score := score_apply (fun r => real_update_gossipsub_score r now new_score ignore) s.

Definition score (s : Score) : f64 :=
  match s with Score.Max => f64_INFINITY | Score.Real r => rs_score r end.

Definition max_score : Score := Score.Max.

Definition score_state (s : Score) : ScoreState :=
  if f64_le (score s) MIN_SCORE_BEFORE_BAN then ScoreState.Banned
  else if f64_le (score s) MIN_SCORE_BEFORE_DISCONNECT then ScoreState.ForcedDisconnect
  else ScoreState.Healthy.

Definition is_good_gossipsub_peer (s : Score) : bool :=
  match s with Score.Max => true | Score.Real r => real_is_good_gossipsub_peer r end.

Definition score_total_cmp (a b : Score) (reverse : bool) : comparison :=
  match f64_partial_cmp (score a) (score b) with
  | Some v => if reverse then CompOpp v else v
  | None =>
      if f64_is_nan (score a) && negb (f64_is_nan (score b)) then Lt
      else if negb (f64_is_nan (score a)) && f64_is_nan (score b) then Gt
      else Eq
  end.

(** ** Runs *)

Section score_runs.
Context `{FloatExp}.

Inductive ScoreOp :=
  | SAction (a : PeerAction)
  | SUpdate (now : Instant)
  | SGossip (now : Instant) (new_score : f64) (ignore : bool).

Definition score_step (s : RealScore) (op : ScoreOp) : RealScore :=
  match op with
  | SAction a => real_apply_peer_action s a
  | SUpdate now => update_at s now
  | SGossip now x ignore => real_update_gossipsub_score s now x ignore
  end.

Definition score_run (s : RealScore) (ops : list ScoreOp) : RealScore := fold_left score_step ops s.

(** The instant a call is made at, if it looks at the clock. *)
Definition op_before (limit : Instant) (op : ScoreOp) : Prop :=
  match op with SAction _ => True | SUpdate now | SGossip now _ _ => now < limit end.

End score_runs.

(** ** Lemmas *)

Lemma update_state_peer_score s : peer_score (update_state s) = peer_score s.
Proof. unfold update_state. by destruct (_ && _). Qed.

Lemma HALFLIFE_DECAY_eq : exists m e, HALFLIFE_DECAY = S754_finite true m e /\ f64_valid HALFLIFE_DECAY.
Proof. eexists _, _. vm_compute. done. Qed.

Lemma decay_factor_range `{FloatExp} secs :
  0 <= secs ->
  f64_number (decay_factor secs) /\ f64_between (f64_of_Z 0) (f64_of_Z 1) (decay_factor secs).
Proof.
  intros Hs. destruct HALFLIFE_DECAY_eq as (m & e & E & Hv). unfold decay_factor. rewrite E in *.
  destruct (f64_mul_neg_nonneg m e (f64_of_Z secs) Hv (f64_of_Z_number secs) (f64_of_Z_nonneg secs Hs)).
  split; [by apply f64_exp_number|by apply f64_exp_nonpos].
Qed.

Lemma score_range_bounds : score_range MIN_SCORE /\ score_range MAX_SCORE.
Proof. by vm_compute. Qed.

Lemma score_add_range s d :
  score_range (peer_score s) -> f64_number d -> f64_finite d = true ->
  score_range (peer_score (score_add s d)).
Proof.
  intros Hs Hd Hf. unfold score_add, set_peer_score. rewrite update_state_peer_score. simpl.
  assert (f64_number (f64_add (peer_score s) d)) as Hn.
  { apply f64_add_number; [by destruct Hs|done|by apply score_range_finite|done]. }
  split; [|apply f64_clamp_between; (done || by vm_compute)].
  destruct score_range_bounds as [[Hlo _] [Hhi _]]. unfold f64_clamp. by repeat case_match.
Qed.

Lemma real_apply_peer_action_range s a :
  score_range (peer_score s) -> score_range (peer_score (real_apply_peer_action s a)).
Proof.
  intros Hs. destruct a; cbn [real_apply_peer_action]; [|apply score_add_range; [done|apply f64_of_Z_number|by vm_compute]..].
  unfold set_peer_score. rewrite update_state_peer_score. apply score_range_bounds.
Qed.

Lemma score_step_range `{FloatExp} s op :
  score_range (peer_score s) -> score_range (peer_score (score_step s op)).
Proof.
  intros Hs. destruct op as [a|now|now x i]; simpl.
  - by apply real_apply_peer_action_range.
  - unfold update_at. destruct (checked_duration_since now (last_updated s)) as [d|] eqn:E; [|done].
    rewrite update_state_peer_score. simpl.
    assert (0 <= Duration_as_secs d) as Hd.
    { unfold checked_duration_since in E. case_match; bool_to_Prop; simplify_eq.
      unfold Duration_as_secs. apply Z.div_pos; unfold NANOS_PER_SEC; lia. }
    destruct (decay_factor_range _ Hd). by apply f64_mul_decay.
  - unfold real_update_gossipsub_score. case_match; [|done]. by rewrite update_state_peer_score.
Qed.

(** A peer banned by its own score: the score is the lowest one, whatever gossipsub says. *)
Definition at_floor (s : RealScore) : Prop := peer_score s = MIN_SCORE /\ rs_score s = MIN_SCORE.

Lemma update_state_floor p g i l :
  p = MIN_SCORE ->
  update_state (mkRealScore p g i MIN_SCORE l) = mkRealScore p g i MIN_SCORE l.
Proof.
  intros ->. unfold update_state, recompute_score; cbn [peer_score gossipsub_score rs_score].
  change (f64_lt MIN_SCORE_BEFORE_BAN MIN_SCORE) with false.
  change (f64_le MIN_SCORE MIN_PEER_SCORE_BEFORE_BAN) with true. done.
Qed.

Lemma action_floor s a : at_floor s -> real_apply_peer_action s a = s.
Proof.
  destruct s as [p g i sc l]. intros [Hp Hs]; simpl in Hp, Hs; subst p sc.
  assert (forall n, f64_clamp (f64_add MIN_SCORE (f64_of_Z n)) MIN_SCORE MAX_SCORE = MIN_SCORE ->
    score_add (mkRealScore MIN_SCORE g i MIN_SCORE l) (f64_of_Z n) = mkRealScore MIN_SCORE g i MIN_SCORE l)
    as Hadd.
  { intros n Hn. unfold score_add, set_peer_score. cbn [peer_score gossipsub_score rs_score last_updated].
    rewrite Hn. by apply update_state_floor. }
  destruct a; cbn [real_apply_peer_action]; [|by apply Hadd; vm_compute..].
  unfold set_peer_score. by apply update_state_floor.
Qed.

Lemma fatal_floor s :
  at_floor (set_peer_score s MIN_SCORE) /\
  last_updated (set_peer_score s MIN_SCORE) =
    last_updated s + (if f64_lt MIN_SCORE_BEFORE_BAN (rs_score s) then BANNED_BEFORE_DECAY else 0).
Proof.
  unfold set_peer_score, update_state, recompute_score, at_floor.
  cbn [peer_score gossipsub_score rs_score last_updated ignore_negative_gossipsub_score].
  change (f64_le MIN_SCORE MIN_PEER_SCORE_BEFORE_BAN) with true.
  change (f64_le MIN_SCORE MIN_SCORE_BEFORE_BAN) with true.
  destruct (f64_lt _ _); simpl; split_and!; (done || lia).
Qed.

Lemma score_step_floor `{FloatExp} s op : at_floor s -> op_before (last_updated s) op -> score_step s op = s.
Proof.
  intros Hs Hop. destruct op as [a|now|now x i]; simpl in *.
  - by apply action_floor.
  - unfold update_at, checked_duration_since. by rewrite (proj2 (Z.leb_gt _ _)).
  - unfold real_update_gossipsub_score. by rewrite (proj2 (Z.leb_gt _ _)).
Qed.

Lemma score_run_floor `{FloatExp} ops : forall s,
  at_floor s -> Forall (op_before (last_updated s)) ops -> score_run s ops = s.
Proof.
  induction ops as [|op ops IH]; intros s Hs Hops; [done|]. apply Forall_cons in Hops as [Hop Hops].
  unfold score_run in *. simpl. rewrite score_step_floor by done. by apply IH.
Qed.

(** ** The order on scores *)

(** The position of a value that is not a NaN on the line, for the lexicographic order. *)
Definition f64_key (x : f64) : Z * Z * Z :=
  match x with
  | S754_infinity true => (-2, 0, 0)
  | S754_finite true m e => (-1, - e, - Zpos m)
  | S754_zero _ | S754_nan => (0, 0, 0)
  | S754_finite false m e => (1, e, Zpos m)
  | S754_infinity false => (2, 0, 0)
  end.

Definition lex3 (a b : Z * Z * Z) : comparison :=
  match a.1.1 ?= b.1.1 with
  | Eq => match a.1.2 ?= b.1.2 with Eq => a.2 ?= b.2 | c => c end
  | c => c
  end.

Lemma f64_cmp_key x y :
  f64_is_nan x = false -> f64_is_nan y = false -> f64_partial_cmp x y = Some (lex3 (f64_key x) (f64_key y)).
Proof.
  unfold f64_partial_cmp, lex3. intros Hx Hy.
  destruct x as [[]|[]| |[] mx ex], y as [[]|[]| |[] my ey]; try done; cbn; change (Pos.compare_cont Eq) with Pos.compare.
  rewrite (Z.compare_opp ex ey), (Z.compare_antisym ex ey). by destruct (ex ?= ey).
Qed.

Lemma lex3_trans a b c : lex3 a b <> Gt -> lex3 b c <> Gt -> lex3 a c <> Gt.
Proof.
  destruct a as [[a1 a2] a3], b as [[b1 b2] b3], c as [[c1 c2] c3]. unfold lex3; simpl.
  destruct (Z.compare_spec a1 b1), (Z.compare_spec b1 c1), (Z.compare_spec a1 c1); try done; try lia;
  destruct (Z.compare_spec a2 b2), (Z.compare_spec b2 c2), (Z.compare_spec a2 c2); try done; try lia;
  destruct (Z.compare_spec a3 b3), (Z.compare_spec b3 c3), (Z.compare_spec a3 c3); try done; try lia.
Qed.

Lemma lex3_antisym a b : lex3 b a = CompOpp (lex3 a b).
Proof.
  unfold lex3. rewrite (Z.compare_antisym a.1.1), (Z.compare_antisym a.1.2), (Z.compare_antisym a.2).
  destruct (a.1.1 ?= b.1.1); simpl; try done. by destruct (a.1.2 ?= b.1.2).
Qed.

(** The comparison of two scores: NaN below everything, the others by position, the direction as
    asked. *)
Lemma score_total_cmp_key a b r :
  score_total_cmp a b r =
  match f64_is_nan (score a), f64_is_nan (score b) with
  | true, true => Eq
  | true, false => Lt
  | false, true => Gt
  | false, false =>
      let c := lex3 (f64_key (score a)) (f64_key (score b)) in if r then CompOpp c else c
  end.
Proof.
  unfold score_total_cmp. destruct (f64_is_nan (score a)) eqn:Ea, (f64_is_nan (score b)) eqn:Eb; simpl.
  4: by rewrite f64_cmp_key.
  all: rewrite (proj2 (f64_cmp_None (score a) (score b))) by auto; done.
Qed.

Lemma score_cmp_antisym a b r : score_total_cmp b a r = CompOpp (score_total_cmp a b r).
Proof.
  rewrite !score_total_cmp_key. destruct (f64_is_nan (score a)), (f64_is_nan (score b)); try done. cbv zeta.
  rewrite (lex3_antisym (f64_key (score a))). by destruct r.
Qed.

Lemma score_cmp_trans a b c r :
  score_total_cmp a b r <> Gt -> score_total_cmp b c r <> Gt -> score_total_cmp a c r <> Gt.
Proof.
  rewrite !score_total_cmp_key.
  destruct (f64_is_nan (score a)), (f64_is_nan (score b)), (f64_is_nan (score c)); try done. cbv zeta.
  destruct r; [|apply lex3_trans]. rewrite <- !lex3_antisym. intros. by eapply lex3_trans.
Qed.

(** ** Theorems *)

(** C40: scores stay in range.  After any sequence of actions, decays and gossipsub updates from a
    fresh score, the peer score is a number between -100 and 100, as the module documents; every
    addition, clamp and rounded multiplication by the decay factor keeps it there. *)
Theorem score_in_range `{FloatExp} now ops :
  f64_between MIN_SCORE MAX_SCORE (peer_score (score_run (RealScore_default now) ops)) /\
  f64_is_nan (peer_score (score_run (RealScore_default now) ops)) = false.
Proof.
  assert (forall s, score_range (peer_score s) -> score_range (peer_score (score_run s ops))) as Hr.
  { induction ops as [|op ops IH]; intros s Hs; [done|]. by apply IH, score_step_range. }
  destruct (Hr (RealScore_default now)) as [[_ Hn] Hb]; [by vm_compute|done].
Qed.

(** A fatal action bans the peer for twelve hours.  Whatever the state of a peer that is not
    banned and whatever gossipsub says of it, after a fatal action it is banned, and no sequence of
    further actions, decays and gossipsub updates made before twelve hours after its last update
    changes anything. *)
Theorem fatal_ban_lasts `{FloatExp} s ops :
  f64_lt MIN_SCORE_BEFORE_BAN (rs_score s) = true ->
  Forall (op_before (last_updated s + BANNED_BEFORE_DECAY)) ops ->
  let s' := real_apply_peer_action s Fatal in
  score_state (Score.Real s') = ScoreState.Banned /\
  last_updated s' = last_updated s + BANNED_BEFORE_DECAY /\
  score_run s' ops = s'.
Proof.
  intros Hs Hops s'. destruct (fatal_floor s) as [[Hp Hsc] Hl]. rewrite Hs in Hl.
  split_and!; [|done|].
  - unfold score_state, s'. cbn [score real_apply_peer_action]. by rewrite Hsc.
  - apply score_run_floor; [by split|]. subst s'. cbn [real_apply_peer_action]. by rewrite Hl.
Qed.

(** The order on scores is a total preorder, in both directions.  [total_cmp] is antisymmetric in
    the sense of comparisons and transitive, and a score that is not a number is never placed above
    another one, reversed or not. *)
Theorem score_total_cmp_order a b c reverse :
  score_total_cmp b a reverse = CompOpp (score_total_cmp a b reverse) /\
  (score_total_cmp a b reverse <> Gt -> score_total_cmp b c reverse <> Gt ->
   score_total_cmp a c reverse <> Gt) /\
  (f64_is_nan (score a) = true -> score_total_cmp a b reverse <> Gt).
Proof.
  split_and!; [apply score_cmp_antisym|apply score_cmp_trans|].
  rewrite score_total_cmp_key. intros ->. by destruct (f64_is_nan (score b)).
Qed.

(** How many errors ban a peer.  From a fresh score, exactly 5 low, 10 mid or 50 high tolerance
    errors ban a peer, as the documentation of [PeerAction] says, and 2, 4 and 20 of them disconnect
    it; one error less does not. *)
Theorem errors_to_ban :
  let state a n := score_state (Nat.iter n (fun s => apply_peer_action s a) (Score_default 0)) in
  map (state LowToleranceError) [1; 2; 4; 5]%nat =
    [ScoreState.Healthy; ScoreState.ForcedDisconnect; ScoreState.ForcedDisconnect; ScoreState.Banned] /\
  map (state MidToleranceError) [3; 4; 9; 10]%nat =
    [ScoreState.Healthy; ScoreState.ForcedDisconnect; ScoreState.ForcedDisconnect; ScoreState.Banned] /\
  map (state HighToleranceError) [19; 20; 49; 50]%nat =
    [ScoreState.Healthy; ScoreState.ForcedDisconnect; ScoreState.ForcedDisconnect; ScoreState.Banned].
Proof. vm_compute. done. Qed.

(** Gossipsub can disconnect a peer by itself.  At the greylist threshold the weighted gossipsub
    score leaves a fresh peer healthy, but scores below the threshold are not cut off: -17000 forces a
    disconnect and -43000 bans, although the documentation says the weight rules this out. *)
Theorem gossipsub_alone_disconnects :
  let state g := score_state (score_update_gossipsub (Score_default 0) 0 (f64_of_Z g) false) in
  map state [-16000; -17000; -43000] =
    [ScoreState.Healthy; ScoreState.ForcedDisconnect; ScoreState.Banned].
Proof. vm_compute. done. Qed.

(** ** Closed instances *)

Module ScoreExamples.

(** A coarse exponential: one for arguments above minus one, zero otherwise, which meets the
    documented bounds. *)
Definition step_exp (x : f64) : f64 :=
  if f64_lt x (f64_of_Z (-1)) then f64_of_Z 0 else f64_of_Z 1.

#[local] Instance step_float_exp : FloatExp.
Proof.
  refine {| f64_exp := step_exp |}; intros x; unfold step_exp; case_match; by vm_compute.
Defined.

Lemma score_in_range_witness :
  f64_between MIN_SCORE MAX_SCORE (peer_score (score_run (RealScore_default 0)
    [SAction LowToleranceError; SUpdate 5000000000; SGossip 6000000000 (f64_of_Z (-300)) false])).
Proof.
  exact (proj1 (score_in_range 0
    [SAction LowToleranceError; SUpdate 5000000000; SGossip 6000000000 (f64_of_Z (-300)) false])).
Defined.

Lemma fatal_ban_lasts_witness :
  score_state (Score.Real (real_apply_peer_action (RealScore_default 0) Fatal)) = ScoreState.Banned /\
  last_updated (real_apply_peer_action (RealScore_default 0) Fatal) = 43200000000000 /\
  score_run (real_apply_peer_action (RealScore_default 0) Fatal)
    [SUpdate 1000000000; SGossip 5 (f64_of_Z 100) false; SAction HighToleranceError] =
  real_apply_peer_action (RealScore_default 0) Fatal.
Proof.
  apply (fatal_ban_lasts (RealScore_default 0)
    [SUpdate 1000000000; SGossip 5 (f64_of_Z 100) false; SAction HighToleranceError]).
  - reflexivity.
  - by repeat constructor.
Defined.

(** The ban ends when the twelve hours have passed and the score has decayed. *)
Example ban_ends :
  let s := real_apply_peer_action (RealScore_default 0) Fatal in
  (score_state (Score.Real (update_at s 43200000000000)),
   score_state (Score.Real (update_at s 50000000000000)))
  = (ScoreState.Banned, ScoreState.Healthy).
Proof. vm_compute. done. Qed.

(** The unit tests on gossipsub scores. *)
Example very_negative_gossipsub_score :
  let s := score_update_gossipsub (Score_default 0) 0 GREYLIST_THRESHOLD false in
  (is_good_gossipsub_peer s, f64_lt (score s) (f64_of_Z 0), score_state s) =
  (false, true, ScoreState.Healthy).
Proof. vm_compute. done. Qed.

Example ignored_gossipsub_score :
  score (score_update_gossipsub (Score_default 0) 0 GREYLIST_THRESHOLD true) = f64_of_Z 0.
Proof. vm_compute. done. Qed.

End ScoreExamples.
