(* ===== verification/PeerInfo.v ===== *)
(** * What the node knows of one peer

    [peer_manager/peerdb/peer_info.rs] with the types it is made of: [peerdb/sync_status.rs],
    [peerdb/client.rs] and [types/subnet.rs]. *)

From Stdlib Require Import Ascii.
From S2P Require Import Prelude Chain Enr Protocol Messages Text Float64 Score.

(** ** Subnets ([types/subnet.rs]) *)

Module Subnet.

Inductive Subnet :=
  | Attestation (id : SubnetId)
  | SyncCommittee (id : SubnetId)
  | DataColumn (id : SubnetId).

End Subnet.
Abbreviation Subnet := Subnet.Subnet.

#[export] Instance Subnet_eq_dec : EqDecision Subnet.
Proof. solve_decision. Defined.

#[export] Instance Subnet_countable : Countable Subnet.
Proof.
  refine (inj_countable'
    (fun s => match s with
              | Subnet.Attestation i => (0, i) | Subnet.SyncCommittee i => (1, i)
              | Subnet.DataColumn i => (2, i) end)
    (fun x => match x.1 with
              | 0 => Subnet.Attestation x.2 | 1 => Subnet.SyncCommittee x.2
              | _ => Subnet.DataColumn x.2 end) _).
  by intros [].
Defined.

Record SubnetDiscovery := mkSubnetDiscovery { sd_subnet : Subnet; sd_min_ttl : option Instant }.

(** [PartialEq]: the expiry is not compared. *)
Definition SubnetDiscovery_eq (a b : SubnetDiscovery) : bool := bool_decide (sd_subnet a = sd_subnet b).

(** ** Clients ([peerdb/client.rs]) *)

Module ClientKind.

Inductive ClientKind := Grandine | Lighthouse | Nimbus | Teku | Prysm | Lodestar | Caplin | Unknown.

End ClientKind.
Abbreviation ClientKind := ClientKind.ClientKind.

Record Client := mkClient {
  kind : ClientKind;
  version : chars;
  os_version : chars;
  protocol_version : chars;
  agent_string : option chars;
}.

Definition unknown : chars := lit "unknown".

Definition Client_default : Client := mkClient ClientKind.Unknown unknown unknown unknown None.

(** The version and system taken from the next two components, as far as they are there. *)
Definition next_versions (rest : list chars) : chars * chars :=
  match rest with
  | v :: os :: _ => (v, os)
  | [v] => (v, unknown)
  | [] => (unknown, unknown)
  end.

Definition client_from_agent_version (agent_version : chars) : ClientKind * chars * chars :=
  let take_next k rest := let '(v, os) := next_versions rest in (k, v, os) in
  let skip_one k rest :=
    match rest with
    | _ :: rest => take_next k rest
    | [] => (k, unknown, unknown)
    end in
  match split "/"%char agent_version with
  | [] => (ClientKind.Unknown, unknown, unknown)
  | first :: rest =>
      if bool_decide (first = lit "Grandine") then take_next ClientKind.Grandine rest
      else if bool_decide (first = lit "Lighthouse") then take_next ClientKind.Lighthouse rest
      else if bool_decide (first = lit "teku") then skip_one ClientKind.Teku rest
      else if bool_decide (first = lit "github.com") then (ClientKind.Prysm, unknown, unknown)
      else if bool_decide (first = lit "Prysm") then skip_one ClientKind.Prysm rest
      else if bool_decide (first = lit "nimbus") then skip_one ClientKind.Nimbus rest
      else if bool_decide (first = lit "nim-libp2p") then take_next ClientKind.Nimbus rest
      else if bool_decide (first = lit "js-libp2p") || bool_decide (first = lit "lodestar")
      then take_next ClientKind.Lodestar rest
      else if bool_decide (first = lit "erigon") then
        ((if bool_decide (head rest = Some (lit "caplin")) then ClientKind.Caplin else ClientKind.Unknown),
         unknown, unknown)
      else (ClientKind.Unknown, unknown, unknown)
  end.

Definition from_identify_info (agent_version protocol_version : chars) : Client :=
  let '(kind, version, os_version) := client_from_agent_version agent_version in
  mkClient kind version os_version protocol_version (Some agent_version).

(** ** Sync status ([peerdb/sync_status.rs]) *)

Section sync_status.
Context `{ChainTypes}.

Record SyncInfo := mkSyncInfo {
  si_head_slot : Slot;
  si_head_root : H256;
  si_finalized_epoch : Epoch;
  si_finalized_root : H256;
  si_earliest_available_slot : option Slot;
}.

Inductive SyncStatus :=
  | Synced (info : SyncInfo)
  | Advanced (info : SyncInfo)
  | Behind (info : SyncInfo)
  | IrrelevantPeer
  | SyncUnknown.

Definition has_slot (i : SyncInfo) (slot : Slot) : bool :=
  match si_earliest_available_slot i with Some e => e <=? slot | None => true end.

(** [PartialEq]: only the variants are compared. *)
Definition SyncStatus_eq (a b : SyncStatus) : bool :=
  match a, b with
  | Synced _, Synced _ | Advanced _, Advanced _ | Behind _, Behind _
  | IrrelevantPeer, IrrelevantPeer | SyncUnknown, SyncUnknown => true
  | _, _ => false
  end.

Definition is_advanced (s : SyncStatus) : bool := match s with Advanced _ => true | _ => false end.
Definition is_synced (s : SyncStatus) : bool := match s with Synced _ => true | _ => false end.
Definition is_behind (s : SyncStatus) : bool := match s with Behind _ => true | _ => false end.

(** [update]: whether the variant changed, and the new status. *)
Definition SyncStatus_update (s new_state : SyncStatus) : bool * SyncStatus :=
  (negb (SyncStatus_eq s new_state), new_state).

Definition SyncStatus_as_str (s : SyncStatus) : string :=
  match s with
  | Advanced _ => "Advanced" | Behind _ => "Behind" | Synced _ => "Synced"
  | SyncUnknown => "Unknown" | IrrelevantPeer => "Irrelevant"
  end.

End sync_status.

(** ** Peer information *)

Inductive ConnectionDirection := Incoming | Outgoing.

Section peer_info.
Context `{ChainTypes} `{Libp2p} `{HashIter}.

Inductive PeerConnectionStatus :=
  | Connected (multiaddr : Multiaddr) (n_in n_out : Z)
  | Disconnecting (to_ban : bool)
  | Disconnected (since : Instant)
  | Banned (since : Instant)
  | Dialing (since : Instant)
  | Unknown.

Record PeerInfo := mkPeerInfo {
  pi_score : Score;
  pi_client : Client;
  connection_status : PeerConnectionStatus;
  listening_addresses : list Multiaddr;
  seen_multiaddrs : gset Multiaddr;
  sync_status : SyncStatus;
  meta_data : option MetaData;
  subnets : gset Subnet;
  custody_subnets : gset SubnetId;
  min_ttl : option Instant;
  is_trusted : bool;
  connection_direction : option ConnectionDirection;
  enr : option Enr;
}.

Definition PeerInfo_default (now : Instant) : PeerInfo :=
  mkPeerInfo (Score_default now) Client_default Unknown [] ∅ SyncUnknown None ∅ ∅ None false None None.

Definition trusted_peer_info : PeerInfo :=
  mkPeerInfo max_score Client_default Unknown [] ∅ SyncUnknown None ∅ ∅ None true None None.

(** *** Queries *)

Definition is_assigned_to_custody_subnet (i : PeerInfo) (subnet : SubnetId) : bool :=
  bool_decide (subnet ∈ custody_subnets i).

Definition on_subnet_metadata (i : PeerInfo) (subnet : Subnet) : bool :=
  match meta_data i with
  | Some m =>
      match subnet with
      | Subnet.Attestation id => default false (bit_get (attnets m) id)
      | Subnet.SyncCommittee id =>
          match syncnets m with Some s => default false (bit_get s id) | None => false end
      | Subnet.DataColumn id => is_assigned_to_custody_subnet i id
      end
  | None => false
  end.

Definition on_subnet_gossipsub (i : PeerInfo) (subnet : Subnet) : bool :=
  bool_decide (subnet ∈ subnets i).

Definition is_ip4 (p : MultiaddrProtocol) : bool := match p with MaIp4 _ => true | _ => false end.
Definition is_ip6 (p : MultiaddrProtocol) : bool := match p with MaIp6 _ => true | _ => false end.

Definition is_incoming_ipv4_connection (i : PeerInfo) : bool :=
  existsb (fun a => existsb is_ip4 (multiaddr_iter a)) (set_iter (seen_multiaddrs i)).
Definition is_incoming_ipv6_connection (i : PeerInfo) : bool :=
  existsb (fun a => existsb is_ip6 (multiaddr_iter a)) (set_iter (seen_multiaddrs i)).

(** The subnets of the bits set, [0..=last_one]. *)
Definition bitfield_subnets (mk : SubnetId -> Subnet) (b : BitVector) : list Subnet :=
  flat_map (fun n => if default false (bit_get b (Z.of_nat n)) then [mk (Z.of_nat n)] else [])
    (seq 0 (S (default 0%nat (bit_last_one b)))).

Definition long_lived_subnets (i : PeerInfo) : list Subnet :=
  match meta_data i with
  | Some m =>
      bitfield_subnets Subnet.Attestation (attnets m) ++
      match syncnets m with Some s => bitfield_subnets Subnet.SyncCommittee s | None => [] end
  | None =>
      match enr i with
      | Some e =>
          match attestation_bitfield e with
          | Ok b => bitfield_subnets Subnet.Attestation b | Err _ => []
          end ++
          match sync_committee_bitfield e with
          | Ok b => bitfield_subnets Subnet.SyncCommittee b | Err _ => []
          end
      | None => []
      end
  end ++ map Subnet.DataColumn (set_iter (custody_subnets i)).

Definition has_long_lived_subnet (i : PeerInfo) : bool :=
  let subscribed := negb (bool_decide (subnets i = ∅)) in
  (match meta_data i with
   | Some m =>
       (negb (bit_none (attnets m)) && subscribed) ||
       match syncnets m with Some s => negb (bit_none s) | None => false end
   | None => false
   end) ||
  (match enr i with
   | Some e =>
       match attestation_bitfield e with
       | Ok b => negb (bit_none b) && subscribed
       | Err _ => false
       end
   | None => false
   end) ||
  existsb (fun id => bool_decide (Subnet.DataColumn id ∈ subnets i)) (set_iter (custody_subnets i)).

(** The IP address of a multiaddress, if it has one. *)
Fixpoint find_ip (ps : list MultiaddrProtocol) : option IpAddr :=
  match ps with
  | [] => None
  | MaIp4 ip :: _ => Some (IpV4 ip)
  | MaIp6 ip :: _ => Some (IpV6 ip)
  | _ :: ps => find_ip ps
  end.

Definition seen_ip_addresses (i : PeerInfo) : list IpAddr :=
  omap (fun a => find_ip (multiaddr_iter a)) (set_iter (seen_multiaddrs i)).

Definition has_future_duty (i : PeerInfo) (now : Instant) : bool :=
  match min_ttl i with Some t => now <=? t | None => false end.

Definition pi_score_state (i : PeerInfo) : ScoreState := score_state (pi_score i).
Definition pi_is_good_gossipsub_peer (i : PeerInfo) : bool := is_good_gossipsub_peer (pi_score i).

Definition is_connected (i : PeerInfo) : bool :=
  match connection_status i with Connected _ _ _ => true | _ => false end.
Definition is_synced_or_advanced (i : PeerInfo) : bool :=
  match sync_status i with Synced _ | Advanced _ => true | _ => false end.
Definition is_dialing (i : PeerInfo) : bool :=
  match connection_status i with Dialing _ => true | _ => false end.
Definition is_connected_or_dialing (i : PeerInfo) : bool := is_connected i || is_dialing i.
Definition is_banned (i : PeerInfo) : bool :=
  match connection_status i with Banned _ => true | _ => false end.
Definition score_is_banned (i : PeerInfo) : bool :=
  match pi_score_state i with ScoreState.Banned => true | _ => false end.
Definition is_disconnected (i : PeerInfo) : bool :=
  match connection_status i with Disconnected _ => true | _ => false end.
Definition is_outbound_only (i : PeerInfo) : bool :=
  match connection_status i with Connected _ n_in n_out => (n_in =? 0) && (0 <? n_out) | _ => false end.
Definition connections (i : PeerInfo) : Z * Z :=
  match connection_status i with Connected _ n_in n_out => (n_in, n_out) | _ => (0, 0) end.

(** *** Updates *)

Definition set_pi_score (i : PeerInfo) (s : Score) : PeerInfo :=
  let '(mkPeerInfo _ c st la sm sy m su cu ttl tr d e) := i in
  mkPeerInfo s c st la sm sy m su cu ttl tr d e.

Definition set_client (i : PeerInfo) (c : Client) : PeerInfo :=
  let '(mkPeerInfo s _ st la sm sy m su cu ttl tr d e) := i in
  mkPeerInfo s c st la sm sy m su cu ttl tr d e.

Definition set_connection_status (i : PeerInfo) (st : PeerConnectionStatus) : PeerInfo :=
  let '(mkPeerInfo s c _ la sm sy m su cu ttl tr d e) := i in
  mkPeerInfo s c st la sm sy m su cu ttl tr d e.

(** The new addresses replace the current ones, which are returned. *)
Definition set_listening_addresses (i : PeerInfo) (la' : list Multiaddr) : list Multiaddr * PeerInfo :=
  let '(mkPeerInfo s c st la sm sy m su cu ttl tr d e) := i in
  (la, mkPeerInfo s c st la' sm sy m su cu ttl tr d e).

Definition insert_seen (i : PeerInfo) (a : Multiaddr) : PeerInfo :=
  let '(mkPeerInfo s c st la sm sy m su cu ttl tr d e) := i in
  mkPeerInfo s c st la ({[a]} ∪ sm) sy m su cu ttl tr d e.

(** [update_sync_status]: whether the status changed. *)
Definition pi_update_sync_status (i : PeerInfo) (sy' : SyncStatus) : bool * PeerInfo :=
  let '(mkPeerInfo s c st la sm sy m su cu ttl tr d e) := i in
  let '(changed, sy) := SyncStatus_update sy sy' in
  (changed, mkPeerInfo s c st la sm sy m su cu ttl tr d e).

Definition set_meta_data (i : PeerInfo) (m : MetaData) : PeerInfo :=
  let '(mkPeerInfo s c st la sm sy _ su cu ttl tr d e) := i in
  mkPeerInfo s c st la sm sy (Some m) su cu ttl tr d e.

Definition set_subnets (i : PeerInfo) (su : gset Subnet) : PeerInfo :=
  let '(mkPeerInfo s c st la sm sy m _ cu ttl tr d e) := i in
  mkPeerInfo s c st la sm sy m su cu ttl tr d e.

Definition insert_subnet (i : PeerInfo) (subnet : Subnet) : PeerInfo :=
  set_subnets i ({[subnet]} ∪ subnets i).
Definition remove_subnet (i : PeerInfo) (subnet : Subnet) : PeerInfo :=
  set_subnets i (subnets i ∖ {[subnet]}).
Definition clear_subnets (i : PeerInfo) : PeerInfo := set_subnets i ∅.

Definition set_custody_subnets (i : PeerInfo) (cu : gset SubnetId) : PeerInfo :=
  let '(mkPeerInfo s c st la sm sy m su _ ttl tr d e) := i in
  mkPeerInfo s c st la sm sy m su cu ttl tr d e.

Definition set_min_ttl (i : PeerInfo) (ttl : Instant) : PeerInfo :=
  let '(mkPeerInfo s c st la sm sy m su cu _ tr d e) := i in
  mkPeerInfo s c st la sm sy m su cu (Some ttl) tr d e.

Definition set_is_trusted (i : PeerInfo) (tr : bool) : PeerInfo :=
  let '(mkPeerInfo s c st la sm sy m su cu ttl _ d e) := i in
  mkPeerInfo s c st la sm sy m su cu ttl tr d e.

Definition set_direction (i : PeerInfo) (d : ConnectionDirection) : PeerInfo :=
  let '(mkPeerInfo s c st la sm sy m su cu ttl tr _ e) := i in
  mkPeerInfo s c st la sm sy m su cu ttl tr (Some d) e.

Definition set_enr (i : PeerInfo) (e : Enr) : PeerInfo :=
  let '(mkPeerInfo s c st la sm sy m su cu ttl tr d _) := i in
  mkPeerInfo s c st la sm sy m su cu ttl tr d (Some e).

Definition pi_score_update `{FloatExp} (i : PeerInfo) (now : Instant) : PeerInfo :=
  if negb (is_trusted i) then set_pi_score i (score_update (pi_score i) now) else i.

Definition apply_peer_action_to_score (i : PeerInfo) (a : PeerAction) : PeerInfo :=
  if negb (is_trusted i) then set_pi_score i (apply_peer_action (pi_score i) a) else i.

Definition pi_update_gossipsub_score (i : PeerInfo) (now : Instant) (new_score : f64) (ignore : bool)
  : PeerInfo := set_pi_score i (score_update_gossipsub (pi_score i) now new_score ignore).

Definition set_dialing_peer (i : PeerInfo) (now : Instant) : result PeerInfo string :=
  match connection_status i with
  | Connected _ _ _ => Err "Dialing connected peer"%string
  | Dialing _ => Err "Dialing an already dialing peer"%string
  | Disconnecting _ => Err "Dialing a disconnecting peer"%string
  | Disconnected _ | Banned _ | Unknown => Ok (set_connection_status i (Dialing now))
  end.

Definition connect_ingoing (i : PeerInfo) (multiaddr : Multiaddr) : PeerInfo :=
  let i := insert_seen i multiaddr in
  match connection_status i with
  | Connected a n_in n_out => set_connection_status i (Connected a (u8_wrapping_add n_in 1) n_out)
  | _ => set_direction (set_connection_status i (Connected multiaddr 1 0)) Incoming
  end.

Definition connect_outgoing (i : PeerInfo) (multiaddr : Multiaddr) : PeerInfo :=
  let i := insert_seen i multiaddr in
  match connection_status i with
  | Connected a n_in n_out => set_connection_status i (Connected a n_in (u8_wrapping_add n_out 1))
  | _ => set_direction (set_connection_status i (Connected multiaddr 0 1)) Outgoing
  end.

End peer_info.
