(* ===== verification/PeerDB.v ===== *)
(** * The peer database ([peer_manager/peerdb.rs])

    The database maps peers to what is known of them, counts the disconnected and the banned ones, the
    latter also per IP address, and decides on bans from scores.  Every method that changes it is a
    definition here, by the method's name with the prefix [db_] where a peer has a method of the same
    name; [now] is the instant the method reads from the clock. *)

From S2P Require Import Prelude Chain Protocol Messages Float64 Score PeerInfo.

(** ** Counting banned peers *)

Definition BANNED_PEERS_PER_IP_THRESHOLD : Z := 5.
Definition MAX_DC_PEERS : Z := 500.
Definition MAX_BANNED_PEERS : Z := 1000.
Definition DIAL_TIMEOUT : Z := 15.

Record BannedPeersCount := mkBannedCount {
  banned_peers : Z;
  banned_peers_per_ip : gmap IpAddr Z;
}.

Definition BannedPeersCount_default : BannedPeersCount := mkBannedCount 0 ∅.

Definition remove_banned_ip (m : gmap IpAddr Z) (ip : IpAddr) : gmap IpAddr Z :=
  match m !! ip with
  | Some count => <[ip := saturating_sub count 1]> m
  | None => m
  end.

Definition remove_banned_peer (c : BannedPeersCount) (ips : list IpAddr) : BannedPeersCount :=
  mkBannedCount (saturating_sub (banned_peers c) 1)
    (fold_left remove_banned_ip ips (banned_peers_per_ip c)).

Definition add_banned_ip (m : gmap IpAddr Z) (ip : IpAddr) : gmap IpAddr Z :=
  let '(m, count) := entry_or_insert ip 0 m in <[ip := usize_wrapping_add count 1]> m.

Definition add_banned_peer (c : BannedPeersCount) (ips : list IpAddr) : BannedPeersCount :=
  mkBannedCount (usize_saturating_add (banned_peers c) 1)
    (fold_left add_banned_ip ips (banned_peers_per_ip c)).

Definition count_ip_is_banned (c : BannedPeersCount) (ip : IpAddr) : bool :=
  match banned_peers_per_ip c !! ip with
  | Some count => BANNED_PEERS_PER_IP_THRESHOLD <? count
  | None => false
  end.

(** [banned_ips]: the set of addresses over the threshold. *)
Definition banned_ips (c : BannedPeersCount) : gset IpAddr :=
  dom (filter (fun kv => BANNED_PEERS_PER_IP_THRESHOLD < kv.2) (banned_peers_per_ip c)).

Inductive ScoreTransitionResult :=
  | TransDisconnected | TransBanned | TransUnbanned | TransNoAction.

Inductive BanOperation :=
  | TemporaryBan
  | DisconnectThePeer
  | ReadyToBan (ips : list IpAddr)
  | PeerDisconnecting.

Inductive ScoreUpdateResult :=
  | ResBan (op : BanOperation)
  | ResDisconnect
  | ResUnbanned (ips : list IpAddr)
  | ResNoAction.

Definition ScoreUpdateResult_from (op : option BanOperation) : ScoreUpdateResult :=
  match op with None => ResNoAction | Some bo => ResBan bo end.

Inductive BanResult :=
  | BadScore
  | BannedIp (ip : IpAddr).

(** [slice::sort_unstable_by]: some permutation, sorted when the comparison is an order. *)
Class UnstableSort := {
  sort_unstable_by : forall {A : Type}, (A -> A -> comparison) -> list A -> list A;
  sort_unstable_by_perm : forall {A} (cmp : A -> A -> comparison) l, sort_unstable_by cmp l ≡ₚ l;
}.

(** [(target_peers as f32 * ALLOWED_NEGATIVE_GOSSIPSUB_FACTOR).ceil() as usize], in binary32. *)
Definition ALLOWED_NEGATIVE_GOSSIPSUB_FACTOR : spec_float := S754_finite false 13421773 (-27).
Definition f32_ceil_as_usize (x : spec_float) : Z :=
  match x with
  | S754_finite false m e =>
      if 0 <=? e then Z.min USIZE_MAX (Zpos m * 2 ^ e) else (Zpos m + 2 ^ (- e) - 1) / 2 ^ (- e)
  | S754_infinity false => USIZE_MAX
  | _ => 0
  end.
Definition allowed_negative (target_peers : Z) : Z :=
  f32_ceil_as_usize (SFmul 24 128 (binary_normalize 24 128 target_peers 0 false)
    ALLOWED_NEGATIVE_GOSSIPSUB_FACTOR).

Section peerdb.
Context `{ChainTypes} `{Libp2p} `{HashIter} `{FloatExp} `{UnstableSort}.

Inductive NewConnectionState :=
  | NewConnected (enr : option Enr) (seen_address : Multiaddr) (direction : ConnectionDirection)
  | NewDisconnecting (to_ban : bool)
  | NewDialing (enr : option Enr)
  | NewDisconnected
  | NewBanned
  | NewUnbanned.

Record PeerDB := mkPeerDB {
  peers : gmap PeerId PeerInfo;
  disconnected_peers : Z;
  banned_peers_count : BannedPeersCount;
  disable_peer_scoring : bool;
}.

Definition PeerDB_new (trusted_peers : list PeerId) (disable_peer_scoring : bool) : PeerDB :=
  mkPeerDB (list_to_map (map (fun p => (p, trusted_peer_info)) trusted_peers)) 0
    BannedPeersCount_default disable_peer_scoring.

Definition put_peer (db : PeerDB) (p : PeerId) (i : PeerInfo) : PeerDB :=
  mkPeerDB (<[p := i]> (peers db)) (disconnected_peers db) (banned_peers_count db)
    (disable_peer_scoring db).
Definition set_disconnected (db : PeerDB) (n : Z) : PeerDB :=
  mkPeerDB (peers db) n (banned_peers_count db) (disable_peer_scoring db).
Definition set_banned (db : PeerDB) (c : BannedPeersCount) : PeerDB :=
  mkPeerDB (peers db) (disconnected_peers db) c (disable_peer_scoring db).
Definition set_peers (db : PeerDB) (m : gmap PeerId PeerInfo) : PeerDB :=
  mkPeerDB m (disconnected_peers db) (banned_peers_count db) (disable_peer_scoring db).

(** ** Queries *)

Definition db_score (db : PeerDB) (p : PeerId) (now : Instant) : f64 :=
  score (match peers db !! p with Some i => pi_score i | None => Score_default now end).

Definition trusted_peers (db : PeerDB) : list PeerId :=
  omap (fun '(id, i) => if is_trusted i then Some id else None) (hash_iter (peers db)).

Definition db_connection_status (db : PeerDB) (p : PeerId) : option PeerConnectionStatus :=
  connection_status <$> peers db !! p.

Definition db_is_connected (db : PeerDB) (p : PeerId) : bool :=
  match db_connection_status db p with Some (Connected _ _ _) => true | _ => false end.
Definition db_is_connected_or_dialing (db : PeerDB) (p : PeerId) : bool :=
  match db_connection_status db p with Some (Connected _ _ _) | Some (Dialing _) => true | _ => false end.
Definition db_is_connected_or_disconnecting (db : PeerDB) (p : PeerId) : bool :=
  match db_connection_status db p with
  | Some (Connected _ _ _) | Some (Disconnecting _) => true | _ => false
  end.

Definition db_ip_is_banned (db : PeerDB) (i : PeerInfo) : option IpAddr :=
  List.find (count_ip_is_banned (banned_peers_count db)) (seen_ip_addresses i).

Definition is_ip_banned (db : PeerDB) (ip : IpAddr) : bool :=
  count_ip_is_banned (banned_peers_count db) ip.

Definition ban_status (db : PeerDB) (p : PeerId) : option BanResult :=
  match peers db !! p with
  | Some i =>
      match pi_score_state i with
      | ScoreState.Banned => Some BadScore
      | _ => BannedIp <$> db_ip_is_banned db i
      end
  | None => None
  end.

Definition score_state_banned_or_disconnected (db : PeerDB) (p : PeerId) : bool :=
  match peers db !! p with
  | Some i =>
      match pi_score_state i with
      | ScoreState.Banned | ScoreState.ForcedDisconnect => true
      | _ => bool_decide (is_Some (db_ip_is_banned db i))
      end
  | None => false
  end.

Definition should_dial (db : PeerDB) (p : PeerId) : bool :=
  (match db_connection_status db p with
   | Some (Disconnected _) | Some Unknown | None => true
   | _ => false
   end) && negb (score_state_banned_or_disconnected db p).

Definition db_is_synced (db : PeerDB) (p : PeerId) : bool :=
  match sync_status <$> peers db !! p with Some (Synced _) => true | _ => false end.

(** The iterators over the peers that satisfy a test. *)
Definition peers_where (db : PeerDB) (test : PeerInfo -> bool) : list (PeerId * PeerInfo) :=
  List.filter (fun kv => test kv.2) (hash_iter (peers db)).

Definition connected_peers (db : PeerDB) := peers_where db is_connected.
Definition connected_or_dialing_peers (db : PeerDB) : list PeerId :=
  (peers_where db is_connected_or_dialing).*1.
Definition connected_outbound_only_peers (db : PeerDB) : list PeerId :=
  (peers_where db is_outbound_only).*1.
Definition synced_peers (db : PeerDB) : list PeerId :=
  (peers_where db (fun i => (is_synced (sync_status i) || is_advanced (sync_status i))
                            && is_connected i)).*1.
Definition advanced_peers (db : PeerDB) : list PeerId :=
  (peers_where db (fun i => is_advanced (sync_status i) && is_connected i)).*1.
Definition db_disconnected_peers (db : PeerDB) : list PeerId := (peers_where db is_disconnected).*1.
Definition db_banned_peers (db : PeerDB) : list PeerId := (peers_where db is_banned).*1.
Definition banned_peers_by_score (db : PeerDB) : list PeerId := (peers_where db score_is_banned).*1.

Definition has_epoch (epoch : Epoch) (i : PeerInfo) : bool :=
  is_connected i &&
  match sync_status i with
  | Synced info | Advanced info => has_slot info (compute_start_slot_at_epoch epoch)
  | IrrelevantPeer | Behind _ | SyncUnknown => false
  end.

Definition synced_peers_for_epoch (db : PeerDB) (epoch : Epoch) : list PeerId :=
  (peers_where db (has_epoch epoch)).*1.

Definition good_peers_on_subnet (db : PeerDB) (subnet : Subnet) : list PeerId :=
  (peers_where db (fun i => is_connected i && is_synced_or_advanced i && on_subnet_metadata i subnet
                            && on_subnet_gossipsub i subnet && pi_is_good_gossipsub_peer i)).*1.

Definition good_custody_subnet_peer (db : PeerDB) (subnet : SubnetId) : list PeerId :=
  (peers_where db (fun i => is_connected i && pi_is_good_gossipsub_peer i
                            && is_assigned_to_custody_subnet i subnet && is_synced_or_advanced i)).*1.

(** The two nested loops of [has_good_custody_range_sync_peer]: subnets are struck off until none is
    left. *)
Fixpoint strike_off (remaining : gset SubnetId) (custody : list SubnetId) : bool * gset SubnetId :=
  match custody with
  | [] => (false, remaining)
  | s :: custody =>
      let removed := bool_decide (s ∈ remaining) in
      let remaining := remaining ∖ {[s]} in
      if removed && bool_decide (remaining = ∅) then (true, remaining)
      else strike_off remaining custody
  end.

Fixpoint strike_off_peers (remaining : gset SubnetId) (infos : list PeerInfo) : bool :=
  match infos with
  | [] => false
  | i :: infos =>
      match strike_off remaining (set_iter (custody_subnets i)) with
      | (true, _) => true
      | (false, remaining) => strike_off_peers remaining infos
      end
  end.

Definition has_good_custody_range_sync_peer (db : PeerDB) (subnets : gset SubnetId) (epoch : Epoch)
  : bool := strike_off_peers subnets (peers_where db (has_epoch epoch)).*2.

Fixpoint count_custody (subnet : SubnetId) (target_peers peer_count : Z) (infos : list PeerInfo) : bool :=
  match infos with
  | [] => false
  | i :: infos =>
      let peer_count :=
        if is_assigned_to_custody_subnet i subnet then usize_wrapping_add peer_count 1 else peer_count in
      if target_peers <=? peer_count then true else count_custody subnet target_peers peer_count infos
  end.

Definition has_good_peers_in_custody_subnet (db : PeerDB) (subnet : SubnetId) (target_peers : Z) : bool :=
  count_custody subnet target_peers 0
    (peers_where db (fun i => is_connected i && is_synced_or_advanced i)).*2.

Definition info_cmp (reverse : bool) (a b : PeerId * PeerInfo) : comparison :=
  score_total_cmp (pi_score a.2) (pi_score b.2) reverse.

Definition worst_connected_peers (db : PeerDB) : list (PeerId * PeerInfo) :=
  sorted_by (info_cmp false) (peers_where db is_connected).

Definition best_peers_by_status (db : PeerDB) (is_status : PeerInfo -> bool) : list (PeerId * PeerInfo) :=
  sorted_by (info_cmp true) (peers_where db is_status).

Definition best_by_status (db : PeerDB) (is_status : PeerInfo -> bool) : option PeerId :=
  fst <$> max_by (info_cmp false) (peers_where db is_status).

(** ** The connection state machine *)

Definition seen_banned_ips (db : PeerDB) (i : PeerInfo) : list IpAddr :=
  filter (fun ip => ip ∈ banned_ips (banned_peers_count db)) (seen_ip_addresses i).

Definition opt_set_enr (e : option Enr) (i : PeerInfo) : PeerInfo :=
  match e with Some e => set_enr i e | None => i end.

(** The branches of [update_connection_state], with [i] the entry of peer [p]. *)
Definition enter_connected (db : PeerDB) (p : PeerId) (i : PeerInfo) (e : option Enr)
  (seen_address : Multiaddr) (direction : ConnectionDirection) : PeerDB :=
  let i := opt_set_enr e i in
  let db :=
    match connection_status i with
    | Disconnected _ => set_disconnected db (saturating_sub (disconnected_peers db) 1)
    | Banned _ => set_banned db (remove_banned_peer (banned_peers_count db) (seen_ip_addresses i))
    | Disconnecting _ | Unknown | Connected _ _ _ | Dialing _ => db
    end in
  put_peer db p
    (match direction with
     | Incoming => connect_ingoing i seen_address
     | Outgoing => connect_outgoing i seen_address
     end).

Definition enter_dialing (db : PeerDB) (now : Instant) (p : PeerId) (i : PeerInfo) (e : option Enr)
  : PeerDB :=
  let db :=
    match connection_status i with
    | Banned _ => set_banned db (remove_banned_peer (banned_peers_count db) (seen_ip_addresses i))
    | Disconnected _ => set_disconnected db (saturating_sub (disconnected_peers db) 1)
    | Connected _ _ _ | Dialing _ | Disconnecting _ | Unknown => db
    end in
  let i := opt_set_enr e i in
  put_peer db p (match set_dialing_peer i now with Ok i => i | Err _ => i end).

Definition enter_disconnected (db : PeerDB) (now : Instant) (p : PeerId) (i : PeerInfo)
  : option BanOperation * PeerDB :=
  let i := clear_subnets i in
  let disconnect :=
    put_peer (set_disconnected db (usize_wrapping_add (disconnected_peers db) 1)) p
      (set_connection_status i (Disconnected now)) in
  match connection_status i with
  | Banned _ | Disconnected _ => (None, put_peer db p i)
  | Disconnecting true =>
      let i := set_connection_status i (Banned now) in
      let db := set_banned db (add_banned_peer (banned_peers_count db) (seen_ip_addresses i)) in
      (Some (ReadyToBan (seen_banned_ips db i)), put_peer db p i)
  | Disconnecting false => (Some TemporaryBan, disconnect)
  | Unknown | Connected _ _ _ | Dialing _ => (None, disconnect)
  end.

Definition enter_disconnecting (db : PeerDB) (p : PeerId) (i : PeerInfo) (to_ban : bool) : PeerDB :=
  let db :=
    match connection_status i with
    | Disconnected _ => set_disconnected db (saturating_sub (disconnected_peers db) 1)
    | _ => db
    end in
  put_peer db p (set_connection_status i (Disconnecting to_ban)).

Definition enter_banned (db : PeerDB) (now : Instant) (p : PeerId) (i : PeerInfo)
  : option BanOperation * PeerDB :=
  match connection_status i with
  | Disconnected _ =>
      let i := set_connection_status i (Banned now) in
      let db := set_banned db (add_banned_peer (banned_peers_count db) (seen_ip_addresses i)) in
      let db := set_disconnected db (saturating_sub (disconnected_peers db) 1) in
      (Some (ReadyToBan (seen_banned_ips db i)), put_peer db p i)
  | Disconnecting _ =>
      (Some PeerDisconnecting, put_peer db p (set_connection_status i (Disconnecting true)))
  | Banned _ => (Some (ReadyToBan (seen_banned_ips db i)), put_peer db p i)
  | Connected _ _ _ | Dialing _ =>
      (Some DisconnectThePeer, put_peer db p (set_connection_status i (Disconnecting true)))
  | Unknown =>
      let db := set_banned db (add_banned_peer (banned_peers_count db) (seen_ip_addresses i)) in
      let i := set_connection_status i (Banned now) in
      (Some (ReadyToBan (seen_banned_ips db i)), put_peer db p i)
  end.

Definition enter_unbanned (db : PeerDB) (p : PeerId) (i : PeerInfo) : PeerDB :=
  match connection_status i with
  | Unknown | Connected _ _ _ | Disconnected _ | Disconnecting _ | Dialing _ => put_peer db p i
  | Banned since =>
      let i := set_connection_status i (Disconnected since) in
      let db := set_banned db (remove_banned_peer (banned_peers_count db) (seen_ip_addresses i)) in
      let db := set_disconnected db (usize_saturating_add (disconnected_peers db) 1) in
      put_peer db p i
  end.

(** The entry of the peer, created if missing. *)
Definition entry_info (db : PeerDB) (now : Instant) (p : PeerId) : PeerInfo :=
  match peers db !! p with
  | Some i => i
  | None => if disable_peer_scoring db then trusted_peer_info else PeerInfo_default now
  end.

(** A peer to be banned whose score does not say so is given the lowest score. *)
Definition ensure_banned_score (i : PeerInfo) : PeerInfo :=
  match pi_score_state i with
  | ScoreState.Banned => i
  | _ => apply_peer_action_to_score i Fatal
  end.

Definition update_connection_state (db : PeerDB) (now : Instant) (p : PeerId)
  (new_state : NewConnectionState) : option BanOperation * PeerDB :=
  let i := entry_info db now p in
  match new_state with
  | NewConnected e seen_address direction => (None, enter_connected db p i e seen_address direction)
  | NewDialing e => (None, enter_dialing db now p i e)
  | NewDisconnected => enter_disconnected db now p i
  | NewDisconnecting to_ban => (None, enter_disconnecting db p i to_ban)
  | NewBanned => enter_banned db now p (ensure_banned_score i)
  | NewUnbanned => (None, enter_unbanned db p i)
  end.

(** ** Scores *)

Definition handle_score_transition (previous_state : ScoreState) (i : PeerInfo) : ScoreTransitionResult :=
  match pi_score_state i, previous_state with
  | ScoreState.Banned, ScoreState.Healthy | ScoreState.Banned, ScoreState.ForcedDisconnect => TransBanned
  | ScoreState.ForcedDisconnect, ScoreState.Banned | ScoreState.ForcedDisconnect, ScoreState.Healthy =>
      if is_connected_or_dialing i then TransDisconnected
      else if decide (previous_state = ScoreState.Banned) then TransUnbanned else TransNoAction
  | ScoreState.Healthy, ScoreState.ForcedDisconnect => TransNoAction
  | ScoreState.Healthy, ScoreState.Banned => TransUnbanned
  | ScoreState.Healthy, ScoreState.Healthy => TransNoAction
  | ScoreState.ForcedDisconnect, ScoreState.ForcedDisconnect => TransNoAction
  | ScoreState.Banned, ScoreState.Banned => TransNoAction
  end.

(** The addresses of a peer that are not banned. *)
Definition unbanned_ips (db : PeerDB) (p : PeerId) : list IpAddr :=
  match peers db !! p with
  | Some i => filter (fun ip => is_ip_banned db ip = false) (seen_ip_addresses i)
  | None => []
  end.

Fixpoint unban_all (db : PeerDB) (now : Instant) (ps : list PeerId)
  : list (PeerId * ScoreUpdateResult) * PeerDB :=
  match ps with
  | [] => ([], db)
  | p :: ps =>
      let db := (update_connection_state db now p NewUnbanned).2 in
      let res := (p, ResUnbanned (unbanned_ips db p)) in
      let '(rest, db) := unban_all db now ps in (res :: rest, db)
  end.

Definition is_unban (t : ScoreTransitionResult) : bool :=
  match t with TransUnbanned => true | _ => false end.

Definition update_scores (db : PeerDB) (now : Instant) : list (PeerId * ScoreUpdateResult) * PeerDB :=
  let peers_to_unban :=
    (List.filter (fun kv => is_unban (handle_score_transition (pi_score_state kv.2)
                                        (pi_score_update kv.2 now)))
       (hash_iter (peers db))).*1 in
  unban_all (set_peers db ((fun i => pi_score_update i now) <$> peers db)) now peers_to_unban.

(** The first loop of [update_gossipsub_scores], over the connected peers by descending score. *)
Fixpoint gossip_loop (db : PeerDB) (now : Instant) (to_ignore : Z) (ps : list (PeerId * f64))
  : list (PeerId * ScoreTransitionResult) * PeerDB :=
  match ps with
  | [] => ([], db)
  | (p, score) :: ps =>
      match peers db !! p with
      | None => gossip_loop db now to_ignore ps
      | Some i =>
          let previous_state := pi_score_state i in
          let ignore := f64_lt score (f64_of_Z 0) && (0 <? to_ignore) in
          let to_ignore := if ignore then to_ignore - 1 else to_ignore in
          let i := pi_update_gossipsub_score i now score ignore in
          let '(actions, db) := gossip_loop (put_peer db p i) now to_ignore ps in
          ((p, handle_score_transition previous_state i) :: actions, db)
      end
  end.

(** What a transition leads to; the last loop of [update_gossipsub_scores] and, except for unbans,
    the end of [report_peer]. *)
Definition apply_transition (db : PeerDB) (now : Instant) (p : PeerId) (t : ScoreTransitionResult)
  : ScoreUpdateResult * PeerDB :=
  match t with
  | TransBanned =>
      let '(op, db) := update_connection_state db now p NewBanned in (ScoreUpdateResult_from op, db)
  | TransDisconnected => (ResDisconnect, (update_connection_state db now p (NewDisconnecting false)).2)
  | TransNoAction => (ResNoAction, db)
  | TransUnbanned =>
      let db := (update_connection_state db now p NewUnbanned).2 in
      (ResUnbanned (unbanned_ips db p), db)
  end.

Fixpoint apply_transitions (db : PeerDB) (now : Instant) (ts : list (PeerId * ScoreTransitionResult))
  : list (PeerId * ScoreUpdateResult) * PeerDB :=
  match ts with
  | [] => ([], db)
  | (p, t) :: ts =>
      let '(res, db) := apply_transition db now p t in
      let '(rest, db) := apply_transitions db now ts in
      (match res with ResNoAction => rest | _ => (p, res) :: rest end, db)
  end.

Definition update_gossipsub_scores (db : PeerDB) (now : Instant) (target_peers : Z)
  (gossipsub_peer_score : PeerId -> option f64) : list (PeerId * ScoreUpdateResult) * PeerDB :=
  let connected :=
    omap (fun '(p, _) => (fun s => (p, s)) <$> gossipsub_peer_score p) (peers_where db is_connected) in
  let sorted :=
    sort_unstable_by (fun a b => default Eq (f64_partial_cmp b.2 a.2)) connected in
  let '(actions, db) := gossip_loop db now (allowed_negative target_peers) sorted in
  apply_transitions db now actions.

Definition report_peer (db : PeerDB) (now : Instant) (p : PeerId) (action : PeerAction)
  : ScoreUpdateResult * PeerDB :=
  match peers db !! p with
  | Some i =>
      let previous_state := pi_score_state i in
      let i := apply_peer_action_to_score i action in
      let db := put_peer db p i in
      match handle_score_transition previous_state i with
      | TransUnbanned => (ResNoAction, db)
      | t => apply_transition db now p t
      end
  | None => (ResNoAction, db)
  end.

(** ** The other updates *)

Definition set_trusted_peer (db : PeerDB) (e : Enr) : PeerDB :=
  match peers db !! enr_peer_id e with
  | Some i => put_peer db (enr_peer_id e) (set_is_trusted (set_pi_score i max_score) true)
  | None => put_peer db (enr_peer_id e) trusted_peer_info
  end.

Definition unset_trusted_peer (db : PeerDB) (now : Instant) (e : Enr) : PeerDB :=
  match peers db !! enr_peer_id e with
  | Some i => put_peer db (enr_peer_id e) (set_pi_score (set_is_trusted i false) (Score_default now))
  | None => db
  end.

(** Peers that have been dialing for too long. *)
Definition dial_timed_out (now : Instant) (i : PeerInfo) : bool :=
  match connection_status i with
  | Dialing since => since + Duration_from_secs DIAL_TIMEOUT <? now
  | _ => false
  end.

Definition cleanup_dialing_peers (db : PeerDB) (now : Instant) : PeerDB :=
  fold_left (fun db p => (update_connection_state db now p NewDisconnected).2)
    (peers_where db (dial_timed_out now)).*1 db.

Definition db_update_sync_status (db : PeerDB) (p : PeerId) (s : SyncStatus) : option bool * PeerDB :=
  match peers db !! p with
  | Some i => let '(changed, i) := pi_update_sync_status i s in (Some changed, put_peer db p i)
  | None => (None, db)
  end.

Definition raise_min_ttl (i : PeerInfo) (ttl : Instant) : PeerInfo :=
  match min_ttl i with
  | None => set_min_ttl i ttl
  | Some t => if t <? ttl then set_min_ttl i ttl else i
  end.

Definition update_min_ttl (db : PeerDB) (now : Instant) (p : PeerId) (ttl : Instant) : PeerDB :=
  let i := match peers db !! p with Some i => i | None => PeerInfo_default now end in
  put_peer db p (raise_min_ttl i ttl).

Definition add_subscription (db : PeerDB) (p : PeerId) (subnet : Subnet) : PeerDB :=
  match peers db !! p with Some i => put_peer db p (insert_subnet i subnet) | None => db end.

Definition remove_subscription (db : PeerDB) (p : PeerId) (subnet : Subnet) : PeerDB :=
  match peers db !! p with Some i => put_peer db p (remove_subnet i subnet) | None => db end.

Definition extend_peers_on_subnet (db : PeerDB) (subnet : Subnet) (ttl : Instant) : PeerDB :=
  set_peers db
    ((fun i => if is_connected i && on_subnet_metadata i subnet && on_subnet_gossipsub i subnet
               then raise_min_ttl i ttl else i) <$> peers db).

Definition dialing_peer (db : PeerDB) (now : Instant) (p : PeerId) (e : option Enr) : PeerDB :=
  (update_connection_state db now p (NewDialing e)).2.
Definition db_connect_ingoing (db : PeerDB) (now : Instant) (p : PeerId) (a : Multiaddr) (e : option Enr)
  : PeerDB := (update_connection_state db now p (NewConnected e a Incoming)).2.
Definition db_connect_outgoing (db : PeerDB) (now : Instant) (p : PeerId) (a : Multiaddr) (e : option Enr)
  : PeerDB := (update_connection_state db now p (NewConnected e a Outgoing)).2.
Definition notify_disconnecting (db : PeerDB) (now : Instant) (p : PeerId) (to_ban : bool) : PeerDB :=
  (update_connection_state db now p (NewDisconnecting to_ban)).2.

(** ** Keeping the database small *)

Definition banned_since (kv : PeerId * PeerInfo) : option (PeerId * PeerInfo * Instant) :=
  match connection_status kv.2 with Banned since => Some (kv.1, kv.2, since) | _ => None end.

Fixpoint shrink_banned (fuel : nat) (db : PeerDB) (unbanned : list (PeerId * list IpAddr))
  : option (list (PeerId * list IpAddr) * PeerDB) :=
  if MAX_BANNED_PEERS <? banned_peers (banned_peers_count db) then
    match fuel with
    | O => None
    | S fuel =>
        match min_by_key snd (omap banned_since (hash_iter (peers db))) with
        | Some (id, i, _) =>
            let db := set_banned db (remove_banned_peer (banned_peers_count db) (seen_ip_addresses i)) in
            let ips := filter (fun ip => is_ip_banned db ip = false) (seen_ip_addresses i) in
            shrink_banned fuel (set_peers db (delete id (peers db))) (unbanned ++ [(id, ips)])
        | None => shrink_banned fuel (set_banned db BannedPeersCount_default) unbanned
        end
    end
  else Some (unbanned, db).

Definition disconnected_since (kv : PeerId * PeerInfo) : option (PeerId * Instant) :=
  if negb (is_trusted kv.2) then
    match connection_status kv.2 with Disconnected since => Some (kv.1, since) | _ => None end
  else None.

Fixpoint shrink_disconnected (fuel : nat) (db : PeerDB) : option PeerDB :=
  if MAX_DC_PEERS <? disconnected_peers db then
    match fuel with
    | O => None
    | S fuel =>
        let db :=
          match min_by_key snd (omap disconnected_since (hash_iter (peers db))) with
          | Some (id, _) => set_peers db (delete id (peers db))
          | None => db
          end in
        shrink_disconnected fuel (set_disconnected db (saturating_sub (disconnected_peers db) 1))
    end
  else Some db.

(** [shrink_to_fit]; each loop is bounded by the counter it decreases. *)
Definition shrink_to_fit (db : PeerDB) : option (list (PeerId * list IpAddr) * PeerDB) :=
  match shrink_banned (Z.to_nat (banned_peers (banned_peers_count db))) db [] with
  | Some (unbanned, db) =>
      match shrink_disconnected (Z.to_nat (disconnected_peers db)) db with
      | Some db => Some (unbanned, db)
      | None => None
      end
  | None => None
  end.

Definition inject_disconnect (db : PeerDB) (now : Instant) (p : PeerId)
  : option (option BanOperation * list (PeerId * list IpAddr) * PeerDB) :=
  let '(maybe_ban_op, db) := update_connection_state db now p NewDisconnected in
  match shrink_to_fit db with
  | Some (purged, db) => Some (maybe_ban_op, purged, db)
  | None => None
  end.

End peerdb.

(** ** Runs of the database *)

Section peerdb_spec.
Context `{ChainTypes} `{Libp2p} `{HashIter} `{FloatExp} `{UnstableSort}.
Implicit Types (db : PeerDB) (i : PeerInfo).

(** The fields the peer manager sets through [peer_info_mut]. *)
Inductive InfoEdit :=
  | EditClient (c : Client)
  | EditListening (la : list Multiaddr)
  | EditMetaData (m : MetaData)
  | EditCustody (s : gset SubnetId).

Definition edit_info i (e : InfoEdit) : PeerInfo :=
  match e with
  | EditClient c => set_client i c
  | EditListening la => (set_listening_addresses i la).2
  | EditMetaData m => set_meta_data i m
  | EditCustody s => set_custody_subnets i s
  end.

Inductive DbOp :=
  | DDial (now : Instant) (p : PeerId) (e : option Enr)
  | DConnect (now : Instant) (p : PeerId) (a : Multiaddr) (e : option Enr) (d : ConnectionDirection)
  | DDisconnecting (now : Instant) (p : PeerId) (to_ban : bool)
  | DDisconnect (now : Instant) (p : PeerId)
  | DReport (now : Instant) (p : PeerId) (a : PeerAction)
  | DUpdateScores (now : Instant)
  | DGossip (now : Instant) (target_peers : Z) (scores : PeerId -> option f64)
  | DCleanup (now : Instant)
  | DSyncStatus (p : PeerId) (s : SyncStatus)
  | DMinTtl (now : Instant) (p : PeerId) (ttl : Instant)
  | DSubscribe (p : PeerId) (subnet : Subnet)
  | DUnsubscribe (p : PeerId) (subnet : Subnet)
  | DExtend (subnet : Subnet) (ttl : Instant)
  | DSetTrusted (e : Enr)
  | DUnsetTrusted (now : Instant) (e : Enr)
  | DEdit (p : PeerId) (e : InfoEdit).

(** One call; [None] only if the fuel of [shrink_to_fit] ran out. *)
Definition db_step db (op : DbOp) : option PeerDB :=
  match op with
  | DDial now p e => Some (dialing_peer db now p e)
  | DConnect now p a e Incoming => Some (db_connect_ingoing db now p a e)
  | DConnect now p a e Outgoing => Some (db_connect_outgoing db now p a e)
  | DDisconnecting now p to_ban => Some (notify_disconnecting db now p to_ban)
  | DDisconnect now p => match inject_disconnect db now p with Some (_, _, db') => Some db' | None => None end
  | DReport now p a => Some (report_peer db now p a).2
  | DUpdateScores now => Some (update_scores db now).2
  | DGossip now t f => Some (update_gossipsub_scores db now t f).2
  | DCleanup now => Some (cleanup_dialing_peers db now)
  | DSyncStatus p s => Some (db_update_sync_status db p s).2
  | DMinTtl now p ttl => Some (update_min_ttl db now p ttl)
  | DSubscribe p s => Some (add_subscription db p s)
  | DUnsubscribe p s => Some (remove_subscription db p s)
  | DExtend s ttl => Some (extend_peers_on_subnet db s ttl)
  | DSetTrusted e => Some (set_trusted_peer db e)
  | DUnsetTrusted now e => Some (unset_trusted_peer db now e)
  | DEdit p e => match peers db !! p with Some i => Some (put_peer db p (edit_info i e)) | None => Some db end
  end.

Fixpoint db_run db (ops : list DbOp) : option PeerDB :=
  match ops with
  | [] => Some db
  | op :: ops => match db_step db op with Some db => db_run db ops | None => None end
  end.

(** The numbers of disconnected and banned peers, and of the addresses banned peers were seen on. *)
Definition n_disconnected db : Z := Z.of_nat (length (db_disconnected_peers db)).
Definition n_banned db : Z := Z.of_nat (length (db_banned_peers db)).
Definition ip_count (ip : IpAddr) (ips : list IpAddr) : Z := Z.of_nat (length (filter (eq ip) ips)).
Definition n_banned_on db (ip : IpAddr) : Z :=
  map_sum (fun kv => if is_banned kv.2 then ip_count ip (seen_ip_addresses kv.2) else 0) (peers db).

(** How far the counters are from the numbers they stand for. *)
Definition disc_drift db : Z := n_disconnected db - disconnected_peers db.
Definition ban_drift db : Z := banned_peers (banned_peers_count db) - n_banned db.

(** The peers and addresses stored; it bounds the counters. *)
Definition db_weight db : Z := map_sum (fun kv => 1 + Z.of_nat (size (seen_multiaddrs kv.2))) (peers db).

Definition trusted_iff_max i : Prop := is_trusted i = true <-> pi_score i = Score.Max.

(** The invariant of all runs. *)
Record db_inv db : Prop := {
  di_disconnected : 0 <= disconnected_peers db <= n_disconnected db;
  di_banned : n_banned db <= banned_peers (banned_peers_count db) <= USIZE_MAX;
  di_trusted : forall p i, peers db !! p = Some i -> trusted_iff_max i;
}.

End peerdb_spec.

(** ** Lemmas *)

Section peerdb_lemmas.
Context `{ChainTypes} `{Libp2p} `{HashIter} `{FloatExp} `{UnstableSort}.
Implicit Types (db : PeerDB) (i : PeerInfo) (p : PeerId).

Lemma length_peers_where db test :
  Z.of_nat (length (peers_where db test)) = map_sum (fun kv => Z.b2z (test kv.2)) (peers db).
Proof.
  unfold peers_where, map_sum.
  rewrite <- (foldr_sum_perm (fun kv => Z.b2z (test kv.2)) _ _ (hash_iter_perm (peers db))).
  induction (hash_iter (peers db)) as [|[k v] l IH]; simpl; [done|].
  destruct (test v); simpl; lia.
Qed.

Lemma n_disconnected_sum db :
  n_disconnected db = map_sum (fun kv => Z.b2z (is_disconnected kv.2)) (peers db).
Proof. unfold n_disconnected, db_disconnected_peers. by rewrite length_fmap, length_peers_where. Qed.

Lemma n_banned_sum db : n_banned db = map_sum (fun kv => Z.b2z (is_banned kv.2)) (peers db).
Proof. unfold n_banned, db_banned_peers. by rewrite length_fmap, length_peers_where. Qed.

(** Replacing the entry of a peer changes a sum by the difference; a missing entry counts as the one
    that is created, which adds nothing. *)
Lemma sum_put (f : PeerInfo -> Z) db now p i :
  f trusted_peer_info = 0 -> f (PeerInfo_default now) = 0 ->
  map_sum (fun kv => f kv.2) (<[p := i]> (peers db)) =
  map_sum (fun kv => f kv.2) (peers db) - f (entry_info db now p) + f i.
Proof.
  intros Ht Hd. unfold entry_info. destruct (peers db !! p) as [i0|] eqn:E.
  - by rewrite (map_sum_replace _ _ _ i0).
  - rewrite map_sum_insert_fresh by done. simpl. destruct (disable_peer_scoring db); lia.
Qed.

Lemma n_disconnected_put db now p i :
  map_sum (fun kv => Z.b2z (is_disconnected kv.2)) (<[p := i]> (peers db)) =
  n_disconnected db - Z.b2z (is_disconnected (entry_info db now p)) + Z.b2z (is_disconnected i).
Proof. rewrite n_disconnected_sum. by apply (sum_put (fun i => Z.b2z (is_disconnected i))). Qed.

Lemma n_banned_put db now p i :
  map_sum (fun kv => Z.b2z (is_banned kv.2)) (<[p := i]> (peers db)) =
  n_banned db - Z.b2z (is_banned (entry_info db now p)) + Z.b2z (is_banned i).
Proof. rewrite n_banned_sum. by apply (sum_put (fun i => Z.b2z (is_banned i))). Qed.

Lemma n_banned_on_put db now p i ip :
  map_sum (fun kv => if is_banned kv.2 then ip_count ip (seen_ip_addresses kv.2) else 0)
    (<[p := i]> (peers db)) =
  n_banned_on db ip - (if is_banned (entry_info db now p)
                       then ip_count ip (seen_ip_addresses (entry_info db now p)) else 0)
  + (if is_banned i then ip_count ip (seen_ip_addresses i) else 0).
Proof.
  unfold n_banned_on.
  by apply (sum_put (fun i => if is_banned i then ip_count ip (seen_ip_addresses i) else 0)).
Qed.

(** The counters of a set of counts. *)
Lemma ip_count_cons ip a ips : ip_count ip (a :: ips) = Z.b2z (bool_decide (ip = a)) + ip_count ip ips.
Proof.
  unfold ip_count. rewrite filter_cons. case_decide; [rewrite bool_decide_true|rewrite bool_decide_false];
    simpl; done || lia.
Qed.

Lemma ip_count_nonneg ip ips : 0 <= ip_count ip ips.
Proof. unfold ip_count. lia. Qed.

Lemma add_banned_ip_lookup m a ip :
  default 0 (add_banned_ip m a !! ip) =
  if decide (ip = a) then usize_wrapping_add (default 0 (m !! ip)) 1 else default 0 (m !! ip).
Proof.
  unfold add_banned_ip. pose proof (entry_or_insert_lookup a 0 m) as Hl.
  pose proof (entry_or_insert_lookup_ne a ip 0 m) as Hne. unfold entry_or_insert in *.
  case_decide as E; [subst|].
  - destruct (m !! a) as [x|] eqn:Ea; simpl in *; by rewrite lookup_insert_eq.
  - destruct (m !! a) as [x|] eqn:Ea; simpl in *; rewrite !lookup_insert_ne by congruence; done.
Qed.

Lemma add_ips_lookup ips : forall m ip,
  0 <= default 0 (m !! ip) -> default 0 (m !! ip) + ip_count ip ips <= USIZE_MAX ->
  default 0 (fold_left add_banned_ip ips m !! ip) = default 0 (m !! ip) + ip_count ip ips.
Proof.
  induction ips as [|a ips IH]; intros m ip Hpos Hb; simpl; [unfold ip_count; simpl; lia|].
  rewrite ip_count_cons in *. pose proof (ip_count_nonneg ip ips). pose proof (add_banned_ip_lookup m a ip) as Ha.
  case_decide as E.
  - rewrite bool_decide_true in * by done. simpl in *.
    unfold usize_wrapping_add in Ha. rewrite as_u64_small in Ha by (unfold_arith; lia).
    rewrite IH; rewrite Ha; lia.
  - rewrite bool_decide_false in * by done. simpl in *. rewrite IH; rewrite Ha; lia.
Qed.

Lemma remove_ips_lookup ips : forall m ip,
  ip_count ip ips <= default 0 (m !! ip) ->
  default 0 (fold_left remove_banned_ip ips m !! ip) = default 0 (m !! ip) - ip_count ip ips.
Proof.
  induction ips as [|a ips IH]; intros m ip Hb; simpl; [unfold ip_count; simpl; lia|].
  rewrite ip_count_cons in *. pose proof (ip_count_nonneg ip ips).
  assert (default 0 (remove_banned_ip m a !! ip) =
    default 0 (m !! ip) - Z.b2z (bool_decide (ip = a))) as Ha.
  { unfold remove_banned_ip. case_bool_decide as E; [subst|].
    - destruct (m !! a) as [x|] eqn:Ea; simpl in *; [|rewrite Ea; simpl; lia].
      rewrite lookup_insert_eq. simpl. unfold saturating_sub. lia.
    - simpl. destruct (m !! a); [rewrite lookup_insert_ne by congruence|]; lia. }
  rewrite IH; rewrite Ha; lia.
Qed.

(** *** What the updates of one entry leave alone *)

Lemma status_set i st : connection_status (set_connection_status i st) = st.
Proof. by destruct i. Qed.
Lemma status_subnets i su : connection_status (set_subnets i su) = connection_status i.
Proof. by destruct i. Qed.
Lemma status_enr e i : connection_status (opt_set_enr e i) = connection_status i.
Proof. by destruct i, e. Qed.
Lemma status_score i sc : connection_status (set_pi_score i sc) = connection_status i.
Proof. by destruct i. Qed.
Lemma status_action i a : connection_status (apply_peer_action_to_score i a) = connection_status i.
Proof. unfold apply_peer_action_to_score. case_match; [apply status_score|done]. Qed.
Lemma status_ensure i : connection_status (ensure_banned_score i) = connection_status i.
Proof. unfold ensure_banned_score. case_match; auto using status_action. Qed.

Lemma seen_set i st : seen_multiaddrs (set_connection_status i st) = seen_multiaddrs i.
Proof. by destruct i. Qed.
Lemma seen_subnets i su : seen_multiaddrs (set_subnets i su) = seen_multiaddrs i.
Proof. by destruct i. Qed.
Lemma seen_enr e i : seen_multiaddrs (opt_set_enr e i) = seen_multiaddrs i.
Proof. by destruct i, e. Qed.
Lemma seen_score i sc : seen_multiaddrs (set_pi_score i sc) = seen_multiaddrs i.
Proof. by destruct i. Qed.
Lemma seen_action i a : seen_multiaddrs (apply_peer_action_to_score i a) = seen_multiaddrs i.
Proof. unfold apply_peer_action_to_score. case_match; [apply seen_score|done]. Qed.
Lemma seen_ensure i : seen_multiaddrs (ensure_banned_score i) = seen_multiaddrs i.
Proof. unfold ensure_banned_score. case_match; auto using seen_action. Qed.

Definition same_trust i j : Prop := is_trusted i = is_trusted j /\ pi_score i = pi_score j.

Lemma same_trust_iff i j : same_trust i j -> trusted_iff_max j -> trusted_iff_max i.
Proof. intros [E1 E2]. unfold trusted_iff_max. by rewrite E1, E2. Qed.

Lemma trust_set i st : same_trust (set_connection_status i st) i.
Proof. by destruct i. Qed.
Lemma trust_subnets i su : same_trust (set_subnets i su) i.
Proof. by destruct i. Qed.
Lemma trust_enr e i : same_trust (opt_set_enr e i) i.
Proof. by destruct i, e. Qed.
Lemma trust_connect i a d :
  same_trust (match d with Incoming => connect_ingoing i a | Outgoing => connect_outgoing i a end) i.
Proof. destruct i as [? ? [] ? ? ? ? ? ? ? ? ? ?], d; done. Qed.
Lemma same_trust_trans i j k : same_trust i j -> same_trust j k -> same_trust i k.
Proof. unfold same_trust. intuition congruence. Qed.

Lemma trusted_apply i (f : RealScore -> RealScore) :
  trusted_iff_max i -> trusted_iff_max (set_pi_score i (score_apply f (pi_score i))).
Proof. destruct i as [[] ? ? ? ? ? ? ? ? ? [] ? ?]; unfold trusted_iff_max; simpl; naive_solver. Qed.

Lemma trusted_action i a : trusted_iff_max i -> trusted_iff_max (apply_peer_action_to_score i a).
Proof. unfold apply_peer_action_to_score. case_match; [apply trusted_apply|done]. Qed.

Lemma trusted_ensure i : trusted_iff_max i -> trusted_iff_max (ensure_banned_score i).
Proof. unfold ensure_banned_score. case_match; auto using trusted_action. Qed.

Lemma trusted_entry db now p :
  (forall p i, peers db !! p = Some i -> trusted_iff_max i) -> trusted_iff_max (entry_info db now p).
Proof.
  intros Ht. unfold entry_info. destruct (peers db !! p) eqn:E; [eauto|].
  by destruct (disable_peer_scoring db).
Qed.

Lemma seen_ips_eq i j : seen_multiaddrs i = seen_multiaddrs j -> seen_ip_addresses i = seen_ip_addresses j.
Proof. unfold seen_ip_addresses. by intros ->. Qed.

(** The status a connection leads to. *)
Lemma connect_status i a d :
  exists b m n, connection_status (match d with
      | Incoming => connect_ingoing i a | Outgoing => connect_outgoing i a end) = Connected b m n.
Proof. destruct i as [? ? [] ? ? ? ? ? ? ? ? ? ?], d; simpl; eauto. Qed.

Lemma connect_seen i a d :
  seen_multiaddrs (match d with Incoming => connect_ingoing i a | Outgoing => connect_outgoing i a end)
  = {[a]} ∪ seen_multiaddrs i.
Proof. destruct i as [? ? [] ? ? ? ? ? ? ? ? ? ?], d; done. Qed.

(** *** Bounds *)

Lemma weight_bounds db :
  0 <= n_disconnected db <= db_weight db /\ 0 <= n_banned db <= db_weight db.
Proof.
  unfold n_disconnected, n_banned at 1. split; (split; [lia|]).
  - fold (n_disconnected db). rewrite n_disconnected_sum. apply map_sum_le.
    intros p i _. simpl. destruct (is_disconnected i); simpl; lia.
  - rewrite n_banned_sum. apply map_sum_le. intros p i _. simpl. destruct (is_banned i); simpl; lia.
Qed.

Lemma entry_counted db now p :
  Z.b2z (is_disconnected (entry_info db now p)) <= n_disconnected db /\
  Z.b2z (is_banned (entry_info db now p)) <= n_banned db.
Proof.
  rewrite n_disconnected_sum, n_banned_sum. unfold entry_info.
  destruct (peers db !! p) as [i|] eqn:E.
  - split; [apply (map_sum_elem_le (fun kv => Z.b2z (is_disconnected kv.2)) _ p i)
           |apply (map_sum_elem_le (fun kv => Z.b2z (is_banned kv.2)) _ p i)]; try done;
      intros k v _; simpl; by destruct (is_disconnected v), (is_banned v).
  - rewrite <- n_disconnected_sum, <- n_banned_sum. pose proof (weight_bounds db).
    destruct (disable_peer_scoring db); simpl; lia.
Qed.

(** *** The counters follow the entries *)

(** The invariant holds of [db'], and the counters have not drifted further than in [db], except that
    the count of banned peers may be [slack] too high. *)
Definition db_ok db db' (slack : Z) : Prop :=
  db_inv db' /\ disc_drift db' <= disc_drift db /\ ban_drift db' <= ban_drift db + slack.

Lemma ok_from db db' now p i' slack :
  db_inv db -> peers db' = <[p := i']> (peers db) -> trusted_iff_max i' ->
  let d0 := Z.b2z (is_disconnected (entry_info db now p)) in
  let d1 := Z.b2z (is_disconnected i') in
  let b0 := Z.b2z (is_banned (entry_info db now p)) in
  let b1 := Z.b2z (is_banned i') in
  0 <= disconnected_peers db' <= n_disconnected db - d0 + d1 ->
  disconnected_peers db - d0 + d1 <= disconnected_peers db' ->
  n_banned db - b0 + b1 <= banned_peers (banned_peers_count db') <= USIZE_MAX ->
  banned_peers (banned_peers_count db') <= banned_peers (banned_peers_count db) - b0 + b1 + slack ->
  db_ok db db' slack.
Proof.
  intros [Hd Hb Ht] Hp Hi' d0 d1 b0 b1 Hd1 Hd2 Hb1 Hb2.
  assert (n_disconnected db' = n_disconnected db - d0 + d1) as Hn
    by (rewrite n_disconnected_sum, Hp; apply n_disconnected_put).
  assert (n_banned db' = n_banned db - b0 + b1) as Hnb by (rewrite n_banned_sum, Hp; apply n_banned_put).
  split; [split|].
  - by rewrite Hn.
  - by rewrite Hnb.
  - intros q j. rewrite Hp, lookup_insert. case_decide; [|eauto]. by intros [= <-].
  - unfold disc_drift, ban_drift. rewrite Hn, Hnb. lia.
Qed.

Ltac status_simpl :=
  unfold is_disconnected, is_banned;
  rewrite ?status_set, ?status_subnets, ?status_enr, ?status_ensure in *.

Ltac counts db now p :=
  pose proof (entry_counted db now p); pose proof (weight_bounds db);
  unfold is_disconnected, is_banned in *.

Lemma enter_connected_ok db now p e a d :
  db_inv db -> db_ok db (enter_connected db p (entry_info db now p) e a d) 0.
Proof.
  intros Hdb. pose proof Hdb as [Hd Hb Ht]. unfold enter_connected. cbv zeta.
  destruct (connect_status (opt_set_enr e (entry_info db now p)) a d) as (b & m & n & Hst).
  pose proof (same_trust_iff _ _ (same_trust_trans _ _ _ (trust_connect (opt_set_enr e (entry_info db now p)) a d)
    (trust_enr e (entry_info db now p))) (trusted_entry db now p Ht)) as Htr.
  set (i' := match d with Incoming => _ | Outgoing => _ end) in *. rewrite status_enr. counts db now p.
  destruct (connection_status (entry_info db now p)) eqn:Es;
    apply (ok_from db _ now p i'); simpl; try done; status_simpl; rewrite ?Es, ?Hst in *; simpl in *;
    unfold saturating_sub in *; lia.
Qed.

Lemma enter_dialing_ok db now p e :
  db_inv db -> db_ok db (enter_dialing db now p (entry_info db now p) e) 0.
Proof.
  intros Hdb. pose proof Hdb as [Hd Hb Ht]. unfold enter_dialing, set_dialing_peer. cbv zeta.
  rewrite status_enr. counts db now p.
  pose proof (trusted_entry db now p Ht) as Htr.
  pose proof (same_trust_iff _ _ (trust_enr e (entry_info db now p)) Htr) as Htr1.
  pose proof (same_trust_iff _ _ (trust_set (opt_set_enr e (entry_info db now p)) (Dialing now)) Htr1) as Htr2.
  destruct (connection_status (entry_info db now p)) eqn:Es;
    eapply (ok_from db _ now p); simpl; try done; status_simpl; rewrite ?Es in *; simpl in *;
    unfold saturating_sub in *; lia.
Qed.

Lemma enter_disconnected_ok db now p :
  db_inv db -> db_weight db < USIZE_MAX ->
  db_ok db (enter_disconnected db now p (entry_info db now p)).2 0.
Proof.
  intros Hdb Hw. pose proof Hdb as [Hd Hb Ht]. unfold enter_disconnected, clear_subnets. cbv zeta.
  rewrite status_subnets. counts db now p.
  pose proof (same_trust_iff _ _ (trust_subnets (entry_info db now p) ∅) (trusted_entry db now p Ht)) as Htr.
  assert (forall st, trusted_iff_max (set_connection_status (set_subnets (entry_info db now p) ∅) st)) as Htr2
    by (intros st; exact (same_trust_iff _ _ (trust_set _ st) Htr)).
  destruct (connection_status (entry_info db now p)) as [| []| | | |] eqn:Es;
    eapply (ok_from db _ now p); simpl; try done; status_simpl; rewrite ?Es in *; simpl in *;
    unfold usize_wrapping_add, usize_saturating_add, USIZE_MAX in *;
    rewrite ?as_u64_small in * by (unfold_arith; lia); unfold_arith; lia.
Qed.

Lemma enter_disconnecting_ok db now p b :
  db_inv db ->
  db_ok db (enter_disconnecting db p (entry_info db now p) b)
    (Z.b2z (is_banned (entry_info db now p))).
Proof.
  intros Hdb. pose proof Hdb as [Hd Hb Ht]. unfold enter_disconnecting. cbv zeta. counts db now p.
  pose proof (same_trust_iff _ _ (trust_set (entry_info db now p) (Disconnecting b))
    (trusted_entry db now p Ht)) as Htr.
  destruct (connection_status (entry_info db now p)) eqn:Es;
    eapply (ok_from db _ now p); simpl; try done; status_simpl; rewrite ?Es in *; simpl in *;
    unfold saturating_sub in *; lia.
Qed.

Lemma enter_banned_ok db now p :
  db_inv db -> db_weight db < USIZE_MAX ->
  db_ok db (enter_banned db now p (ensure_banned_score (entry_info db now p))).2 0.
Proof.
  intros Hdb Hw. pose proof Hdb as [Hd Hb Ht]. unfold enter_banned. cbv zeta.
  rewrite status_ensure. counts db now p.
  pose proof (trusted_ensure _ (trusted_entry db now p Ht)) as Htr.
  assert (forall st, trusted_iff_max (set_connection_status (ensure_banned_score (entry_info db now p)) st))
    as Htr2 by (intros st; exact (same_trust_iff _ _ (trust_set _ st) Htr)).
  destruct (connection_status (entry_info db now p)) eqn:Es;
    eapply (ok_from db _ now p); simpl; try done; status_simpl; rewrite ?Es in *; simpl in *;
    unfold_arith; lia.
Qed.

Lemma enter_unbanned_ok db now p :
  db_inv db -> db_weight db < USIZE_MAX -> db_ok db (enter_unbanned db p (entry_info db now p)) 0.
Proof.
  intros Hdb Hw. pose proof Hdb as [Hd Hb Ht]. unfold enter_unbanned. cbv zeta. counts db now p.
  pose proof (trusted_entry db now p Ht) as Htr.
  assert (forall st, trusted_iff_max (set_connection_status (entry_info db now p) st)) as Htr2
    by (intros st; exact (same_trust_iff _ _ (trust_set _ st) Htr)).
  destruct (connection_status (entry_info db now p)) eqn:Es;
    eapply (ok_from db _ now p); simpl; try done; status_simpl; rewrite ?Es in *; simpl in *;
    unfold_arith; lia.
Qed.

(** Disconnecting from a banned peer is the one transition that lets the count drift. *)
Definition drift_slack db now p (ns : NewConnectionState) : Z :=
  match ns with NewDisconnecting _ => Z.b2z (is_banned (entry_info db now p)) | _ => 0 end.

Lemma update_connection_state_ok db now p ns :
  db_inv db -> db_weight db < USIZE_MAX ->
  db_ok db (update_connection_state db now p ns).2 (drift_slack db now p ns).
Proof.
  intros Hdb Hw. destruct ns; simpl.
  - by apply enter_connected_ok.
  - by apply enter_disconnecting_ok.
  - by apply enter_dialing_ok.
  - by apply enter_disconnected_ok.
  - by apply enter_banned_ok.
  - by apply enter_unbanned_ok.
Qed.

(** *** Entries and weights *)

Lemma update_connection_state_peers db now p ns :
  exists i', peers (update_connection_state db now p ns).2 = <[p := i']> (peers db) /\
    seen_multiaddrs i' = (match ns with NewConnected _ a _ => {[a]} | _ => ∅ end)
                         ∪ seen_multiaddrs (entry_info db now p) /\
    is_trusted i' = is_trusted (entry_info db now p) /\
    disable_peer_scoring (update_connection_state db now p ns).2 = disable_peer_scoring db.
Proof.
  assert (forall i, is_trusted (ensure_banned_score i) = is_trusted i) as Hen.
  { intros i. unfold ensure_banned_score, apply_peer_action_to_score. destruct i; simpl.
    repeat case_match; done. }
  assert (forall st i, is_trusted (set_connection_status i st) = is_trusted i) as Hst by (by intros ? []).
  assert (forall su i, is_trusted (set_subnets i su) = is_trusted i) as Hsu by (by intros ? []).
  assert (forall e i, is_trusted (opt_set_enr e i) = is_trusted i) as Htr by (by intros [] []).
  destruct ns as [e a d|b|e| | |]; simpl.
  - exists (match d with Incoming => connect_ingoing (opt_set_enr e (entry_info db now p)) a
                   | Outgoing => connect_outgoing (opt_set_enr e (entry_info db now p)) a end).
    rewrite connect_seen, seen_enr.
    rewrite (proj1 (trust_connect (opt_set_enr e (entry_info db now p)) a d)), Htr.
    unfold enter_connected. cbv zeta. rewrite status_enr. by destruct (connection_status _).
  - exists (set_connection_status (entry_info db now p) (Disconnecting b)).
    rewrite seen_set, Hst, (left_id_L ∅ (∪)). unfold enter_disconnecting. by destruct (connection_status _).
  - exists (match set_dialing_peer (opt_set_enr e (entry_info db now p)) now with
            | Ok i => i | Err _ => opt_set_enr e (entry_info db now p) end).
    unfold enter_dialing, set_dialing_peer. cbv zeta. rewrite status_enr, (left_id_L ∅ (∪)).
    destruct (connection_status _); rewrite ?seen_set, ?Hst, ?seen_enr, ?Htr; done.
  - unfold enter_disconnected, clear_subnets. cbv zeta. rewrite (left_id_L ∅ (∪)).
    repeat case_match; eexists; split; try done;
      rewrite ?seen_set, ?seen_subnets, ?Hst, ?Hsu; done.
  - unfold enter_banned. cbv zeta. rewrite (left_id_L ∅ (∪)).
    repeat case_match; eexists; split; try done;
      rewrite ?seen_set, ?seen_ensure, ?Hst, ?Hen; done.
  - unfold enter_unbanned. cbv zeta. rewrite (left_id_L ∅ (∪)).
    repeat case_match; eexists; split; try done; rewrite ?seen_set, ?Hst; done.
Qed.

Lemma weight_replace db p i i' :
  peers db !! p = Some i -> seen_multiaddrs i' = seen_multiaddrs i -> db_weight (put_peer db p i') = db_weight db.
Proof.
  intros Hi Hs. unfold db_weight; simpl. rewrite (map_sum_replace _ _ _ i) by done. simpl. rewrite Hs. lia.
Qed.

Lemma weight_fresh db p i :
  peers db !! p = None -> seen_multiaddrs i = ∅ -> db_weight (put_peer db p i) = db_weight db + 1.
Proof.
  intros Hp Hs. unfold db_weight; simpl. rewrite map_sum_insert_fresh by done. simpl.
  rewrite Hs, size_empty. lia.
Qed.

Lemma weight_nonneg db : 0 <= db_weight db.
Proof. pose proof (weight_bounds db). lia. Qed.

Lemma update_connection_state_weight db now p ns :
  db_weight (update_connection_state db now p ns).2 <= db_weight db + 2.
Proof.
  destruct (update_connection_state_peers db now p ns) as (i' & Hp & Hs & _).
  unfold db_weight. rewrite Hp. unfold entry_info in Hs. destruct (peers db !! p) as [i|] eqn:E.
  - rewrite (map_sum_replace _ _ _ i) by done. simpl. rewrite Hs.
    destruct ns as [e a d| | | | |]; rewrite ?(left_id_L ∅ (∪)); try lia.
    pose proof (size_union_alt ({[a]} : gset Multiaddr) (seen_multiaddrs i)) as Hu.
    rewrite size_singleton in Hu.
    pose proof (subseteq_size (seen_multiaddrs i ∖ {[a]}) (seen_multiaddrs i) ltac:(set_solver)). lia.
  - rewrite map_sum_insert_fresh by done. simpl. rewrite Hs.
    assert (seen_multiaddrs (if disable_peer_scoring db then trusted_peer_info else PeerInfo_default now) = ∅)
      as -> by (by destruct (disable_peer_scoring db)).
    rewrite (right_id_L ∅ (∪)). destruct ns; rewrite ?size_singleton, ?size_empty; lia.
Qed.

(** An update of a known peer that is not a connection adds nothing. *)
Lemma update_connection_state_known db now p ns :
  is_Some (peers db !! p) -> (forall e a d, ns <> NewConnected e a d) ->
  db_weight (update_connection_state db now p ns).2 = db_weight db /\
  dom (peers (update_connection_state db now p ns).2) = dom (peers db) /\
  forall q, q <> p -> peers (update_connection_state db now p ns).2 !! q = peers db !! q.
Proof.
  intros [i Hi] Hns. destruct (update_connection_state_peers db now p ns) as (i' & Hp & Hs & _).
  unfold entry_info in Hs. rewrite Hi in Hs.
  assert (seen_multiaddrs i' = seen_multiaddrs i) as Hs'.
  { rewrite Hs. destruct ns as [e a d| | | | |]; rewrite ?(left_id_L ∅ (∪)); try done.
    by destruct (Hns e a d). }
  split_and!.
  - pose proof (weight_replace db p i i' Hi Hs') as Hw. unfold db_weight in *. by rewrite Hp.
  - rewrite Hp. rewrite dom_insert_lookup_L; [done|by eauto].
  - intros q Hq. by rewrite Hp, lookup_insert_ne by congruence.
Qed.

(** *** Updates that keep the status and the addresses of an entry *)

Record same_profile i i' : Prop := {
  sp_status : connection_status i' = connection_status i;
  sp_seen : seen_multiaddrs i' = seen_multiaddrs i;
  sp_trust : trusted_iff_max i -> trusted_iff_max i';
  sp_trusted : is_trusted i' = is_trusted i;
}.

Lemma profile_action i a : same_profile i (apply_peer_action_to_score i a).
Proof.
  split; [apply status_action|apply seen_action|apply trusted_action|].
  unfold apply_peer_action_to_score. destruct i; simpl. by case_match.
Qed.

Lemma profile_score i (f : RealScore -> RealScore) :
  same_profile i (set_pi_score i (score_apply f (pi_score i))).
Proof. split; [apply status_score|apply seen_score|apply trusted_apply|by destruct i]. Qed.

Lemma profile_score_update i now : same_profile i (pi_score_update i now).
Proof. unfold pi_score_update. case_match; [apply profile_score|done]. Qed.

Lemma profile_gossip i now x b : same_profile i (pi_update_gossipsub_score i now x b).
Proof. apply profile_score. Qed.

Lemma profile_sync i sy : same_profile i (pi_update_sync_status i sy).2.
Proof. by destruct i. Qed.

Lemma profile_subnets i su : same_profile i (set_subnets i su).
Proof. by destruct i. Qed.

Lemma profile_ttl i ttl : same_profile i (raise_min_ttl i ttl).
Proof. unfold raise_min_ttl. destruct i; simpl. by repeat case_match. Qed.

Lemma profile_edit i e : same_profile i (edit_info i e).
Proof. by destruct i, e. Qed.

(** The connected peers with a gossipsub score are different. *)
Lemma gossip_scored_nodup {T} db (f : PeerId -> option T) (cmp : PeerId * T -> PeerId * T -> comparison) :
  NoDup (sort_unstable_by cmp
    (omap (fun '(p, _) => (fun s => (p, s)) <$> f p) (peers_where db is_connected))).*1.
Proof.
  rewrite sort_unstable_by_perm. unfold peers_where. pose proof (NoDup_fst_hash_iter (peers db)) as Hn.
    induction (hash_iter (peers db)) as [|[p i] l IH]; simpl; [constructor|].
    apply NoDup_cons in Hn as [Hp Hn]. specialize (IH Hn).
    destruct (is_connected i); simpl; [|done]. destruct (f p) as [x|]; simpl; [|done].
    constructor; [|done]. intros Hin. apply Hp.
    apply list_elem_of_fmap in Hin as ([q y] & Hq & Hin). simpl in Hq. subst q.
    apply list_elem_of_omap in Hin as ([q j] & Hin & Hj). destruct (f q); simplify_eq/=.
    apply list_elem_of_In, filter_In in Hin as [Hin _].
    apply list_elem_of_fmap. exists (p, j). split; [done|]. by apply list_elem_of_In.
Qed.

(** *** Compound updates, for any property the single steps preserve *)

Lemma weight_subseteq db db' : peers db' ⊆ peers db -> db_weight db' <= db_weight db.
Proof.
  unfold db_weight. generalize (peers db) (peers db'). intros m m' Hs.
  assert (m = m' ∪ (m ∖ m')) as -> by (symmetry; by apply map_difference_union).
  clear Hs. generalize (m ∖ m'). clear m. intros m.
  induction m as [|p i m Hp IH] using map_ind; [by rewrite (right_id_L ∅ (∪))|].
  destruct (m' !! p) as [j|] eqn:E.
  - rewrite <- insert_union_r_Some || idtac. etrans; [exact IH|].
    assert (m' ∪ <[p := i]> m = m' ∪ m) as ->; [|done].
    apply map_eq. intros q. rewrite !lookup_union. destruct (decide (p = q)) as [<-|Hne].
    + rewrite lookup_insert_eq, E, Hp. done.
    + by rewrite lookup_insert_ne.
  - rewrite <- insert_union_r by done. rewrite map_sum_insert_fresh by (by rewrite lookup_union, E, Hp).
    simpl. lia.
Qed.

Section compound.
Variable P : PeerDB -> Prop.
Hypothesis P_step : forall db now p ns,
  P db -> db_weight db + 2 <= USIZE_MAX ->
  (forall b, ns = NewDisconnecting b -> is_banned (entry_info db now p) = false) ->
  P (update_connection_state db now p ns).2.
Hypothesis P_put : forall db p i i',
  P db -> peers db !! p = Some i -> same_profile i i' -> P (put_peer db p i').
Hypothesis P_new : forall db p i',
  P db -> peers db !! p = None -> connection_status i' = Unknown -> seen_multiaddrs i' = ∅ ->
  is_trusted i' = false -> trusted_iff_max i' -> P (put_peer db p i').
Hypothesis P_shrink : forall db,
  P db -> exists purged db', shrink_to_fit db = Some (purged, db') /\ P db' /\ peers db' ⊆ peers db.
Hypothesis P_fmap : forall db (f : PeerInfo -> PeerInfo),
  P db -> (forall i, same_profile i (f i)) -> P (set_peers db (f <$> peers db)).

(** The property, with the bound on the weight. *)
Definition fits (w : Z) (d : gset PeerId) db : Prop :=
  P db /\ db_weight db = w /\ dom (peers db) = d.

Lemma fits_step w d db now p ns :
  fits w d db -> w + 2 <= USIZE_MAX -> is_Some (peers db !! p) -> (forall e a d, ns <> NewConnected e a d) ->
  (forall b, ns = NewDisconnecting b -> is_banned (entry_info db now p) = false) ->
  fits w d (update_connection_state db now p ns).2.
Proof.
  intros (HP & Hw & Hd) Hlt Hp Hns Hb.
  destruct (update_connection_state_known db now p ns Hp Hns) as (Hw' & Hd' & _).
  split_and!; [|congruence..]. apply P_step; [done|lia|done].
Qed.

Lemma fits_put w d db p i i' :
  fits w d db -> peers db !! p = Some i -> same_profile i i' -> fits w d (put_peer db p i').
Proof.
  intros (HP & Hw & Hd) Hi Hs. split_and!; [by eapply P_put|..].
  - rewrite (weight_replace db p i i'); [done..|]. by destruct Hs.
  - simpl. rewrite dom_insert_lookup_L; [done|by eauto].
Qed.

Lemma fits_fmap w d db f :
  fits w d db -> (forall i, same_profile i (f i)) -> fits w d (set_peers db (f <$> peers db)).
Proof.
  intros (HP & Hw & Hd) Hf. split_and!; [by apply P_fmap|..].
  - rewrite <- Hw. unfold db_weight; simpl. apply map_sum_fmap. intros p i _. simpl.
    by rewrite (sp_seen _ _ (Hf i)).
  - simpl. by rewrite dom_fmap_L.
Qed.

Lemma fits_apply_transition w d db now p t :
  fits w d db -> w + 2 <= USIZE_MAX -> is_Some (peers db !! p) ->
  (t = TransDisconnected -> is_banned (entry_info db now p) = false) ->
  fits w d (apply_transition db now p t).2 /\
  forall q, q <> p -> peers (apply_transition db now p t).2 !! q = peers db !! q.
Proof.
  intros Hf Hlt Hp Ht.
  assert (forall ns, (forall e a d, ns <> NewConnected e a d) ->
    (forall b, ns = NewDisconnecting b -> is_banned (entry_info db now p) = false) ->
    fits w d (update_connection_state db now p ns).2 /\
    forall q, q <> p -> peers (update_connection_state db now p ns).2 !! q = peers db !! q) as Hgo.
  { intros ns Hns Hb. split; [by apply fits_step|].
    by destruct (update_connection_state_known db now p ns Hp Hns) as (_ & _ & ?). }
  destruct t; unfold apply_transition.
  - apply Hgo; [done|auto].
  - destruct (Hgo NewBanned) as [H1' H2']; [done..|].
    by destruct (update_connection_state db now p NewBanned) as [op db'].
  - by apply Hgo.
  - done.
Qed.

Lemma fits_unban_all w d now ps : forall db,
  fits w d db -> w + 2 <= USIZE_MAX -> Forall (fun p => p ∈ d) ps -> fits w d (unban_all db now ps).2.
Proof.
  induction ps as [|p ps IH]; intros db Hf Hlt Hps; simpl; [done|].
  apply Forall_cons in Hps as [Hp Hps].
  assert (is_Some (peers db !! p)) as Hpd by (apply elem_of_dom; by destruct Hf as (_ & _ & ->)).
  pose proof (fits_step w d db now p NewUnbanned Hf Hlt Hpd ltac:(done) ltac:(done)) as Hf'.
  specialize (IH _ Hf' Hlt Hps). simpl in IH. destruct (unban_all _ now ps). done.
Qed.

Lemma fits_update_scores w d db now : fits w d db -> w + 2 <= USIZE_MAX -> fits w d (update_scores db now).2.
Proof.
  intros Hf Hlt. unfold update_scores. cbv zeta. apply fits_unban_all; [|done|].
  - apply fits_fmap; [done|]. intros i. apply profile_score_update.
  - apply Forall_fmap, Forall_forall. intros [p i] Hin. apply list_elem_of_In, filter_In in Hin as [Hin _].
    apply list_elem_of_In, elem_of_hash_iter in Hin. destruct Hf as (_ & _ & <-).
    apply elem_of_dom. simpl. by eauto.
Qed.

Lemma fits_report_peer w d db now p a :
  fits w d db -> w + 2 <= USIZE_MAX -> fits w d (report_peer db now p a).2.
Proof.
  intros Hf Hlt. unfold report_peer. destruct (peers db !! p) as [i|] eqn:E; [|done]. cbv zeta.
  set (i' := apply_peer_action_to_score i a).
  assert (fits w d (put_peer db p i')) as Hf' by (eapply fits_put; [done..|apply profile_action]).
  assert (is_Some (peers (put_peer db p i') !! p)) as Hp by (simpl; rewrite lookup_insert_eq; eauto).
  assert (entry_info (put_peer db p i') now p = i') as He
    by (unfold entry_info; simpl; by rewrite lookup_insert_eq).
  destruct (handle_score_transition (pi_score_state i) i') eqn:Et; try done;
    apply fits_apply_transition; try done.
  intros _. rewrite He. unfold handle_score_transition in Et.
  unfold is_banned, is_connected_or_dialing, is_connected, is_dialing in *. by repeat case_match.
Qed.

Lemma fits_cleanup w d db now : fits w d db -> w + 2 <= USIZE_MAX -> fits w d (cleanup_dialing_peers db now).
Proof.
  intros Hf Hlt. unfold cleanup_dialing_peers.
  assert (Forall (fun p => p ∈ d) (peers_where db (dial_timed_out now)).*1) as Hps.
  { apply Forall_fmap, Forall_forall. intros [p i] Hin. apply list_elem_of_In, filter_In in Hin as [Hin _].
    apply list_elem_of_In, elem_of_hash_iter in Hin. destruct Hf as (_ & _ & <-).
    apply elem_of_dom. simpl. by eauto. }
  remember (peers_where db (dial_timed_out now)).*1 as ps eqn:Eps. clear Eps.
  revert db Hf. induction ps as [|p ps IH]; intros db Hf; cbn [fold_left]; [done|].
  apply Forall_cons in Hps as [Hp Hps]. apply IH; [done|].
  apply fits_step; [done..| |done|done]. apply elem_of_dom. by destruct Hf as (_ & _ & ->).
Qed.

(** Gossipsub scores: the first loop keeps every status, so a peer to be disconnected is connected
    or dialing when its turn comes in the second loop. *)
Definition transition_ready db (pt : PeerId * ScoreTransitionResult) : Prop :=
  exists i, peers db !! pt.1 = Some i /\ (pt.2 = TransDisconnected -> is_banned i = false).

Lemma gossip_loop_ok w d now ps : forall db n,
  fits w d db ->
  let '(actions, db') := gossip_loop db now n ps in
  fits w d db' /\ sublist actions.*1 ps.*1 /\
  (forall q, connection_status <$> peers db' !! q = connection_status <$> peers db !! q) /\
  Forall (transition_ready db') actions.
Proof.
  induction ps as [|[p x] ps IH]; intros db n Hf; simpl; [by split_and!; [done|constructor|done|constructor]|].
  destruct (peers db !! p) as [i|] eqn:E.
  2: { specialize (IH db n Hf). destruct (gossip_loop db now n ps) as [actions db'].
       destruct IH as (? & ? & ? & ?). split_and!; [done|by constructor|done..]. }
  set (b := _ && _). set (i' := pi_update_gossipsub_score i now x b).
  assert (fits w d (put_peer db p i')) as Hf' by (eapply fits_put; [done..|apply profile_gossip]).
  specialize (IH (put_peer db p i') (if b then n - 1 else n) Hf').
  destruct (gossip_loop (put_peer db p i') now _ ps) as [actions db'].
  destruct IH as (HF & Hsub & Hst & Hready). split_and!; [done|by constructor|..].
  - intros q. rewrite Hst. simpl. rewrite lookup_insert. case_decide; [|done]. subst q. rewrite E.
    exact (f_equal Some (sp_status _ _ (profile_gossip i now x b))).
  - constructor; [|done]. pose proof (Hst p) as Hp. simpl in Hp. rewrite lookup_insert_eq in Hp.
    destruct (peers db' !! p) as [j|] eqn:Ej; simpl in Hp; [|done]. exists j. split; [done|]. simpl.
    intros Ht. injection Hp as Hp. unfold is_banned. rewrite Hp. unfold handle_score_transition in Ht.
    unfold is_connected_or_dialing, is_connected, is_dialing in Ht. fold i' in Ht. by repeat case_match.
Qed.

Lemma fits_apply_transitions w d now ts : forall db,
  fits w d db -> w + 2 <= USIZE_MAX -> NoDup ts.*1 -> Forall (transition_ready db) ts ->
  fits w d (apply_transitions db now ts).2.
Proof.
  induction ts as [|[p t] ts IH]; intros db Hf Hlt Hnd Hr; simpl; [done|].
  apply NoDup_cons in Hnd as [Hp Hnd]. apply Forall_cons in Hr as [(i & Hi & Hb) Hr]. simpl in *.
  destruct (fits_apply_transition w d db now p t Hf Hlt ltac:(by eauto)) as [Hf' Ho].
  { intros ->. unfold entry_info. rewrite Hi. by apply Hb. }
  destruct (apply_transition db now p t) as [res db']. simpl in Hf', Ho.
  specialize (IH db' Hf' Hlt Hnd). destruct (apply_transitions db' now ts) as [rest db''] eqn:Ea.
  apply IH. apply Forall_forall. intros [q t'] Hin.
  rewrite Forall_forall in Hr. destruct (Hr _ Hin) as (j & Hj & Hjb). exists j. split; [|done].
  simpl in *. rewrite Ho; [done|]. intros ->. apply Hp. apply list_elem_of_fmap. by exists (p, t').
Qed.

Lemma fits_gossip w d db now t f :
  fits w d db -> w + 2 <= USIZE_MAX -> fits w d (update_gossipsub_scores db now t f).2.
Proof.
  intros Hf Hlt. unfold update_gossipsub_scores. cbv zeta.
  match goal with |- context [gossip_loop db now ?n ?ps] =>
    pose proof (gossip_loop_ok w d now ps db n Hf) as Hg; assert (NoDup ps.*1) as Hnd end.
  { apply gossip_scored_nodup. }
  destruct (gossip_loop db now _ _) as [actions db']. destruct Hg as (HF & Hsub & _ & Hr).
  apply fits_apply_transitions; [done..| |done]. by eapply sublist_NoDup.
Qed.

(** Every call of the interface, apart from the changes of trust, keeps the property. *)
Definition plain_op db (op : DbOp) : Prop :=
  match op with
  | DSetTrusted _ | DUnsetTrusted _ _ => False
  | DDisconnecting now p _ => is_banned (entry_info db now p) = false
  | _ => True
  end.

Definition step_keeps db (r : option PeerDB) : Prop :=
  exists db', r = Some db' /\ P db' /\ db_weight db' <= db_weight db + 2.

Lemma keeps_fits db db' : fits (db_weight db) (dom (peers db)) db' -> step_keeps db (Some db').
Proof. intros (HP & Hw & _). exists db'. split_and!; [done..|lia]. Qed.

Lemma keeps_step db now p ns :
  P db -> db_weight db + 2 <= USIZE_MAX ->
  (forall b, ns = NewDisconnecting b -> is_banned (entry_info db now p) = false) ->
  step_keeps db (Some (update_connection_state db now p ns).2).
Proof.
  intros HP Hw Hns. eexists. split_and!; [done|by apply P_step|apply update_connection_state_weight].
Qed.

Lemma keeps_put db p (f : PeerInfo -> PeerInfo) :
  P db -> (forall i, same_profile i (f i)) ->
  step_keeps db (Some (match peers db !! p with Some i => put_peer db p (f i) | None => db end)).
Proof.
  intros HP Hf. apply keeps_fits. destruct (peers db !! p) as [i|] eqn:E; [|done]. by eapply fits_put.
Qed.

Lemma keeps_disconnect db now p :
  P db -> db_weight db + 2 <= USIZE_MAX -> step_keeps db (db_step db (DDisconnect now p)).
Proof.
  intros HP Hw. cbn [db_step]. unfold inject_disconnect.
  pose proof (keeps_step db now p NewDisconnected HP Hw ltac:(done)) as Hk.
  destruct (update_connection_state db now p NewDisconnected) as [op db1].
  destruct Hk as (db1' & [= <-] & HP1 & Hw1). simpl in HP1, Hw1.
  destruct (P_shrink db1 HP1) as (purged & db2 & -> & HP2 & Hs).
  exists db2. split_and!; [done..|]. pose proof (weight_subseteq _ _ Hs). lia.
Qed.

Lemma keeps_min_ttl db now p ttl :
  P db -> step_keeps db (Some (update_min_ttl db now p ttl)).
Proof.
  intros HP. unfold update_min_ttl. destruct (peers db !! p) as [i|] eqn:E.
  - pose proof (keeps_put db p (fun i => raise_min_ttl i ttl) HP (fun i => profile_ttl i ttl)) as Hk.
    by rewrite E in Hk.
  - eexists. split_and!; [done|by apply P_new|]. rewrite weight_fresh by done. lia.
Qed.

Lemma keeps_db_step db op :
  P db -> db_weight db + 2 <= USIZE_MAX -> plain_op db op -> step_keeps db (db_step db op).
Proof.
  intros HP Hw Hop. assert (fits (db_weight db) (dom (peers db)) db) as Hf by done.
  destruct op as [now p e|now p a e []|now p b|now p|now p a|now|now t f|now|p sy|now p ttl|p su|p su
    |su ttl|e|now e|p e]; try done.
  - by apply keeps_step.
  - by apply keeps_step.
  - by apply keeps_step.
  - apply keeps_step; [done..|]. by intros b' [= <-].
  - by apply keeps_disconnect.
  - by apply keeps_fits, fits_report_peer.
  - by apply keeps_fits, fits_update_scores.
  - by apply keeps_fits, fits_gossip.
  - by apply keeps_fits, fits_cleanup.
  - pose proof (keeps_put db p (fun i => (pi_update_sync_status i sy).2) HP (fun i => profile_sync i sy)) as Hk.
    cbn [db_step]. unfold db_update_sync_status. destruct (peers db !! p) as [i|]; [|done].
    by destruct (pi_update_sync_status i sy).
  - by apply keeps_min_ttl.
  - apply (keeps_put db p (fun i => insert_subnet i su) HP). intros i. apply profile_subnets.
  - apply (keeps_put db p (fun i => remove_subnet i su) HP). intros i. apply profile_subnets.
  - apply keeps_fits, fits_fmap; [done|]. intros i. case_match; [apply profile_ttl|done].
  - pose proof (keeps_put db p (fun i => edit_info i e) HP (fun i => profile_edit i e)) as Hk.
    cbn [db_step]. by destruct (peers db !! p).
Qed.

End compound.

(** *** Shrinking *)

Definition drop_banned db p i : PeerDB :=
  set_peers (set_banned db (remove_banned_peer (banned_peers_count db) (seen_ip_addresses i)))
    (delete p (peers db)).
Definition drop_disconnected db p : PeerDB :=
  set_disconnected (set_peers db (delete p (peers db))) (saturating_sub (disconnected_peers db) 1).

Section shrinking.
Variable P : PeerDB -> Prop.
Hypothesis P_drop_banned : forall db p i,
  P db -> peers db !! p = Some i -> is_banned i = true -> P (drop_banned db p i).
Hypothesis P_reset : forall db,
  P db -> (forall p i, peers db !! p = Some i -> is_banned i = false) ->
  P (set_banned db BannedPeersCount_default).
Hypothesis P_drop_disconnected : forall db p i,
  P db -> peers db !! p = Some i -> is_disconnected i = true -> is_trusted i = false ->
  MAX_DC_PEERS < disconnected_peers db -> P (drop_disconnected db p).
Hypothesis P_decrease : forall db,
  P db -> (forall p i, peers db !! p = Some i -> is_disconnected i = true -> is_trusted i = true) ->
  MAX_DC_PEERS < disconnected_peers db ->
  P (set_disconnected db (saturating_sub (disconnected_peers db) 1)).

Lemma oldest_banned db :
  match min_by_key snd (omap banned_since (hash_iter (peers db))) with
  | Some (p, i, _) => peers db !! p = Some i /\ is_banned i = true
  | None => forall p i, peers db !! p = Some i -> is_banned i = false
  end.
Proof.
  destruct (min_by_key _ _) as [[[p i] t]|] eqn:E.
  - apply min_by_key_Some in E as [Hin _]. apply list_elem_of_omap in Hin as ([q j] & Hin & Hj).
    unfold banned_since in Hj; simpl in Hj. case_match eqn:Es; simplify_eq.
    apply elem_of_hash_iter in Hin. split; [done|]. unfold is_banned. by rewrite Es.
  - apply min_by_key_None in E. intros p i Hi. apply elem_of_hash_iter in Hi.
    destruct (is_banned i) eqn:Eb; [|done]. unfold is_banned in Eb. case_match eqn:Es; try done.
    assert ((p, i, since) ∈ omap banned_since (hash_iter (peers db))) as Hin.
    { apply list_elem_of_omap. exists (p, i). split; [done|]. unfold banned_since; simpl. by rewrite Es. }
    rewrite E in Hin. by apply elem_of_nil in Hin.
Qed.

Lemma oldest_disconnected db :
  match min_by_key snd (omap disconnected_since (hash_iter (peers db))) with
  | Some (p, _) => exists i, peers db !! p = Some i /\ is_disconnected i = true /\ is_trusted i = false
  | None => forall p i, peers db !! p = Some i -> is_disconnected i = true -> is_trusted i = true
  end.
Proof.
  destruct (min_by_key _ _) as [[p t]|] eqn:E.
  - apply min_by_key_Some in E as [Hin _]. apply list_elem_of_omap in Hin as ([q j] & Hin & Hj).
    unfold disconnected_since in Hj; simpl in Hj. destruct (is_trusted j) eqn:Et; simpl in Hj; [done|].
    case_match eqn:Es; simplify_eq.
    apply elem_of_hash_iter in Hin. exists j. split_and!; [done| |done]. unfold is_disconnected. by rewrite Es.
  - apply min_by_key_None in E. intros p i Hi Hd. apply elem_of_hash_iter in Hi.
    destruct (is_trusted i) eqn:Et; [done|]. unfold is_disconnected in Hd. case_match eqn:Es; try done.
    assert ((p, since) ∈ omap disconnected_since (hash_iter (peers db))) as Hin.
    { apply list_elem_of_omap. exists (p, i). split; [done|]. unfold disconnected_since; simpl.
      by rewrite Et, Es. }
    rewrite E in Hin. by apply elem_of_nil in Hin.
Qed.

Lemma shrink_banned_ok fuel : forall db acc,
  P db -> banned_peers (banned_peers_count db) <= Z.of_nat fuel ->
  exists acc' db', shrink_banned fuel db acc = Some (acc', db') /\ P db' /\
    banned_peers (banned_peers_count db') <= MAX_BANNED_PEERS /\
    peers db' ⊆ peers db /\ disconnected_peers db' = disconnected_peers db.
Proof.
  induction fuel as [|fuel IH]; intros db acc HP Hfuel; simpl;
    destruct (MAX_BANNED_PEERS <? banned_peers (banned_peers_count db)) eqn:Em; bool_to_Prop;
    try (by eexists _, _; split_and!); try (unfold MAX_BANNED_PEERS in *; lia).
  pose proof (oldest_banned db) as Ho. destruct (min_by_key _ _) as [[[p i] t]|].
  - destruct Ho as [Hp Hb]. edestruct (IH (drop_banned db p i)) as (acc' & db' & E' & HP' & Hb' & Hs & Hd).
    + by eapply P_drop_banned.
    + simpl. unfold saturating_sub, MAX_BANNED_PEERS in *. lia.
    + eexists _, _. split_and!; [exact E'|done|done|..|exact Hd]. etrans; [exact Hs|]. apply delete_subseteq.
  - edestruct (IH (set_banned db BannedPeersCount_default) acc) as (acc' & db' & E' & HP' & Hb' & Hs & Hd).
    + by apply P_reset.
    + simpl. lia.
    + by eexists _, _.
Qed.

Lemma shrink_disconnected_ok fuel : forall db,
  P db -> disconnected_peers db <= Z.of_nat fuel ->
  exists db', shrink_disconnected fuel db = Some db' /\ P db' /\
    disconnected_peers db' <= MAX_DC_PEERS /\ peers db' ⊆ peers db /\
    banned_peers_count db' = banned_peers_count db.
Proof.
  induction fuel as [|fuel IH]; intros db HP Hfuel; simpl;
    destruct (MAX_DC_PEERS <? disconnected_peers db) eqn:Em; bool_to_Prop;
    try (by eexists; split_and!); try (unfold MAX_DC_PEERS in *; lia).
  pose proof (oldest_disconnected db) as Ho. destruct (min_by_key _ _) as [[p t]|].
  - destruct Ho as (i & Hp & Hd & Ht). edestruct (IH (drop_disconnected db p)) as (db' & E' & HP' & Hb' & Hs & Hc).
    + by eapply P_drop_disconnected.
    + simpl. unfold saturating_sub, MAX_DC_PEERS in *. lia.
    + eexists. split_and!; [exact E'|done|done| |exact Hc]. etrans; [exact Hs|]. apply delete_subseteq.
  - edestruct (IH (set_disconnected db (saturating_sub (disconnected_peers db) 1)))
      as (db' & E' & HP' & Hb' & Hs & Hc).
    + by apply P_decrease.
    + simpl. unfold saturating_sub, MAX_DC_PEERS in *. lia.
    + eexists. split_and!; done.
Qed.

(** [shrink_to_fit] returns, keeps the property, and leaves both counters within their limits. *)
Lemma shrink_to_fit_ok db :
  P db -> 0 <= banned_peers (banned_peers_count db) ->
  (forall db, P db -> 0 <= disconnected_peers db) ->
  exists purged db', shrink_to_fit db = Some (purged, db') /\ P db' /\
    banned_peers (banned_peers_count db') <= MAX_BANNED_PEERS /\
    disconnected_peers db' <= MAX_DC_PEERS /\ peers db' ⊆ peers db.
Proof.
  intros HP Hb Hd. unfold shrink_to_fit.
  destruct (shrink_banned_ok (Z.to_nat (banned_peers (banned_peers_count db))) db [])
    as (acc & db1 & -> & HP1 & Hb1 & Hs1 & _); [done|lia|].
  destruct (shrink_disconnected_ok (Z.to_nat (disconnected_peers db1)) db1)
    as (db2 & -> & HP2 & Hd2 & Hs2 & Hc2); [done|specialize (Hd db1 HP1); lia|].
  eexists _, _. split_and!; [done..|by rewrite Hc2|done|]. by etrans.
Qed.

End shrinking.

(** *** The invariant of all runs *)

Lemma n_delete db db' p i :
  peers db !! p = Some i -> peers db' = delete p (peers db) ->
  n_disconnected db' = n_disconnected db - Z.b2z (is_disconnected i) /\
  n_banned db' = n_banned db - Z.b2z (is_banned i).
Proof.
  intros Hp Hd. rewrite !n_disconnected_sum, !n_banned_sum, Hd.
  by rewrite !(map_sum_delete _ _ _ i) by done.
Qed.

Lemma n_same_peers db db' :
  peers db' = peers db -> n_disconnected db' = n_disconnected db /\ n_banned db' = n_banned db.
Proof. intros E. by rewrite !n_disconnected_sum, !n_banned_sum, E. Qed.

Lemma inv_put db p i i' : db_inv db -> peers db !! p = Some i -> same_profile i i' -> db_ok db (put_peer db p i') 0.
Proof.
  intros Hdb Hp [Hst _ Ht _]. pose proof Hdb as [Hd Hb Htr].
  assert (entry_info db 0 p = i) as He by (unfold entry_info; by rewrite Hp).
  apply (ok_from db _ 0 p i'); try done; [by eauto|..]; rewrite He; unfold is_disconnected, is_banned;
    rewrite Hst; simpl; lia.
Qed.

Lemma inv_fmap db f :
  db_inv db -> (forall i, same_profile i (f i)) -> db_ok db (set_peers db (f <$> peers db)) 0.
Proof.
  intros [Hd Hb Ht] Hf.
  assert (n_disconnected (set_peers db (f <$> peers db)) = n_disconnected db) as Hn.
  { rewrite !n_disconnected_sum. apply map_sum_fmap. intros p i _. unfold is_disconnected; simpl.
    by rewrite (sp_status _ _ (Hf i)). }
  assert (n_banned (set_peers db (f <$> peers db)) = n_banned db) as Hnb.
  { rewrite !n_banned_sum. apply map_sum_fmap. intros p i _. unfold is_banned; simpl.
    by rewrite (sp_status _ _ (Hf i)). }
  split; [split|].
  - by rewrite Hn.
  - by rewrite Hnb.
  - intros p i. simpl. rewrite lookup_fmap. intros (j & Hj & ->)%fmap_Some.
    apply (sp_trust _ _ (Hf j)). by eapply Ht.
  - unfold disc_drift, ban_drift. rewrite Hn, Hnb. simpl. lia.
Qed.

Lemma inv_step db now p ns : db_inv db -> db_weight db < USIZE_MAX -> db_inv (update_connection_state db now p ns).2.
Proof. intros Hdb Hw. by destruct (update_connection_state_ok db now p ns Hdb Hw). Qed.

Lemma inv_new_entry db p i' :
  db_inv db -> peers db !! p = None -> connection_status i' = Unknown -> trusted_iff_max i' ->
  db_ok db (put_peer db p i') 0.
Proof.
  intros Hdb Hp Hst Ht. pose proof Hdb as [Hd Hb _].
  assert (connection_status (entry_info db 0 p) = Unknown) as He
    by (unfold entry_info; rewrite Hp; by destruct (disable_peer_scoring db)).
  apply (ok_from db _ 0 p i'); try done; unfold is_disconnected, is_banned; rewrite ?He, ?Hst; simpl; lia.
Qed.

Lemma inv_drop_banned db p i :
  db_inv db -> peers db !! p = Some i -> is_banned i = true -> db_inv (drop_banned db p i).
Proof.
  intros [Hd Hb Ht] Hp Hban. destruct (n_delete db (drop_banned db p i) p i Hp eq_refl) as [Hn Hnb].
  rewrite Hban in Hnb. assert (is_disconnected i = false) as Hdi
    by (unfold is_banned, is_disconnected in *; by case_match).
  rewrite Hdi in Hn. simpl in Hn, Hnb. split.
  - rewrite Hn. simpl. lia.
  - rewrite Hnb. simpl. unfold_arith. lia.
  - simpl. intros q j [_ Hj]%lookup_delete_Some. eauto.
Qed.

Lemma inv_reset db :
  db_inv db -> (forall p i, peers db !! p = Some i -> is_banned i = false) ->
  db_inv (set_banned db BannedPeersCount_default).
Proof.
  intros [Hd Hb Ht] Hno. destruct (n_same_peers db (set_banned db BannedPeersCount_default) eq_refl) as [Hn Hnb].
  split; [by rewrite Hn| |done]. rewrite n_banned_sum, map_sum_zero; [by vm_compute|].
  intros p i Hp. simpl. by rewrite (Hno p i Hp).
Qed.

Lemma inv_drop_disconnected db p i :
  db_inv db -> peers db !! p = Some i -> is_disconnected i = true -> is_trusted i = false ->
  MAX_DC_PEERS < disconnected_peers db -> db_inv (drop_disconnected db p).
Proof.
  intros [Hd Hb Ht] Hp Hdi _ Hm. destruct (n_delete db (drop_disconnected db p) p i Hp eq_refl) as [Hn Hnb].
  rewrite Hdi in Hn. assert (is_banned i = false) as Hbi
    by (unfold is_banned, is_disconnected in *; by case_match).
  rewrite Hbi in Hnb. simpl in Hn, Hnb. split.
  - rewrite Hn. simpl. unfold saturating_sub, MAX_DC_PEERS in *. lia.
  - rewrite Hnb. simpl. lia.
  - simpl. intros q j [_ Hj]%lookup_delete_Some. eauto.
Qed.

Lemma inv_decrease db :
  db_inv db -> db_inv (set_disconnected db (saturating_sub (disconnected_peers db) 1)).
Proof.
  intros [Hd Hb Ht].
  destruct (n_same_peers db (set_disconnected db (saturating_sub (disconnected_peers db) 1)) eq_refl) as [Hn Hnb].
  split; [rewrite Hn; simpl; unfold saturating_sub; lia|by rewrite Hnb|done].
Qed.

Lemma inv_shrink db :
  db_inv db ->
  exists purged db', shrink_to_fit db = Some (purged, db') /\ db_inv db' /\
    banned_peers (banned_peers_count db') <= MAX_BANNED_PEERS /\
    disconnected_peers db' <= MAX_DC_PEERS /\ peers db' ⊆ peers db.
Proof.
  intros Hdb. apply (shrink_to_fit_ok db_inv); auto using inv_drop_banned, inv_reset, inv_decrease.
  - intros. by eapply inv_drop_disconnected.
  - destruct Hdb as [_ Hb _]. pose proof (weight_bounds db). lia.
  - intros ? []. lia.
Qed.

Lemma inv_inject_disconnect db now p :
  db_inv db -> db_weight db < USIZE_MAX ->
  exists op purged db', inject_disconnect db now p = Some (op, purged, db') /\ db_inv db' /\
    banned_peers (banned_peers_count db') <= MAX_BANNED_PEERS /\
    disconnected_peers db' <= MAX_DC_PEERS /\ db_weight db' <= db_weight db + 2.
Proof.
  intros Hdb Hw. unfold inject_disconnect.
  pose proof (inv_step db now p NewDisconnected Hdb Hw) as Hi.
  pose proof (update_connection_state_weight db now p NewDisconnected) as Hw1.
  destruct (update_connection_state db now p NewDisconnected) as [op db1].
  destruct (inv_shrink db1 Hi) as (purged & db2 & -> & Hi2 & Hb2 & Hd2 & Hs2).
  eexists _, _, _. split_and!; [done..|]. pose proof (weight_subseteq _ _ Hs2). simpl in Hw1. lia.
Qed.

Lemma inv_plain db op :
  db_inv db -> db_weight db + 2 <= USIZE_MAX -> plain_op db op -> step_keeps db_inv db (db_step db op).
Proof.
  apply keeps_db_step.
  - intros ? ? ? ? ? ? _. apply inv_step; [done|lia].
  - intros. by eapply inv_put.
  - intros. by apply inv_new_entry.
  - intros db0 Hdb0. destruct (inv_shrink db0 Hdb0) as (purged & db' & ? & ? & _ & _ & ?). eauto 10.
  - intros. by apply inv_fmap.
Qed.

Lemma inv_set_trusted db e : db_inv db -> step_keeps db_inv db (Some (set_trusted_peer db e)).
Proof.
  intros Hdb. unfold set_trusted_peer. destruct (peers db !! enr_peer_id e) as [i|] eqn:E.
  - eexists. split_and!; [done| |rewrite (weight_replace db _ i); [lia|done|by destruct i]].
    assert (entry_info db 0 (enr_peer_id e) = i) as He by (unfold entry_info; by rewrite E).
    pose proof Hdb as [Hd Hb _].
    apply (ok_from db _ 0 (enr_peer_id e) (set_is_trusted (set_pi_score i max_score) true) 0); try done;
      rewrite ?He; destruct i; unfold is_disconnected, is_banned; simpl; lia || by split.
  - eexists. split_and!; [done|by apply inv_new_entry|]. rewrite weight_fresh by done. lia.
Qed.

Lemma inv_unset_trusted db now e : db_inv db -> step_keeps db_inv db (Some (unset_trusted_peer db now e)).
Proof.
  intros Hdb. unfold unset_trusted_peer. destruct (peers db !! enr_peer_id e) as [i|] eqn:E.
  2: { exists db. split_and!; [done..|lia]. }
  eexists. split_and!; [done| |rewrite (weight_replace db _ i); [lia|done|by destruct i]].
  assert (entry_info db 0 (enr_peer_id e) = i) as He by (unfold entry_info; by rewrite E).
  pose proof Hdb as [Hd Hb _].
  apply (ok_from db _ 0 (enr_peer_id e) (set_pi_score (set_is_trusted i false) (Score_default now)) 0);
    try done; rewrite ?He; destruct i; unfold is_disconnected, is_banned; simpl; lia || by split.
Qed.

Lemma inv_db_step db op :
  db_inv db -> db_weight db + 2 <= USIZE_MAX -> step_keeps db_inv db (db_step db op).
Proof.
  intros Hdb Hw. destruct op; try by apply inv_plain.
  - eexists. split_and!; [done|apply inv_step; [done|lia]|apply update_connection_state_weight].
  - by apply inv_set_trusted.
  - by apply inv_unset_trusted.
Qed.

(** *** Exact counters *)

Definition ip_ok db : Prop :=
  forall ip, default 0 (banned_peers_per_ip (banned_peers_count db) !! ip) = n_banned_on db ip.

(** What holds while no peer is trusted and no banned peer is being disconnected. *)
Record db_exact db : Prop := {
  dx_inv : db_inv db;
  dx_disconnected : disconnected_peers db = n_disconnected db;
  dx_banned : banned_peers (banned_peers_count db) = n_banned db;
  dx_ip : ip_ok db;
  dx_untrusted : forall p i, peers db !! p = Some i -> is_trusted i = false;
  dx_scoring : disable_peer_scoring db = false;
}.

Lemma ip_count_length ip ips : ip_count ip ips <= Z.of_nat (length ips).
Proof. unfold ip_count. pose proof (length_filter (eq ip) ips). lia. Qed.

Lemma length_seen_ips i : (length (seen_ip_addresses i) <= size (seen_multiaddrs i))%nat.
Proof.
  unfold seen_ip_addresses. etrans; [apply length_omap_le|]. unfold set_iter.
  rewrite length_fmap, length_hash_iter, <- size_dom, dom_gset_to_gmap. done.
Qed.

Lemma banned_on_weight db ip : 0 <= n_banned_on db ip <= db_weight db.
Proof.
  unfold n_banned_on, db_weight. split.
  - apply map_sum_nonneg. intros p i _. simpl. case_match; [apply ip_count_nonneg|done].
  - apply map_sum_le. intros p i _. simpl. pose proof (length_seen_ips i).
    pose proof (ip_count_length ip (seen_ip_addresses i)). case_match; lia.
Qed.

Lemma ip_same db db' now p i' :
  ip_ok db -> peers db' = <[p := i']> (peers db) ->
  banned_peers_per_ip (banned_peers_count db') = banned_peers_per_ip (banned_peers_count db) ->
  is_banned i' = is_banned (entry_info db now p) ->
  (is_banned i' = true -> seen_multiaddrs i' = seen_multiaddrs (entry_info db now p)) -> ip_ok db'.
Proof.
  intros Hip Hp Hc Hb Hs ip. rewrite Hc, Hip. unfold n_banned_on at 2. rewrite Hp, (n_banned_on_put db now).
  rewrite <- Hb. destruct (is_banned i'); [|lia]. rewrite (seen_ips_eq i' (entry_info db now p)) by auto. lia.
Qed.

Lemma ip_add db db' now p i' :
  ip_ok db -> peers db' = <[p := i']> (peers db) -> db_weight db' <= USIZE_MAX ->
  banned_peers_per_ip (banned_peers_count db') =
    fold_left add_banned_ip (seen_ip_addresses (entry_info db now p))
      (banned_peers_per_ip (banned_peers_count db)) ->
  is_banned (entry_info db now p) = false -> is_banned i' = true ->
  seen_multiaddrs i' = seen_multiaddrs (entry_info db now p) -> ip_ok db'.
Proof.
  intros Hip Hp Hw Hc Hb Hb' Hs ip. pose proof (banned_on_weight db ip). pose proof (banned_on_weight db' ip) as Hw'.
  assert (n_banned_on db' ip = n_banned_on db ip + ip_count ip (seen_ip_addresses (entry_info db now p))) as Hn.
  { unfold n_banned_on at 1. rewrite Hp, (n_banned_on_put db now), Hb, Hb'.
    rewrite (seen_ips_eq i' (entry_info db now p)) by done. lia. }
  rewrite Hc, add_ips_lookup, Hip, Hn; [done|rewrite Hip; lia..].
Qed.

Lemma ip_remove db db' now p i' :
  ip_ok db -> peers db' = <[p := i']> (peers db) ->
  banned_peers_per_ip (banned_peers_count db') =
    fold_left remove_banned_ip (seen_ip_addresses (entry_info db now p))
      (banned_peers_per_ip (banned_peers_count db)) ->
  is_banned (entry_info db now p) = true -> is_banned i' = false -> ip_ok db'.
Proof.
  intros Hip Hp Hc Hb Hb' ip. pose proof (banned_on_weight db' ip) as Hw'.
  assert (n_banned_on db' ip = n_banned_on db ip - ip_count ip (seen_ip_addresses (entry_info db now p))) as Hn.
  { unfold n_banned_on at 1. rewrite Hp, (n_banned_on_put db now), Hb, Hb'. lia. }
  rewrite Hc, remove_ips_lookup, Hip, Hn; [done|rewrite Hip; lia].
Qed.

Ltac ip_case db now p tac :=
  first [ eapply (ip_same db _ now p); [done|reflexivity|done|..]; solve [tac]
        | eapply (ip_remove db _ now p); [done|reflexivity|..]; solve [tac]
        | eapply (ip_add db _ now p); [done|reflexivity|..]; solve [tac] ].

Lemma ip_step db now p ns :
  ip_ok db -> db_weight db + 2 <= USIZE_MAX ->
  (forall b, ns = NewDisconnecting b -> is_banned (entry_info db now p) = false) ->
  ip_ok (update_connection_state db now p ns).2.
Proof.
  intros Hip Hw Hns. pose proof (update_connection_state_weight db now p ns) as Hw'.
  assert (db_weight (update_connection_state db now p ns).2 <= USIZE_MAX) as Hw2 by lia. clear Hw Hw'.
  destruct ns as [e a d|b|e| | |]; cbn [update_connection_state snd] in *.
  - destruct (connect_status (opt_set_enr e (entry_info db now p)) a d) as (b & m & n & Hst).
    revert Hw2. unfold enter_connected. cbv zeta. rewrite status_enr.
    destruct (connection_status (entry_info db now p)) eqn:Es; intros Hw2;
      ip_case db now p ltac:(simpl; rewrite ?(seen_ips_eq _ _ (seen_enr e _)); unfold is_banned;
        rewrite ?Hst, ?Es; done).
  - specialize (Hns b eq_refl). revert Hw2 Hns. unfold enter_disconnecting. cbv zeta.
    destruct (connection_status (entry_info db now p)) eqn:Es; intros Hw2 Hns;
      ip_case db now p ltac:(simpl; unfold is_banned in *; rewrite ?status_set, ?Es in *; done).
  - revert Hw2. unfold enter_dialing, set_dialing_peer. cbv zeta. rewrite status_enr.
    destruct (connection_status (entry_info db now p)) eqn:Es; intros Hw2;
      ip_case db now p ltac:(simpl; unfold is_banned in *; rewrite ?status_set, ?status_enr, ?Es in *; done).
  - revert Hw2. unfold enter_disconnected, clear_subnets. cbv zeta. rewrite status_subnets.
    destruct (connection_status (entry_info db now p)) as [| []| | | |] eqn:Es; intros Hw2;
      ip_case db now p ltac:(simpl;
        rewrite ?(seen_ips_eq _ _ (seen_set _ _)), ?(seen_ips_eq _ _ (seen_subnets _ _)), ?seen_set, ?seen_subnets;
        unfold is_banned in *; rewrite ?status_set, ?status_subnets, ?Es in *; done).
  - revert Hw2. unfold enter_banned. cbv zeta. rewrite status_ensure.
    destruct (connection_status (entry_info db now p)) eqn:Es; intros Hw2;
      ip_case db now p ltac:(simpl;
        rewrite ?(seen_ips_eq _ _ (seen_set _ _)), ?(seen_ips_eq _ _ (seen_ensure _)), ?seen_set, ?seen_ensure;
        unfold is_banned in *; rewrite ?status_set, ?status_ensure, ?Es in *; done).
  - revert Hw2. unfold enter_unbanned. cbv zeta.
    destruct (connection_status (entry_info db now p)) eqn:Es; intros Hw2;
      ip_case db now p ltac:(simpl; rewrite ?(seen_ips_eq _ _ (seen_set _ _)), ?seen_set;
        unfold is_banned in *; rewrite ?status_set, ?Es in *; done).
Qed.

(** The single steps keep the counters exact. *)
Lemma exact_from_ok db db' :
  db_exact db -> db_ok db db' 0 -> ip_ok db' ->
  (forall p i, peers db' !! p = Some i -> is_trusted i = false) -> disable_peer_scoring db' = false ->
  db_exact db'.
Proof.
  intros Hx [Hi [Hd Hb]] Hip Hu Hs. pose proof Hi as [Hid Hib _].
  unfold disc_drift, ban_drift in *. rewrite (dx_disconnected _ Hx) in Hd. rewrite (dx_banned _ Hx) in Hb.
  split; [done|lia|lia|done..].
Qed.

Lemma exact_entry db now p : db_exact db -> is_trusted (entry_info db now p) = false.
Proof.
  intros Hx. unfold entry_info. rewrite (dx_scoring _ Hx).
  destruct (peers db !! p) eqn:E; [by eapply dx_untrusted|done].
Qed.

Lemma exact_step db now p ns :
  db_exact db -> db_weight db + 2 <= USIZE_MAX ->
  (forall b, ns = NewDisconnecting b -> is_banned (entry_info db now p) = false) ->
  db_exact (update_connection_state db now p ns).2.
Proof.
  intros Hx Hw Hns. assert (drift_slack db now p ns = 0) as Hsl.
  { destruct ns; simpl; try done. by rewrite (Hns to_ban eq_refl). }
  pose proof (update_connection_state_ok db now p ns (dx_inv _ Hx) ltac:(lia)) as Hok. rewrite Hsl in Hok.
  destruct (update_connection_state_peers db now p ns) as (i' & Hp & _ & Ht & Hdis).
  apply (exact_from_ok db); [done..|by apply ip_step; [apply dx_ip| |]| |rewrite Hdis; apply Hx].
  intros q j. rewrite Hp, lookup_insert. case_decide; [|apply Hx].
  intros [= <-]. rewrite Ht. by apply exact_entry.
Qed.

Lemma exact_put db p i i' :
  db_exact db -> peers db !! p = Some i -> same_profile i i' -> db_exact (put_peer db p i').
Proof.
  intros Hx Hp Hs. assert (entry_info db 0 p = i) as He by (unfold entry_info; by rewrite Hp).
  apply (exact_from_ok db); [done|eapply inv_put; [apply Hx|done..]|..|apply Hx].
  - apply (ip_same db _ 0 p i'); [apply Hx|done|done|..]; rewrite He; unfold is_banned;
      rewrite (sp_status _ _ Hs); [done|]. intros _. apply Hs.
  - simpl. intros q j. rewrite lookup_insert. case_decide; [|apply Hx].
    intros [= <-]. rewrite (sp_trusted _ _ Hs). by eapply dx_untrusted.
Qed.

Lemma exact_new_entry db p i' :
  db_exact db -> peers db !! p = None -> connection_status i' = Unknown -> is_trusted i' = false ->
  trusted_iff_max i' -> db_exact (put_peer db p i').
Proof.
  intros Hx Hp Hst Ht Htm. apply (exact_from_ok db); [done|by apply inv_new_entry; [apply Hx|..]|..|apply Hx].
  - apply (ip_same db _ 0 p i'); [apply Hx|done|done|..]; unfold is_banned; rewrite Hst; [|done].
    unfold entry_info. rewrite Hp. by destruct (disable_peer_scoring db).
  - simpl. intros q j. rewrite lookup_insert. case_decide; [|apply Hx]. by intros [= <-].
Qed.

Lemma exact_fmap db f :
  db_exact db -> (forall i, same_profile i (f i)) -> db_exact (set_peers db (f <$> peers db)).
Proof.
  intros Hx Hf. apply (exact_from_ok db); [done|by apply inv_fmap; [apply Hx|]|..|apply Hx].
  - intros ip. simpl. rewrite (dx_ip _ Hx ip). unfold n_banned_on. symmetry. apply map_sum_fmap.
    intros p i _. unfold is_banned; simpl. rewrite (sp_status _ _ (Hf i)).
    by rewrite (seen_ips_eq _ _ (sp_seen _ _ (Hf i))).
  - simpl. intros p i. rewrite lookup_fmap. intros (j & Hj & ->)%fmap_Some.
    rewrite (sp_trusted _ _ (Hf j)). by eapply dx_untrusted.
Qed.

Lemma exact_drop_banned db p i :
  db_exact db -> peers db !! p = Some i -> is_banned i = true -> db_exact (drop_banned db p i).
Proof.
  intros Hx Hp Hban. pose proof (inv_drop_banned db p i (dx_inv _ Hx) Hp Hban) as Hi.
  destruct (n_delete db (drop_banned db p i) p i Hp eq_refl) as [Hn Hnb]. rewrite Hban in Hnb.
  assert (is_disconnected i = false) as Hdi by (unfold is_banned, is_disconnected in *; by case_match).
  rewrite Hdi in Hn. simpl in Hn, Hnb.
  assert (forall ip, n_banned_on (drop_banned db p i) ip = n_banned_on db ip - ip_count ip (seen_ip_addresses i)) as Hon.
  { intros ip. unfold n_banned_on. simpl. rewrite (map_sum_delete _ _ _ i) by done. simpl. by rewrite Hban. }
  split; [done|..].
  - simpl. rewrite Hn, (dx_disconnected _ Hx). lia.
  - simpl. rewrite Hnb, (dx_banned _ Hx). pose proof (entry_counted db 0 p) as [_ Hc].
    unfold entry_info in Hc. rewrite Hp, Hban in Hc. simpl in Hc. unfold saturating_sub. lia.
  - intros ip. rewrite Hon. simpl. pose proof (banned_on_weight (drop_banned db p i) ip) as Hw.
    rewrite Hon in Hw. rewrite remove_ips_lookup; rewrite (dx_ip _ Hx ip); lia.
  - simpl. intros q j [_ Hj]%lookup_delete_Some. by eapply dx_untrusted.
  - apply Hx.
Qed.

Lemma exact_reset db :
  db_exact db -> (forall p i, peers db !! p = Some i -> is_banned i = false) ->
  db_exact (set_banned db BannedPeersCount_default).
Proof.
  intros Hx Hno. split; [by apply inv_reset; [apply Hx|]|apply Hx|..|apply Hx|apply Hx].
  - simpl. rewrite n_banned_sum, map_sum_zero; [done|]. intros p i Hp. simpl. by rewrite (Hno p i Hp).
  - intros ip. simpl. rewrite lookup_empty. unfold n_banned_on. rewrite map_sum_zero; [done|].
    intros p i Hp. simpl in *. by rewrite (Hno p i Hp).
Qed.

Lemma exact_drop_disconnected db p i :
  db_exact db -> peers db !! p = Some i -> is_disconnected i = true -> is_trusted i = false ->
  MAX_DC_PEERS < disconnected_peers db -> db_exact (drop_disconnected db p).
Proof.
  intros Hx Hp Hdi Htr Hm.
  pose proof (inv_drop_disconnected db p i (dx_inv _ Hx) Hp Hdi Htr Hm) as Hi.
  destruct (n_delete db (drop_disconnected db p) p i Hp eq_refl) as [Hn Hnb]. rewrite Hdi in Hn.
  assert (is_banned i = false) as Hbi by (unfold is_banned, is_disconnected in *; by case_match).
  rewrite Hbi in Hnb. simpl in Hn, Hnb. split; [done|..].
  - simpl. rewrite Hn, (dx_disconnected _ Hx) in *. unfold saturating_sub, MAX_DC_PEERS in *. lia.
  - simpl. rewrite Hnb, (dx_banned _ Hx). lia.
  - intros ip. simpl. rewrite (dx_ip _ Hx ip). unfold n_banned_on. simpl.
    rewrite (map_sum_delete _ _ _ i) by done. simpl. rewrite Hbi. lia.
  - simpl. intros q j [_ Hj]%lookup_delete_Some. by eapply dx_untrusted.
  - apply Hx.
Qed.

(** Without trusted peers there is always a peer to drop while the counter is above its limit. *)
Lemma exact_decrease db :
  db_exact db -> (forall p i, peers db !! p = Some i -> is_disconnected i = true -> is_trusted i = true) ->
  MAX_DC_PEERS < disconnected_peers db ->
  db_exact (set_disconnected db (saturating_sub (disconnected_peers db) 1)).
Proof.
  intros Hx Hno Hm. exfalso. rewrite (dx_disconnected _ Hx), n_disconnected_sum, map_sum_zero in Hm.
  - unfold MAX_DC_PEERS in Hm. lia.
  - intros p i Hp. simpl. destruct (is_disconnected i) eqn:E; [|done].
    pose proof (Hno p i Hp E) as Ht. by rewrite (dx_untrusted _ Hx p i Hp) in Ht.
Qed.

Lemma exact_shrink db :
  db_exact db ->
  exists purged db', shrink_to_fit db = Some (purged, db') /\ db_exact db' /\
    banned_peers (banned_peers_count db') <= MAX_BANNED_PEERS /\
    disconnected_peers db' <= MAX_DC_PEERS /\ peers db' ⊆ peers db.
Proof.
  intros Hx. apply (shrink_to_fit_ok db_exact); auto using exact_drop_banned, exact_reset, exact_decrease.
  - intros. by eapply exact_drop_disconnected.
  - destruct Hx as [[_ Hb _] _ _ _ _ _]. pose proof (weight_bounds db). lia.
  - intros ? [[]]. lia.
Qed.

Lemma exact_plain db op :
  db_exact db -> db_weight db + 2 <= USIZE_MAX -> plain_op db op -> step_keeps db_exact db (db_step db op).
Proof.
  apply keeps_db_step.
  - intros. by apply exact_step.
  - intros. by eapply exact_put.
  - intros. by apply exact_new_entry.
  - intros db0 Hdb0. destruct (exact_shrink db0 Hdb0) as (purged & db' & ? & ? & _ & _ & ?). eauto 10.
  - intros. by apply exact_fmap.
Qed.

(** A run in which every call is plain at its turn. *)
Fixpoint plain_run db (ops : list DbOp) : Prop :=
  match ops with
  | [] => True
  | op :: ops => plain_op db op /\ forall db', db_step db op = Some db' -> plain_run db' ops
  end.

Lemma inv_run ops : forall db,
  db_inv db -> db_weight db + 2 * Z.of_nat (length ops) <= USIZE_MAX ->
  exists db', db_run db ops = Some db' /\ db_inv db'.
Proof.
  induction ops as [|op ops IH]; intros db Hdb Hw; simpl in *; [by eauto|].
  destruct (inv_db_step db op Hdb ltac:(lia)) as (db1 & -> & Hdb1 & Hw1). apply IH; [done|lia].
Qed.

Lemma exact_run ops : forall db,
  db_exact db -> db_weight db + 2 * Z.of_nat (length ops) <= USIZE_MAX -> plain_run db ops ->
  exists db', db_run db ops = Some db' /\ db_exact db'.
Proof.
  induction ops as [|op ops IH]; intros db Hdb Hw Hp; simpl in *; [by eauto|].
  destruct Hp as [Hop Hp].
  destruct (exact_plain db op Hdb ltac:(lia) Hop) as (db1 & E & Hdb1 & Hw1). rewrite E.
  apply IH; [done|lia|by apply Hp].
Qed.

Lemma new_entries trusted disable p i :
  peers (PeerDB_new trusted disable) !! p = Some i -> i = trusted_peer_info /\ p ∈ trusted.
Proof.
  simpl. intros Hp. apply elem_of_list_to_map_2, list_elem_of_fmap in Hp as (q & [= -> ->] & Hq). done.
Qed.

Lemma new_inv trusted disable :
  db_inv (PeerDB_new trusted disable) /\
  db_weight (PeerDB_new trusted disable) <= Z.of_nat (length trusted).
Proof.
  split; [split|].
  - rewrite n_disconnected_sum, map_sum_zero; [done|]. by intros p i [-> _]%new_entries.
  - rewrite n_banned_sum, map_sum_zero; [by vm_compute|]. by intros p i [-> _]%new_entries.
  - by intros p i [-> _]%new_entries.
  - unfold db_weight. simpl. induction trusted as [|p ps IH]; simpl; [by rewrite map_sum_empty|].
    set (m := list_to_map _) in *.
    assert (Z.of_nat (size (seen_multiaddrs trusted_peer_info)) = 0) as Hz by (by vm_compute).
    destruct (m !! p) as [i|] eqn:E.
    + rewrite (map_sum_replace _ _ _ i) by done. cbn [snd]. rewrite Hz. lia.
    + rewrite map_sum_insert_fresh by done. cbn [snd]. rewrite Hz. lia.
Qed.

Lemma new_exact : db_exact (PeerDB_new [] false).
Proof.
  split; [apply new_inv|..].
  - rewrite n_disconnected_sum, map_sum_zero; [done|]. by intros p i [_ ?%elem_of_nil]%new_entries.
  - rewrite n_banned_sum, map_sum_zero; [done|]. by intros p i [_ ?%elem_of_nil]%new_entries.
  - intros ip. simpl. rewrite lookup_empty. unfold n_banned_on. rewrite map_sum_zero; [done|].
    by intros p i [_ ?%elem_of_nil]%new_entries.
  - by intros p i [_ ?%elem_of_nil]%new_entries.
  - done.
Qed.

End peerdb_lemmas.

(** ** Theorems *)

Section peerdb_theorems.
Context `{ChainTypes} `{Libp2p} `{HashIter} `{FloatExp} `{UnstableSort}.
Implicit Types (db : PeerDB) (i : PeerInfo) (p : PeerId).

(** C38: the database's invariant.  In any sequence of calls on a new database (fewer than half the
    address space of them), every call returns, the count of disconnected peers never exceeds their
    number, the count of banned peers is never below theirs, and a peer is trusted exactly if its
    score is the maximal one. *)
Theorem peerdb_invariant trusted disable_scoring ops :
  Z.of_nat (length trusted) + 2 * Z.of_nat (length ops) <= USIZE_MAX ->
  exists db, db_run (PeerDB_new trusted disable_scoring) ops = Some db /\ db_inv db.
Proof.
  intros Hlen. destruct (new_inv trusted disable_scoring) as [Hi Hw]. apply inv_run; [done|lia].
Qed.

(** C37: the counters are exact.  In any sequence of calls on a new database without trusted peers,
    in which no peer is made trusted and no banned peer is being disconnected, the counts of
    disconnected and banned peers are their numbers, and an IP address is banned exactly if banned
    peers were seen on more than [BANNED_PEERS_PER_IP_THRESHOLD] addresses with that IP. *)
Theorem peerdb_counts_exact ops :
  2 * Z.of_nat (length ops) <= USIZE_MAX -> plain_run (PeerDB_new [] false) ops ->
  exists db, db_run (PeerDB_new [] false) ops = Some db /\
    disconnected_peers db = n_disconnected db /\
    banned_peers (banned_peers_count db) = n_banned db /\
    forall ip, is_ip_banned db ip = true <-> BANNED_PEERS_PER_IP_THRESHOLD < n_banned_on db ip.
Proof.
  intros Hlen Hp. destruct (exact_run ops (PeerDB_new [] false) new_exact) as (db & -> & Hx); [|done|].
  { destruct (new_inv [] false) as [_ Hw]. simpl in Hw. lia. }
  exists db. split_and!; [done|apply Hx|apply Hx|]. intros ip. rewrite <- (dx_ip _ Hx ip).
  unfold is_ip_banned, count_ip_is_banned. destruct (_ !! ip) as [n|]; simpl; [apply Z.ltb_lt|].
  unfold BANNED_PEERS_PER_IP_THRESHOLD. split; [done|lia].
Qed.

(** Disconnecting keeps the database small.  Processing a disconnect returns (both loops of
    [shrink_to_fit] end) and leaves at most [MAX_BANNED_PEERS] banned peers and a count of
    disconnected ones of at most [MAX_DC_PEERS]; while the counters are exact, also the number of
    disconnected peers is at most [MAX_DC_PEERS]. *)
Theorem inject_disconnect_bounds db now p :
  db_inv db -> db_weight db + 2 <= USIZE_MAX ->
  exists op purged db', inject_disconnect db now p = Some (op, purged, db') /\
    n_banned db' <= MAX_BANNED_PEERS /\ disconnected_peers db' <= MAX_DC_PEERS /\
    (db_exact db -> n_disconnected db' <= MAX_DC_PEERS).
Proof.
  intros Hdb Hw.
  destruct (inv_inject_disconnect db now p Hdb ltac:(lia)) as (op & purged & db' & E & [_ Hb _] & Hb' & Hd' & _).
  exists op, purged, db'. split_and!; [done|lia|done|]. intros Hx.
  destruct (exact_plain db (DDisconnect now p) Hx Hw) as (db'' & E' & Hx' & _); [done|].
  cbn [db_step] in E'. rewrite E in E'. injection E' as <-. by rewrite <- (dx_disconnected _ Hx').
Qed.

(** A trusted peer cannot be reported.  Reporting a trusted peer for any action changes nothing
    and asks for nothing. *)
Theorem report_trusted_peer db now p i a :
  peers db !! p = Some i -> is_trusted i = true -> report_peer db now p a = (ResNoAction, db).
Proof.
  intros Hp Ht. unfold report_peer, apply_peer_action_to_score. rewrite Hp, Ht. simpl.
  assert (put_peer db p i = db) as -> by (destruct db; unfold put_peer; simpl in *; by rewrite insert_id).
  unfold handle_score_transition. by destruct (pi_score_state i).
Qed.

(** A fatal report leaves an untrusted peer with a banned score. *)
Lemma fatal_state i s :
  is_trusted i = false -> pi_score i = Score.Real s ->
  pi_score_state (apply_peer_action_to_score i Fatal) = ScoreState.Banned.
Proof.
  intros Ht Hs. unfold apply_peer_action_to_score, pi_score_state. rewrite Ht. destruct i; simpl in *. subst.
  simpl. unfold score_state. cbn [score]. destruct (fatal_floor s) as [[_ ->] _]. by vm_compute.
Qed.

(** A fatal report leads to a ban.  A connected or dialing peer that is not trusted and not banned,
    reported for a fatal action, is to be disconnected and then banned; when the disconnect has
    happened the peer is handed over for banning, is recorded and counted as banned, has a banned
    score, and will not be dialed. *)
Lemma fatal_report_bans db now now' p i s :
  peers db !! p = Some i -> is_trusted i = false -> pi_score i = Score.Real s ->
  is_connected_or_dialing i = true -> pi_score_state i <> ScoreState.Banned ->
  let '(res, db1) := report_peer db now p Fatal in
  let '(op, db2) := update_connection_state db1 now' p NewDisconnected in
  res = ResBan DisconnectThePeer /\ db_connection_status db1 p = Some (Disconnecting true) /\
  (exists ips, op = Some (ReadyToBan ips)) /\ db_connection_status db2 p = Some (Banned now') /\
  ban_status db2 p = Some BadScore /\ should_dial db2 p = false /\
  banned_peers (banned_peers_count db2) = usize_saturating_add (banned_peers (banned_peers_count db)) 1.
Proof.
  intros Hp Ht Hs Hc Hb. unfold report_peer. rewrite Hp. cbv zeta.
  set (i1 := apply_peer_action_to_score i Fatal).
  assert (pi_score_state i1 = ScoreState.Banned) as Hb1 by by eapply fatal_state.
  assert (handle_score_transition (pi_score_state i) i1 = TransBanned) as ->.
  { unfold handle_score_transition. rewrite Hb1. by destruct (pi_score_state i). }
  unfold apply_transition, update_connection_state at 1. unfold entry_info at 1. simpl peers.
  rewrite lookup_insert_eq. unfold ensure_banned_score. rewrite Hb1. unfold enter_banned.
  assert (connection_status i1 = connection_status i) as -> by apply status_action.
  assert (forall db0, let db1 := put_peer db0 p (set_connection_status i1 (Disconnecting true)) in
    let '(op, db2) := update_connection_state db1 now' p NewDisconnected in
    db_connection_status db1 p = Some (Disconnecting true) /\
    (exists ips, op = Some (ReadyToBan ips)) /\ db_connection_status db2 p = Some (Banned now') /\
    ban_status db2 p = Some BadScore /\ should_dial db2 p = false /\
    banned_peers (banned_peers_count db2) = usize_saturating_add (banned_peers (banned_peers_count db0)) 1) as Hgo.
  { intros db0. unfold update_connection_state, entry_info, db_connection_status, ban_status, should_dial,
      score_state_banned_or_disconnected, db_connection_status. simpl. rewrite lookup_insert_eq.
    unfold enter_disconnected, clear_subnets. rewrite status_subnets, status_set. simpl.
    rewrite !lookup_insert_eq. simpl. rewrite !status_set.
    assert (forall j st, pi_score_state (set_connection_status j st) = pi_score_state j) as Hst by (by intros []).
    assert (forall j su, pi_score_state (set_subnets j su) = pi_score_state j) as Hsu by (by intros []).
    rewrite Hst, Hsu, Hst, Hb1. eauto 10. }
  unfold is_connected_or_dialing, is_connected, is_dialing in Hc.
  destruct (connection_status i) eqn:Es; try done.
  - specialize (Hgo (put_peer db p i1)). cbv zeta in Hgo. destruct (update_connection_state _ _ _ _). by split.
  - specialize (Hgo (put_peer db p i1)). cbv zeta in Hgo. destruct (update_connection_state _ _ _ _). by split.
Qed.

(** Peers are offered by score.  [worst_connected_peers] lists exactly the connected peers, each
    once, by ascending score, and [best_peers_by_status] exactly the peers of the status, by
    descending score; peers whose score is not a number come first in both. *)
Theorem peers_by_score db is_status :
  worst_connected_peers db ≡ₚ connected_peers db /\
  StronglySorted (cmp_le (info_cmp false)) (worst_connected_peers db) /\
  best_peers_by_status db is_status ≡ₚ peers_where db is_status /\
  StronglySorted (cmp_le (info_cmp true)) (best_peers_by_status db is_status) /\
  NoDup (worst_connected_peers db).*1.
Proof.
  assert (forall r l, StronglySorted (cmp_le (info_cmp r)) (sorted_by (info_cmp r) l)) as Hs.
  { intros r l. apply sorted_by_sorted; unfold info_cmp, cmp_le.
    - intros. apply score_cmp_antisym.
    - intros x y z. apply score_cmp_trans. }
  split_and!; [apply sorted_by_perm|apply Hs|apply sorted_by_perm|apply Hs|].
  unfold worst_connected_peers. rewrite sorted_by_perm. unfold peers_where.
  pose proof (NoDup_fst_hash_iter (peers db)) as Hn.
  induction (hash_iter (peers db)) as [|[q j] l IH]; simpl; [constructor|].
  apply NoDup_cons in Hn as [Hq Hn]. destruct (is_connected j); [|by apply IH]. simpl.
  constructor; [|by apply IH]. intros Hin. apply Hq.
  apply list_elem_of_fmap in Hin as ([q' j'] & -> & Hin). apply list_elem_of_In, filter_In in Hin as [Hin _].
  apply list_elem_of_fmap. exists (q', j'). split; [done|]. by apply list_elem_of_In.
Qed.

Lemma strike_off_spec l : forall rem,
  rem <> ∅ ->
  match strike_off rem l with
  | (true, _) => rem ⊆ list_to_set l
  | (false, rem') => rem' = rem ∖ list_to_set l /\ rem' <> ∅
  end.
Proof.
  induction l as [|x l IH]; intros rem Hne; simpl.
  - split; [|done]. by rewrite (difference_empty_L rem).
  - case_bool_decide as Hx; case_bool_decide as He; simpl.
    + clear IH. intros y Hy. destruct (decide (y = x)); set_solver.
    + specialize (IH _ He). destruct (strike_off (rem ∖ {[x]}) l) as [[] rem'].
      * intros y Hy. destruct (decide (y = x)) as [->|]; set_solver.
      * destruct IH as [-> Hne']. split; [|done]. clear. set_solver.
    + clear IH. exfalso. apply Hne. set_solver.
    + assert (rem ∖ {[x]} = rem) as Hr by (clear IH; set_solver). rewrite Hr in *.
      specialize (IH rem Hne). destruct (strike_off rem l) as [[] rem']; set_solver.
Qed.

Lemma strike_off_peers_spec infos : forall rem,
  rem <> ∅ ->
  (strike_off_peers rem infos = true <->
   forall s, s ∈ rem -> exists i, i ∈ infos /\ s ∈ custody_subnets i).
Proof.
  induction infos as [|i infos IH]; intros rem Hne; simpl.
  - split; [done|]. intros Hall. apply set_choose_L in Hne as [s Hs].
    destruct (Hall s Hs) as (i & Hi & _). by apply elem_of_nil in Hi.
  - pose proof (strike_off_spec (set_iter (custody_subnets i)) rem Hne) as Hst.
    destruct (strike_off rem _) as [[] rem'].
    + split; [|done]. intros _ s Hs. exists i. split; [set_solver|].
      apply Hst, elem_of_list_to_set, elem_of_set_iter in Hs. done.
    + destruct Hst as [-> Hne']. rewrite (IH _ Hne'). split.
      * intros Hall s Hs. destruct (decide (s ∈ custody_subnets i)); [exists i; set_solver|].
        destruct (Hall s) as (j & Hj & Hsj); [|exists j; set_solver].
        apply elem_of_difference. split; [done|]. by rewrite elem_of_list_to_set, elem_of_set_iter.
      * intros Hall s [Hs Hn]%elem_of_difference. destruct (Hall s Hs) as (j & Hj & Hsj).
        apply elem_of_cons in Hj as [->|Hj]; [|by exists j].
        exfalso. apply Hn. by rewrite elem_of_list_to_set, elem_of_set_iter.
Qed.

Lemma count_custody_spec s t infos : forall n,
  0 <= n -> n + Z.of_nat (length infos) <= USIZE_MAX -> n < t ->
  (count_custody s t n infos = true <->
   t <= n + Z.of_nat (length (List.filter (fun i => is_assigned_to_custody_subnet i s) infos))).
Proof.
  induction infos as [|i infos IH]; intros n Hn Hb Ht; simpl in *; [split; [done|lia]|].
  assert (usize_wrapping_add n 1 = n + 1) as Hw
    by (unfold usize_wrapping_add; apply as_u64_small; unfold_arith; lia).
  destruct (is_assigned_to_custody_subnet i s); simpl; rewrite ?Hw; case_match eqn:E; bool_to_Prop.
  - split; [lia|done].
  - rewrite IH by lia. lia.
  - lia.
  - by rewrite IH by lia.
Qed.

(** The search for custody peers is complete.  [has_good_custody_range_sync_peer] strikes
    subnets off and stops early; it answers yes exactly if the set of subnets is not empty and every
    subnet is in the custody of a connected peer that has the blocks of the epoch.  For a single
    subnet and a positive target, [has_good_peers_in_custody_subnet] answers yes exactly if at least
    that many connected synced peers have it. *)
Theorem custody_peers_complete db subnets epoch :
  (has_good_custody_range_sync_peer db subnets epoch = true <->
   subnets <> ∅ /\ forall s, s ∈ subnets ->
     exists p i, peers db !! p = Some i /\ has_epoch epoch i = true /\ s ∈ custody_subnets i) /\
  forall s t, 0 < t -> Z.of_nat (size (peers db)) <= USIZE_MAX ->
    (has_good_peers_in_custody_subnet db s t = true <->
     t <= Z.of_nat (length (peers_where db (fun i => is_connected i && is_synced_or_advanced i
                                                    && is_assigned_to_custody_subnet i s)))).
Proof.
  assert (forall test i, i ∈ (peers_where db test).*2 <-> exists p, peers db !! p = Some i /\ test i = true)
    as Hin.
  { intros test i. rewrite list_elem_of_fmap. unfold peers_where. split.
    - intros ([p j] & -> & Hj). apply list_elem_of_In, filter_In in Hj as [Hj Ht].
      exists p. by apply list_elem_of_In, elem_of_hash_iter in Hj.
    - intros (p & Hp & Ht). exists (p, i). split; [done|]. apply list_elem_of_In, filter_In. split; [|done].
      by apply list_elem_of_In, elem_of_hash_iter. }
  split.
  - unfold has_good_custody_range_sync_peer. destruct (decide (subnets = ∅)) as [->|Hne].
    + assert (forall l, strike_off ∅ l = (false, ∅)) as He.
      { induction l as [|x l IH]; simpl; [done|].
        rewrite bool_decide_false by set_solver. simpl. assert (∅ ∖ {[x]} = (∅ : gset Z)) as -> by set_solver.
        done. }
      split; [|by intros []]. induction (_.*2) as [|i l IH]; simpl; [done|]. by rewrite He.
    + rewrite strike_off_peers_spec by done. split.
      * intros Hall. split; [done|]. intros s Hs. destruct (Hall s Hs) as (i & Hi & Hsi).
        apply Hin in Hi as (p & Hp & Ht). eauto.
      * intros [_ Hall] s Hs. destruct (Hall s Hs) as (p & i & Hp & Ht & Hsi). exists i. split; [|done].
        apply Hin. eauto.
  - intros s t Ht Hsz. unfold has_good_peers_in_custody_subnet, peers_where.
    rewrite count_custody_spec; [|lia| |lia].
    + rewrite Z.add_0_l. assert (forall l : list (PeerId * PeerInfo),
        length (List.filter (fun i => is_assigned_to_custody_subnet i s)
          (List.filter (fun kv => is_connected kv.2 && is_synced_or_advanced kv.2) l).*2) =
        length (List.filter (fun kv => is_connected kv.2 && is_synced_or_advanced kv.2
          && is_assigned_to_custody_subnet kv.2 s) l)) as Hl; [|by rewrite Hl].
      induction l as [|[p i] l IH]; simpl; [done|].
      destruct (is_connected i && is_synced_or_advanced i); simpl; [|done].
      destruct (is_assigned_to_custody_subnet i s); simpl; [f_equal|]; exact IH.
    + rewrite length_fmap. pose proof (length_hash_iter (peers db)).
      pose proof (filter_length_le (fun kv : PeerId * PeerInfo => is_connected kv.2 && is_synced_or_advanced kv.2)
        (hash_iter (peers db))). lia.
Qed.

End peerdb_theorems.

(** ** Closed instances *)

Module PeerDBExamples.

#[local] Existing Instance Toy.chain.
#[local] Existing Instance Toy.libp2p.
#[local] Existing Instance ScoreExamples.step_float_exp.

#[local] Instance stable_unstable_sort : UnstableSort.
Proof. exact {| sort_unstable_by := @sorted_by; sort_unstable_by_perm := @sorted_by_perm |}. Defined.

Definition peer7 : @PeerId Toy.libp2p := 7.
(** Port [port] of the address 10. *)
Definition addr (port : Z) : @Multiaddr Toy.libp2p := 10 * 65536 + port.

(** A peer connects, is reported, disconnects and is thereby banned. *)
Definition banning : list DbOp :=
  [DConnect 0 peer7 (addr 1) None Incoming; DReport 1 peer7 Fatal; DDisconnect 2 peer7].

Example banning_run :
  match db_run (PeerDB_new [] false) banning with
  | Some db => (db_connection_status db peer7, ban_status db peer7, n_banned db, n_banned_on db (IpV4 10))
  | None => (None, None, 0, 0)
  end = (Some (Banned 2), Some BadScore, 1, 1).
Proof. evaluate. Qed.

Lemma peerdb_invariant_witness :
  exists db, db_run (PeerDB_new [peer7] false) banning = Some db /\ db_inv db.
Proof. apply (peerdb_invariant [peer7] false banning). by vm_compute. Defined.

Lemma peerdb_counts_exact_witness :
  exists db, db_run (PeerDB_new [] false) banning = Some db /\
    disconnected_peers db = n_disconnected db /\
    banned_peers (banned_peers_count db) = n_banned db /\
    forall ip, is_ip_banned db ip = true <-> BANNED_PEERS_PER_IP_THRESHOLD < n_banned_on db ip.
Proof. apply (peerdb_counts_exact banning); [by vm_compute|]. repeat (split; intros; [done|]). done. Defined.

Lemma inject_disconnect_bounds_witness :
  exists op purged db', inject_disconnect (PeerDB_new [] false) 5 peer7 = Some (op, purged, db') /\
    n_banned db' <= MAX_BANNED_PEERS /\ disconnected_peers db' <= MAX_DC_PEERS /\
    (db_exact (PeerDB_new [] false) -> n_disconnected db' <= MAX_DC_PEERS).
Proof.
  apply (inject_disconnect_bounds (PeerDB_new [] false) 5 peer7); [apply new_inv|by vm_compute].
Defined.

Lemma report_trusted_peer_witness :
  report_peer (PeerDB_new [peer7] false) 0 peer7 Fatal = (ResNoAction, PeerDB_new [peer7] false).
Proof. exact (report_trusted_peer (PeerDB_new [peer7] false) 0 peer7 trusted_peer_info Fatal eq_refl eq_refl). Defined.

(** A database with one connected peer. *)
Definition connected_info : PeerInfo := connect_ingoing (PeerInfo_default 0) (addr 1).
Definition one_connected : PeerDB := put_peer (PeerDB_new [] false) peer7 connected_info.

Lemma custody_peers_complete_witness :
  has_good_custody_range_sync_peer one_connected ∅ 0 = true <->
  (∅ : gset SubnetId) <> ∅ /\ forall s, s ∈ (∅ : gset SubnetId) ->
     exists p i, peers one_connected !! p = Some i /\ has_epoch 0 i = true /\ s ∈ custody_subnets i.
Proof. exact (proj1 (custody_peers_complete one_connected ∅ 0)). Defined.

(** Disconnecting from a banned peer leaves the counts behind.  The count of banned peers and of
    the peer's address stay at one after the only banned peer has been told to disconnect and has
    done so, although no peer is banned any more. *)
Theorem banned_disconnecting_drifts :
  match db_run (PeerDB_new [] false) (banning ++ [DDisconnecting 3 peer7 false; DDisconnect 4 peer7]) with
  | Some db =>
      (db_connection_status db peer7, n_banned db, banned_peers (banned_peers_count db),
       banned_peers_per_ip (banned_peers_count db) !! IpV4 10)
  | None => (None, 0, 0, None)
  end = (Some (Disconnected 4), 0, 1, Some 1).
Proof. evaluate. Qed.

(** One peer can get its IP address banned.  The counts per address go up once for every seen
    address of a banned peer, so a single peer that connected from six ports bans the IP for all,
    although the threshold is documented as a number of banned peers. *)
Theorem one_peer_bans_ip :
  match db_run (PeerDB_new [] false)
    (map (fun n => DConnect 0 peer7 (addr n) None Incoming) [1; 2; 3; 4; 5; 6] ++
     [DReport 1 peer7 Fatal; DDisconnect 2 peer7]) with
  | Some db => (n_banned db, is_ip_banned db (IpV4 10))
  | None => (0, false)
  end = (1, true).
Proof. evaluate. Qed.

(** Trusted peers make the count of disconnected peers drift.  501 trusted peers disconnect; the
    last disconnect lowers the count to 500 without removing a peer, because only peers that are not
    trusted are dropped. *)
Theorem trusted_disconnects_drift :
  let ids := map Z.of_nat (seq 0 501) in
  match db_run (PeerDB_new ids false) (map (fun p => DDisconnect 1 p) ids) with
  | Some db => (disconnected_peers db, n_disconnected db)
  | None => (0, 0)
  end = (500, 501).
Proof. evaluate. Qed.

End PeerDBExamples.
