(* ===== verification/TimeCache.v ===== *)
(** * The time cache ([common/time_cache.rs])

    A set of keys that forgets each key a fixed time after its last insertion.  The keys are kept
    twice: in a hash set, and in a queue ordered by insertion.  Every operation reads the clock, whose
    value is the argument [now].  [None] stands for a panic of [expect]. *)

From S2P Require Import Prelude Chain.

Section time_cache.
Context {K : Type} `{Countable K}.

Record LRUTimeCache := mkTimeCache {
  tc_map : gset K;
  tc_list : list (K * Instant);
  tc_ttl : Duration;
}.

Definition TimeCache_new (ttl : Duration) : LRUTimeCache := mkTimeCache ∅ [] ttl.

(** [position] of the key followed by [VecDeque::remove]. *)
Fixpoint remove_element (key : K) (l : list (K * Instant)) : option (list (K * Instant)) :=
  match l with
  | [] => None
  | e :: r => if decide (e.1 = key) then Some r else let* r := remove_element key r in Some (e :: r)
  end.

(** The common part of [raw_insert] and [insert]. *)
Definition raw_insert (c : LRUTimeCache) (now : Instant) (key : K) : option (bool * LRUTimeCache) :=
  let is_new := negb (bool_decide (key ∈ tc_map c)) in
  let map := {[key]} ∪ tc_map c in
  if is_new then Some (is_new, mkTimeCache map (tc_list c ++ [(key, now)]) (tc_ttl c))
  else
    let* rest := remove_element key (tc_list c) in
    Some (is_new, mkTimeCache map (rest ++ [(key, now)]) (tc_ttl c)).

Definition raw_remove (c : LRUTimeCache) (key : K) : option (bool * LRUTimeCache) :=
  if decide (key ∈ tc_map c) then
    let* rest := remove_element key (tc_list c) in
    Some (true, mkTimeCache (tc_map c ∖ {[key]}) rest (tc_ttl c))
  else Some (false, c).

(** The loop of [remove_expired] and [update]: the keys popped, the set and the queue left. *)
Fixpoint pop_expired (ttl : Duration) (now : Instant) (map : gset K) (l : list (K * Instant))
  : list K * gset K * list (K * Instant) :=
  match l with
  | [] => ([], map, [])
  | (key, inserted) :: r =>
      if now <? inserted + ttl then ([], map, l)
      else let '(removed, map, l) := pop_expired ttl now (map ∖ {[key]}) r in (key :: removed, map, l)
  end.

Definition remove_expired (c : LRUTimeCache) (now : Instant) : list K * LRUTimeCache :=
  let '(removed, map, l) := pop_expired (tc_ttl c) now (tc_map c) (tc_list c) in
  (removed, mkTimeCache map l (tc_ttl c)).

Definition tc_update (c : LRUTimeCache) (now : Instant) : LRUTimeCache := (remove_expired c now).2.

Definition tc_insert (c : LRUTimeCache) (now : Instant) (key : K) : option (bool * LRUTimeCache) :=
  raw_insert (tc_update c now) now key.

Definition tc_contains (c : LRUTimeCache) (now : Instant) (key : K) : bool * LRUTimeCache :=
  let c := tc_update c now in (bool_decide (key ∈ tc_map c), c).

(** ** The abstract cache: the time of the last insertion of every key *)

Inductive CacheOp :=
  | RawInsert (key : K)
  | RawRemove (key : K)
  | RemoveExpired
  | Insert (key : K)
  | Contains (key : K).

Inductive CacheAnswer :=
  | AnswerBool (b : bool)
  | AnswerKeys (ks : gset K).

Definition cache_step (c : LRUTimeCache) (now : Instant) (op : CacheOp)
  : option (CacheAnswer * LRUTimeCache) :=
  match op with
  | RawInsert key => let* r := raw_insert c now key in Some (AnswerBool r.1, r.2)
  | RawRemove key => let* r := raw_remove c key in Some (AnswerBool r.1, r.2)
  | RemoveExpired => let r := remove_expired c now in Some (AnswerKeys (list_to_set r.1), r.2)
  | Insert key => let* r := tc_insert c now key in Some (AnswerBool r.1, r.2)
  | Contains key => let r := tc_contains c now key in Some (AnswerBool r.1, r.2)
  end.

Fixpoint cache_run (c : LRUTimeCache) (ops : list (Instant * CacheOp))
  : option (list CacheAnswer * LRUTimeCache) :=
  match ops with
  | [] => Some ([], c)
  | (now, op) :: ops =>
      let* r := cache_step c now op in
      let* rs := cache_run r.2 ops in
      Some (r.1 :: rs.1, rs.2)
  end.

Definition live (ttl : Duration) (now : Instant) (m : gmap K Instant) : gmap K Instant :=
  filter (fun kv => now < kv.2 + ttl) m.

Definition ideal_step (ttl : Duration) (m : gmap K Instant) (now : Instant) (op : CacheOp)
  : CacheAnswer * gmap K Instant :=
  match op with
  | RawInsert key => (AnswerBool (bool_decide (m !! key = None)), <[key := now]> m)
  | RawRemove key => (AnswerBool (bool_decide (m !! key <> None)), delete key m)
  | RemoveExpired => (AnswerKeys (dom m ∖ dom (live ttl now m)), live ttl now m)
  | Insert key =>
      let m := live ttl now m in (AnswerBool (bool_decide (m !! key = None)), <[key := now]> m)
  | Contains key => let m := live ttl now m in (AnswerBool (bool_decide (m !! key <> None)), m)
  end.

Fixpoint ideal_run (ttl : Duration) (m : gmap K Instant) (ops : list (Instant * CacheOp))
  : list CacheAnswer * gmap K Instant :=
  match ops with
  | [] => ([], m)
  | (now, op) :: ops =>
      let r := ideal_step ttl m now op in
      let rs := ideal_run ttl r.2 ops in
      (r.1 :: rs.1, rs.2)
  end.

(** The representation: the queue lists the map once, oldest first, and the set has its keys. *)
Record represents (clock : Instant) (c : LRUTimeCache) (m : gmap K Instant) : Prop := {
  rep_map : list_to_map (tc_list c) = m;
  rep_nodup : NoDup (tc_list c).*1;
  rep_set : tc_map c = dom m;
  rep_sorted : StronglySorted (fun a b => a.2 <= b.2) (tc_list c);
  rep_past : Forall (fun e => e.2 <= clock) (tc_list c);
}.

(** ** Lemmas *)

Lemma remove_element_spec key l :
  NoDup l.*1 -> (list_to_map l : gmap K Instant) !! key <> None ->
  exists rest, remove_element key l = Some rest /\ rest `sublist_of` l /\
    (list_to_map rest : gmap K Instant) = delete key (list_to_map l).
Proof.
  induction l as [|[k t] l IH]; simpl; [by rewrite lookup_empty|].
  intros Hnd Hk. inversion Hnd as [|?? Hk' Hnd']; subst.
  destruct (decide (k = key)) as [->|Hne].
  - exists l. split_and!; [done|by constructor|].
    rewrite delete_insert_id; [done|]. by apply not_elem_of_list_to_map.
  - rewrite lookup_insert_ne in Hk by done. destruct (IH Hnd' Hk) as (rest & -> & Hs & Hm).
    exists ((k, t) :: rest). split_and!; [done|by constructor|]. simpl.
    by rewrite Hm, delete_insert_ne.
Qed.

Lemma sublist_sorted (R : K * Instant -> K * Instant -> Prop) l l' :
  l' `sublist_of` l -> StronglySorted R l -> StronglySorted R l'.
Proof.
  induction 1 as [|x l1 l2 Hs IH|x l1 l2 Hs IH]; [done| |]; intros Hl;
    apply StronglySorted_inv in Hl as [Hl Hx]; [|by auto].
  constructor; [by auto|]. eapply Forall_forall. intros y Hy. rewrite Forall_forall in Hx.
  apply Hx. by eapply elem_of_sublist.
Qed.

Lemma represents_sublist clock c m rest ks m' :
  represents clock c m -> rest `sublist_of` tc_list c -> list_to_map rest = m' -> ks = dom m' ->
  represents clock (mkTimeCache ks rest (tc_ttl c)) m'.
Proof.
  intros [Hm Hnd Hs Hso Hp] Hsub <- ->. constructor; simpl; [done| |done| |].
  - eapply sublist_NoDup; [exact Hnd|]. by apply fmap_sublist.
  - by eapply sublist_sorted.
  - rewrite Forall_forall in *. intros e He. apply Hp. by eapply elem_of_sublist.
Qed.

Lemma represents_snoc clock now c m key :
  represents clock c m -> clock <= now -> key ∉ dom m ->
  represents now (mkTimeCache ({[key]} ∪ tc_map c) (tc_list c ++ [(key, now)]) (tc_ttl c)) (<[key := now]> m).
Proof.
  intros [Hm Hnd Hs Hso Hp] Hle Hk.
  assert (key ∉ (tc_list c).*1) as Hkl.
  { intros Hin. apply Hk. rewrite <- Hm. apply elem_of_dom.
    apply list_elem_of_fmap in Hin as ([k t] & -> & Hin). exists t. by apply elem_of_list_to_map. }
  constructor; simpl.
  - rewrite list_to_map_snoc by done. by rewrite Hm.
  - rewrite fmap_app. apply NoDup_app. split_and!; [done| |apply NoDup_singleton].
    intros k Hk1 Hk2%list_elem_of_singleton. by subst.
  - rewrite dom_insert_L, Hs. done.
  - apply StronglySorted_app_2; [|done|repeat constructor].
    rewrite Forall_forall in Hp. intros x y Hx ->%list_elem_of_singleton. simpl.
    specialize (Hp x Hx). simpl in Hp. lia.
  - apply Forall_app. split; [|repeat constructor; simpl; lia].
    eapply Forall_impl; [exact Hp|]. simpl. lia.
Qed.

Lemma raw_insert_spec clock now c m key :
  represents clock c m -> clock <= now ->
  exists c', raw_insert c now key = Some (bool_decide (m !! key = None), c') /\
    tc_ttl c' = tc_ttl c /\ represents now c' (<[key := now]> m).
Proof.
  intros Hr Hle. unfold raw_insert. rewrite (rep_set _ _ _ Hr).
  destruct (m !! key) eqn:Hk.
  - rewrite bool_decide_true by (apply elem_of_dom; eauto). simpl.
    destruct (remove_element_spec key (tc_list c)) as (rest & -> & Hsub & Hm);
      [apply Hr|by rewrite (rep_map _ _ _ Hr), Hk|].
    rewrite (rep_map _ _ _ Hr) in Hm.
    assert (represents clock (mkTimeCache (dom (delete key m)) rest (tc_ttl c)) (delete key m)) as Hr'
      by by eapply represents_sublist.
    eexists. split; [done|]. split; [done|].
    apply (represents_snoc _ now _ _ key) in Hr'; [|done|rewrite dom_delete_L; set_solver].
    simpl in Hr'. rewrite insert_delete_eq in Hr'.
    replace ({[key]} ∪ dom m) with ({[key]} ∪ dom (delete key m)); [done|].
    rewrite dom_delete_L. apply set_eq. intros k. assert (key ∈ dom m) by (apply elem_of_dom; eauto).
    set_unfold. destruct (decide (k = key)); naive_solver.
  - rewrite bool_decide_false by (by apply not_elem_of_dom). simpl. eexists. split; [done|]. split; [done|].
    rewrite <- (rep_set _ _ _ Hr). apply (represents_snoc clock); [done|done|].
    by apply not_elem_of_dom.
Qed.

Lemma raw_remove_spec clock now c m key :
  represents clock c m -> clock <= now ->
  exists c', raw_remove c key = Some (bool_decide (m !! key <> None), c') /\
    tc_ttl c' = tc_ttl c /\ represents clock c' (delete key m).
Proof.
  intros Hr Hle. unfold raw_remove. rewrite (rep_set _ _ _ Hr). destruct (m !! key) eqn:Hk.
  - rewrite decide_True by (apply elem_of_dom; eauto).
    destruct (remove_element_spec key (tc_list c)) as (rest & -> & Hsub & Hm);
      [apply Hr|by rewrite (rep_map _ _ _ Hr), Hk|].
    eexists. split; [by rewrite bool_decide_true|]. split; [done|].
    eapply represents_sublist; [done|done|by rewrite Hm, (rep_map _ _ _ Hr)|].
    by rewrite dom_delete_L.
  - rewrite decide_False by (by apply not_elem_of_dom). eexists.
    split; [by rewrite bool_decide_false by naive_solver|]. split; [done|].
    by rewrite delete_id.
Qed.

Lemma pop_expired_spec ttl now l : forall map,
  StronglySorted (fun a b => a.2 <= b.2) l ->
  exists popped rest, l = popped ++ rest /\
    pop_expired ttl now map l = (popped.*1, map ∖ list_to_set popped.*1, rest) /\
    Forall (fun e => e.2 + ttl <= now) popped /\ Forall (fun e => now < e.2 + ttl) rest.
Proof.
  induction l as [|[k t] l IH]; intros map Hs; simpl.
  - exists [], []. split_and!; try done. simpl. f_equal. f_equal. set_solver.
  - apply StronglySorted_inv in Hs as [Hs Hx]. destruct (now <? t + ttl) eqn:E; bool_to_Prop.
    + exists [], ((k, t) :: l). split_and!; [done| |done|].
      * simpl. f_equal. f_equal. set_solver.
      * constructor; [done|]. eapply Forall_impl; [exact Hx|]. simpl. lia.
    + destruct (IH (map ∖ {[k]}) Hs) as (popped & rest & -> & -> & Hp & Hr).
      exists ((k, t) :: popped), rest. split_and!; [done| |by constructor|done].
      simpl. f_equal. f_equal. set_solver.
Qed.

Lemma remove_expired_spec clock now c m :
  represents clock c m ->
  let r := remove_expired c now in
  list_to_set r.1 = dom m ∖ dom (live (tc_ttl c) now m) /\ NoDup r.1 /\ tc_ttl r.2 = tc_ttl c /\
  represents clock r.2 (live (tc_ttl c) now m).
Proof.
  intros Hr. unfold remove_expired.
  destruct (pop_expired_spec (tc_ttl c) now _ (tc_map c) (rep_sorted _ _ _ Hr))
    as (popped & rest & Hl & -> & Hp & Hre). simpl.
  pose proof (rep_nodup _ _ _ Hr) as Hnd. rewrite Hl, fmap_app in Hnd.
  apply NoDup_app in Hnd as (Hnd1 & Hdisj & Hnd2).
  rewrite Forall_forall in Hp, Hre.
  assert (list_to_map rest = live (tc_ttl c) now m) as Hm.
  { apply map_eq. intros k. apply option_eq. intros t. rewrite <- elem_of_list_to_map by done.
    unfold live. rewrite map_lookup_filter_Some, <- (rep_map _ _ _ Hr).
    rewrite <- elem_of_list_to_map by apply Hr. rewrite Hl. split.
    - intros Hin. split; [set_solver|]. exact (Hre _ Hin).
    - intros [[Hin|Hin]%elem_of_app Hlt]; [|done]. specialize (Hp _ Hin). simpl in Hp, Hlt. lia. }
  assert (dom m ∖ dom (live (tc_ttl c) now m) = list_to_set popped.*1) as Hd.
  { rewrite <- Hm, <- (rep_map _ _ _ Hr), !dom_list_to_map_L, Hl, fmap_app, list_to_set_app_L.
    apply set_eq. intros k. rewrite elem_of_difference, elem_of_union, !elem_of_list_to_set.
    specialize (Hdisj k). naive_solver. }
  split_and!; [done|done|done|]. eapply represents_sublist; [done| |done|].
  - rewrite Hl. apply sublist_inserts_l. done.
  - rewrite (rep_set _ _ _ Hr), <- Hd. apply set_eq. intros k.
    assert (k ∈ dom (live (tc_ttl c) now m) -> k ∈ dom m).
    { rewrite !elem_of_dom. intros [t Ht]. unfold live in Ht.
      apply map_lookup_filter_Some in Ht as [Ht _]. eauto. }
    rewrite !elem_of_difference. destruct (decide (k ∈ dom (live (tc_ttl c) now m))); naive_solver.
Qed.

Lemma cache_step_refines clock now c m op :
  represents clock c m -> clock <= now ->
  exists c', cache_step c now op = Some ((ideal_step (tc_ttl c) m now op).1, c') /\
    tc_ttl c' = tc_ttl c /\ represents now c' (ideal_step (tc_ttl c) m now op).2.
Proof.
  intros Hr Hle.
  assert (forall c' m', represents clock c' m' -> represents now c' m') as Hlater.
  { intros c' m' [? ? ? ? Hp]. constructor; try done. eapply Forall_impl; [exact Hp|]. simpl. lia. }
  pose proof (remove_expired_spec clock now c m Hr) as Hex. simpl in Hex.
  destruct Hex as (Hks & _ & Httl & Hrep).
  destruct op as [key|key| |key|key]; simpl.
  - destruct (raw_insert_spec _ now _ _ key Hr Hle) as (c' & -> & Ht & Hc). simpl. eauto.
  - destruct (raw_remove_spec _ now _ _ key Hr Hle) as (c' & -> & Ht & Hc). simpl. eauto.
  - rewrite Hks. eauto.
  - unfold tc_insert, tc_update.
    destruct (raw_insert_spec _ now _ _ key Hrep Hle) as (c' & -> & Ht & Hc). simpl.
    rewrite Httl in Ht. eauto.
  - unfold tc_contains, tc_update. eexists. split; [|split; [exact Httl|by apply Hlater]]. simpl.
    do 3 f_equal. rewrite (rep_set _ _ _ Hrep). apply bool_decide_ext. rewrite elem_of_dom, <- not_eq_None_Some. done.
Qed.

End time_cache.
Arguments LRUTimeCache K {_ _}.
Arguments CacheOp K : clear implicits.

(** ** Theorem *)

Section time_cache_theorems.
Context {K : Type} `{Countable K}.

(** C36: under a clock that does not go back, no operation of the cache panics, and every answer of
    any run is that of the ideal cache, which maps each key to the time of its last insertion and
    forgets it once the time to live has passed.  The two copies of the keys stay consistent and the
    queue stays sorted by insertion time and free of duplicates, as the check of the source demands. *)
Theorem time_cache_refines ttl clock (ops : list (Instant * CacheOp K)) :
  StronglySorted Z.le (clock :: ops.*1) ->
  exists c, cache_run (TimeCache_new ttl) ops = Some ((ideal_run ttl ∅ ops).1, c) /\
    represents (default clock (last ops.*1)) c (ideal_run ttl ∅ ops).2.
Proof.
  assert (forall (ops : list (Instant * CacheOp K)) clock c m, represents clock c m -> StronglySorted Z.le (clock :: ops.*1) ->
    exists c', cache_run c ops = Some ((ideal_run (tc_ttl c) m ops).1, c') /\
      represents (default clock (last ops.*1)) c' (ideal_run (tc_ttl c) m ops).2) as Hgen.
  { clear. intros ops'. induction ops' as [|[now op] ops IH]; intros clock c m Hr Hs; simpl; [by eauto|].
    apply StronglySorted_inv in Hs as [Hs Hx]. apply Forall_inv in Hx as Hle. simpl in Hle.
    destruct (cache_step_refines _ now _ _ op Hr Hle) as (c1 & -> & Ht & Hr1). simpl.
    destruct (IH _ _ _ Hr1 Hs) as (c2 & -> & Hr2). rewrite Ht in *. simpl. eexists. split; [done|].
    rewrite last_cons. by destruct (last _). }
  intros Hs. apply (Hgen ops clock (TimeCache_new ttl) ∅); [|done].
  constructor; simpl; [done|constructor|by rewrite dom_empty_L|constructor|constructor].
Qed.

End time_cache_theorems.

Module TimeCacheExamples.

(** Reinsertion at 20 keeps key 1 past the expiry of key 2. *)
Definition ops : list (Instant * CacheOp Z) :=
  [(0, Insert 1); (0, Insert 2); (20, Insert 1); (105, Contains 1); (105, Contains 2);
   (105, RawInsert 3); (110, RawRemove 7); (130, RemoveExpired)].

Lemma time_cache_refines_witness :
  exists c, cache_run (TimeCache_new 100) ops =
      Some ([AnswerBool true; AnswerBool true; AnswerBool false; AnswerBool true; AnswerBool false;
             AnswerBool true; AnswerBool false; AnswerKeys {[1]}], c) /\
    represents 130 c {[3 := 105]}.
Proof.
  destruct (time_cache_refines 100 0 ops) as (c & Hc & Hr).
  - repeat constructor; vm_compute; discriminate.
  - exists c. split; [|exact Hr]. rewrite Hc. do 2 f_equal.
Defined.

End TimeCacheExamples.
