(* ===== verification/Pruning.v ===== *)
(** * The pruning of excess peers ([peer_manager/mod.rs])

    Which peers a node disconnects when it has more than its target: first those with a negative score,
    then those on no long-lived subnet, then peers of the data column subnets with the most peers, with
    exceptions for peers that are needed.  Hash maps are iterated in an unspecified order and one list is
    shuffled; the order and the shuffle are arguments. *)

From S2P Require Import Prelude Chain Protocol Messages Text Float64 Score PeerInfo PeerDB.

Definition MIN_SYNC_COMMITTEE_PEERS : Z := 2.
Definition MIN_SAMPLING_COLUMN_SUBNET_PEERS : Z := 2.

(** ** Binary32 thresholds *)

Abbreviation f32 := spec_float.
Definition f32_add : f32 -> f32 -> f32 := SFadd 24 128.
Definition f32_mul : f32 -> f32 -> f32 := SFmul 24 128.
Definition f32_div : f32 -> f32 -> f32 := SFdiv 24 128.
Definition f32_of_usize (n : Z) : f32 := binary_normalize 24 128 n 0 false.

(** The binary32 numbers nearest to 0.1, 0.3, 0.2 and 0.2. *)
Definition PEER_EXCESS_FACTOR : f32 := S754_finite false 13421773 (-27).
Definition TARGET_OUTBOUND_ONLY_FACTOR : f32 := S754_finite false 10066330 (-25).
Definition MIN_OUTBOUND_ONLY_FACTOR : f32 := S754_finite false 13421773 (-26).
Definition PRIORITY_PEER_EXCESS : f32 := S754_finite false 13421773 (-26).

Definition max_peers (target_peers : Z) : Z :=
  f32_ceil_as_usize (f32_mul (f32_of_usize target_peers) (f32_add (f32_of_usize 1) PEER_EXCESS_FACTOR)).

Definition max_priority_peers (target_peers : Z) : Z :=
  f32_ceil_as_usize (f32_mul (f32_of_usize target_peers)
    (f32_add (f32_add (f32_of_usize 1) PEER_EXCESS_FACTOR) PRIORITY_PEER_EXCESS)).

Definition min_outbound_only_peers (target_peers : Z) : Z :=
  f32_ceil_as_usize (f32_mul (f32_of_usize target_peers) MIN_OUTBOUND_ONLY_FACTOR).

Definition target_outbound_peers (target_peers : Z) : Z :=
  f32_ceil_as_usize (f32_mul (f32_of_usize target_peers) TARGET_OUTBOUND_ONLY_FACTOR).

Definition max_outbound_dialing_peers (target_peers : Z) : Z :=
  f32_ceil_as_usize (f32_mul (f32_of_usize target_peers)
    (f32_add (f32_add (f32_of_usize 1) PEER_EXCESS_FACTOR) (f32_div PRIORITY_PEER_EXCESS (f32_of_usize 2)))).

(** [SliceRandom::shuffle] with the generator of the thread; each call has its own number. *)
Class ThreadRng := {
  shuffle : forall {A : Type}, Z -> list A -> list A;
  shuffle_perm : forall {A} n (l : list A), shuffle n l ≡ₚ l;
}.

Section pruning.
Context `{ChainTypes} `{Libp2p} `{HashIter} `{FloatExp} `{UnstableSort} `{ThreadRng}.

Record PeerSubnetInfo := mkPeerSubnetInfo {
  psi_info : PeerInfo;
  psi_attestation_subnets : gset SubnetId;
  psi_sync_committees : gset SubnetId;
  psi_custody_subnets : gset SubnetId;
}.

Abbreviation SubnetInfos := (gmap PeerId PeerSubnetInfo) (only parsing).
Abbreviation Lookup := (gmap SubnetId (list PeerId)) (only parsing).

Definition add_subnet (s : PeerSubnetInfo) (subnet : Subnet) : PeerSubnetInfo :=
  let '(mkPeerSubnetInfo i att sync cust) := s in
  match subnet with
  | Subnet.Attestation id => mkPeerSubnetInfo i ({[id]} ∪ att) sync cust
  | Subnet.SyncCommittee id => mkPeerSubnetInfo i att ({[id]} ∪ sync) cust
  | Subnet.DataColumn id => mkPeerSubnetInfo i att sync ({[id]} ∪ cust)
  end.

Definition subnet_info (i : PeerInfo) : PeerSubnetInfo :=
  fold_left add_subnet (long_lived_subnets i) (mkPeerSubnetInfo i ∅ ∅ ∅).

Definition build_peer_subnet_info (db : PeerDB) (peers_to_prune : gset PeerId) : SubnetInfos :=
  fold_left (fun m '(peer_id, info) =>
    if is_trusted info || bool_decide (peer_id ∈ peers_to_prune) then m
    else <[peer_id := subnet_info info]> m) (connected_peers db) ∅.

Definition push_lookup (peer_id : PeerId) (m : Lookup) (subnet : SubnetId) : Lookup :=
  <[subnet := default [] (m !! subnet) ++ [peer_id]]> m.

Definition build_custody_subnet_lookup (infos : SubnetInfos) : Lookup :=
  fold_left (fun m '(peer_id, peer_info) =>
    fold_left (push_lookup peer_id) (set_iter (psi_custody_subnets peer_info)) m)
    (hash_iter infos) ∅.

(** The number of peers on every attestation subnet. *)
Definition attestation_subnet_counts (infos : SubnetInfos) : gmap SubnetId Z :=
  fold_left (fun acc subnet => <[subnet := usize_wrapping_add (default 0 (acc !! subnet)) 1]> acc)
    (flat_map (fun kv => set_iter (psi_attestation_subnets kv.2)) (hash_iter infos)) ∅.

(** [Iterator::min] of the values. *)
Definition min_value (m : gmap SubnetId Z) : option Z :=
  match (hash_iter m).*2 with
  | [] => None
  | x :: l => Some (fold_left Z.min l x)
  end.

Definition sync_committee_count (infos : SubnetInfos) (committee : SubnetId) : Z :=
  Z.of_nat (length (List.filter (fun kv => bool_decide (committee ∈ psi_sync_committees kv.2))
    (hash_iter infos))).

Definition protect_outbound (target_peers : Z) (candidate_info : PeerSubnetInfo)
  (connected_outbound_peer_count outbound_peers_pruned : Z) : bool :=
  is_outbound_only (psi_info candidate_info) &&
  (saturating_sub connected_outbound_peer_count outbound_peers_pruned <=? target_outbound_peers target_peers).

Definition protect_sampling (candidate_info : PeerSubnetInfo) (sampling_subnets : gset SubnetId)
  (lookup : Lookup) : bool :=
  existsb (fun subnet =>
      Z.of_nat (length (default [] (lookup !! subnet))) <=? MIN_SAMPLING_COLUMN_SUBNET_PEERS)
    (List.filter (fun subnet => bool_decide (subnet ∈ sampling_subnets))
      (set_iter (psi_custody_subnets candidate_info))).

Definition protect_sync (candidate_info : PeerSubnetInfo) (infos : SubnetInfos) : bool :=
  existsb (fun committee => sync_committee_count infos committee <=? MIN_SYNC_COMMITTEE_PEERS)
    (set_iter (psi_sync_committees candidate_info)).

Definition protect_attestation (candidate_info : PeerSubnetInfo) (infos : SubnetInfos) : bool :=
  let counts := attestation_subnet_counts infos in
  match min_value counts with
  | Some least_dense_size =>
      existsb (fun subnet => bool_decide (counts !! subnet = Some least_dense_size))
        (set_iter (psi_attestation_subnets candidate_info))
  | None => false
  end.

Definition should_protect_peer (target_peers : Z) (candidate_info : PeerSubnetInfo)
  (sampling_subnets : gset SubnetId) (lookup : Lookup) (infos : SubnetInfos)
  (connected_outbound_peer_count outbound_peers_pruned : Z) : bool :=
  protect_outbound target_peers candidate_info connected_outbound_peer_count outbound_peers_pruned
  || protect_sampling candidate_info sampling_subnets lookup
  || protect_sync candidate_info infos
  || protect_attestation candidate_info infos.

(** The key of [sort_by_key]: the number of custody subnets, then whether the peer is in sync. *)
Definition prune_key (infos : SubnetInfos) (p : PeerId) : Z * bool :=
  match infos !! p with
  | Some peer_info =>
      (Z.of_nat (size (custody_subnets (psi_info peer_info))), is_synced_or_advanced (psi_info peer_info))
  | None => (0, false)
  end.

Definition prune_cmp (infos : SubnetInfos) (a b : PeerId) : comparison :=
  match Z.compare (prune_key infos a).1 (prune_key infos b).1 with
  | Eq => Bool.compare (prune_key infos a).2 (prune_key infos b).2
  | c => c
  end.

Definition find_prune_candidate (target_peers : Z) (call : Z) (column_subnet : SubnetId)
  (lookup : Lookup) (infos : SubnetInfos) (sampling_subnets : gset SubnetId)
  (connected_outbound_peer_count outbound_peers_pruned : Z) : option PeerId :=
  peers_on_subnet ← lookup !! column_subnet;
  let sorted_peers := sorted_by (prune_cmp infos) (shuffle call peers_on_subnet) in
  List.find (fun candidate_peer =>
    match infos !! candidate_peer with
    | None => false
    | Some candidate_info =>
        negb (should_protect_peer target_peers candidate_info sampling_subnets lookup infos
                connected_outbound_peer_count outbound_peers_pruned)
    end) sorted_peers.

(** The subnet with the most peers, the last of those met; none when all are empty. *)
Definition densest (lookup : Lookup) : option SubnetId :=
  fst <$> max_by (fun a b => Nat.compare (length a.2) (length b.2))
            (List.filter (fun kv => negb (bool_decide (kv.2 = []))) (hash_iter lookup)).

(** What pruning keeps track of: the peers to prune and how many of them are outbound-only. *)
Record PruneState := mkPruneState { to_prune : gset PeerId; outbound_pruned : Z }.

Definition count_pruned (s : PruneState) : Z := Z.of_nat (size (to_prune s)).

(** One pass of [prune_peers!] over the remaining peers. *)
Fixpoint prune_pass (target_peers excess connected_outbound : Z) (s : PruneState)
  (l : list (PeerId * PeerInfo)) : PruneState :=
  match l with
  | [] => s
  | (peer_id, info) :: l =>
      if excess <=? count_pruned s then s
      else if bool_decide (peer_id ∈ to_prune s) then prune_pass target_peers excess connected_outbound s l
      else if is_outbound_only info then
        if usize_wrapping_add (target_outbound_peers target_peers) (outbound_pruned s)
             <? connected_outbound
        then prune_pass target_peers excess connected_outbound
               (mkPruneState ({[peer_id]} ∪ to_prune s) (usize_wrapping_add (outbound_pruned s) 1)) l
        else prune_pass target_peers excess connected_outbound s l
      else prune_pass target_peers excess connected_outbound
             (mkPruneState ({[peer_id]} ∪ to_prune s) (outbound_pruned s)) l
  end.

Definition prune_peers (db : PeerDB) (now : Instant) (target_peers excess connected_outbound : Z)
  (test : PeerInfo -> bool) (s : PruneState) : PruneState :=
  prune_pass target_peers excess connected_outbound s
    (List.filter (fun kv => negb (has_future_duty kv.2 now) && negb (is_trusted kv.2) && test kv.2)
      (worst_connected_peers db)).

Definition is_penalized (i : PeerInfo) : bool := f64_lt (score (pi_score i)) (f64_of_Z 0).

(** The peer is dropped from every list and from the map. *)
Definition drop_candidate (p : PeerId) (lookup : Lookup) : Lookup :=
  List.filter (fun q => negb (bool_decide (q = p))) <$> lookup.

(** The loop over the densest subnets; [None] when the fuel does not suffice. *)
Fixpoint prune_grouped (fuel : nat) (target_peers excess connected_outbound : Z)
  (sampling_subnets : gset SubnetId) (s : PruneState) (infos : SubnetInfos) (lookup : Lookup)
  : option PruneState :=
  if count_pruned s <? excess then
    match fuel with
    | O => None
    | S fuel =>
        match densest lookup with
        | None => Some s
        | Some subnet =>
            match find_prune_candidate target_peers (Z.of_nat fuel) subnet lookup infos sampling_subnets
                    connected_outbound (outbound_pruned s) with
            | Some candidate_peer =>
                let outbound :=
                  match infos !! candidate_peer with
                  | Some candidate_info =>
                      if is_outbound_only (psi_info candidate_info)
                      then usize_wrapping_add (outbound_pruned s) 1 else outbound_pruned s
                  | None => outbound_pruned s
                  end in
                prune_grouped fuel target_peers excess connected_outbound sampling_subnets
                  (mkPruneState ({[candidate_peer]} ∪ to_prune s) outbound)
                  (delete candidate_peer infos) (drop_candidate candidate_peer lookup)
            | None =>
                prune_grouped fuel target_peers excess connected_outbound sampling_subnets s infos
                  (match lookup !! subnet with Some _ => <[subnet := []]> lookup | None => lookup end)
            end
        end
    end
  else Some s.

(** The entries of the lookup: every iteration of the loop removes at least one. *)
Definition lookup_entries (lookup : Lookup) : Z := map_sum (fun kv => Z.of_nat (length kv.2)) lookup.

(** The peers [prune_excess_peers] disconnects. *)
Definition excess_peers (db : PeerDB) (now : Instant) (target_peers : Z) (sampling_subnets : gset SubnetId)
  : option (gset PeerId) :=
  let connected_peer_count := Z.of_nat (length (connected_peers db)) in
  if connected_peer_count <=? target_peers then Some ∅
  else
    let excess := saturating_sub connected_peer_count target_peers in
    let connected_outbound := Z.of_nat (length (connected_outbound_only_peers db)) in
    let s := prune_peers db now target_peers excess connected_outbound is_penalized (mkPruneState ∅ 0) in
    let s := if count_pruned s <? excess
             then prune_peers db now target_peers excess connected_outbound
                    (fun i => negb (has_long_lived_subnet i)) s
             else s in
    if count_pruned s <? excess then
      let infos := build_peer_subnet_info db (to_prune s) in
      let lookup := build_custody_subnet_lookup infos in
      to_prune <$> prune_grouped (S (Z.to_nat (lookup_entries lookup))) target_peers excess
                     connected_outbound sampling_subnets s infos lookup
    else Some (to_prune s).

End pruning.

(** ** Lemmas: the loop over the densest subnets ends *)

Section pruning_lemmas.
Context `{ChainTypes} `{Libp2p} `{HashIter} `{FloatExp} `{UnstableSort} `{ThreadRng}.
Implicit Types (lookup : gmap SubnetId (list PeerId)) (infos : gmap PeerId PeerSubnetInfo).

Lemma max_by_elem {A} (cmp : A -> A -> comparison) l x : max_by cmp l = Some x -> x ∈ l.
Proof.
  unfold max_by. assert (forall best, fold_left (fun best x => match best with
    | Some b => match cmp b x with Gt => Some b | _ => Some x end | None => Some x end) l best = Some x ->
    x ∈ l \/ best = Some x) as Hgen.
  { induction l as [|y l IH]; intros best Hx; simpl in Hx; [by right|].
    destruct (IH _ Hx) as [Hin|Hb]; [by left; set_solver|].
    destruct best as [b|]; [destruct (cmp b y)|]; simplify_eq; (by left; set_solver) || by right. }
  intros Hx. by destruct (Hgen _ Hx).
Qed.

Lemma densest_elem lookup subnet :
  densest lookup = Some subnet -> exists l, lookup !! subnet = Some l /\ l <> [].
Proof.
  unfold densest. destruct (max_by _ _) as [[s l]|] eqn:Hm; [|done]. intros [= ->].
  apply max_by_elem in Hm as Hin.
  apply list_elem_of_In, filter_In in Hin as [Hin Hne%negb_true_iff%bool_decide_eq_false].
  apply list_elem_of_In, elem_of_hash_iter in Hin. eauto.
Qed.

Lemma find_prune_candidate_spec target call subnet lookup infos sampling out pruned p :
  find_prune_candidate target call subnet lookup infos sampling out pruned = Some p ->
  exists l info, lookup !! subnet = Some l /\ p ∈ l /\ infos !! p = Some info /\
    should_protect_peer target info sampling lookup infos out pruned = false.
Proof.
  unfold find_prune_candidate. destruct (lookup !! subnet) as [l|] eqn:Hl; [|done]. simpl.
  intros [Hin Hp]%List.find_some. destruct (infos !! p) as [info|] eqn:Hi; [|done].
  apply list_elem_of_In in Hin. rewrite sorted_by_perm, shuffle_perm in Hin.
  apply negb_true_iff in Hp. eauto 10.
Qed.

Lemma drop_candidate_entries p lookup subnet l :
  lookup !! subnet = Some l -> p ∈ l -> lookup_entries (drop_candidate p lookup) < lookup_entries lookup.
Proof.
  intros Hl Hp. unfold lookup_entries, drop_candidate.
  set (g := List.filter (fun q => negb (bool_decide (q = p)))).
  set (f := fun kv : SubnetId * list PeerId => Z.of_nat (length kv.2)).
  assert (forall k v, f (k, g v) <= f (k, v)) as Hle.
  { intros k v. unfold f, g. simpl. pose proof (List.filter_length_le (fun q => negb (bool_decide (q = p))) v). lia. }
  pose proof (map_sum_fmap_le f g (delete subnet lookup) Hle) as Hd. rewrite fmap_delete in Hd.
  rewrite (map_sum_delete f lookup subnet l Hl) in Hd.
  rewrite (map_sum_delete f (g <$> lookup) subnet (g l)) in Hd by by rewrite lookup_fmap, Hl.
  enough (f (subnet, g l) < f (subnet, l)) by lia. unfold f, g. simpl.
  assert (length (List.filter (fun q => negb (bool_decide (q = p))) l) < length l)%nat; [|lia].
  clear -Hp. induction l as [|x l IH]; [set_solver|]. simpl.
  destruct (decide (x = p)) as [->|Hne].
  - rewrite bool_decide_true by done. simpl.
    pose proof (List.filter_length_le (fun q => negb (bool_decide (q = p))) l). lia.
  - rewrite bool_decide_false by done. simpl. apply elem_of_cons in Hp as [->|Hp]; [done|].
    specialize (IH Hp). lia.
Qed.

Lemma clear_entries lookup subnet l :
  lookup !! subnet = Some l -> l <> [] ->
  lookup_entries (<[subnet := []]> lookup) < lookup_entries lookup.
Proof.
  intros Hl Hne. unfold lookup_entries. rewrite (map_sum_replace _ _ _ l) by done. simpl.
  destruct l; [done|]. simpl. lia.
Qed.

Lemma prune_grouped_total fuel : forall target excess out sampling s infos lookup,
  lookup_entries lookup < Z.of_nat fuel ->
  exists s', prune_grouped fuel target excess out sampling s infos lookup = Some s'.
Proof.
  induction fuel as [|fuel IH]; intros target excess out sampling s infos lookup Hf.
  - exfalso. unfold lookup_entries in Hf.
    assert (0 <= map_sum (fun kv => Z.of_nat (length kv.2)) lookup) by (apply map_sum_nonneg; simpl; lia).
    lia.
  - simpl. destruct (_ <? _); [|by eauto]. destruct (densest lookup) as [subnet|] eqn:Hd; [|by eauto].
    destruct (densest_elem _ _ Hd) as (l & Hl & Hne).
    destruct (find_prune_candidate _ _ _ _ _ _ _ _) as [p|] eqn:Hc.
    + apply find_prune_candidate_spec in Hc as (l' & info & Hl' & Hp & _). apply IH.
      pose proof (drop_candidate_entries p lookup subnet l' Hl' Hp). lia.
    + rewrite Hl. apply IH. pose proof (clear_entries lookup subnet l Hl Hne). lia.
Qed.

(** ** Lemmas: what pruning never does *)

Section prune_safety.
Context (db : PeerDB) (target_peers excess : Z).

(** A peer that may be pruned at all. *)
Definition prunable (p : PeerId) (i : PeerInfo) : Prop :=
  peers db !! p = Some i /\ is_connected i = true /\ is_trusted i = false.

Definition outbound (p : PeerId) : Prop := exists i, peers db !! p = Some i /\ is_outbound_only i = true.

#[local] Instance outbound_dec p : Decision (outbound p).
Proof.
  unfold outbound. destruct (peers db !! p) as [i|] eqn:Hi.
  - destruct (is_outbound_only i) eqn:Ho; [left; eauto|]. right. intros (j & [= <-] & Hj). congruence.
  - right. by intros (j & [=] & _).
Defined.

Definition n_outbound (X : gset PeerId) : Z := Z.of_nat (size (filter outbound X)).

Abbreviation connected_outbound := (Z.of_nat (length (connected_outbound_only_peers db))).

Record prune_inv (s : PruneState) : Prop := {
  inv_prunable : forall p, p ∈ to_prune s -> exists i, prunable p i;
  inv_excess : count_pruned s <= Z.max 0 excess;
  inv_outbound : outbound_pruned s = n_outbound (to_prune s);
  inv_target : target_outbound_peers target_peers + outbound_pruned s <=
    Z.max (target_outbound_peers target_peers) connected_outbound;
}.

(** No counter comes near the end of its range. *)
Hypothesis small : target_outbound_peers target_peers + connected_outbound < USIZE_MAX.
Hypothesis target_nonneg : 0 <= target_outbound_peers target_peers.

Lemma n_outbound_insert p (X : gset PeerId) :
  p ∉ X -> n_outbound ({[p]} ∪ X) = n_outbound X + indicator (outbound p).
Proof.
  intros Hp. unfold n_outbound, indicator. rewrite filter_union_L, size_union.
  2: { intros q [_ ->%elem_of_singleton]%elem_of_filter [_ Hq]%elem_of_filter. done. }
  rewrite filter_singleton_L. destruct (decide (outbound p)).
  - rewrite size_singleton. lia.
  - rewrite size_empty. lia.
  - apply _.
  - apply _.
Qed.

Lemma prune_inv_add s p i :
  prune_inv s -> count_pruned s < excess -> prunable p i -> p ∉ to_prune s ->
  (is_outbound_only i = true ->
     target_outbound_peers target_peers + outbound_pruned s < connected_outbound) ->
  prune_inv (mkPruneState ({[p]} ∪ to_prune s)
    (if is_outbound_only i then usize_wrapping_add (outbound_pruned s) 1 else outbound_pruned s)).
Proof.
  intros [Hpr Hex Hout Htgt] Hlt Hp Hni Ho.
  assert (indicator (outbound p) = Z.b2z (is_outbound_only i)) as Hind.
  { unfold indicator, outbound. destruct Hp as (Hp & _). case_decide as Hd.
    - destruct Hd as (j & Hj & Hjo). assert (i = j) as -> by congruence. by rewrite Hjo.
    - destruct (is_outbound_only i) eqn:E; [|done]. exfalso. eauto. }
  assert (0 <= outbound_pruned s) by (rewrite Hout; unfold n_outbound; lia).
  constructor; simpl.
  - intros q [->%elem_of_singleton|Hq]%elem_of_union; eauto.
  - unfold count_pruned in *. simpl. rewrite size_union, size_singleton by set_solver. lia.
  - rewrite n_outbound_insert, Hind, <- Hout by done.
    destruct (is_outbound_only i); simpl; [|lia]. specialize (Ho eq_refl).
    unfold usize_wrapping_add. rewrite as_u64_small; [lia|]. unfold in_u64, USIZE_MAX in *. lia.
  - destruct (is_outbound_only i); [|done]. specialize (Ho eq_refl).
    unfold usize_wrapping_add. rewrite as_u64_small; [lia|]. unfold in_u64, USIZE_MAX in *. lia.
Qed.

Lemma prune_pass_inv l : forall s,
  Forall (fun kv => prunable kv.1 kv.2) l -> prune_inv s ->
  prune_inv (prune_pass target_peers excess connected_outbound s l).
Proof.
  induction l as [|[p i] l IH]; intros s Hl Hs; simpl; [done|].
  apply Forall_cons in Hl as [Hp Hl]. simpl in Hp.
  destruct (excess <=? count_pruned s) eqn:He; [done|]. bool_to_Prop.
  case_bool_decide as Hin; [by apply IH|].
  pose proof (prune_inv_add s p i Hs He Hp Hin) as Hadd.
  destruct (is_outbound_only i) eqn:Ho.
  - destruct (_ <? _) eqn:Hlt; [|by apply IH]. bool_to_Prop. apply IH; [done|]. apply Hadd. intros _.
    pose proof (inv_target _ Hs). assert (0 <= outbound_pruned s)
      by (rewrite (inv_outbound _ Hs); unfold n_outbound; lia).
    unfold usize_wrapping_add in Hlt. rewrite as_u64_small in Hlt; [lia|]. unfold in_u64, USIZE_MAX in *. lia.
  - apply IH; [done|]. by apply Hadd.
Qed.

Lemma prune_peers_inv now test s :
  prune_inv s -> prune_inv (prune_peers db now target_peers excess connected_outbound test s).
Proof.
  intros Hs. unfold prune_peers. apply prune_pass_inv; [|done].
  apply Forall_forall. intros [p i] Hin. apply list_elem_of_In, filter_In in Hin as [Hin Ht].
  apply list_elem_of_In in Hin. unfold worst_connected_peers, peers_where in Hin.
  rewrite sorted_by_perm in Hin. apply list_elem_of_In, filter_In in Hin as [Hin Hc].
  apply list_elem_of_In, elem_of_hash_iter in Hin. bool_to_Prop. done.
Qed.

(** The peers considered by the last stage. *)
Definition infos_ok (s : PruneState) infos : Prop :=
  forall p si, infos !! p = Some si -> (p ∉ to_prune s) /\ prunable p (psi_info si).

Lemma prune_grouped_inv fuel : forall sampling s infos lookup s',
  prune_inv s -> infos_ok s infos ->
  prune_grouped fuel target_peers excess connected_outbound sampling s infos lookup = Some s' ->
  prune_inv s'.
Proof.
  induction fuel as [|fuel IH]; intros sampling s infos lookup s' Hs Hi; simpl.
  { destruct (_ <? _); [done|]. by intros [= <-]. }
  destruct (count_pruned s <? excess) eqn:He; [|by intros [= <-]]. bool_to_Prop.
  destruct (densest lookup) as [subnet|]; [|by intros [= <-]].
  destruct (find_prune_candidate _ _ _ _ _ _ _ _) as [p|] eqn:Hc; [|by apply IH].
  apply find_prune_candidate_spec in Hc as (l & info & _ & _ & Hp & Hprot). rewrite Hp.
  destruct (Hi p info Hp) as [Hni Hpr].
  apply IH; [apply prune_inv_add; try done|].
  - intros Ho. unfold should_protect_peer, protect_outbound in Hprot. bool_to_Prop.
    rewrite Ho in *. simpl in *. bool_to_Prop. unfold saturating_sub in *. lia.
  - intros q si [Hne Hq]%lookup_delete_Some. destruct (Hi q si Hq) as [Hqn Hqp]. set_solver.
Qed.

End prune_safety.

Lemma subnet_info_info i : psi_info (subnet_info i) = i.
Proof.
  unfold subnet_info. assert (forall l si, psi_info (fold_left add_subnet l si) = psi_info si) as Hf;
    [|by rewrite Hf].
  induction l as [|x l IH]; intros si; simpl; [done|]. rewrite IH. by destruct si, x.
Qed.

Lemma build_peer_subnet_info_spec db X p si :
  build_peer_subnet_info db X !! p = Some si ->
  exists i, prunable db p i /\ (p ∉ X) /\ si = subnet_info i.
Proof.
  unfold build_peer_subnet_info.
  assert (forall l (m : gmap PeerId PeerSubnetInfo), Forall (fun kv => peers db !! kv.1 = Some kv.2 /\ is_connected kv.2 = true) l ->
    (forall p si, m !! p = Some si -> exists i, prunable db p i /\ (p ∉ X) /\ si = subnet_info i) ->
    forall p si, fold_left (fun m '(peer_id, info) =>
      if is_trusted info || bool_decide (peer_id ∈ X) then m
      else <[peer_id := subnet_info info]> m) l m !! p = Some si ->
    exists i, prunable db p i /\ (p ∉ X) /\ si = subnet_info i) as Hgen.
  { induction l as [|[q i] l IH]; intros m Hl Hm p' si'; simpl; [by apply Hm|].
    apply Forall_cons in Hl as [[Hq Hc] Hl]. simpl in Hq, Hc. apply IH; [done|].
    destruct (is_trusted i || bool_decide (q ∈ X)) eqn:Ht; [done|]. bool_to_Prop.
    intros p1 si1 [[<- <-]|[Hne Hp1]]%lookup_insert_Some; [|by eauto].
    exists i. split_and!; [done| |done]. by eapply bool_decide_eq_false. }
  apply Hgen; [|intros ?? [=]].
  apply Forall_forall. intros [q i] Hin. unfold connected_peers, peers_where in Hin.
  apply list_elem_of_In, filter_In in Hin as [Hin Hc].
  apply list_elem_of_In, elem_of_hash_iter in Hin. done.
Qed.

Lemma build_infos_ok db s : infos_ok db s (build_peer_subnet_info db (to_prune s)).
Proof.
  intros p si (i & Hp & Hn & ->)%build_peer_subnet_info_spec. rewrite subnet_info_info. done.
Qed.

Lemma f32_ceil_nonneg x : 0 <= f32_ceil_as_usize x.
Proof.
  unfold f32_ceil_as_usize. destruct x as [?|[|]| |[|] m e]; try done.
  destruct (0 <=? e) eqn:He; bool_to_Prop; [unfold USIZE_MAX, U64_MAX; nia|].
  apply Z.div_pos; lia.
Qed.

(** ** Lemmas: peers that are needed *)

(** The number of peers on a subnet of the given kind. *)
Definition members (on : PeerSubnetInfo -> gset SubnetId) infos (s : SubnetId) : Z :=
  map_count (fun kv => s ∈ on kv.2) infos.

(** Those that are left. *)
Definition members_left (on : PeerSubnetInfo -> gset SubnetId) infos (X : gset PeerId) (s : SubnetId) : Z :=
  map_count (fun kv => s ∈ on kv.2 /\ kv.1 ∉ X) infos.

Definition lookup_ok infos lookup : Prop :=
  forall s l, lookup !! s = Some l ->
    NoDup l /\ forall p, p ∈ l -> exists si, infos !! p = Some si /\ s ∈ psi_custody_subnets si.

Lemma lookup_ok_members infos lookup s l :
  lookup_ok infos lookup -> lookup !! s = Some l ->
  Z.of_nat (length l) <= members psi_custody_subnets infos s.
Proof.
  intros Hok Hl. destruct (Hok _ _ Hl) as [Hnd Hin]. unfold members, map_count.
  rewrite <- (size_dom (filter _ infos)). rewrite <- (size_list_to_set (C := gset PeerId) l) by done.
  apply inj_le, subseteq_size. intros p Hp%elem_of_list_to_set.
  destruct (Hin p Hp) as (si & Hsi & Hs). apply elem_of_dom. exists si.
  by apply map_lookup_filter_Some.
Qed.

Lemma sync_committee_count_members infos c :
  sync_committee_count infos c = members psi_sync_committees infos c.
Proof.
  unfold sync_committee_count, members, map_count.
  assert (forall l : list (PeerId * PeerSubnetInfo),
    length (List.filter (fun kv => bool_decide (c ∈ psi_sync_committees kv.2)) l) =
    length (filter (fun kv => c ∈ psi_sync_committees kv.2) l)) as Hf.
  { induction l as [|[k v] l IH]; simpl; [done|].
    case_bool_decide; [rewrite filter_cons_True by done|rewrite filter_cons_False by done]; simpl; lia. }
  rewrite Hf, (Permutation_length (filter_Permutation _ _ _ (hash_iter_perm infos))).
  rewrite <- length_map_to_list, map_filter_alt, map_to_list_to_map; [done|].
  eapply sublist_NoDup; [exact (NoDup_fst_map_to_list infos)|].
  apply fmap_sublist, sublist_filter.
Qed.

Lemma push_lookup_all p subs : forall (m : gmap SubnetId (list PeerId)) s,
  NoDup subs ->
  fold_left (push_lookup p) subs m !! s =
    if decide (s ∈ subs) then Some (default [] (m !! s) ++ [p]) else m !! s.
Proof.
  induction subs as [|x subs IH]; intros m s Hnd; simpl; [done|].
  inversion Hnd as [|?? Hx Hnd']; subst. rewrite IH by done. unfold push_lookup.
  destruct (decide (s = x)) as [->|Hne].
  - rewrite decide_False by done. rewrite lookup_insert_eq, decide_True by set_solver. done.
  - rewrite lookup_insert_ne by done. destruct (decide (s ∈ subs)).
    + by rewrite decide_True by set_solver.
    + by rewrite decide_False by set_solver.
Qed.

Lemma build_lookup_ok infos : lookup_ok infos (build_custody_subnet_lookup infos).
Proof.
  unfold build_custody_subnet_lookup.
  assert (forall l (m : gmap SubnetId (list PeerId)),
    Forall (fun kv => infos !! kv.1 = Some kv.2) l -> NoDup l.*1 ->
    lookup_ok infos m -> (forall s k, m !! s = Some k -> forall p, p ∈ k -> p ∉ l.*1) ->
    lookup_ok infos (fold_left (fun m '(peer_id, peer_info) =>
      fold_left (push_lookup peer_id) (set_iter (psi_custody_subnets peer_info)) m) l m)) as Hgen.
  { induction l as [|[p si] l IH]; intros m Hl Hnd Hm Hfresh; simpl; [done|].
    apply Forall_cons in Hl as [Hp Hl]. simpl in Hp. inversion Hnd as [|?? Hpl Hnd']; subst.
    assert (forall s k, fold_left (push_lookup p) (set_iter (psi_custody_subnets si)) m !! s = Some k ->
      (m !! s = Some k /\ s ∉ psi_custody_subnets si) \/
      (k = default [] (m !! s) ++ [p] /\ s ∈ psi_custody_subnets si)) as Hcase.
    { intros s k. rewrite push_lookup_all by apply NoDup_set_iter.
      case_decide as Hs; rewrite elem_of_set_iter in Hs; [|by eauto]. intros [= <-]. eauto. }
    assert (forall s q, q ∈ default [] (m !! s) -> (q ∉ p :: l.*1) /\
      exists si, infos !! q = Some si /\ s ∈ psi_custody_subnets si) as Hold.
    { intros s q Hq. destruct (m !! s) as [k|] eqn:Hk; [|set_solver]. simpl in Hq.
      split; [by eapply (Hfresh s k)|]. by apply (Hm s k). }
    apply IH; [done|done| |].
    - intros s k [[Hk _]|[-> Hs]]%Hcase; [by apply Hm|]. split.
      + apply NoDup_app. split_and!; [|set_solver|apply NoDup_singleton].
        destruct (m !! s) eqn:Hk; [by apply (Hm s l0)|constructor].
      + intros q [Hq| ->%list_elem_of_singleton]%elem_of_app; [by apply Hold|]. eauto.
    - intros s k [[Hk _]|[-> Hs]]%Hcase q.
      + intros Hq. pose proof (Hfresh s k Hk q Hq). set_solver.
      + intros [Hq| ->%list_elem_of_singleton]%elem_of_app; [|done].
        destruct (Hold s q Hq). set_solver. }
  apply Hgen; [| |intros ?? [=]|intros ?? [=]].
  - apply Forall_forall. intros [p si] Hin. by apply elem_of_hash_iter in Hin.
  - apply NoDup_fst_hash_iter.
Qed.

Lemma lookup_ok_drop infos lookup p :
  lookup_ok infos lookup -> lookup_ok (delete p infos) (drop_candidate p lookup).
Proof.
  intros Hok s l. unfold drop_candidate. rewrite lookup_fmap.
  destruct (lookup !! s) as [k|] eqn:Hk; [|done]. intros [= <-]. destruct (Hok _ _ Hk) as [Hnd Hin]. split.
  - apply NoDup_ListNoDup, List.NoDup_filter, NoDup_ListNoDup, Hnd.
  - intros q Hq. apply list_elem_of_In, filter_In in Hq as [Hq Hne]. apply list_elem_of_In in Hq.
    apply negb_true_iff, bool_decide_eq_false in Hne. destruct (Hin q Hq) as (si & Hsi & Hs).
    exists si. by rewrite lookup_delete_ne by congruence.
Qed.

Lemma lookup_ok_clear infos lookup s : lookup_ok infos lookup -> lookup_ok infos (<[s := []]> lookup).
Proof.
  intros Hok s' l [[<- <-]|[Hne Hl]]%lookup_insert_Some; [|by apply Hok].
  split; [constructor|set_solver].
Qed.

Lemma members_left_all on infos (X : gset PeerId) s :
  (forall p si, infos !! p = Some si -> p ∉ X) -> members_left on infos X s = members on infos s.
Proof.
  intros Hf. unfold members_left, members, map_count. do 2 f_equal. apply map_filter_ext.
  intros p si Hp. simpl. split; [by intros [??]|]. intros ?. split; [done|by eapply Hf].
Qed.

(** Removing a peer keeps at least two on every subnet where there were more than two. *)
Lemma members_step on infos (X : gset PeerId) s p si :
  infos !! p = Some si -> (s ∈ on si -> 2 < members on infos s) ->
  Z.min 2 (members on (delete p infos) s) <= members_left on (delete p infos) X s ->
  Z.min 2 (members on infos s) <= members_left on infos X s.
Proof.
  intros Hp Hs Hd. unfold members, members_left in *.
  pose proof (map_count_delete_le (fun kv => s ∈ on kv.2 /\ kv.1 ∉ X) infos p) as Hle.
  rewrite (map_count_delete _ _ _ _ Hp) in Hd. unfold indicator in Hd. simpl in Hd.
  case_decide as Hsi; [|lia]. specialize (Hs Hsi). lia.
Qed.

Lemma prune_grouped_members fuel : forall target excess out sampling s infos lookup s',
  prune_grouped fuel target excess out sampling s infos lookup = Some s' ->
  (forall p si, infos !! p = Some si -> p ∉ to_prune s) -> lookup_ok infos lookup -> forall subnet,
  (subnet ∈ sampling -> Z.min 2 (members psi_custody_subnets infos subnet) <=
    members_left psi_custody_subnets infos (to_prune s') subnet) /\
  Z.min 2 (members psi_sync_committees infos subnet) <=
    members_left psi_sync_committees infos (to_prune s') subnet.
Proof.
  induction fuel as [|fuel IH]; intros target excess out sampling s infos lookup s' Hr Hf Hok subnet;
    simpl in Hr.
  { destruct (_ <? _); [done|]. injection Hr as <-. rewrite !members_left_all by done. lia. }
  destruct (count_pruned s <? excess);
    [|injection Hr as <-; rewrite !members_left_all by done; lia].
  destruct (densest lookup) as [dense|];
    [|injection Hr as <-; rewrite !members_left_all by done; lia].
  destruct (find_prune_candidate _ _ _ _ _ _ _ _) as [p|] eqn:Hc.
  - apply find_prune_candidate_spec in Hc as (l & info & _ & _ & Hp & Hprot). rewrite Hp in Hr.
    unfold should_protect_peer in Hprot. bool_to_Prop.
    destruct (IH _ _ _ _ _ _ _ _ Hr) with (subnet := subnet) as [IHc IHs].
    { intros q si [Hne Hq]%lookup_delete_Some. specialize (Hf q si Hq). simpl. set_solver. }
    { by apply lookup_ok_drop. }
    split; [intros Hsam; specialize (IHc Hsam)|]; eapply members_step; try done.
    + intros Hin. assert (protect_sampling info sampling lookup = false) as Hps by done.
      unfold protect_sampling in Hps. apply not_true_iff_false in Hps.
      destruct (Z.of_nat (length (default [] (lookup !! subnet))) <=? 2) eqn:Hlen.
      * exfalso. apply Hps. apply existsb_exists. exists subnet. split; [|done].
        apply filter_In. split; [by apply list_elem_of_In, elem_of_set_iter|].
        by apply bool_decide_eq_true.
      * bool_to_Prop. destruct (lookup !! subnet) as [k|] eqn:Hk; [|simpl in Hlen; lia].
        pose proof (lookup_ok_members _ _ _ _ Hok Hk). simpl in Hlen. lia.
    + intros Hin. assert (protect_sync info infos = false) as Hps by done.
      unfold protect_sync in Hps. apply not_true_iff_false in Hps.
      destruct (sync_committee_count infos subnet <=? 2) eqn:Hlen.
      * exfalso. apply Hps. apply existsb_exists. exists subnet. split; [|done].
        by apply list_elem_of_In, elem_of_set_iter.
      * bool_to_Prop. rewrite sync_committee_count_members in Hlen. lia.
  - apply (IH _ _ _ _ _ _ _ _ Hr Hf). case_match; [by apply lookup_ok_clear|done].
Qed.

(** ** Lemmas: pruning only concerns known peers *)

Lemma prune_pass_known (P : PeerId -> Prop) target excess out l : forall s,
  Forall (fun kv : PeerId * PeerInfo => P kv.1) l -> (forall p, p ∈ to_prune s -> P p) ->
  forall p, p ∈ to_prune (prune_pass target excess out s l) -> P p.
Proof.
  induction l as [|[q i] l IH]; intros s Hl Hs p; cbn [prune_pass]; [by apply Hs|].
  apply Forall_cons in Hl as [Hq Hl]. simpl in Hq.
  assert (forall n p, p ∈ to_prune (mkPruneState ({[q]} ∪ to_prune s) n) -> P p) as Hadd.
  { intros n p'. simpl. intros [->%elem_of_singleton|?]%elem_of_union; auto. }
  repeat case_match; try (by apply Hs); eapply IH; eauto.
Qed.

Lemma prune_grouped_known (P : PeerId -> Prop) fuel : forall target excess out sampling s infos lookup s',
  prune_grouped fuel target excess out sampling s infos lookup = Some s' ->
  (forall p, is_Some (infos !! p) -> P p) -> (forall p, p ∈ to_prune s -> P p) ->
  forall p, p ∈ to_prune s' -> P p.
Proof.
  induction fuel as [|fuel IH]; intros target excess out sampling s infos lookup s' Hr Hi Hs p; simpl in Hr.
  { destruct (_ <? _); simplify_eq. by apply Hs. }
  destruct (count_pruned s <? excess); [|simplify_eq; by apply Hs].
  destruct (densest lookup) as [dense|]; [|simplify_eq; by apply Hs].
  destruct (find_prune_candidate _ _ _ _ _ _ _ _) as [q|] eqn:Hc; [|by eapply IH].
  apply find_prune_candidate_spec in Hc as (l & info & _ & _ & Hq & _).
  eapply IH; [exact Hr| |].
  - intros p' [si [_ Hp']%lookup_delete_Some]. eauto.
  - intros p'. simpl. intros [->%elem_of_singleton|?]%elem_of_union; eauto.
Qed.

Lemma excess_peers_known db now target sampling :
  exists X, excess_peers db now target sampling = Some X /\ forall p, p ∈ X -> is_Some (peers db !! p).
Proof.
  unfold excess_peers. destruct (_ <=? target); [exists ∅; set_solver|]. cbv zeta.
  set (excess := saturating_sub _ target). set (out := Z.of_nat (length (connected_outbound_only_peers db))).
  assert (forall test s, (forall p, p ∈ to_prune s -> is_Some (peers db !! p)) ->
    forall p, p ∈ to_prune (prune_peers db now target excess out test s) -> is_Some (peers db !! p)) as Hpass.
  { intros test s Hs. apply prune_pass_known; [|done]. apply Forall_forall. intros [p i] Hin.
    apply list_elem_of_In, filter_In in Hin as [Hin _]. apply list_elem_of_In in Hin.
    unfold worst_connected_peers in Hin. rewrite sorted_by_perm in Hin.
    apply list_elem_of_In, filter_In in Hin as [Hin _]. apply list_elem_of_In, elem_of_hash_iter in Hin. eauto. }
  set (s1 := prune_peers _ _ _ _ _ is_penalized _).
  assert (forall p, p ∈ to_prune s1 -> is_Some (peers db !! p)) as H1' by (apply Hpass; set_solver).
  set (s2 := if count_pruned s1 <? excess then _ else s1).
  assert (forall p, p ∈ to_prune s2 -> is_Some (peers db !! p)) as H2'.
  { unfold s2. destruct (_ <? _); [by apply Hpass|done]. }
  destruct (count_pruned s2 <? excess); [|by eauto].
  set (lk := build_custody_subnet_lookup _).
  destruct (prune_grouped_total (S (Z.to_nat (lookup_entries lk))) target excess out sampling s2
    (build_peer_subnet_info db (to_prune s2)) lk) as [s3 H3']; [lia|].
  exists (to_prune s3). split; [exact (f_equal (fmap to_prune) H3')|].
  eapply prune_grouped_known; [exact H3'| |done]. intros p [si Hsi].
  apply build_peer_subnet_info_spec in Hsi as (i & [Hp _] & _). eauto.
Qed.

End pruning_lemmas.

(** ** Theorems *)

Section pruning_theorems.
Context `{ChainTypes} `{Libp2p} `{HashIter} `{FloatExp} `{UnstableSort} `{ThreadRng}.

(** C8: pruning ends, and it never disconnects a trusted peer or a peer that is not connected, never
    more peers than there are above the target, and never so many outbound-only peers that fewer than
    the target (or all there were, if fewer) are left.  The hypothesis rules out that a counter
    reaches the end of its range. *)
Theorem excess_peers_safe db now target_peers sampling :
  let outbound_count := Z.of_nat (length (connected_outbound_only_peers db)) in
  target_outbound_peers target_peers + outbound_count < USIZE_MAX ->
  exists X, excess_peers db now target_peers sampling = Some X /\
    (forall p, p ∈ X -> exists i, peers db !! p = Some i /\ is_connected i = true /\ is_trusted i = false) /\
    Z.of_nat (size X) <= Z.max 0 (Z.of_nat (length (connected_peers db)) - target_peers) /\
    Z.min (target_outbound_peers target_peers) outbound_count <= outbound_count - n_outbound db X.
Proof.
  intros out Hsmall. unfold excess_peers.
  pose proof (f32_ceil_nonneg (f32_mul (f32_of_usize target_peers) TARGET_OUTBOUND_ONLY_FACTOR)) as Hnn.
  change (0 <= target_outbound_peers target_peers) in Hnn.
  set (excess := saturating_sub _ target_peers).
  assert (forall s, prune_inv db target_peers excess s ->
    (forall p, p ∈ to_prune s -> exists i, peers db !! p = Some i /\ is_connected i = true /\ is_trusted i = false) /\
    Z.of_nat (size (to_prune s)) <= Z.max 0 (Z.of_nat (length (connected_peers db)) - target_peers) /\
    Z.min (target_outbound_peers target_peers) out <= out - n_outbound db (to_prune s)) as Hfinal.
  { intros s [Hpr Hex Ho Ht]. split_and!; [done| |fold out in Ht; lia].
    unfold count_pruned, excess, saturating_sub in Hex. lia. }
  assert (prune_inv db target_peers excess (mkPruneState ∅ 0)) as Hzero.
  { constructor; simpl; [set_solver| | |lia].
    - change (Z.of_nat (size (∅ : gset PeerId)) <= Z.max 0 excess). rewrite size_empty. lia.
    - change (0 = n_outbound db ∅). unfold n_outbound. rewrite filter_empty_L, size_empty; [done|apply _]. }
  destruct (_ <=? _); [exists ∅; split; [done|exact (Hfinal _ Hzero)]|].
  set (s1 := prune_peers _ _ _ _ _ is_penalized _).
  assert (prune_inv db target_peers excess s1) as H1' by by apply prune_peers_inv.
  set (s2 := if count_pruned s1 <? excess then _ else s1).
  assert (prune_inv db target_peers excess s2) as H2'.
  { unfold s2. destruct (_ <? _); [by apply prune_peers_inv|done]. }
  destruct (count_pruned s2 <? excess); [|exists (to_prune s2); split; [done|by apply Hfinal]].
  set (lk := build_custody_subnet_lookup _).
  destruct (prune_grouped_total (S (Z.to_nat (lookup_entries lk))) target_peers excess out sampling s2
    (build_peer_subnet_info db (to_prune s2)) lk) as [s3 H3']; [lia|].
  exists (to_prune s3). split; [exact (f_equal (fmap to_prune) H3')|]. apply Hfinal.
  eapply prune_grouped_inv; [done|done|exact H2'|apply build_infos_ok|exact H3'].
Qed.

(** C9: the last stage keeps the peers that are needed: on every data column subnet that is sampled,
    and on every sync committee subnet, at least two of the peers it could choose from are left, or
    all of them where there were fewer. *)
Theorem grouped_pruning_protects db target_peers excess out sampling s s' fuel subnet :
  let infos := build_peer_subnet_info db (to_prune s) in
  prune_grouped fuel target_peers excess out sampling s infos (build_custody_subnet_lookup infos) = Some s' ->
  (subnet ∈ sampling ->
     Z.min MIN_SAMPLING_COLUMN_SUBNET_PEERS (members psi_custody_subnets infos subnet) <=
       members_left psi_custody_subnets infos (to_prune s') subnet) /\
  Z.min MIN_SYNC_COMMITTEE_PEERS (members psi_sync_committees infos subnet) <=
    members_left psi_sync_committees infos (to_prune s') subnet.
Proof.
  intros infos Hr. apply (prune_grouped_members _ _ _ _ _ _ _ _ _ Hr); [|apply build_lookup_ok].
  intros p si Hp. by apply (build_infos_ok db s p si).
Qed.

End pruning_theorems.

Module PruningExamples.

#[local] Existing Instance Toy.chain.
#[local] Existing Instance Toy.libp2p.
#[local] Existing Instance ScoreExamples.step_float_exp.
#[local] Existing Instance PeerDBExamples.stable_unstable_sort.

#[local,refine] Instance no_shuffle : ThreadRng := { shuffle := fun A _ l => l }.
Proof. done. Defined.

(** A connected peer: inbound or outbound-only, with the given custody subnets. *)
Definition peer (is_outbound : bool) (custody : list SubnetId) (ttl : option Instant) : PeerInfo :=
  mkPeerInfo (Score_default 0) Client_default
    (if is_outbound then Connected (0 : @Multiaddr Toy.libp2p) 0 1 else Connected (0 : @Multiaddr Toy.libp2p) 1 0)
    [] ∅ SyncUnknown None (list_to_set (map Subnet.DataColumn custody)) (list_to_set custody) ttl false None None.

Definition db_of (l : list (Z * PeerInfo)) : PeerDB :=
  mkPeerDB (list_to_map l : gmap (@PeerId Toy.libp2p) PeerInfo) 0 BannedPeersCount_default false.

(** Six peers for a target of three: one trusted, one outbound-only, one on no subnet. *)
Definition six : PeerDB :=
  db_of [(1, set_is_trusted (peer false [] None) true); (2, peer true [] None); (3, peer false [] None);
         (4, peer false [0] None); (5, peer false [0] None); (6, peer false [0; 1] None)].

Example six_pruned : excess_peers six 0 3 ∅ = Some {[3; 4; 5]}.
Proof. evaluate. Qed.

Lemma excess_peers_safe_witness :
  exists X, excess_peers six 0 3 ∅ = Some X /\ Z.of_nat (size X) <= 3 /\ 1 <= 1 - n_outbound six X.
Proof.
  destruct (excess_peers_safe six 0 3 ∅) as (X & HX & _ & Hs & Ho); [evaluate|].
  exists X. split; [exact HX|]. split; [|exact Ho].
  eapply Z.le_trans; [exact Hs|]. vm_compute. discriminate.
Defined.

(** Four peers on one sampled column subnet: the loop stops at two of them. *)
Definition four : PeerDB :=
  db_of [(1, peer false [0] None); (2, peer false [0] None); (3, peer false [0] None);
         (4, peer false [0] None)].

Definition start : PruneState := mkPruneState ∅ 0.
Abbreviation four_infos := (build_peer_subnet_info four (to_prune start)).
Abbreviation four_left :=
  (prune_grouped 9 0 4 0 {[0]} start four_infos (build_custody_subnet_lookup four_infos)).

Example four_left_run : to_prune <$> four_left = Some {[3; 4]}.
Proof. evaluate. Qed.

Lemma grouped_pruning_protects_witness :
  exists left, four_left = Some left /\
    (Z.min MIN_SAMPLING_COLUMN_SUBNET_PEERS (members psi_custody_subnets four_infos 0) <=
       members_left psi_custody_subnets four_infos (to_prune left) 0).
Proof.
  pose proof four_left_run as Hrun. destruct four_left as [left|] eqn:Hr; [|discriminate Hrun].
  exists left. split; [reflexivity|]. assert (0 ∈ ({[0]} : gset SubnetId)) as Hin by set_solver.
  exact (proj1 (grouped_pruning_protects four 0 4 0 {[0]} start left 9 0 Hr) Hin).
Defined.

(** A peer that is needed for a validator duty until time 100 is pruned at time 0 all the same,
    because the last stage does not look at the duty. *)
Example duty_pruned :
  has_future_duty (peer false [0] (Some 100)) 0 = true /\
  excess_peers (db_of [(1, peer false [0] (Some 100)); (2, peer false [0] (Some 100))]) 0 1 ∅ = Some {[2]}.
Proof. split; evaluate. Qed.

(** A peer on an attestation subnet alone. *)
Definition attester : PeerInfo :=
  mkPeerInfo (Score_default 0) Client_default (Connected (0 : @Multiaddr Toy.libp2p) 1 0)
    [] ∅ SyncUnknown (Some (MDV1 (mkMetaDataV1 1 [true]))) {[Subnet.Attestation 0]} ∅ None false None None.

(** Peers with no custody subnet are never candidates of the last stage: no peer is disconnected,
    whatever the number above the target. *)
Example no_custody_no_pruning :
  excess_peers (db_of [(1, attester); (2, attester); (3, attester); (4, attester)]) 0 1 ∅ = Some ∅.
Proof. evaluate. Qed.

End PruningExamples.
