(* ===== verification/Topics.v ===== *)
(** * Gossip topics ([types/topics.rs])

    The topics a node subscribes to in a phase, and the names of topics, printed and parsed.  Strings are
    lists of characters. *)

From Stdlib Require Import Ascii.
From S2P Require Import Prelude Chain Protocol Messages Text Float64 Score PeerInfo.

(** ** Constants *)

Definition TOPIC_PREFIX := lit "eth2".
Definition SSZ_SNAPPY_ENCODING_POSTFIX := lit "ssz_snappy".
Definition BEACON_BLOCK_TOPIC := lit "beacon_block".
Definition BEACON_AGGREGATE_AND_PROOF_TOPIC := lit "beacon_aggregate_and_proof".
Definition BEACON_ATTESTATION_PREFIX := lit "beacon_attestation_".
Definition BLOB_SIDECAR_PREFIX := lit "blob_sidecar_".
Definition DATA_COLUMN_SIDECAR_PREFIX := lit "data_column_sidecar_".
Definition VOLUNTARY_EXIT_TOPIC := lit "voluntary_exit".
Definition PROPOSER_SLASHING_TOPIC := lit "proposer_slashing".
Definition ATTESTER_SLASHING_TOPIC := lit "attester_slashing".
Definition SIGNED_CONTRIBUTION_AND_PROOF_TOPIC := lit "sync_committee_contribution_and_proof".
Definition SYNC_COMMITTEE_PREFIX_TOPIC := lit "sync_committee_".
Definition BLS_TO_EXECUTION_CHANGE_TOPIC := lit "bls_to_execution_change".
Definition LIGHT_CLIENT_FINALITY_UPDATE := lit "light_client_finality_update".
Definition LIGHT_CLIENT_OPTIMISTIC_UPDATE := lit "light_client_optimistic_update".
Definition EXECUTION_PAYLOAD_BID_TOPIC := lit "execution_payload_bid".

(** ** Topics *)

Module GossipKind.

Inductive GossipKind :=
  | BeaconBlock
  | BeaconAggregateAndProof
  | BlobSidecar (index : Z)
  | DataColumnSidecar (subnet : SubnetId)
  | Attestation (subnet : SubnetId)
  | VoluntaryExit
  | ProposerSlashing
  | AttesterSlashing
  | SignedContributionAndProof
  | SyncCommitteeMessage (subnet : SubnetId)
  | BlsToExecutionChange
  | LightClientFinalityUpdate
  | LightClientOptimisticUpdate
  | ExecutionPayloadBid.

End GossipKind.
Abbreviation GossipKind := GossipKind.GossipKind.

#[export] Instance GossipKind_eq_dec : EqDecision GossipKind.
Proof. solve_decision. Defined.

(** The name and the position of a topic among its kind. *)
Definition GossipKind_code (k : GossipKind) : Z * Z :=
  match k with
  | GossipKind.BeaconBlock => (0, 0) | GossipKind.BeaconAggregateAndProof => (1, 0)
  | GossipKind.BlobSidecar i => (2, i) | GossipKind.DataColumnSidecar i => (3, i)
  | GossipKind.Attestation i => (4, i) | GossipKind.VoluntaryExit => (5, 0)
  | GossipKind.ProposerSlashing => (6, 0) | GossipKind.AttesterSlashing => (7, 0)
  | GossipKind.SignedContributionAndProof => (8, 0) | GossipKind.SyncCommitteeMessage i => (9, i)
  | GossipKind.BlsToExecutionChange => (10, 0) | GossipKind.LightClientFinalityUpdate => (11, 0)
  | GossipKind.LightClientOptimisticUpdate => (12, 0) | GossipKind.ExecutionPayloadBid => (13, 0)
  end.

Definition GossipKind_decode (c : Z * Z) : option GossipKind :=
  match c.1 with
  | 0 => Some GossipKind.BeaconBlock | 1 => Some GossipKind.BeaconAggregateAndProof
  | 2 => Some (GossipKind.BlobSidecar c.2) | 3 => Some (GossipKind.DataColumnSidecar c.2)
  | 4 => Some (GossipKind.Attestation c.2) | 5 => Some GossipKind.VoluntaryExit
  | 6 => Some GossipKind.ProposerSlashing | 7 => Some GossipKind.AttesterSlashing
  | 8 => Some GossipKind.SignedContributionAndProof
  | 9 => Some (GossipKind.SyncCommitteeMessage c.2)
  | 10 => Some GossipKind.BlsToExecutionChange | 11 => Some GossipKind.LightClientFinalityUpdate
  | 12 => Some GossipKind.LightClientOptimisticUpdate | 13 => Some GossipKind.ExecutionPayloadBid
  | _ => None
  end.

#[export] Instance GossipKind_countable : Countable GossipKind.
Proof. refine (inj_countable GossipKind_code GossipKind_decode _). by intros []. Defined.

Inductive GossipEncoding := SSZSnappy.

#[export] Instance GossipEncoding_eq_dec : EqDecision GossipEncoding.
Proof. solve_decision. Defined.

#[export] Instance GossipEncoding_countable : Countable GossipEncoding.
Proof. refine (inj_countable' (fun _ => tt) (fun _ => SSZSnappy) _). by intros []. Defined.

(** What the source uses of the [types] and [hex] crates. *)
Class TopicCrates `{ChainTypes} := {
  AttestationSubnetCount : Z;
  SyncCommitteeSubnetCount : Z;
  is_peerdas_activated : Phase -> bool;
  config_blob_sidecar_subnet_count : ChainConfig -> Phase -> Z;
  config_data_column_sidecar_subnet_count : ChainConfig -> Z;
  topic_digest_bytes : ForkDigest -> list Z;
  (** [ForkDigest::from_slice]. *)
  topic_digest_from_slice : list Z -> ForkDigest;
  topic_hex_encode : list Z -> list ascii;
  topic_hex_decode : list ascii -> result (list Z) (list ascii);
}.

(** What the round trip relies on: a digest has four bytes, and hexadecimal text can be read back and
    has no slash. *)
Class TopicCrateLaws `{TopicCrates} : Prop := {
  digest_bytes_length : forall d, length (topic_digest_bytes d) = 4%nat;
  digest_from_bytes : forall d, topic_digest_from_slice (topic_digest_bytes d) = d;
  topic_hex_round_trip : forall bs, topic_hex_decode (topic_hex_encode bs) = Ok bs;
  topic_hex_no_slash : forall bs, "/"%char ∉ topic_hex_encode bs;
}.

Section topics.
Context `{TopicCrates} `{HashIter}.

Record TopicConfig := mkTopicConfig {
  enable_light_client_server : bool;
  subscribe_all_subnets : bool;
  subscribe_all_data_column_subnets : bool;
  tc_sampling_subnets : gset SubnetId;
}.

(** [0..n] *)
Definition range (n : Z) : list Z := map Z.of_nat (seq 0 (Z.to_nat n)).

Definition core_topics_to_subscribe (chain_config : ChainConfig) (current_phase : Phase)
  (opts : TopicConfig) : list GossipKind :=
  [GossipKind.BeaconBlock; GossipKind.BeaconAggregateAndProof; GossipKind.VoluntaryExit;
   GossipKind.ProposerSlashing; GossipKind.AttesterSlashing] ++
  (if subscribe_all_subnets opts then map GossipKind.Attestation (range AttestationSubnetCount) else []) ++
  (if Phase_leb Altair current_phase then
     [GossipKind.SignedContributionAndProof] ++
     (if subscribe_all_subnets opts
      then map GossipKind.SyncCommitteeMessage (range SyncCommitteeSubnetCount) else []) ++
     (if enable_light_client_server opts
      then [GossipKind.LightClientFinalityUpdate; GossipKind.LightClientOptimisticUpdate] else [])
   else []) ++
  (if Phase_leb Capella current_phase then [GossipKind.BlsToExecutionChange] else []) ++
  (if Phase_leb Deneb current_phase && negb (is_peerdas_activated current_phase)
   then map GossipKind.BlobSidecar (range (config_blob_sidecar_subnet_count chain_config current_phase))
   else []) ++
  (if is_peerdas_activated current_phase then
     if subscribe_all_data_column_subnets opts
     then map GossipKind.DataColumnSidecar (range (config_data_column_sidecar_subnet_count chain_config))
     else map GossipKind.DataColumnSidecar (set_iter (tc_sampling_subnets opts))
   else []) ++
  (if Phase_leb Gloas current_phase then [GossipKind.ExecutionPayloadBid] else []).

Definition all_topics_at_fork (chain_config : ChainConfig) (current_phase : Phase) : list GossipKind :=
  core_topics_to_subscribe chain_config current_phase
    (mkTopicConfig true true true
       (list_to_set (range (config_data_column_sidecar_subnet_count chain_config)))).

Record GossipTopic := mkGossipTopic {
  gt_encoding : GossipEncoding;
  fork_digest : ForkDigest;
  gt_kind : GossipKind;
}.

#[export] Instance GossipTopic_eq_dec : EqDecision GossipTopic.
Proof. solve_decision. Defined.

#[export] Instance GossipTopic_countable : Countable GossipTopic.
Proof.
  refine (inj_countable' (fun t => (gt_encoding t, fork_digest t, gt_kind t))
    (fun c => mkGossipTopic c.1.1 c.1.2 c.2) _).
  by intros [].
Defined.

Definition GossipTopic_new (kind : GossipKind) (encoding : GossipEncoding) (d : ForkDigest) : GossipTopic :=
  mkGossipTopic encoding d kind.

Definition is_fork_non_core_topic (topic : GossipTopic) (_phase : Phase) : bool :=
  match gt_kind topic with
  | GossipKind.Attestation _ | GossipKind.SyncCommitteeMessage _ => true
  | _ => false
  end.

Definition subnet_id (topic : GossipTopic) : option Subnet :=
  match gt_kind topic with
  | GossipKind.Attestation id => Some (Subnet.Attestation id)
  | GossipKind.SyncCommitteeMessage id => Some (Subnet.SyncCommittee id)
  | GossipKind.DataColumnSidecar id => Some (Subnet.DataColumn id)
  | _ => None
  end.

Definition GossipKind_from_subnet (s : Subnet) : GossipKind :=
  match s with
  | Subnet.Attestation s => GossipKind.Attestation s
  | Subnet.SyncCommittee s => GossipKind.SyncCommitteeMessage s
  | Subnet.DataColumn s => GossipKind.DataColumnSidecar s
  end.

(** [str::strip_prefix]. *)
Fixpoint strip_prefix (p s : list ascii) : option (list ascii) :=
  match p, s with
  | [], _ => Some s
  | a :: p, b :: s => if decide (a = b) then strip_prefix p s else None
  | _ :: _, [] => None
  end.

Definition subnet_topic_index (topic : list ascii) : option GossipKind :=
  match strip_prefix BEACON_ATTESTATION_PREFIX topic with
  | Some index => GossipKind.Attestation <$> parse_u64 index
  | None =>
  match strip_prefix SYNC_COMMITTEE_PREFIX_TOPIC topic with
  | Some index => GossipKind.SyncCommitteeMessage <$> parse_u64 index
  | None =>
  match strip_prefix BLOB_SIDECAR_PREFIX topic with
  | Some index => GossipKind.BlobSidecar <$> parse_u64 index
  | None =>
  match strip_prefix DATA_COLUMN_SIDECAR_PREFIX topic with
  | Some index => GossipKind.DataColumnSidecar <$> parse_u64 index
  | None => None
  end end end end.

(** The names that are matched as a whole. *)
Definition plain_kinds : list (list ascii * GossipKind) :=
  [(BEACON_BLOCK_TOPIC, GossipKind.BeaconBlock);
   (BEACON_AGGREGATE_AND_PROOF_TOPIC, GossipKind.BeaconAggregateAndProof);
   (SIGNED_CONTRIBUTION_AND_PROOF_TOPIC, GossipKind.SignedContributionAndProof);
   (VOLUNTARY_EXIT_TOPIC, GossipKind.VoluntaryExit);
   (PROPOSER_SLASHING_TOPIC, GossipKind.ProposerSlashing);
   (ATTESTER_SLASHING_TOPIC, GossipKind.AttesterSlashing);
   (BLS_TO_EXECUTION_CHANGE_TOPIC, GossipKind.BlsToExecutionChange);
   (LIGHT_CLIENT_FINALITY_UPDATE, GossipKind.LightClientFinalityUpdate);
   (LIGHT_CLIENT_OPTIMISTIC_UPDATE, GossipKind.LightClientOptimisticUpdate);
   (EXECUTION_PAYLOAD_BID_TOPIC, GossipKind.ExecutionPayloadBid)].

Definition decode_kind (name : list ascii) : option GossipKind :=
  match List.find (fun e => bool_decide (e.1 = name)) plain_kinds with
  | Some e => Some e.2
  | None => subnet_topic_index name
  end.

Inductive TopicError :=
  | CouldNotDecodeForkDigest (e : list ascii)
  | InvalidForkDigestSize (n : Z)
  | UnknownEncoding (topic : list ascii)
  | UnknownTopic (topic : list ascii).

Definition GossipTopic_decode (topic : list ascii) : result GossipTopic TopicError :=
  match split "/"%char topic with
  | [_; prefix; digest; kind; encoding] =>
      if bool_decide (prefix = TOPIC_PREFIX) then
        let? digest_bytes := map_err CouldNotDecodeForkDigest (topic_hex_decode digest) in
        if negb (length digest_bytes =? 4)%nat
        then Err (InvalidForkDigestSize (Z.of_nat (length digest_bytes)))
        else
          let? encoding :=
            if bool_decide (encoding = SSZ_SNAPPY_ENCODING_POSTFIX) then Ok SSZSnappy
            else Err (UnknownEncoding topic) in
          let? kind := ok_or (decode_kind kind) (UnknownTopic kind) in
          Ok (mkGossipTopic encoding (topic_digest_from_slice digest_bytes) kind)
      else Err (UnknownTopic topic)
  | _ => Err (UnknownTopic topic)
  end.

(** The third component of the name. *)
Definition kind_name (k : GossipKind) : list ascii :=
  match k with
  | GossipKind.BeaconBlock => BEACON_BLOCK_TOPIC
  | GossipKind.BeaconAggregateAndProof => BEACON_AGGREGATE_AND_PROOF_TOPIC
  | GossipKind.VoluntaryExit => VOLUNTARY_EXIT_TOPIC
  | GossipKind.ProposerSlashing => PROPOSER_SLASHING_TOPIC
  | GossipKind.AttesterSlashing => ATTESTER_SLASHING_TOPIC
  | GossipKind.Attestation index => BEACON_ATTESTATION_PREFIX ++ print_u64 index
  | GossipKind.SignedContributionAndProof => SIGNED_CONTRIBUTION_AND_PROOF_TOPIC
  | GossipKind.SyncCommitteeMessage index => SYNC_COMMITTEE_PREFIX_TOPIC ++ print_u64 index
  | GossipKind.BlobSidecar index => BLOB_SIDECAR_PREFIX ++ print_u64 index
  | GossipKind.DataColumnSidecar index => DATA_COLUMN_SIDECAR_PREFIX ++ print_u64 index
  | GossipKind.BlsToExecutionChange => BLS_TO_EXECUTION_CHANGE_TOPIC
  | GossipKind.LightClientFinalityUpdate => LIGHT_CLIENT_FINALITY_UPDATE
  | GossipKind.LightClientOptimisticUpdate => LIGHT_CLIENT_OPTIMISTIC_UPDATE
  | GossipKind.ExecutionPayloadBid => EXECUTION_PAYLOAD_BID_TOPIC
  end.

(** [Display] of a topic: [/eth2/<digest>/<kind>/<encoding>]. *)
Definition GossipTopic_to_string (t : GossipTopic) : list ascii :=
  let encoding := match gt_encoding t with SSZSnappy => SSZ_SNAPPY_ENCODING_POSTFIX end in
  join "/"%char [[]; TOPIC_PREFIX; topic_hex_encode (topic_digest_bytes (fork_digest t)); kind_name (gt_kind t);
                 encoding].

Definition subnet_from_topic_hash (topic_hash : list ascii) : option Subnet :=
  match GossipTopic_decode topic_hash with
  | Ok t => subnet_id t
  | Err _ => None
  end.

End topics.

(** ** Lemmas *)

Section topic_lemmas.
Context `{TopicCrates} `{HashIter}.

Lemma strip_prefix_app p s : strip_prefix p (p ++ s) = Some s.
Proof. induction p as [|a p IH]; simpl; [done|]. by rewrite decide_True. Qed.

Lemma find_app_digits (l : list (list ascii * GossipKind)) (p : list ascii) n :
  in_u64 n -> Forall (fun e => forall d r, is_digit d -> strip_prefix p e.1 <> Some (d :: r)) l ->
  List.find (fun e => bool_decide (e.1 = p ++ print_u64 n)) l = None.
Proof.
  intros Hn Hl. induction Hl as [|e l He Hl IH]; simpl; [done|].
  rewrite bool_decide_false; [done|]. intros Heq.
  destruct (print_u64_digits n) as [Hd Hne]; [apply Hn|].
  destruct (print_u64 n) as [|d r]; [done|]. apply Forall_cons in Hd as [Hd _].
  apply (He d r Hd). by rewrite Heq, strip_prefix_app.
Qed.

Ltac plain_prefix :=
  repeat (apply Forall_cons; split;
          [intros d r (z & Hz & ->); try by vm_compute|]); [..|by apply Forall_nil].

Lemma decode_kind_name k :
  in_u64 (GossipKind_code k).2 -> decode_kind (kind_name k) = Some k.
Proof.
  intros Hk. destruct k; try reflexivity; simpl in Hk; unfold decode_kind, kind_name.
  all: rewrite find_app_digits; [|done|unfold plain_kinds; plain_prefix].
  all: try (unfold subnet_topic_index; rewrite ?strip_prefix_app; simpl; by rewrite parse_print_u64).
  all: vm_compute; intros [= E]; assert (z = 0 \/ z = 1 \/ z = 2 \/ z = 3 \/ z = 4 \/ z = 5 \/ z = 6 \/
    z = 7 \/ z = 8 \/ z = 9) as Hc by lia; clear Hz;
    repeat destruct Hc as [->|Hc]; try subst; vm_compute in E; try discriminate.
Qed.

Lemma no_slash_digits n : in_u64 n -> "/"%char ∉ print_u64 n.
Proof.
  intros Hn Hin. destruct (print_u64_digits n) as [Hd _]; [apply Hn|].
  rewrite Forall_forall in Hd. by apply (is_digit_ne _ "/"%char (Hd _ Hin)).
Qed.

Lemma no_slash_lit (s : list ascii) : bool_decide ("/"%char ∈ s) = false -> "/"%char ∉ s.
Proof. apply bool_decide_eq_false. Qed.

Lemma no_slash_kind k : in_u64 (GossipKind_code k).2 -> "/"%char ∉ kind_name k.
Proof.
  destruct k; cbn [kind_name GossipKind_code snd]; intros Hk;
    first [rewrite elem_of_app; intros [Hin|Hin]; [|by apply (no_slash_digits _ Hk)]; revert Hin|idtac];
    apply no_slash_lit; vm_compute; reflexivity.
Qed.

Lemma range_elem n i : i ∈ range n <-> 0 <= i < n.
Proof.
  unfold range. rewrite list_elem_of_fmap. split.
  - intros (j & -> & Hj%elem_of_seq). lia.
  - intros Hi. exists (Z.to_nat i). rewrite elem_of_seq. lia.
Qed.

Lemma range_nodup n : NoDup (range n).
Proof. apply NoDup_fmap_2; [|apply NoDup_seq]. intros i j. lia. Qed.

Lemma elem_of_when {A} (b : bool) (l : list A) x : x ∈ (if b then l else []) <-> b = true /\ x ∈ l.
Proof. destruct b; set_solver. Qed.

Lemma elem_of_kinds (f : Z -> GossipKind) l k :
  k ∈ map f l <-> exists i, k = f i /\ i ∈ l.
Proof. apply list_elem_of_fmap. Qed.

(** The parts of the list of topics. *)
Lemma core_topics_elem config phase opts k :
  k ∈ core_topics_to_subscribe config phase opts <->
  match k with
  | GossipKind.BeaconBlock | GossipKind.BeaconAggregateAndProof | GossipKind.VoluntaryExit
  | GossipKind.ProposerSlashing | GossipKind.AttesterSlashing => True
  | GossipKind.Attestation i => subscribe_all_subnets opts = true /\ 0 <= i < AttestationSubnetCount
  | GossipKind.SignedContributionAndProof => Phase_leb Altair phase = true
  | GossipKind.SyncCommitteeMessage i =>
      Phase_leb Altair phase = true /\ subscribe_all_subnets opts = true /\ 0 <= i < SyncCommitteeSubnetCount
  | GossipKind.LightClientFinalityUpdate | GossipKind.LightClientOptimisticUpdate =>
      Phase_leb Altair phase = true /\ enable_light_client_server opts = true
  | GossipKind.BlsToExecutionChange => Phase_leb Capella phase = true
  | GossipKind.BlobSidecar i =>
      Phase_leb Deneb phase = true /\ is_peerdas_activated phase = false /\
      0 <= i < config_blob_sidecar_subnet_count config phase
  | GossipKind.DataColumnSidecar i =>
      is_peerdas_activated phase = true /\
      if subscribe_all_data_column_subnets opts
      then 0 <= i < config_data_column_sidecar_subnet_count config
      else i ∈ tc_sampling_subnets opts
  | GossipKind.ExecutionPayloadBid => Phase_leb Gloas phase = true
  end.
Proof.
  unfold core_topics_to_subscribe.
  assert (forall b : bool, (if b then map GossipKind.DataColumnSidecar
      (range (config_data_column_sidecar_subnet_count config))
    else map GossipKind.DataColumnSidecar (set_iter (tc_sampling_subnets opts))) =
    map GossipKind.DataColumnSidecar (if b then range (config_data_column_sidecar_subnet_count config)
      else set_iter (tc_sampling_subnets opts))) as -> by by intros [].
  rewrite !elem_of_app, !elem_of_when, !elem_of_app, !elem_of_when, !elem_of_kinds, !elem_of_cons,
    !elem_of_nil, andb_true_iff, negb_true_iff.
  setoid_rewrite range_elem.
  destruct k; try naive_solver. destruct (subscribe_all_data_column_subnets opts).
  - setoid_rewrite range_elem. naive_solver.
  - setoid_rewrite elem_of_set_iter. naive_solver.
Qed.

Lemma nodup_when {A} (b : bool) (l : list A) : NoDup l -> NoDup (if b then l else []).
Proof. destruct b; [done|constructor]. Qed.

Lemma nodup_kinds (f : Z -> GossipKind) l : Inj (=) (=) f -> NoDup l -> NoDup (map f l).
Proof. intros. by apply NoDup_fmap_2. Qed.

Lemma core_topics_nodup config phase opts : NoDup (core_topics_to_subscribe config phase opts).
Proof.
  unfold core_topics_to_subscribe.
  repeat first
    [ apply nodup_when
    | apply nodup_kinds; [intros ?? [=]; done|apply range_nodup || apply NoDup_set_iter]
    | apply NoDup_app; split_and!;
      [|intros k; rewrite ?elem_of_app, ?elem_of_when, ?elem_of_app, ?elem_of_when, ?elem_of_kinds,
          ?elem_of_cons, ?elem_of_nil; clear; repeat case_match; rewrite ?elem_of_kinds; naive_solver|]
    | solve [repeat constructor; set_solver]
    | case_match ].
Qed.

End topic_lemmas.

(** ** Theorems *)

Section topic_theorems.
Context `{TopicCrates} `{HashIter}.

Lemma topic_decode_printed `{!TopicCrateLaws} t :
  in_u64 (GossipKind_code (gt_kind t)).2 -> GossipTopic_decode (GossipTopic_to_string t) = Ok t.
Proof.
  intros Hk. unfold GossipTopic_decode, GossipTopic_to_string. rewrite split_join; [|done|].
  - lazy beta iota zeta. rewrite bool_decide_true by done. rewrite topic_hex_round_trip. simpl.
    rewrite digest_bytes_length. simpl. destruct t as [[] d k]. simpl in *.
    rewrite decode_kind_name by done. simpl.
    by rewrite digest_from_bytes.
  - repeat (apply Forall_cons; split); [set_solver|by apply no_slash_lit|apply topic_hex_no_slash| | |done].
    + by apply no_slash_kind.
    + destruct (gt_encoding t). by apply no_slash_lit.
Qed.

(** Different topics have different names. *)
Lemma topic_to_string_inj `{!TopicCrateLaws} t t' :
  in_u64 (GossipKind_code (gt_kind t)).2 -> in_u64 (GossipKind_code (gt_kind t')).2 ->
  GossipTopic_to_string t = GossipTopic_to_string t' -> t = t'.
Proof.
  intros Ht Ht' He. apply topic_decode_printed in Ht. apply topic_decode_printed in Ht'. congruence.
Qed.

(** A topic printed as gossipsub sees it is parsed back to the same topic, whatever its kind, fork
    digest and 64-bit index. *)
Theorem topic_round_trip `{!TopicCrateLaws} t :
  in_u64 (GossipKind_code (gt_kind t)).2 -> GossipTopic_decode (GossipTopic_to_string t) = Ok t.
Proof. apply topic_decode_printed. Qed.

(** The topics of a phase are listed once each, they are among all the topics of that phase as long
    as the sampled subnets exist, and none is lost by moving to a later phase of the same kind of data
    availability (before or after PeerDAS). *)
Theorem core_topics_sound config phase phase' opts :
  (forall s, s ∈ tc_sampling_subnets opts -> 0 <= s < config_data_column_sidecar_subnet_count config) ->
  NoDup (core_topics_to_subscribe config phase opts) /\
  (forall k, k ∈ core_topics_to_subscribe config phase opts -> k ∈ all_topics_at_fork config phase) /\
  (Phase_leb phase phase' = true -> is_peerdas_activated phase = is_peerdas_activated phase' ->
   config_blob_sidecar_subnet_count config phase <= config_blob_sidecar_subnet_count config phase' ->
   forall k, k ∈ core_topics_to_subscribe config phase opts ->
     k ∈ core_topics_to_subscribe config phase' opts).
Proof.
  intros Hs. split_and!.
  - apply core_topics_nodup.
  - intros k. unfold all_topics_at_fork. rewrite !core_topics_elem.
    destruct k; simpl; try naive_solver.
    destruct (subscribe_all_data_column_subnets opts); naive_solver.
  - intros Hle Hp Hb k. rewrite !core_topics_elem, Hp.
    assert (forall q, Phase_leb q phase = true -> Phase_leb q phase' = true) as Htr.
    { unfold Phase_leb in *. intros q. rewrite !Z.leb_le in *. lia. }
    destruct k; naive_solver lia.
Qed.

End topic_theorems.

Module TopicsExamples.

#[local] Existing Instance Toy.chain.

(** A digest is a number, stored in the first of four cells; a list of numbers is written in binary. *)
Fixpoint bits (p : positive) : list ascii :=
  match p with
  | xH => [] | xO p => "0"%char :: bits p | xI p => "1"%char :: bits p
  end.
Fixpoint unbits (s : list ascii) : positive :=
  match s with
  | [] => 1 | c :: s => if decide (c = "0"%char) then (unbits s)~0 else (unbits s)~1
  end%positive.

Definition toy_hex_decode (s : list ascii) : result (list Z) (list ascii) :=
  ok_or (countable.decode (unbits s)) (lit "invalid").

Lemma unbits_bits p : unbits (bits p) = p.
Proof. induction p as [p IH|p IH|]; simpl; by rewrite ?IH. Qed.

Lemma bits_no_slash p : "/"%char ∉ bits p.
Proof.
  induction p as [p IH|p IH|]; simpl; rewrite ?elem_of_cons, ?elem_of_nil; [..|tauto];
    intros [E|E]; [discriminate E|done|discriminate E|done].
Qed.

#[local] Instance toy_crates : TopicCrates := {
  AttestationSubnetCount := 64;
  SyncCommitteeSubnetCount := 4;
  is_peerdas_activated := Phase_leb Fulu;
  config_blob_sidecar_subnet_count := fun _ p => if Phase_leb Electra p then 9 else 6;
  config_data_column_sidecar_subnet_count := fun _ => 128;
  topic_digest_bytes := fun d : Z => [d; 0; 0; 0];
  topic_digest_from_slice := fun l => hd 0 l;
  topic_hex_encode := fun bs => bits (encode bs);
  topic_hex_decode := toy_hex_decode;
}.

#[local] Instance toy_laws : TopicCrateLaws.
Proof.
  constructor; [done|done| |intros; apply bits_no_slash].
  intros bs. simpl. unfold toy_hex_decode. by rewrite unbits_bits, decode_encode.
Defined.

Lemma topic_round_trip_witness :
  GossipTopic_decode (GossipTopic_to_string (mkGossipTopic SSZSnappy (7 : @ForkDigest Toy.chain)
    (GossipKind.Attestation 63))) =
  Ok (mkGossipTopic SSZSnappy (7 : @ForkDigest Toy.chain) (GossipKind.Attestation 63)).
Proof. apply topic_round_trip. split; [discriminate|by vm_compute]. Defined.

(** The index may be written with a sign and leading zeros: the name of a topic is not unique. *)
Example topic_name_not_unique :
  decode_kind (lit "beacon_attestation_+007") = Some (GossipKind.Attestation 7) /\
  kind_name (GossipKind.Attestation 7) = lit "beacon_attestation_7".
Proof. split; reflexivity. Qed.

Definition sampling_opts : TopicConfig := mkTopicConfig false false false {[3; 77]}.

Lemma core_topics_sound_witness :
  NoDup (core_topics_to_subscribe (tt : @ChainConfig Toy.chain) Fulu sampling_opts) /\
  forall k, k ∈ core_topics_to_subscribe (tt : @ChainConfig Toy.chain) Fulu sampling_opts ->
    k ∈ core_topics_to_subscribe (tt : @ChainConfig Toy.chain) Gloas sampling_opts.
Proof.
  destruct (core_topics_sound (tt : @ChainConfig Toy.chain) Fulu Gloas sampling_opts) as (Hn & _ & Hk).
  - intros x Hx. apply elem_of_union in Hx. rewrite !elem_of_singleton in Hx. simpl. lia.
  - split; [exact Hn|]. apply Hk; [reflexivity|reflexivity|discriminate].
Defined.

End TopicsExamples.
