(* ===== verification/GossipCache.v ===== *)
(** * The gossip cache ([service/gossip_cache.rs])

    Messages that could not be published because no peer was subscribed to their topic are kept for a
    time that depends on the kind of topic, and published when a peer subscribes.  Each message is kept
    with the key of its expiration in a delay queue.  [None] stands for a panic of the queue. *)

From S2P Require Import Prelude Chain Timers Text Messages PeerInfo Topics.

Section gossip_cache.
Context `{TopicCrates} `{HashIter} `{DelayQueue} `{DelayKeys}.

Record GossipCacheBuilder := mkGossipCacheBuilder {
  gb_default_timeout : option Duration;
  gb_beacon_block : option Duration;
  gb_blob_sidecar : option Duration;
  gb_data_column_sidecar : option Duration;
  gb_aggregates : option Duration;
  gb_attestation : option Duration;
  gb_voluntary_exit : option Duration;
  gb_proposer_slashing : option Duration;
  gb_attester_slashing : option Duration;
  gb_signed_contribution_and_proof : option Duration;
  gb_sync_committee_message : option Duration;
  gb_bls_to_execution_change : option Duration;
  gb_light_client_finality_update : option Duration;
  gb_light_client_optimistic_update : option Duration;
  gb_execution_payload_bid : option Duration;
}.

Record GossipCache := mkGossipCache {
  expirations : KeyedQueue (GossipTopic * Bytes);
  topic_msgs : gmap GossipTopic (gmap Bytes Z);
  gc_beacon_block : option Duration;
  gc_blob_sidecar : option Duration;
  gc_data_column_sidecar : option Duration;
  gc_aggregates : option Duration;
  gc_attestation : option Duration;
  gc_voluntary_exit : option Duration;
  gc_proposer_slashing : option Duration;
  gc_attester_slashing : option Duration;
  gc_signed_contribution_and_proof : option Duration;
  gc_sync_committee_message : option Duration;
  gc_bls_to_execution_change : option Duration;
  gc_light_client_finality_update : option Duration;
  gc_light_client_optimistic_update : option Duration;
  gc_execution_payload_bid : option Duration;
}.

Definition set_msgs (c : GossipCache) q m : GossipCache :=
  let '(mkGossipCache _ _ a b d e f g h i j k l n o p) := c in
  mkGossipCache q m a b d e f g h i j k l n o p.

(** ** The builder *)

(** [GossipCache::builder]. *)
Definition gc_builder : GossipCacheBuilder :=
  mkGossipCacheBuilder None None None None None None None None None None None None None None None.

Definition default_timeout (g : GossipCacheBuilder) (timeout : Duration) : GossipCacheBuilder :=
  let '(mkGossipCacheBuilder _ b c d e f g h i j k l m n o) := g in
  mkGossipCacheBuilder (Some timeout) b c d e f g h i j k l m n o.
Definition beacon_block_timeout (g : GossipCacheBuilder) (timeout : Duration) : GossipCacheBuilder :=
  let '(mkGossipCacheBuilder a _ c d e f g h i j k l m n o) := g in
  mkGossipCacheBuilder a (Some timeout) c d e f g h i j k l m n o.
Definition aggregates_timeout (g : GossipCacheBuilder) (timeout : Duration) : GossipCacheBuilder :=
  let '(mkGossipCacheBuilder a b c d _ f g h i j k l m n o) := g in
  mkGossipCacheBuilder a b c d (Some timeout) f g h i j k l m n o.
Definition attestation_timeout (g : GossipCacheBuilder) (timeout : Duration) : GossipCacheBuilder :=
  let '(mkGossipCacheBuilder a b c d e _ g h i j k l m n o) := g in
  mkGossipCacheBuilder a b c d e (Some timeout) g h i j k l m n o.
Definition voluntary_exit_timeout (g : GossipCacheBuilder) (timeout : Duration) : GossipCacheBuilder :=
  let '(mkGossipCacheBuilder a b c d e f _ h i j k l m n o) := g in
  mkGossipCacheBuilder a b c d e f (Some timeout) h i j k l m n o.
Definition proposer_slashing_timeout (g : GossipCacheBuilder) (timeout : Duration) : GossipCacheBuilder :=
  let '(mkGossipCacheBuilder a b c d e f g _ i j k l m n o) := g in
  mkGossipCacheBuilder a b c d e f g (Some timeout) i j k l m n o.
Definition attester_slashing_timeout (g : GossipCacheBuilder) (timeout : Duration) : GossipCacheBuilder :=
  let '(mkGossipCacheBuilder a b c d e f g h _ j k l m n o) := g in
  mkGossipCacheBuilder a b c d e f g h (Some timeout) j k l m n o.
Definition signed_contribution_and_proof_timeout (g : GossipCacheBuilder) (timeout : Duration)
  : GossipCacheBuilder :=
  let '(mkGossipCacheBuilder a b c d e f g h i _ k l m n o) := g in
  mkGossipCacheBuilder a b c d e f g h i (Some timeout) k l m n o.
Definition sync_committee_message_timeout (g : GossipCacheBuilder) (timeout : Duration)
  : GossipCacheBuilder :=
  let '(mkGossipCacheBuilder a b c d e f g h i j _ l m n o) := g in
  mkGossipCacheBuilder a b c d e f g h i j (Some timeout) l m n o.
Definition bls_to_execution_change_timeout (g : GossipCacheBuilder) (timeout : Duration)
  : GossipCacheBuilder :=
  let '(mkGossipCacheBuilder a b c d e f g h i j k _ m n o) := g in
  mkGossipCacheBuilder a b c d e f g h i j k (Some timeout) m n o.
Definition light_client_finality_update_timeout (g : GossipCacheBuilder) (timeout : Duration)
  : GossipCacheBuilder :=
  let '(mkGossipCacheBuilder a b c d e f g h i j k l _ n o) := g in
  mkGossipCacheBuilder a b c d e f g h i j k l (Some timeout) n o.
Definition light_client_optimistic_update_timeout (g : GossipCacheBuilder) (timeout : Duration)
  : GossipCacheBuilder :=
  let '(mkGossipCacheBuilder a b c d e f g h i j k l m _ o) := g in
  mkGossipCacheBuilder a b c d e f g h i j k l m (Some timeout) o.
Definition execution_payload_bid_timeout (g : GossipCacheBuilder) (timeout : Duration)
  : GossipCacheBuilder :=
  let '(mkGossipCacheBuilder a b c d e f g h i j k l m n _) := g in
  mkGossipCacheBuilder a b c d e f g h i j k l m n (Some timeout).

(** [Option::or]. *)
Definition opt_or {A} (a b : option A) : option A := match a with Some _ => a | None => b end.

Definition gc_build (g : GossipCacheBuilder) : GossipCache :=
  let or_default x := opt_or x (gb_default_timeout g) in
  mkGossipCache [] ∅
    (or_default (gb_beacon_block g)) (or_default (gb_blob_sidecar g))
    (or_default (gb_data_column_sidecar g)) (or_default (gb_aggregates g))
    (or_default (gb_attestation g)) (or_default (gb_voluntary_exit g))
    (or_default (gb_proposer_slashing g)) (or_default (gb_attester_slashing g))
    (or_default (gb_signed_contribution_and_proof g)) (or_default (gb_sync_committee_message g))
    (or_default (gb_bls_to_execution_change g)) (or_default (gb_light_client_finality_update g))
    (or_default (gb_light_client_optimistic_update g)) (or_default (gb_execution_payload_bid g)).

(** ** The cache *)

(** How long messages of a kind are kept; [None]: not at all. *)
Definition expire_timeout (c : GossipCache) (kind : GossipKind) : option Duration :=
  match kind with
  | GossipKind.BeaconBlock => gc_beacon_block c
  | GossipKind.BlobSidecar _ => gc_blob_sidecar c
  | GossipKind.DataColumnSidecar _ => gc_data_column_sidecar c
  | GossipKind.BeaconAggregateAndProof => gc_aggregates c
  | GossipKind.Attestation _ => gc_attestation c
  | GossipKind.VoluntaryExit => gc_voluntary_exit c
  | GossipKind.ProposerSlashing => gc_proposer_slashing c
  | GossipKind.AttesterSlashing => gc_attester_slashing c
  | GossipKind.SignedContributionAndProof => gc_signed_contribution_and_proof c
  | GossipKind.SyncCommitteeMessage _ => gc_sync_committee_message c
  | GossipKind.BlsToExecutionChange => gc_bls_to_execution_change c
  | GossipKind.LightClientFinalityUpdate => gc_light_client_finality_update c
  | GossipKind.LightClientOptimisticUpdate => gc_light_client_optimistic_update c
  | GossipKind.ExecutionPayloadBid => gc_execution_payload_bid c
  end.

Definition gc_insert (c : GossipCache) (now : Instant) (topic : GossipTopic) (data : Bytes)
  : option GossipCache :=
  match expire_timeout c (gt_kind topic) with
  | None => Some c
  | Some timeout =>
      let '(all, msgs) := entry_or_insert topic ∅ (topic_msgs c) in
      match msgs !! data with
      | Some key =>
          let* q := kq_reset (expirations c) key now timeout in Some (set_msgs c q all)
      | None =>
          let '(key, q) := kq_insert (expirations c) now (topic, data) timeout in
          Some (set_msgs c q (<[topic := <[data := key]> msgs]> all))
      end
  end.

Fixpoint remove_keys (q : KeyedQueue (GossipTopic * Bytes)) (keys : list Z)
  : option (KeyedQueue (GossipTopic * Bytes)) :=
  match keys with
  | [] => Some q
  | key :: keys => let* q := kq_remove q key in remove_keys q keys
  end.

Definition retrieve (c : GossipCache) (topic : GossipTopic) : option (option (list Bytes) * GossipCache) :=
  match topic_msgs c !! topic with
  | Some msgs =>
      let all := delete topic (topic_msgs c) in
      let* q := remove_keys (expirations c) (hash_iter msgs).*2 in
      Some (Some (hash_iter msgs).*1, set_msgs c q all)
  | None => Some (None, c)
  end.

Inductive CachePoll :=
  | CacheExpired (topic : GossipTopic)
  | CacheEmpty
  | CachePending.

(** [Stream::poll_next]. *)
Definition gc_poll_next (c : GossipCache) (now : Instant) : CachePoll * GossipCache :=
  match poll_expired (expirations c) now with
  | Some i =>
      match expirations c !! i with
      | Some ((_, (topic, data)), _) =>
          let q := dq_remove (expirations c) i in
          let all :=
            match topic_msgs c !! topic with
            | Some msgs =>
                let msgs := delete data msgs in
                if bool_decide (msgs = ∅) then delete topic (topic_msgs c)
                else <[topic := msgs]> (topic_msgs c)
            | None => topic_msgs c
            end in
          (CacheExpired topic, set_msgs c q all)
      | None => (CachePending, c)
      end
  | None => (if bool_decide (expirations c = []) then CacheEmpty else CachePending, c)
  end.

End gossip_cache.

(** ** Runs and the ideal cache

    The ideal cache maps each message it keeps to the instant it expires.  Which of several expired
    messages a poll reports, and in which order the messages of a topic are returned, is left open. *)

Section gossip_spec.
Context `{TopicCrates} `{HashIter} `{DelayQueue} `{DelayKeys}.

Inductive CacheCall :=
  | CallInsert (topic : GossipTopic) (data : Bytes)
  | CallRetrieve (topic : GossipTopic)
  | CallPoll.

Inductive CacheReply :=
  | ReplyDone
  | ReplyMsgs (msgs : option (list Bytes))
  | ReplyPoll (p : CachePoll).

Definition gc_call (c : GossipCache) (now : Instant) (call : CacheCall) : option (CacheReply * GossipCache) :=
  match call with
  | CallInsert topic data => let* c := gc_insert c now topic data in Some (ReplyDone, c)
  | CallRetrieve topic => let* r := retrieve c topic in Some (ReplyMsgs r.1, r.2)
  | CallPoll => let '(p, c) := gc_poll_next c now in Some (ReplyPoll p, c)
  end.

Fixpoint gc_run (c : GossipCache) (calls : list (Instant * CacheCall))
  : option (list CacheReply * GossipCache) :=
  match calls with
  | [] => Some ([], c)
  | (now, call) :: calls =>
      let* r := gc_call c now call in
      let* rs := gc_run r.2 calls in
      Some (r.1 :: rs.1, rs.2)
  end.

Abbreviation Ideal := (gmap (GossipTopic * Bytes) Instant) (only parsing).

Inductive ideal_call (timeout : GossipKind -> option Duration) (m : Ideal) (now : Instant)
  : CacheCall -> CacheReply -> Ideal -> Prop :=
  | ideal_keep topic data t :
      timeout (gt_kind topic) = Some t ->
      ideal_call timeout m now (CallInsert topic data) ReplyDone (<[(topic, data) := now + t]> m)
  | ideal_ignore topic data :
      timeout (gt_kind topic) = None -> ideal_call timeout m now (CallInsert topic data) ReplyDone m
  | ideal_retrieve topic l :
      l <> [] -> NoDup l -> (forall data, data ∈ l <-> is_Some (m !! (topic, data))) ->
      ideal_call timeout m now (CallRetrieve topic) (ReplyMsgs (Some l)) (filter (fun e => e.1.1 <> topic) m)
  | ideal_nothing topic :
      (forall data, m !! (topic, data) = None) ->
      ideal_call timeout m now (CallRetrieve topic) (ReplyMsgs None) m
  | ideal_expire topic data deadline :
      m !! (topic, data) = Some deadline -> deadline <= now ->
      ideal_call timeout m now CallPoll (ReplyPoll (CacheExpired topic)) (delete (topic, data) m)
  | ideal_empty : m = ∅ -> ideal_call timeout m now CallPoll (ReplyPoll CacheEmpty) m
  | ideal_pending :
      m <> ∅ -> (forall k deadline, m !! k = Some deadline -> now < deadline) ->
      ideal_call timeout m now CallPoll (ReplyPoll CachePending) m.

Inductive ideal_run (timeout : GossipKind -> option Duration)
  : Ideal -> list (Instant * CacheCall) -> list CacheReply -> Ideal -> Prop :=
  | ideal_done m : ideal_run timeout m [] [] m
  | ideal_then m now call reply m' calls replies m'' :
      ideal_call timeout m now call reply m' -> ideal_run timeout m' calls replies m'' ->
      ideal_run timeout m ((now, call) :: calls) (reply :: replies) m''.

(** The messages of all topics in one table. *)
Definition flatten {A} (all : gmap GossipTopic (gmap Bytes A)) : gmap (GossipTopic * Bytes) A :=
  map_uncurry (M1 := gmap GossipTopic) (M2 := gmap Bytes) all.

(** A cache holds the messages of an ideal one, each expiring when it should. *)
Record holds (c : GossipCache) (m : Ideal) : Prop := {
  h_timers : timers_ok Some (expirations c) (flatten (topic_msgs c));
  h_nonempty : forall topic msgs, topic_msgs c !! topic = Some msgs -> msgs <> ∅;
  h_entries : forall v deadline, m !! v = Some deadline <-> expires (expirations c) v deadline;
}.

End gossip_spec.

(** ** Lemmas *)

Section gossip_lemmas.
Context `{TopicCrates} `{HashIter} `{DelayQueue} `{DelayKeys}.
Implicit Types (c : GossipCache) (m : gmap (GossipTopic * Bytes) Instant).

Lemma lookup_flatten {A} (all : gmap GossipTopic (gmap Bytes A)) topic data :
  flatten all !! (topic, data) = all !! topic ≫= (.!! data).
Proof. apply lookup_map_uncurry. Qed.

Lemma flatten_insert {A} (all : gmap GossipTopic (gmap Bytes A)) topic msgs data x :
  default ∅ (all !! topic) = msgs ->
  flatten (<[topic := <[data := x]> msgs]> all) = <[(topic, data) := x]> (flatten all).
Proof.
  intros <-. apply map_eq. intros [t d]. rewrite lookup_flatten, !lookup_insert, lookup_flatten.
  repeat case_decide; simplify_eq/=; rewrite ?lookup_insert; repeat case_decide; try done; simplify_eq;
    by destruct (all !! _).
Qed.

(** Removing one message, and its topic with the last message. *)
Lemma flatten_remove {A} (all : gmap GossipTopic (gmap Bytes A)) topic msgs data
  `{!Decision (delete data msgs = ∅)} :
  all !! topic = Some msgs ->
  flatten (if bool_decide (delete data msgs = ∅) then delete topic all
           else <[topic := delete data msgs]> all) = delete (topic, data) (flatten all).
Proof.
  intros Ht. apply map_eq. intros [t d]. rewrite lookup_delete, !lookup_flatten.
  case_bool_decide as E; rewrite ?lookup_delete, ?lookup_insert; repeat case_decide; simplify_eq/=;
    rewrite ?Ht; simpl; try done.
  - pose proof (lookup_delete_ne msgs data d ltac:(congruence)) as Hl. by rewrite E, lookup_empty in Hl.
  - by rewrite lookup_delete_eq.
  - by rewrite lookup_delete_ne by congruence.
Qed.

Lemma holds_dom c m v : holds c m -> (is_Some (m !! v) <-> is_Some (flatten (topic_msgs c) !! v)).
Proof.
  intros [Ht _ He]. split.
  - intros [d [k Hk]%He]. destruct (to_entry _ _ _ Ht _ _ _ Hk) as (k' & Hl & _). by eexists.
  - intros [k Hk]. destruct (to_info _ _ _ Ht _ _ k Hk eq_refl) as [d Hd]. exists d. apply He. by eexists.
Qed.

(** The key of a message is the one in the table. *)
Lemma holds_key c m k v d :
  holds c m -> ((k, v), d) ∈ expirations c -> flatten (topic_msgs c) !! v = Some k.
Proof. intros Hh Hk. destruct (to_entry _ _ _ (h_timers _ _ Hh) _ _ _ Hk) as (k' & Hl & [= ->]). done. Qed.

Lemma set_msgs_proj c q all :
  expirations (set_msgs c q all) = q /\ topic_msgs (set_msgs c q all) = all /\
  expire_timeout (set_msgs c q all) = expire_timeout c.
Proof. by destruct c. Qed.

Lemma holds_set_msgs c q all m :
  timers_ok Some q (flatten all) -> (forall topic msgs, all !! topic = Some msgs -> msgs <> ∅) ->
  (forall v deadline, m !! v = Some deadline <-> expires q v deadline) ->
  holds (set_msgs c q all) m.
Proof. destruct (set_msgs_proj c q all) as (E1 & E2 & _). split; rewrite ?E1, ?E2; done. Qed.

Lemma gc_insert_ok c m now topic data :
  holds c m -> exists c' m', gc_insert c now topic data = Some c' /\
    ideal_call (expire_timeout c) m now (CallInsert topic data) ReplyDone m' /\
    holds c' m' /\ expire_timeout c' = expire_timeout c.
Proof.
  intros Hh. unfold gc_insert. destruct (expire_timeout c (gt_kind topic)) as [t|] eqn:Et.
  2:{ exists c, m. split_and!; [done|by constructor|done..]. }
  assert (exists all msgs, entry_or_insert topic ∅ (topic_msgs c) = (all, msgs) /\
    default ∅ (topic_msgs c !! topic) = msgs /\ (msgs = ∅ \/ all = topic_msgs c) /\
    forall x, <[topic := x]> all = <[topic := x]> (topic_msgs c)) as (all & msgs & -> & Hm & Ha & Hi).
  { unfold entry_or_insert. destruct (topic_msgs c !! topic) eqn:El; eexists _, _; split_and!; eauto.
    intros x. apply insert_insert_eq. }
  destruct (msgs !! data) as [key|] eqn:Ed.
  - assert (all = topic_msgs c) as -> by (destruct Ha as [->|?]; [by rewrite lookup_empty in Ed|done]).
    assert (flatten (topic_msgs c) !! (topic, data) = Some key) as Hf.
    { rewrite lookup_flatten. destruct (topic_msgs c !! topic); simpl in *; [by subst|].
      subst. by rewrite lookup_empty in Ed. }
    destruct (timers_reset Some _ _ _ _ key now t (h_timers _ _ Hh) Hf eq_refl) as (q & Hq & Hok).
    rewrite Hq. eexists _, _. split; [done|]. split; [by econstructor|]. split; [|by destruct c].
    apply holds_set_msgs; [done|apply Hh|]. intros v deadline.
    rewrite (expires_reset Some _ _ _ _ key now t q v deadline (h_timers _ _ Hh) Hf eq_refl Hq), lookup_insert.
    case_decide; case_decide; simplify_eq; [naive_solver|]. apply Hh.
  - assert (flatten (topic_msgs c) !! (topic, data) = None) as Hf.
    { rewrite lookup_flatten. destruct (topic_msgs c !! topic); simpl in *; by subst. }
    destruct (kq_insert (expirations c) now (topic, data) t) as [key q] eqn:Hq.
    eexists _, _. split; [done|]. split; [by econstructor|]. split; [|by destruct c].
    replace q with (kq_insert (expirations c) now (topic, data) t).2 by by rewrite Hq.
    apply holds_set_msgs.
    + rewrite Hi, flatten_insert by done. apply timers_insert; [apply Hh|done|]. by rewrite Hq.
    + intros t' ms. rewrite Hi, lookup_insert. case_decide; [|apply Hh]. intros [= <-]. apply insert_non_empty.
    + intros v deadline. rewrite (expires_insert Some _ _ _ _ _ v deadline (h_timers _ _ Hh) Hf), lookup_insert.
      case_decide; case_decide; simplify_eq; [naive_solver|]. apply Hh.
Qed.

(** The loop of [retrieve] removes every key and with it the messages. *)
Lemma remove_keys_ok (l : list (Bytes * Z)) topic (q : KeyedQueue (GossipTopic * Bytes)) M :
  timers_ok Some q M -> NoDup l.*1 -> (forall data k, (data, k) ∈ l -> M !! (topic, data) = Some k) ->
  exists q', remove_keys q l.*2 = Some q' /\
    timers_ok Some q' (filter (fun e => ~ (e.1.1 = topic /\ e.1.2 ∈ l.*1)) M) /\
    forall v deadline, expires q' v deadline <-> ~ (v.1 = topic /\ v.2 ∈ l.*1) /\ expires q v deadline.
Proof.
  revert q M. induction l as [|[data k] l IH]; intros q M Hq Hnd Hl.
  - exists q. split; [done|]. rewrite map_filter_id; [|set_solver]. split; [done|]. set_solver.
  - apply NoDup_cons in Hnd as [Hni Hnd]. pose proof (Hl data k ltac:(left)) as Hk.
    destruct (timers_remove Some q M (topic, data) k k Hq Hk eq_refl) as (q1 & Hq1 & Hok1).
    cbn [fmap list_fmap remove_keys snd]. rewrite Hq1.
    destruct (IH q1 (delete (topic, data) M) Hok1 Hnd) as (q' & Hq' & Hok' & He).
    { intros d k' Hin. rewrite lookup_delete_ne; [by apply Hl; right|]. intros [= ->]. apply Hni.
      apply list_elem_of_fmap. by exists (d, k'). }
    exists q'. split; [done|]. split.
    + replace (filter _ M) with
        (filter (fun e : (GossipTopic * Bytes) * Z => ~ (e.1.1 = topic /\ e.1.2 ∈ l.*1)) (delete (topic, data) M));
        [done|]. apply map_eq. intros [t d]. apply option_eq. intros x.
      rewrite !map_lookup_filter_Some, lookup_delete_Some. simpl. rewrite elem_of_cons. naive_solver.
    + intros [t d] deadline. rewrite He. unfold kq_remove in Hq1. case_decide; [|done].
      injection Hq1 as <-. rewrite (expires_delete Some q M (topic, data) k k (t, d) deadline Hq Hk eq_refl).
      simpl. rewrite elem_of_cons. naive_solver.
Qed.

Lemma retrieve_ok c m now topic :
  holds c m -> exists r c' m', retrieve c topic = Some (r, c') /\
    ideal_call (expire_timeout c) m now (CallRetrieve topic) (ReplyMsgs r) m' /\
    holds c' m' /\ expire_timeout c' = expire_timeout c.
Proof.
  intros Hh. unfold retrieve. destruct (topic_msgs c !! topic) as [msgs|] eqn:Et.
  2:{ exists None, c, m. split_and!; [done| |done..]. constructor. intros data. apply eq_None_not_Some.
      rewrite (holds_dom _ _ _ Hh), lookup_flatten, Et. by intros [? ?]. }
  pose proof (hash_iter_perm msgs) as Hp.
  assert (Hin : forall data k, (data, k) ∈ hash_iter msgs <-> msgs !! data = Some k).
  { intros data k. by rewrite Hp, elem_of_map_to_list. }
  assert (Hdom : forall data, data ∈ (hash_iter msgs).*1 <-> is_Some (msgs !! data)).
  { intros data. rewrite list_elem_of_fmap. split.
    - intros ([d k] & -> & Hd%Hin). by eexists.
    - intros [k Hk%Hin]. by exists (data, k). }
  assert (NoDup (hash_iter msgs).*1) as Hnd by (rewrite Hp; apply NoDup_fst_map_to_list).
  destruct (remove_keys_ok (hash_iter msgs) topic (expirations c) (flatten (topic_msgs c)) (h_timers _ _ Hh) Hnd)
    as (q & -> & Hok & He).
  { intros data k Hd%Hin. by rewrite lookup_flatten, Et. }
  eexists _, _, _. split; [done|]. split.
  { constructor; [|done|].
    - intros E. apply (h_nonempty _ _ Hh _ _ Et). apply map_empty. intros data. apply eq_None_not_Some.
      rewrite <- Hdom, E. set_solver.
    - intros data. rewrite Hdom, (holds_dom _ _ _ Hh), lookup_flatten, Et. done. }
  split; [|by destruct c]. apply holds_set_msgs.
  - replace (flatten (delete topic (topic_msgs c))) with
      (filter (fun e : (GossipTopic * Bytes) * Z => ~ (e.1.1 = topic /\ e.1.2 ∈ (hash_iter msgs).*1))
         (flatten (topic_msgs c))); [done|].
    apply map_eq. intros [t d]. apply option_eq. intros x.
    rewrite map_lookup_filter_Some, !lookup_flatten, lookup_delete. simpl. rewrite Hdom.
    case_decide; simplify_eq/=; [rewrite Et; simpl|]; naive_solver.
  - intros t ms. rewrite lookup_delete. case_decide; [done|]. apply Hh.
  - intros [t d] deadline. rewrite map_lookup_filter_Some, He, (h_entries _ _ Hh). simpl. rewrite Hdom.
    split; [naive_solver|]. intros [Hne Hx]. split; [done|]. intros ->. apply Hne. split; [done|].
    destruct (proj1 (holds_dom c m (topic, d) Hh)) as [k Hk]; [by exists deadline; apply Hh|].
    rewrite lookup_flatten, Et in Hk. by exists k.
Qed.

Lemma gc_poll_ok c m now :
  holds c m -> exists m',
    ideal_call (expire_timeout c) m now CallPoll (ReplyPoll (gc_poll_next c now).1) m' /\
    holds (gc_poll_next c now).2 m' /\ expire_timeout (gc_poll_next c now).2 = expire_timeout c.
Proof.
  intros Hh. unfold gc_poll_next. destruct (poll_expired (expirations c) now) as [i|] eqn:Ep.
  - destruct (poll_expired_Some _ _ _ Ep) as ([k [topic data]] & deadline & Hi & Hd). rewrite Hi.
    pose proof (list_elem_of_lookup_2 _ _ _ Hi) as Hin. pose proof (holds_key _ _ _ _ _ Hh Hin) as Hk.
    destruct (timers_expire Some _ _ _ _ _ _ (h_timers _ _ Hh) Hi) as (k' & _ & _ & Hok & _).
    assert (exists msgs, topic_msgs c !! topic = Some msgs) as [msgs Et].
    { rewrite lookup_flatten in Hk. destruct (topic_msgs c !! topic); [by eexists|done]. }
    exists (delete (topic, data) m). rewrite Et. split; [econstructor; [|exact Hd]|split; [|by destruct c]].
    { apply (h_entries _ _ Hh). by exists k. }
    apply holds_set_msgs.
    + by rewrite flatten_remove.
    + intros t ms. case_bool_decide; rewrite ?lookup_delete, ?lookup_insert; case_decide; try apply Hh; try done.
      by intros [= <-].
    + intros v d. rewrite (dq_remove_filter _ _ k (topic, data) deadline) by (done || apply Hh).
      rewrite (expires_delete Some _ _ _ _ k v d (h_timers _ _ Hh) Hk eq_refl), lookup_delete_Some.
      rewrite (h_entries _ _ Hh). naive_solver.
  - apply poll_expired_None in Ep. exists m. split; [|done]. simpl. case_bool_decide as E; constructor.
    + apply map_empty. intros v. apply eq_None_not_Some. intros [d [k Hk]%(h_entries _ _ Hh)]. rewrite E in Hk.
      set_solver.
    + intros ->. destruct (expirations c) as [|[[k v] d] q] eqn:Eq; [done|].
      pose proof (proj2 (h_entries _ _ Hh v d)) as Hx. rewrite lookup_empty in Hx. discriminate Hx.
      exists k. rewrite Eq. left.
    + intros v d [k Hk]%(h_entries _ _ Hh). rewrite Forall_forall in Ep. exact (Ep _ Hk).
Qed.

Lemma gc_call_ok c m now call :
  holds c m -> exists reply c' m', gc_call c now call = Some (reply, c') /\
    ideal_call (expire_timeout c) m now call reply m' /\ holds c' m' /\ expire_timeout c' = expire_timeout c.
Proof.
  intros Hh. destruct call as [topic data|topic|]; simpl.
  - destruct (gc_insert_ok c m now topic data Hh) as (c' & m' & -> & ?). by eexists _, _, _.
  - destruct (retrieve_ok c m now topic Hh) as (r & c' & m' & -> & ?). by eexists _, _, _.
  - destruct (gc_poll_ok c m now Hh) as (m' & ?). destruct (gc_poll_next c now). by eexists _, _, _.
Qed.

Lemma holds_new g : holds (gc_build g) ∅.
Proof.
  split; simpl.
  - apply timers_empty.
  - intros t ms. by rewrite lookup_empty.
  - intros v d. rewrite lookup_empty. split; [done|]. intros [k Hk]. set_solver.
Qed.

End gossip_lemmas.

(** ** Theorem *)

Section gossip_theorems.
Context `{TopicCrates} `{HashIter} `{DelayQueue} `{DelayKeys}.

(** C23: in any sequence of calls on a new cache, no timer key is missing (nothing panics) and every
    reply is one the ideal cache can give: a message is kept until its time, counted from its last
    insertion, has passed, it is returned once, with all the others of its topic, and nothing else is
    returned; a poll reports the topic of an expired message whenever there is one. *)
Theorem gossip_cache_refines g calls :
  exists replies c m, gc_run (gc_build g) calls = Some (replies, c) /\
    ideal_run (expire_timeout (gc_build g)) ∅ calls replies m /\ holds c m.
Proof.
  enough (forall c m, holds c m -> exists replies c' m', gc_run c calls = Some (replies, c') /\
    ideal_run (expire_timeout c) m calls replies m' /\ holds c' m') as Hgen by apply Hgen, holds_new.
  induction calls as [|[now call] calls IH]; intros c m Hh; simpl.
  - eexists _, _, _. split; [done|]. split; [constructor|done].
  - destruct (gc_call_ok c m now call Hh) as (reply & c1 & m1 & -> & Hc & Hh1 & Ht).
    destruct (IH c1 m1 Hh1) as (replies & c2 & m2 & Hr & Hi & Hh2). simpl. rewrite Hr.
    eexists _, _, _. split; [done|]. split; [|done]. econstructor; [done|]. by rewrite <- Ht.
Qed.

End gossip_theorems.

(** ** Closed instances *)

Module GossipCacheExamples.

#[local] Existing Instance Toy.chain.
#[local] Existing Instance TopicsExamples.toy_crates.
#[local] Existing Instance ToyTimers.first_expired_queue.
#[local] Existing Instance ToyTimers.increasing_keys.

Definition topic (subnet : Z) : GossipTopic := GossipTopic_new (GossipKind.Attestation subnet) SSZSnappy 5.

(** Two messages for subnet 1 and one for subnet 2 are kept for 100 ns; the first is inserted again at
    50.  A peer subscribes to subnet 1 at 120, and the message for subnet 2 expires. *)
Definition calls : list (Instant * CacheCall) :=
  [(0, CallInsert (topic 1) [1]); (10, CallInsert (topic 1) [2]); (20, CallInsert (topic 2) [3]);
   (50, CallInsert (topic 1) [1]); (90, CallPoll); (112, CallPoll); (119, CallRetrieve (topic 1));
   (119, CallRetrieve (topic 1)); (119, CallPoll); (120, CallPoll); (120, CallPoll)].

Example cache_example :
  fst <$> gc_run (gc_build (default_timeout gc_builder 100)) calls =
  Some [ReplyDone; ReplyDone; ReplyDone; ReplyDone; ReplyPoll CachePending;
        ReplyPoll (CacheExpired (topic 1)); ReplyMsgs (Some [[1]]); ReplyMsgs None;
        ReplyPoll CachePending; ReplyPoll (CacheExpired (topic 2)); ReplyPoll CacheEmpty].
Proof. evaluate. Qed.

(** Without a timeout a kind is not kept. *)
Example not_kept :
  fst <$> gc_run (gc_build (beacon_block_timeout gc_builder 100)) calls =
  Some [ReplyDone; ReplyDone; ReplyDone; ReplyDone; ReplyPoll CacheEmpty; ReplyPoll CacheEmpty;
        ReplyMsgs None; ReplyMsgs None; ReplyPoll CacheEmpty; ReplyPoll CacheEmpty; ReplyPoll CacheEmpty].
Proof. evaluate. Qed.

End GossipCacheExamples.
