(* ===== verification/Globals.v ===== *)
(** * State shared across the network layer ([types/globals.rs], [types/sync_state.rs])

    The variables other parts of the client can reach.  Each lock of the source protects one field; every
    method takes the locks it needs one after the other, and the model runs it as one step. *)

From S2P Require Import Prelude Chain Protocol Messages Text Float64 Score PeerInfo PeerDB Topics.

(** ** The state of synchronisation *)

Module SyncState.

Inductive SyncState :=
  | SyncingFinalized (start_slot target_slot : Slot)
  | SyncingHead (start_slot target_slot : Slot)
  | BackFillSyncing (completed remaining : Z)
  | SyncTransition
  | Synced
  | Stalled.

End SyncState.
Abbreviation SyncState := SyncState.SyncState.

Inductive BackFillState := BackFillPaused | BackFillSyncing | BackFillCompleted | BackFillFailed.

(** [PartialEq]: only the variants are compared. *)
Definition SyncState_eq (a b : SyncState) : bool :=
  match a, b with
  | SyncState.SyncingFinalized _ _, SyncState.SyncingFinalized _ _
  | SyncState.SyncingHead _ _, SyncState.SyncingHead _ _
  | SyncState.Synced, SyncState.Synced
  | SyncState.Stalled, SyncState.Stalled
  | SyncState.SyncTransition, SyncState.SyncTransition
  | SyncState.BackFillSyncing _ _, SyncState.BackFillSyncing _ _ => true
  | _, _ => false
  end.

Definition is_syncing (s : SyncState) : bool :=
  match s with
  | SyncState.SyncingFinalized _ _ | SyncState.SyncingHead _ _ | SyncState.SyncTransition => true
  | SyncState.BackFillSyncing _ _ | SyncState.Synced | SyncState.Stalled => false
  end.

Definition is_syncing_finalized (s : SyncState) : bool :=
  match s with SyncState.SyncingFinalized _ _ => true | _ => false end.

Definition SyncState_is_synced (s : SyncState) : bool :=
  match s with SyncState.Synced | SyncState.BackFillSyncing _ _ => true | _ => false end.

Definition is_stalled (s : SyncState) : bool :=
  match s with SyncState.Stalled => true | _ => false end.

Definition SyncState_to_string (s : SyncState) : string :=
  match s with
  | SyncState.SyncingFinalized _ _ => "Syncing Finalized Chain"
  | SyncState.SyncingHead _ _ => "Syncing Head Chain"
  | SyncState.Synced => "Synced"
  | SyncState.Stalled => "Stalled"
  | SyncState.SyncTransition => "Evaluating known peers"
  | SyncState.BackFillSyncing _ _ => "Syncing Historical Blocks"
  end.

(** What the source uses of [eip_7594], the chain configuration and the node identifiers of records. *)
Class CustodyCrates `{ChainTypes} `{Libp2p} := {
  NodeId : Type;
  (** [NodeId::parse] of 32 bytes. *)
  node_id_parse : list Z -> NodeId;
  enr_node_id : Enr -> NodeId;
  config_number_of_custody_groups : ChainConfig -> Z;
  config_sampling_size_custody_groups : ChainConfig -> Z -> Z;
  (** [None] stands for an error of the crate. *)
  get_custody_groups : ChainConfig -> NodeId -> Z -> option (gset Z);
  compute_subnets_from_custody_group : ChainConfig -> Z -> option (list SubnetId);
  compute_subnet_for_data_column_sidecar : ChainConfig -> Z -> SubnetId;
}.

Section globals.
Context `{ChainTypes} `{Libp2p} `{!CustodyCrates} `{HashIter} `{FloatExp} `{UnstableSort}.

(** The fields of [NetworkConfig] that are read through the globals. *)
Record NetworkFlags := mkNetworkFlags {
  nf_enable_light_client_server : bool;
  nf_subscribe_all_subnets : bool;
  nf_subscribe_all_data_column_subnets : bool;
}.

Record NetworkGlobals := mkNetworkGlobals {
  g_config : ChainConfig;
  local_enr : Enr;
  g_peer_id : PeerId;
  listen_multiaddrs : list Multiaddr;
  g_peers : PeerDB;
  local_metadata : MetaData;
  gossipsub_subscriptions : gset GossipTopic;
  sync_state : SyncState;
  backfill_state : BackFillState;
  sampling_subnets : gset SubnetId;
  target_subnet_peers : Z;
  network_config : NetworkFlags;
}.

Definition set_g_peers (g : NetworkGlobals) (db : PeerDB) : NetworkGlobals :=
  mkNetworkGlobals (g_config g) (local_enr g) (g_peer_id g) (listen_multiaddrs g) db (local_metadata g)
    (gossipsub_subscriptions g) (sync_state g) (backfill_state g) (sampling_subnets g)
    (target_subnet_peers g) (network_config g).
Definition set_g_sync_state (g : NetworkGlobals) (s : SyncState) : NetworkGlobals :=
  mkNetworkGlobals (g_config g) (local_enr g) (g_peer_id g) (listen_multiaddrs g) (g_peers g)
    (local_metadata g) (gossipsub_subscriptions g) s (backfill_state g) (sampling_subnets g)
    (target_subnet_peers g) (network_config g).
Definition set_g_sampling (g : NetworkGlobals) (s : gset SubnetId) : NetworkGlobals :=
  mkNetworkGlobals (g_config g) (local_enr g) (g_peer_id g) (listen_multiaddrs g) (g_peers g)
    (local_metadata g) (gossipsub_subscriptions g) (sync_state g) (backfill_state g) s
    (target_subnet_peers g) (network_config g).

(** The subnets of the custody groups, added to a set; [None] stands for the panic of [expect]. *)
Fixpoint extend_subnets (config : ChainConfig) (groups : list Z) (acc : gset SubnetId)
  : option (gset SubnetId) :=
  match groups with
  | [] => Some acc
  | custody_index :: groups =>
      let* subnets := compute_subnets_from_custody_group config custody_index in
      extend_subnets config groups (acc ∪ list_to_set subnets)
  end.

(** The custody group count of the metadata, or the requirement when it is missing or too large. *)
Definition initial_cgc (config : ChainConfig) (m : MetaData) : Z :=
  match custody_group_count m with
  | Some cgc => if cgc <=? config_number_of_custody_groups config then cgc else config_custody_requirement config
  | None => config_custody_requirement config
  end.

Definition NetworkGlobals_new (config : ChainConfig) (e : Enr) (metadata : MetaData)
  (trusted_peers : list PeerId) (disable_peer_scoring : bool) (target_subnet_peers : Z)
  (flags : NetworkFlags) : option NetworkGlobals :=
  let sampling_size := config_sampling_size_custody_groups config (initial_cgc config metadata) in
  let* custody_groups := get_custody_groups config (enr_node_id e) sampling_size in
  let* sampling := extend_subnets config (set_iter custody_groups) ∅ in
  Some (mkNetworkGlobals config e (enr_peer_id e) [] (PeerDB_new trusted_peers disable_peer_scoring)
          metadata ∅ SyncState.Stalled BackFillPaused sampling target_subnet_peers flags).

Definition update_data_column_subnets (g : NetworkGlobals) (sampling_size : Z) : option NetworkGlobals :=
  let* custody_groups := get_custody_groups (g_config g) (enr_node_id (local_enr g)) sampling_size in
  let* sampling := extend_subnets (g_config g) (set_iter custody_groups) (sampling_subnets g) in
  Some (set_g_sampling g sampling).

Definition g_connected_peers (g : NetworkGlobals) : Z := Z.of_nat (length (connected_peers (g_peers g))).
Definition g_is_peer_connected (g : NetworkGlobals) (p : PeerId) : bool := db_is_connected (g_peers g) p.
Definition g_connected_outbound_only_peers (g : NetworkGlobals) : Z :=
  Z.of_nat (length (connected_outbound_only_peers (g_peers g))).
Definition g_connected_or_dialing_peers (g : NetworkGlobals) : Z :=
  Z.of_nat (length (connected_or_dialing_peers (g_peers g))).
Definition g_is_syncing (g : NetworkGlobals) : bool := is_syncing (sync_state g).
Definition g_client (g : NetworkGlobals) (p : PeerId) : Client :=
  from_option pi_client Client_default (peers (g_peers g) !! p).
Definition g_add_trusted_peer (g : NetworkGlobals) (e : Enr) : NetworkGlobals :=
  set_g_peers g (set_trusted_peer (g_peers g) e).
Definition g_remove_trusted_peer (g : NetworkGlobals) (now : Instant) (e : Enr) : NetworkGlobals :=
  set_g_peers g (unset_trusted_peer (g_peers g) now e).
Definition g_trusted_peers (g : NetworkGlobals) : list PeerId := trusted_peers (g_peers g).

(** The old state is returned. *)
Definition set_sync_state (g : NetworkGlobals) (new_state : SyncState) : SyncState * NetworkGlobals :=
  (sync_state g, set_g_sync_state g new_state).

Definition custody_peers_for_column (g : NetworkGlobals) (column_index : Z) : list PeerId :=
  good_custody_subnet_peer (g_peers g) (compute_subnet_for_data_column_sidecar (g_config g) column_index).

Definition is_custody_peer_of (g : NetworkGlobals) (column_index : Z) (p : PeerId) : bool :=
  match peers (g_peers g) !! p with
  | Some info =>
      is_assigned_to_custody_subnet info (compute_subnet_for_data_column_sidecar (g_config g) column_index)
  | None => false
  end.

Definition as_topic_config (g : NetworkGlobals) : TopicConfig :=
  let c := network_config g in
  mkTopicConfig (nf_enable_light_client_server c) (nf_subscribe_all_subnets c)
    (nf_subscribe_all_data_column_subnets c) (sampling_subnets g).

End globals.

(** ** Lemmas *)

Section globals_lemmas.
Context `{ChainTypes} `{Libp2p} `{!CustodyCrates} `{HashIter} `{FloatExp} `{UnstableSort}.

(** A subnet of one of the groups. *)
Definition subnet_of_groups (config : ChainConfig) (groups : gset Z) (s : SubnetId) : Prop :=
  exists group subnets, group ∈ groups /\
    compute_subnets_from_custody_group config group = Some subnets /\ s ∈ subnets.

Lemma extend_subnets_spec config groups : forall acc,
  match extend_subnets config groups acc with
  | Some r =>
      (forall s, s ∈ r <-> s ∈ acc \/ exists group subnets, group ∈ groups /\
         compute_subnets_from_custody_group config group = Some subnets /\ s ∈ subnets) /\
      Forall (fun group => is_Some (compute_subnets_from_custody_group config group)) groups
  | None => Exists (fun group => compute_subnets_from_custody_group config group = None) groups
  end.
Proof.
  induction groups as [|group groups IH]; intros acc; simpl; [set_solver|].
  destruct (compute_subnets_from_custody_group config group) as [subnets|] eqn:Hc; [|by constructor].
  specialize (IH (acc ∪ list_to_set subnets)).
  destruct (extend_subnets config groups (acc ∪ list_to_set subnets)) as [r|]; [|by apply Exists_cons_tl].
  destruct IH as [Hr Hall]. split; [|by constructor; eauto].
  intros s. rewrite Hr, elem_of_union, elem_of_list_to_set. setoid_rewrite elem_of_cons.
  split; [|naive_solver]. intros [[?|?]|(g & l & ? & ? & ?)]; eauto 10.
Qed.

End globals_lemmas.

(** ** Theorems *)

Section globals_theorems.
Context `{ChainTypes} `{Libp2p} `{!TopicCrates} `{!CustodyCrates} `{HashIter} `{FloatExp} `{UnstableSort}.

(** A node subscribes to the data columns it has to sample.  It starts exactly when its custody
    groups and their subnets can be computed; then, in a phase with PeerDAS and unless it subscribes to
    all, its column topics are those of the custody groups of its sampling size; and after the sampling
    size has been raised, they are those together with the groups of the new size. *)
Theorem sampled_columns_subscribed config e metadata trusted disable target flags size phase groups groups' :
  nf_subscribe_all_data_column_subnets flags = false -> is_peerdas_activated phase = true ->
  get_custody_groups config (enr_node_id e)
    (config_sampling_size_custody_groups config (initial_cgc config metadata)) = Some groups ->
  get_custody_groups config (enr_node_id e) size = Some groups' ->
  (forall group, group ∈ groups ∪ groups' -> is_Some (compute_subnets_from_custody_group config group)) ->
  exists g g', NetworkGlobals_new config e metadata trusted disable target flags = Some g /\
    update_data_column_subnets g size = Some g' /\ forall s,
    (GossipKind.DataColumnSidecar s ∈ core_topics_to_subscribe config phase (as_topic_config g) <->
       subnet_of_groups config groups s) /\
    (GossipKind.DataColumnSidecar s ∈ core_topics_to_subscribe config phase (as_topic_config g') <->
       subnet_of_groups config (groups ∪ groups') s).
Proof.
  intros Hflags Hp Hg Hg' Hall. unfold NetworkGlobals_new. rewrite Hg.
  assert (forall X acc, X ⊆ groups ∪ groups' -> exists r, extend_subnets config (set_iter X) acc = Some r /\
    forall s, s ∈ r <-> s ∈ acc \/ subnet_of_groups config X s) as Hext.
  { intros X acc HX. pose proof (extend_subnets_spec config (set_iter X) acc) as Hs.
    destruct (extend_subnets config (set_iter X) acc) as [r|].
    - exists r. split; [done|]. intros s. rewrite (proj1 Hs s). unfold subnet_of_groups.
      by setoid_rewrite elem_of_set_iter.
    - apply Exists_exists in Hs as (group & Hin & Hnone). apply elem_of_set_iter, HX, Hall in Hin.
      destruct Hin. congruence. }
  destruct (Hext groups ∅) as (r & -> & Hr); [set_solver|].
  destruct (Hext groups' r) as (r' & Hext' & Hr'); [set_solver|].
  eexists _, _. split; [reflexivity|]. unfold update_data_column_subnets. simpl. rewrite Hg', Hext'.
  split; [reflexivity|]. intros s. rewrite !core_topics_elem. simpl. rewrite Hflags, Hp.
  rewrite Hr', Hr. unfold subnet_of_groups. set_solver.
Qed.

End globals_theorems.

Module GlobalsExamples.

#[local] Existing Instance Toy.chain.
#[local] Existing Instance Toy.libp2p.
#[local] Existing Instance ScoreExamples.step_float_exp.
#[local] Existing Instance PeerDBExamples.stable_unstable_sort.
#[local] Existing Instance TopicsExamples.toy_crates.

(** 128 groups of one subnet each; a node has as many groups as it samples, from its own number on. *)
#[local] Instance toy_custody : @CustodyCrates Toy.chain Toy.libp2p := {
  NodeId := Z;
  node_id_parse := fun l => hd 0 l;
  enr_node_id := fun e : Z => e;
  config_number_of_custody_groups := fun _ => 128;
  config_sampling_size_custody_groups := fun _ n => Z.max n 8;
  get_custody_groups := fun _ node count =>
    if count <=? 128 then Some (list_to_set (map (fun i => (node + i) mod 128) (range count))) else None;
  compute_subnets_from_custody_group := fun _ group => if group <? 128 then Some [group] else None;
  compute_subnet_for_data_column_sidecar := fun _ column => column mod 128;
}.

Definition sampling_flags : NetworkFlags := mkNetworkFlags false false false.
Definition metadata4 : MetaData := MDV3 (mkMetaDataV3 0 [] [] 4).

Lemma sampled_columns_subscribed_witness :
  exists g g', NetworkGlobals_new (tt : @ChainConfig Toy.chain) (120 : @Enr Toy.libp2p) metadata4 [] false 3
      sampling_flags = Some g /\ update_data_column_subnets g 16 = Some g' /\ forall s,
    (GossipKind.DataColumnSidecar s ∈ core_topics_to_subscribe (tt : @ChainConfig Toy.chain) Fulu
       (as_topic_config g') <->
     subnet_of_groups (tt : @ChainConfig Toy.chain)
       (list_to_set (map (fun i => (120 + i) mod 128) (range 8)) ∪
        list_to_set (map (fun i => (120 + i) mod 128) (range 16))) s).
Proof.
  destruct (sampled_columns_subscribed (tt : @ChainConfig Toy.chain) (120 : @Enr Toy.libp2p) metadata4 [] false
    3 sampling_flags 16 Fulu (list_to_set (map (fun i => (120 + i) mod 128) (range 8)))
    (list_to_set (map (fun i => (120 + i) mod 128) (range 16)))) as (g & g' & Hg & Hg' & Hs);
    [reflexivity..| |].
  - intros group Hin. simpl.
    assert (group < 128) as Hlt.
    { rewrite elem_of_union, !elem_of_list_to_set, !list_elem_of_fmap in Hin.
      destruct Hin as [(i & -> & _)|(i & -> & _)]; apply Z.mod_pos_bound; lia. }
    apply Z.ltb_lt in Hlt as ->. eauto.
  - exists g, g'. split; [exact Hg|]. split; [exact Hg'|]. intros s. apply Hs.
Defined.

End GlobalsExamples.
