(* ===== verification/EnrExt.v ===== *)
(** * Addresses of a node record ([discovery/enr_ext.rs])

    The multiaddresses under which a record says its node can be reached, and the node identifier of a
    peer.  Reading the fields of a record, building multiaddresses and the cryptography are libraries. *)

From S2P Require Import Prelude Chain Protocol Messages Text Float64 Score PeerInfo PeerDB Topics Globals.

Definition QUIC_ENR_KEY : string := "quic".
Definition QUIC6_ENR_KEY : string := "quic6".

Inductive KeyType := KeySecp256k1 | KeyEd25519 | KeyOther.

Class EnrFields `{Libp2p} := {
  enr_ip4 : Enr -> option Z;
  enr_ip6 : Enr -> option Z;
  enr_udp4 : Enr -> option Z;
  enr_udp6 : Enr -> option Z;
  enr_tcp4 : Enr -> option Z;
  enr_tcp6 : Enr -> option Z;
  (** [get_decodable::<u16>]: absent, or present and possibly not a number. *)
  enr_get_u16 : Enr -> string -> option (result Z unit);
  (** [Multiaddr::from], [push] and [push] of [P2p]. *)
  multiaddr_from_ip : IpAddr -> Multiaddr;
  multiaddr_push : Multiaddr -> MultiaddrProtocol -> Multiaddr;
  multiaddr_push_p2p : Multiaddr -> PeerId -> Multiaddr;
  (** [PeerId::to_bytes] and [PublicKey::try_decode_protobuf]; the keys' own bytes; the hash. *)
  IdentityKey : Type;
  peer_id_to_bytes : PeerId -> list Z;
  try_decode_protobuf : list Z -> result IdentityKey string;
  key_type : IdentityKey -> KeyType;
  secp256k1_uncompressed : IdentityKey -> list Z;
  ed25519_bytes : IdentityKey -> list Z;
  keccak256 : list Z -> list Z;
}.

(** What the address functions rely on. *)
Class EnrFieldLaws `{EnrFields} : Prop := {
  iter_from_ip : forall ip, multiaddr_iter (multiaddr_from_ip ip) =
    [match ip with IpV4 a => MaIp4 a | IpV6 a => MaIp6 a end];
  iter_push : forall m c, multiaddr_iter (multiaddr_push m c) = multiaddr_iter m ++ [c];
  iter_push_p2p : forall m p, multiaddr_iter (multiaddr_push_p2p m p) = multiaddr_iter m ++ [MaOther];
}.

Section enr_ext.
Context `{EnrFields}.

Definition opt_ok {A E} (r : option (result A E)) : option A :=
  match r with Some (Ok v) => Some v | _ => None end.

Definition quic4 (e : Enr) : option Z := opt_ok (enr_get_u16 e QUIC_ENR_KEY).
Definition quic6 (e : Enr) : option Z := opt_ok (enr_get_u16 e QUIC6_ENR_KEY).

Definition udp_addr (ip : IpAddr) (port : Z) : Multiaddr := multiaddr_push (multiaddr_from_ip ip) (MaUdp port).
Definition tcp_addr (ip : IpAddr) (port : Z) : Multiaddr := multiaddr_push (multiaddr_from_ip ip) (MaTcp port).
Definition quic_addr (ip : IpAddr) (port : Z) : Multiaddr := multiaddr_push (udp_addr ip port) MaQuicV1.

(** One address if the port is set. *)
Definition with_port (mk : Z -> Multiaddr) (port : option Z) : list Multiaddr :=
  match port with Some p => [mk p] | None => [] end.

Definition multiaddr (e : Enr) : list Multiaddr :=
  match enr_ip4 e with
  | Some ip =>
      with_port (udp_addr (IpV4 ip)) (enr_udp4 e) ++ with_port (quic_addr (IpV4 ip)) (quic4 e) ++
      with_port (tcp_addr (IpV4 ip)) (enr_tcp4 e)
  | None => []
  end ++
  match enr_ip6 e with
  | Some ip6 =>
      with_port (udp_addr (IpV6 ip6)) (enr_udp6 e) ++ with_port (quic_addr (IpV6 ip6)) (quic6 e) ++
      with_port (tcp_addr (IpV6 ip6)) (enr_tcp6 e)
  | None => []
  end.

Definition p2p (e : Enr) (mk : Z -> Multiaddr) (port : Z) : Multiaddr :=
  multiaddr_push_p2p (mk port) (enr_peer_id e).

Definition multiaddr_p2p (e : Enr) : list Multiaddr :=
  match enr_ip4 e with
  | Some ip =>
      with_port (p2p e (udp_addr (IpV4 ip))) (enr_udp4 e) ++ with_port (p2p e (tcp_addr (IpV4 ip))) (enr_tcp4 e)
  | None => []
  end ++
  match enr_ip6 e with
  | Some ip6 =>
      with_port (p2p e (udp_addr (IpV6 ip6))) (enr_udp6 e) ++
      with_port (p2p e (tcp_addr (IpV6 ip6))) (enr_tcp6 e)
  | None => []
  end.

Definition multiaddr_p2p_tcp (e : Enr) : list Multiaddr :=
  match enr_ip4 e with
  | Some ip => with_port (p2p e (tcp_addr (IpV4 ip))) (enr_tcp4 e) | None => []
  end ++
  match enr_ip6 e with
  | Some ip6 => with_port (p2p e (tcp_addr (IpV6 ip6))) (enr_tcp6 e) | None => []
  end.

Definition multiaddr_p2p_udp (e : Enr) : list Multiaddr :=
  match enr_ip4 e with
  | Some ip => with_port (p2p e (udp_addr (IpV4 ip))) (enr_udp4 e) | None => []
  end ++
  match enr_ip6 e with
  | Some ip6 => with_port (p2p e (udp_addr (IpV6 ip6))) (enr_udp6 e) | None => []
  end.

Definition multiaddr_quic (e : Enr) : list Multiaddr :=
  match quic4 e with
  | Some quic_port => with_port (fun ip => quic_addr (IpV4 ip) quic_port) (enr_ip4 e) | None => []
  end ++
  match quic6 e with
  | Some quic6_port => with_port (fun ip6 => quic_addr (IpV6 ip6) quic6_port) (enr_ip6 e) | None => []
  end.

Definition multiaddr_tcp (e : Enr) : list Multiaddr :=
  match enr_ip4 e with
  | Some ip => with_port (tcp_addr (IpV4 ip)) (enr_tcp4 e) | None => []
  end ++
  match enr_ip6 e with
  | Some ip6 => with_port (tcp_addr (IpV6 ip6)) (enr_tcp6 e) | None => []
  end.

Inductive NodeIdError :=
  | CannotParseKey (e : string)
  | UnsupportedKey.

(** The bytes of the node identifier: the hash of the peer's public key. *)
Definition peer_id_to_node_id (p : PeerId) : result (list Z) NodeIdError :=
  let pk_bytes := drop 2 (peer_id_to_bytes p) in
  let? public_key := map_err CannotParseKey (try_decode_protobuf pk_bytes) in
  match key_type public_key with
  | KeySecp256k1 => Ok (keccak256 (drop 1 (secp256k1_uncompressed public_key)))
  | KeyEd25519 => Ok (keccak256 (ed25519_bytes public_key))
  | KeyOther => Err UnsupportedKey
  end.

End enr_ext.

(** ** Lemmas *)

Section enr_ext_lemmas.
Context `{EnrFieldLaws}.

Lemma elem_of_with_port mk port a : a ∈ with_port mk port <-> exists p, port = Some p /\ a = mk p.
Proof. destruct port; simpl; set_solver. Qed.

(** The shape of every address that is dialled: an IP address of the record with its TCP or QUIC port. *)
Lemma dial_address_shape e a :
  a ∈ multiaddr_quic e ++ multiaddr_tcp e ->
  exists ip : IpAddr,
    (match ip with IpV4 z => enr_ip4 e = Some z | IpV6 z => enr_ip6 e = Some z end) /\
    exists port, a = quic_addr ip port \/ a = tcp_addr ip port.
Proof.
  unfold multiaddr_quic, multiaddr_tcp.
  destruct (quic4 e), (quic6 e), (enr_ip4 e) as [i4|] eqn:H4, (enr_ip6 e) as [i6|] eqn:H6; simpl;
    rewrite ?elem_of_app, ?elem_of_cons, ?elem_of_app, ?elem_of_with_port, ?elem_of_nil; intros;
    destruct_or?; destruct_and?; subst; try done;
    first [exists (IpV4 i4); simpl; split; [congruence|]; naive_solver
          |exists (IpV6 i6); simpl; split; [congruence|]; naive_solver].
Qed.

Lemma find_ip_iter ip m c : multiaddr_iter m = [match ip with IpV4 a => MaIp4 a | IpV6 a => MaIp6 a end] ++ c ->
  find_ip (multiaddr_iter m) = Some ip.
Proof. intros ->. by destruct ip. Qed.

End enr_ext_lemmas.

(** ** Closed instances *)

Module EnrExtExamples.

(** A record is a number; it is also its IPv4 address, with port 9000 for TCP. *)
#[local] Instance toy_enr : @EnrFields Toy.libp2p := {
  enr_ip4 := fun e : Z => Some e; enr_ip6 := fun _ => None;
  enr_udp4 := fun _ => None; enr_udp6 := fun _ => None;
  enr_tcp4 := fun _ => Some 9000; enr_tcp6 := fun _ => None;
  enr_get_u16 := fun _ _ => None;
  multiaddr_from_ip := fun ip => match ip with IpV4 z | IpV6 z => z * 65536 end;
  multiaddr_push := fun a c => match c with MaTcp port => a + port | _ => a end;
  multiaddr_push_p2p := fun a _ => a;
  IdentityKey := Z;
  peer_id_to_bytes := fun p : Z => [0; 0; p];
  try_decode_protobuf := fun l => Ok (hd 0 l);
  key_type := fun _ => KeySecp256k1;
  secp256k1_uncompressed := fun k => [4; k];
  ed25519_bytes := fun k => [k];
  keccak256 := fun l => l;
}.

End EnrExtExamples.
