(* ===== verification/Config.v ===== *)
(** * Configuration ([config.rs], [listen_addr.rs], [defaults.rs])

    Listening addresses, the network configuration, the sizes of the gossipsub meshes, the bytes a
    message identifier is the hash of, and the test for globally reachable IP addresses.  An IPv4
    address is its 32-bit number, an IPv6 address its 128-bit number. *)

From Stdlib Require Import Ascii.
From S2P Require Import Prelude Chain Timers Enr Protocol Messages Text RateLimiter RateConfig Events.
From S2P Require Import ForkContext Float64 Score PeerInfo PeerDB Topics Globals EnrExt.

(** ** Globally reachable addresses *)

(** [Ipv4Addr::octets] and [Ipv6Addr::segments]: the [i]-th from the left. *)
Definition octet (addr : Z) (i : Z) : Z := Z.land (Z.shiftr addr (8 * (3 - i))) 255.
Definition segment (addr : Z) (i : Z) : Z := Z.land (Z.shiftr addr (16 * (7 - i))) 65535.

(** The predicates of [std::net::Ipv4Addr]. *)
Definition is_private (a : Z) : bool :=
  (octet a 0 =? 10) || ((octet a 0 =? 172) && (16 <=? octet a 1) && (octet a 1 <=? 31)) ||
  ((octet a 0 =? 192) && (octet a 1 =? 168)).
Definition is_loopback (a : Z) : bool := octet a 0 =? 127.
Definition is_link_local (a : Z) : bool := (octet a 0 =? 169) && (octet a 1 =? 254).
Definition is_broadcast (a : Z) : bool := a =? 2 ^ 32 - 1.
Definition ipv4_is_documentation (a : Z) : bool :=
  ((octet a 0 =? 192) && (octet a 1 =? 0) && (octet a 2 =? 2)) ||
  ((octet a 0 =? 198) && (octet a 1 =? 51) && (octet a 2 =? 100)) ||
  ((octet a 0 =? 203) && (octet a 1 =? 0) && (octet a 2 =? 113)).

Definition is_global_ipv4 (addr : Z) : bool :=
  if (addr =? 0xc0000009) || (addr =? 0xc000000a) then true
  else
    negb (is_private addr) && negb (is_loopback addr) && negb (is_link_local addr) &&
    negb (is_broadcast addr) && negb (ipv4_is_documentation addr) &&
    negb ((octet addr 0 =? 100) && (Z.land (octet addr 1) 0xc0 =? 0x40)) &&
    negb ((Z.land (octet addr 0) 240 =? 240) && negb (is_broadcast addr)) &&
    negb ((octet addr 0 =? 192) && (octet addr 1 =? 0) && (octet addr 2 =? 0)) &&
    negb (octet addr 0 =? 0).

Definition ipv6_is_documentation (a : Z) : bool := (segment a 0 =? 0x2001) && (segment a 1 =? 0xdb8).
Definition is_unique_local (a : Z) : bool := Z.land (segment a 0) 0xfe00 =? 0xfc00.
Definition is_unicast_link_local (a : Z) : bool := Z.land (segment a 0) 0xffc0 =? 0xfe80.

(** The segments from the left are the given ones. *)
Fixpoint segments_are (a : Z) (i : Z) (l : list Z) : bool :=
  match l with
  | [] => true
  | s :: l => (segment a i =? s) && segments_are a (i + 1) l
  end.

Definition is_global_ipv6 (addr : Z) : bool :=
  negb (
    (addr =? 0) || (addr =? 1) ||
    segments_are addr 0 [0; 0; 0; 0; 0; 0xffff] ||
    segments_are addr 0 [0x64; 0xff9b; 1] ||
    segments_are addr 0 [0x100; 0; 0; 0] ||
    ((segments_are addr 0 [0x2001] && (segment addr 1 <? 0x200)) &&
     negb ((addr =? 0x20010001000000000000000000000001) ||
           (addr =? 0x20010001000000000000000000000002) ||
           segments_are addr 0 [0x2001; 3] ||
           segments_are addr 0 [0x2001; 4; 0x112] ||
           (segments_are addr 0 [0x2001] && ((0x20 <=? segment addr 1) && (segment addr 1 <=? 0x2F))))) ||
    ipv6_is_documentation addr || is_unique_local addr || is_unicast_link_local addr).

(** ** Listening addresses *)

Record ListenAddr := mkListenAddr {
  la_addr : Z;
  disc_port : Z;
  la_quic_port : Z;
  la_tcp_port : Z;
}.

Inductive ListenAddress :=
  | ListenV4 (a : ListenAddr)
  | ListenV6 (a : ListenAddr)
  | DualStack (v4 v6 : ListenAddr).

Definition la_v4 (l : ListenAddress) : option ListenAddr :=
  match l with ListenV4 a | DualStack a _ => Some a | ListenV6 _ => None end.
Definition la_v6 (l : ListenAddress) : option ListenAddr :=
  match l with ListenV6 a | DualStack _ a => Some a | ListenV4 _ => None end.
Definition tcp_port (l : ListenAddress) : Z :=
  match l with ListenV4 a | DualStack a _ | ListenV6 a => la_tcp_port a end.
Definition udp_port (l : ListenAddress) : Z :=
  match l with ListenV4 a | DualStack a _ | ListenV6 a => disc_port a end.
Definition quic_port (l : ListenAddress) : Z :=
  match l with ListenV4 a | DualStack a _ | ListenV6 a => la_quic_port a end.

(** ** Gossipsub meshes *)

Record NetworkLoad := mkNetworkLoad {
  load_name : string;
  mesh_n_low : Z;
  outbound_min : Z;
  mesh_n : Z;
  mesh_n_high : Z;
  gossip_lazy : Z;
  history_gossip : Z;
  heartbeat_interval : Duration;
}.

Definition NetworkLoad_from (load : Z) : NetworkLoad :=
  match load with
  | 1 => mkNetworkLoad "Low" 1 1 3 4 3 3 (Duration_from_millis 1200)
  | 2 => mkNetworkLoad "Low" 2 2 4 8 3 3 (Duration_from_millis 1000)
  | 3 => mkNetworkLoad "Average" 3 2 5 10 3 3 (Duration_from_millis 1000)
  | 4 => mkNetworkLoad "Average" 4 3 8 10 2 3 (Duration_from_millis 1000)
  | _ => mkNetworkLoad "High" 5 3 10 15 5 6 (Duration_from_millis 700)
  end.

Definition DEFAULT_IPV4_ADDRESS : Z := 0.
Definition DEFAULT_TCP_PORT : Z := 9000.
Definition DEFAULT_DISC_PORT : Z := 9000.
Definition DEFAULT_QUIC_PORT : Z := 9001.
Definition DEFAULT_IDONTWANT_MESSAGE_SIZE_THRESHOLD : Z := 1000.

Section config.
Context `{ChainTypes} `{Libp2p} `{!EnrFields}.

(** The addresses the swarm listens on. *)
Definition libp2p_addresses (l : ListenAddress) : list Multiaddr :=
  let v4 := match la_v4 l with Some a => [a] | None => [] end in
  let v6 := match la_v6 l with Some a => [a] | None => [] end in
  map (fun a => tcp_addr (IpV4 (la_addr a)) (la_tcp_port a)) v4 ++
  map (fun a => quic_addr (IpV4 (la_addr a)) (la_quic_port a)) v4 ++
  map (fun a => quic_addr (IpV6 (la_addr a)) (la_quic_port a)) v6 ++
  map (fun a => tcp_addr (IpV6 (la_addr a)) (la_tcp_port a)) v6.

(** What the configuration sets of [discv5::Config]: where discovery listens, and which records may
    enter its table. *)
Record Discv5Config := mkDiscv5Config {
  listen_config : list (IpAddr * Z);
  table_filter : Enr -> bool;
}.

(** The fields of [Config] that the modelled code reads. *)
Record NetworkConfig := mkNetworkConfig {
  network_dir : option string;
  listen_addresses : ListenAddress;
  enr_address : option Z * option Z;
  enr_udp4_port : option Z;
  enr_quic4_port : option Z;
  enr_tcp4_port : option Z;
  enr_udp6_port : option Z;
  enr_tcp6_port : option Z;
  enr_quic6_port : option Z;
  nc_target_peers : Z;
  nc_target_subnet_peers : Z;
  discv5_config : Discv5Config;
  boot_nodes_enr : list Enr;
  boot_nodes_multiaddr : list Multiaddr;
  libp2p_nodes : list Multiaddr;
  nc_trusted_peers : list PeerId;
  nc_disable_peer_scoring : bool;
  disable_discovery : bool;
  disable_quic_support : bool;
  nc_subscribe_all_data_column_subnets : bool;
  nc_subscribe_all_subnets : bool;
  network_load : Z;
  private_mode : bool;
  nc_topics : list GossipKind;
  nc_metrics_enabled : bool;
  nc_enable_light_client_server : bool;
  outbound_rate_limiter_config : option RateLimiterConfig;
  inbound_rate_limiter_config : option RateLimiterConfig;
  idontwant_message_size_threshold : Z;
}.

Definition set_listening (c : NetworkConfig) (l : ListenAddress) (d : Discv5Config) : NetworkConfig :=
  mkNetworkConfig (network_dir c) l (enr_address c) (enr_udp4_port c) (enr_quic4_port c) (enr_tcp4_port c)
    (enr_udp6_port c) (enr_tcp6_port c) (enr_quic6_port c) (nc_target_peers c) (nc_target_subnet_peers c) d
    (boot_nodes_enr c) (boot_nodes_multiaddr c) (libp2p_nodes c) (nc_trusted_peers c)
    (nc_disable_peer_scoring c) (disable_discovery c) (disable_quic_support c)
    (nc_subscribe_all_data_column_subnets c) (nc_subscribe_all_subnets c) (network_load c) (private_mode c)
    (nc_topics c) (nc_metrics_enabled c) (nc_enable_light_client_server c) (outbound_rate_limiter_config c)
    (inbound_rate_limiter_config c) (idontwant_message_size_threshold c).

(** Only records with a global address of the family. *)
Definition global_ip4 (e : Enr) : bool := from_option is_global_ipv4 false (enr_ip4 e).
Definition global_ip6 (e : Enr) : bool := from_option is_global_ipv6 false (enr_ip6 e).

Definition set_ipv4_listening_address (c : NetworkConfig) (addr tcp disc quic : Z) : NetworkConfig :=
  set_listening c (ListenV4 (mkListenAddr addr disc quic tcp))
    (mkDiscv5Config [(IpV4 addr, disc)] global_ip4).

Definition set_ipv6_listening_address (c : NetworkConfig) (addr tcp disc quic : Z) : NetworkConfig :=
  set_listening c (ListenV6 (mkListenAddr addr disc quic tcp))
    (mkDiscv5Config [(IpV6 addr, disc)] global_ip6).

Definition dual_stack_filter (e : Enr) : bool :=
  match enr_ip4 e, enr_ip6 e with
  | None, None => false
  | None, Some ip6 => is_global_ipv6 ip6
  | Some ip4, None => is_global_ipv4 ip4
  | Some ip4, Some ip6 => is_global_ipv4 ip4 && is_global_ipv6 ip6
  end.

Definition set_ipv4_ipv6_listening_addresses (c : NetworkConfig)
  (v4 tcp4 disc4 quic4 v6 tcp6 disc6 quic6 : Z) : NetworkConfig :=
  set_listening c (DualStack (mkListenAddr v4 disc4 quic4 tcp4) (mkListenAddr v6 disc6 quic6 tcp6))
    (mkDiscv5Config [(IpV4 v4, disc4); (IpV6 v6, disc6)] dual_stack_filter).

Definition set_listening_addr (c : NetworkConfig) (l : ListenAddress) : NetworkConfig :=
  match l with
  | ListenV4 a => set_ipv4_listening_address c (la_addr a) (la_tcp_port a) (disc_port a) (la_quic_port a)
  | ListenV6 a => set_ipv6_listening_address c (la_addr a) (la_tcp_port a) (disc_port a) (la_quic_port a)
  | DualStack a b =>
      set_ipv4_ipv6_listening_addresses c (la_addr a) (la_tcp_port a) (disc_port a) (la_quic_port a)
        (la_addr b) (la_tcp_port b) (disc_port b) (la_quic_port b)
  end.

Definition NetworkConfig_default (home : string) : NetworkConfig :=
  mkNetworkConfig (Some (home ++ "/.node/mainnet/beacon/network")%string)
    (ListenV4 (mkListenAddr DEFAULT_IPV4_ADDRESS DEFAULT_DISC_PORT DEFAULT_QUIC_PORT DEFAULT_TCP_PORT))
    (None, None) None None None None None None 200 3 (mkDiscv5Config [(IpV4 0, 9000)] global_ip4)
    [] [] [] [] false false false false false 3 false [] false false None None
    DEFAULT_IDONTWANT_MESSAGE_SIZE_THRESHOLD.

(** ** Message identifiers *)

(** [usize::to_le_bytes]. *)
Definition usize_le_bytes (n : Z) : Bytes := map (fun i => Z.land (Z.shiftr n (8 * i)) 255) (range 8).

(** The bytes whose hash, cut to 20 bytes, identifies a gossip message. *)
Definition message_id_prefix (domain : Bytes) (topic : chars) (data : Bytes) (fork_context : ForkContext)
  : Bytes :=
  let topic_bytes := bytes topic in
  match current_fork_name fork_context with
  | Phase0 => domain ++ data
  | _ => domain ++ usize_le_bytes (Z.of_nat (length topic_bytes)) ++ topic_bytes ++ data
  end.

(** [duplicate_cache_time] of the gossipsub configuration. *)
Definition duplicate_cache_time (slots_per_epoch : Z) (slot_duration : Duration) : Duration :=
  Duration_from_secs (as_u64 (as_u64 (slots_per_epoch * Duration_as_secs slot_duration) * 2)).

(** What is set of the configuration of gossipsub; a message identifier is computed from topic and data. *)
Record GossipsubConfig := mkGossipsubConfig {
  max_transmit_size : Z;
  gsc_load : NetworkLoad;
  fanout_ttl : Duration;
  history_length : Z;
  flood_publish : bool;
  max_messages_per_rpc : option Z;
  validate_messages : bool;
  anonymous : bool;
  gsc_duplicate_cache_time : Duration;
  message_id_fn : chars -> Bytes -> Bytes;
  allow_self_origin : bool;
  gsc_idontwant_threshold : Z;
}.

(** [sha256] is [Sha256::digest]. *)
Definition gossipsub_config (sha256 : Bytes -> Bytes) (network_load : Z) (fork_context : ForkContext)
  (message_domain_valid_snappy : Bytes) (gossipsub_max_transmit_size : Z) (slot_duration : Duration)
  (slots_per_epoch idontwant_message_size_threshold : Z) : GossipsubConfig :=
  mkGossipsubConfig gossipsub_max_transmit_size (NetworkLoad_from network_load) (Duration_from_secs 60) 12 false
    (Some 500) true true (duplicate_cache_time slots_per_epoch slot_duration)
    (fun topic data => take 20 (sha256 (message_id_prefix message_domain_valid_snappy topic data fork_context)))
    true idontwant_message_size_threshold.

End config.

(** ** Address blocks

    The special-purpose blocks of the IANA registries, as a base address and a prefix length. *)

Definition in_block (width addr : Z) (block : Z * Z) : Prop :=
  Z.shiftr addr (width - block.2) = Z.shiftr block.1 (width - block.2).

Definition ipv4 (a b c d : Z) : Z := a * 2 ^ 24 + b * 2 ^ 16 + c * 2 ^ 8 + d.

(** Addresses that are not globally reachable, but for the two anycast addresses of [192.0.0.0/24]. *)
Definition special_ipv4 : list (Z * Z) :=
  [(ipv4 0 0 0 0, 8); (ipv4 10 0 0 0, 8); (ipv4 100 64 0 0, 10); (ipv4 127 0 0 0, 8);
   (ipv4 169 254 0 0, 16); (ipv4 172 16 0 0, 12); (ipv4 192 0 0 0, 24); (ipv4 192 0 2 0, 24);
   (ipv4 192 168 0 0, 16); (ipv4 198 51 100 0, 24); (ipv4 203 0 113 0, 24); (ipv4 240 0 0 0, 4)].

(** An IPv6 block given by its leading segments. *)
Fixpoint ipv6_from (i : Z) (l : list Z) : Z :=
  match l with [] => 0 | s :: l => Z.shiftl s (16 * (7 - i)) + ipv6_from (i + 1) l end.
Definition ipv6 (l : list Z) : Z := ipv6_from 0 l.

Definition special_ipv6 : list (Z * Z) :=
  [(ipv6 [], 128); (ipv6 [0; 0; 0; 0; 0; 0; 0; 1], 128); (ipv6 [0; 0; 0; 0; 0; 0xffff], 96);
   (ipv6 [0x64; 0xff9b; 1], 48); (ipv6 [0x100], 64); (ipv6 [0x2001; 0xdb8], 32); (ipv6 [0xfc00], 7);
   (ipv6 [0xfe80], 10)].

(** [2001::/23] is special but for these blocks. *)
Definition ietf_ipv6 : Z * Z := (ipv6 [0x2001], 23).
Definition ietf_exceptions : list (Z * Z) :=
  [(ipv6 [0x2001; 1; 0; 0; 0; 0; 0; 1], 128); (ipv6 [0x2001; 1; 0; 0; 0; 0; 0; 2], 128);
   (ipv6 [0x2001; 3], 32); (ipv6 [0x2001; 4; 0x112], 48); (ipv6 [0x2001; 0x20], 28)].

Section config_lemmas.

Lemma octet_div a i : 0 <= i <= 3 -> octet a i = a / 2 ^ (8 * (3 - i)) mod 256.
Proof. intros. unfold octet. rewrite Z.shiftr_div_pow2 by lia. by rewrite (Z.land_ones _ 8). Qed.

Lemma segment_div a i : 0 <= i <= 7 -> segment a i = a / 2 ^ (16 * (7 - i)) mod 65536.
Proof. intros. unfold segment. rewrite Z.shiftr_div_pow2 by lia. by rewrite (Z.land_ones _ 16). Qed.

(** A mask of high bits compares the number divided by the weight of its lowest bit. *)
Lemma land_high x w k v :
  0 <= k <= w -> 0 <= x < 2 ^ w -> Z.land x (Z.shiftl (Z.ones (w - k)) k) = Z.shiftl v k <-> x / 2 ^ k = v.
Proof.
  intros Hk Hx.
  assert (Z.land x (Z.shiftl (Z.ones (w - k)) k) = Z.shiftl (Z.shiftr x k) k) as ->.
  { apply Z.bits_inj'. intros n Hn. rewrite Z.land_spec, !Z.shiftl_spec by lia.
    destruct (Z.ltb_spec n k).
    - by rewrite !(Z.testbit_neg_r _ (n - k)), andb_false_r by lia.
    - rewrite Z.shiftr_spec by lia. replace (n - k + k) with n by lia. rewrite Z.testbit_ones by lia.
      destruct (Z.ltb_spec n w).
      + rewrite (proj2 (Z.leb_le 0 (n - k))), (proj2 (Z.ltb_lt (n - k) (w - k))) by lia. apply andb_true_r.
      + destruct (Z.eq_dec x 0) as [->|]; [by rewrite Z.bits_0|].
        rewrite Z.bits_above_log2; [done|lia|]. apply Z.lt_le_trans with w; [|lia]. apply Z.log2_lt_pow2; lia. }
  rewrite <- Z.shiftr_div_pow2 by lia. split; [|by intros ->].
  intros E. apply (f_equal (fun z => Z.shiftr z k)) in E. by rewrite !Z.shiftr_shiftl_l, !Z.sub_diag, !Z.shiftl_0_r in E by lia.
Qed.

Lemma land_high_b x w k v m :
  0 <= k <= w -> 0 <= x < 2 ^ w -> Z.shiftl (Z.ones (w - k)) k = m ->
  (Z.land x m =? Z.shiftl v k) = (x / 2 ^ k =? v).
Proof.
  intros Hk Hx <-. apply eq_true_iff_eq. rewrite !Z.eqb_eq. by apply land_high.
Qed.

(** An address by its octets. *)
Lemma ipv4_octets addr :
  0 <= addr < 2 ^ 32 -> exists x0 x1 x2 x3, 0 <= x0 < 256 /\ 0 <= x1 < 256 /\ 0 <= x2 < 256 /\ 0 <= x3 < 256 /\
    addr = ipv4 x0 x1 x2 x3.
Proof.
  intros Ha. exists (addr / 2 ^ 24), (addr / 2 ^ 16 mod 256), (addr / 2 ^ 8 mod 256), (addr mod 256).
  unfold ipv4. change (2 ^ 32) with 4294967296 in Ha. change (2 ^ 24) with 16777216.
  change (2 ^ 16) with 65536. change (2 ^ 8) with 256. Z.div_mod_to_equations. lia.
Qed.

Lemma octet_ipv4 x0 x1 x2 x3 :
  0 <= x0 < 256 -> 0 <= x1 < 256 -> 0 <= x2 < 256 -> 0 <= x3 < 256 ->
  octet (ipv4 x0 x1 x2 x3) 0 = x0 /\ octet (ipv4 x0 x1 x2 x3) 1 = x1 /\ octet (ipv4 x0 x1 x2 x3) 2 = x2.
Proof.
  intros. rewrite !octet_div by lia. unfold ipv4.
  change (2 ^ (8 * (3 - 0))) with 16777216. change (2 ^ (8 * (3 - 1))) with 65536.
  change (2 ^ (8 * (3 - 2))) with 256. change (2 ^ 24) with 16777216. change (2 ^ 16) with 65536.
  change (2 ^ 8) with 256. split_and!; Z.div_mod_to_equations; lia.
Qed.

(** Blocks of at most 16 bits compare the leading bits of the first two octets. *)
Lemma in_block_ipv4 x0 x1 x2 x3 b0 b1 b2 len :
  0 <= x0 < 256 -> 0 <= x1 < 256 -> 0 <= x2 < 256 -> 0 <= x3 < 256 ->
  0 <= b0 < 256 -> 0 <= b1 < 256 -> 0 <= b2 < 256 ->
  in_block 32 (ipv4 x0 x1 x2 x3) (ipv4 b0 b1 b2 0, len) <->
  match len with
  | 4 => x0 / 16 = b0 / 16
  | 8 => x0 = b0
  | 10 => x0 = b0 /\ x1 / 64 = b1 / 64
  | 12 => x0 = b0 /\ x1 / 16 = b1 / 16
  | 16 => x0 = b0 /\ x1 = b1
  | 24 => x0 = b0 /\ x1 = b1 /\ x2 = b2
  | _ => in_block 32 (ipv4 x0 x1 x2 x3) (ipv4 b0 b1 b2 0, len)
  end.
Proof.
  intros. unfold in_block. simpl snd. simpl fst.
  assert (E : forall y0 y1 y2 y3, 0 <= y0 < 256 -> 0 <= y1 < 256 -> 0 <= y2 < 256 -> 0 <= y3 < 256 ->
    let a := ipv4 y0 y1 y2 y3 in
    a / 268435456 = y0 / 16 /\ a / 16777216 = y0 /\ a / 4194304 = y0 * 4 + y1 / 64 /\
    a / 1048576 = y0 * 16 + y1 / 16 /\ a / 65536 = y0 * 256 + y1 /\ a / 256 = y0 * 65536 + y1 * 256 + y2).
  { intros. unfold a, ipv4. change (2 ^ 24) with 16777216. change (2 ^ 16) with 65536. change (2 ^ 8) with 256.
    split_and!; Z.div_mod_to_equations; lia. }
  destruct (E x0 x1 x2 x3) as (E1 & E2 & E3 & E4 & E5 & E6); [done..|].
  destruct (E b0 b1 b2 0) as (F1 & F2 & F3 & F4 & F5 & F6); [done..|].
  repeat (case_match; try reflexivity); rewrite !Z.shiftr_div_pow2 by lia; simpl Z.sub; simpl Z.pow;
    rewrite ?E1, ?E2, ?E3, ?E4, ?E5, ?E6, ?F1, ?F2, ?F3, ?F4, ?F5, ?F6; try reflexivity;
    Z.div_mod_to_equations; lia.
Qed.

(** The number made of the first [k] segments. *)
Definition leading (addr k : Z) : Z := addr / 2 ^ (128 - 16 * k).

Lemma leading_step addr k :
  0 <= k <= 7 -> leading addr (k + 1) = leading addr k * 65536 + segment addr k /\ 0 <= segment addr k < 65536.
Proof.
  intros Hk. rewrite segment_div by lia. unfold leading.
  replace (128 - 16 * (k + 1)) with (16 * (7 - k)) by lia. split; [|apply Z.mod_pos_bound; lia].
  replace (128 - 16 * k) with (16 * (7 - k) + 16) by lia.
  rewrite Z.pow_add_r, <- Z.div_div by lia. change (2 ^ 16) with 65536.
  pose proof (Z.div_mod (addr / 2 ^ (16 * (7 - k))) 65536). lia.
Qed.

Lemma leading_0 addr : 0 <= addr < 2 ^ 128 -> leading addr 0 = 0.
Proof. intros. unfold leading. by apply Z.div_small. Qed.

Lemma leading_8 addr : leading addr 8 = addr.
Proof. unfold leading. apply Z.div_1_r. Qed.

(** A block of [len] bits that ends within the [k]-th segment compares the leading bits of the first [k]
    segments. *)
Lemma in_block_ipv6 addr base len k :
  16 * k - 16 <= len <= 16 * k -> 0 < k <= 8 ->
  in_block 128 addr (base, len) <-> leading addr k / 2 ^ (16 * k - len) = leading base k / 2 ^ (16 * k - len).
Proof.
  intros Hl Hk. unfold in_block, leading. simpl fst. simpl snd. rewrite !Z.shiftr_div_pow2 by lia.
  rewrite !Z.div_div, <- !Z.pow_add_r by lia.
  by replace (128 - 16 * k + (16 * k - len)) with (128 - len) by lia.
Qed.

Lemma block_ipv6 addr l len k c :
  16 * k - 16 <= len <= 16 * k -> 0 < k <= 8 -> leading (ipv6 l) k / 2 ^ (16 * k - len) = c ->
  in_block 128 addr (ipv6 l, len) <-> leading addr k / 2 ^ (16 * k - len) = c.
Proof. intros ? ? <-. by apply in_block_ipv6. Qed.

Lemma bytes_inj (s t : chars) : bytes s = bytes t -> s = t.
Proof.
  revert t. induction s as [|c s IH]; intros [|d t]; try done. simpl. intros [= E ?]. f_equal; [|by apply IH].
  apply N2Z.inj in E. rewrite <- (Ascii.ascii_N_embedding c), <- (Ascii.ascii_N_embedding d). by rewrite E.
Qed.

(** The little-endian bytes determine the number. *)
Lemma usize_le_bytes_inj n m :
  in_u64 n -> in_u64 m -> usize_le_bytes n = usize_le_bytes m -> n = m.
Proof.
  assert (D : forall k, in_u64 k -> k = foldr (fun b acc => b + 256 * acc) 0 (usize_le_bytes k)).
  { intros k Hk. unfold usize_le_bytes. change (range 8) with [0; 1; 2; 3; 4; 5; 6; 7]. cbn [map foldr].
    rewrite !Z.shiftr_div_pow2, !(Z.land_ones _ 8) by lia. change (2 ^ 8) with 256.
    change (2 ^ (8 * 0)) with 1. change (2 ^ (8 * 1)) with 256. change (2 ^ (8 * 2)) with 65536.
    change (2 ^ (8 * 3)) with 16777216. change (2 ^ (8 * 4)) with 4294967296.
    change (2 ^ (8 * 5)) with 1099511627776. change (2 ^ (8 * 6)) with 281474976710656.
    change (2 ^ (8 * 7)) with 72057594037927936. unfold_arith. Z.div_mod_to_equations. lia. }
  intros Hn Hm E. rewrite (D n Hn), (D m Hm). by rewrite E.
Qed.

Lemma usize_le_bytes_length n : length (usize_le_bytes n) = 8%nat.
Proof. done. Qed.

(** The checks of [gossipsub::ConfigBuilder::build] hold for every load. *)
Lemma network_load_valid load :
  let l := NetworkLoad_from load in
  0 < outbound_min l /\ outbound_min l <= mesh_n_low l /\ mesh_n_low l <= mesh_n l /\ mesh_n l <= mesh_n_high l /\
  2 * outbound_min l <= mesh_n l /\ 0 < history_gossip l <= 12.
Proof. unfold NetworkLoad_from. simpl. repeat case_match; simpl; lia. Qed.

End config_lemmas.

(** The test for IPv4 addresses agrees with the blocks of the registry. *)
Lemma global_ipv4_blocks addr :
  0 <= addr < 2 ^ 32 ->
  is_global_ipv4 addr = true <->
    addr = ipv4 192 0 0 9 \/ addr = ipv4 192 0 0 10 \/ Forall (fun b => ~ in_block 32 addr b) special_ipv4.
Proof.
  intros (x0 & x1 & x2 & x3 & H0 & H1 & H2 & H3 & ->)%ipv4_octets.
  destruct (octet_ipv4 x0 x1 x2 x3 H0 H1 H2 H3) as (E0 & E1 & E2).
  unfold special_ipv4. rewrite !Forall_cons, Forall_nil, !in_block_ipv4 by lia.
  unfold is_global_ipv4, is_private, is_loopback, is_link_local, is_broadcast, ipv4_is_documentation.
  rewrite !E0, !E1, !E2.
  rewrite (land_high_b _ 8 6 1 192), (land_high_b _ 8 4 15 240) by done.
  match goal with |- (if ?b then true else ?c) = true <-> _ => change (if b then true else c) with (b || c)%bool end.
  repeat first [rewrite orb_true_iff | rewrite andb_true_iff | rewrite negb_true_iff | rewrite <- not_true_iff_false
               | rewrite Z.eqb_eq | rewrite Z.leb_le].
  change (2 ^ 6) with 64. change (2 ^ 4) with 16. change (16 / 16) with 1. change (64 / 64) with 1.
  change (240 / 16) with 15. change 3221225481 with (ipv4 192 0 0 9). change 3221225482 with (ipv4 192 0 0 10).
  assert (16 <= x1 /\ x1 <= 31 <-> x1 / 16 = 1) as Hdiv by (Z.div_mod_to_equations; lia).
  assert (ipv4 x0 x1 x2 x3 = 2 ^ 32 - 1 -> x0 / 16 = 15) as Hb.
  { unfold ipv4. change (2 ^ 24) with 16777216. change (2 ^ 16) with 65536. change (2 ^ 8) with 256.
    change (2 ^ 32) with 4294967296. Z.div_mod_to_equations. lia. }
  tauto.
Qed.

(** The test for IPv6 addresses agrees with the blocks of the registry. *)
Lemma global_ipv6_blocks addr :
  0 <= addr < 2 ^ 128 ->
  is_global_ipv6 addr = true <->
    Forall (fun b => ~ in_block 128 addr b) special_ipv6 /\
    (in_block 128 addr ietf_ipv6 -> Exists (in_block 128 addr) ietf_exceptions).
Proof.
  intros Ha. pose proof (leading_0 addr Ha) as L0. pose proof (leading_8 addr) as L8.
  destruct (leading_step addr 0 ltac:(lia)) as [S0 B0], (leading_step addr 1 ltac:(lia)) as [S1 B1],
    (leading_step addr 2 ltac:(lia)) as [S2 B2], (leading_step addr 3 ltac:(lia)) as [S3 B3],
    (leading_step addr 4 ltac:(lia)) as [S4 B4], (leading_step addr 5 ltac:(lia)) as [S5 B5].
  change (0 + 1) with 1 in S0. change (1 + 1) with 2 in S1. change (2 + 1) with 3 in S2.
  change (3 + 1) with 4 in S3. change (4 + 1) with 5 in S4. change (5 + 1) with 6 in S5.
  assert (forall c, in_block 128 addr (c, 128) <-> addr = c) as P128.
  { intros c. rewrite (in_block_ipv6 addr c 128 8) by lia. rewrite !leading_8. by rewrite !Z.div_1_r. }
  unfold special_ipv6, ietf_ipv6, ietf_exceptions. rewrite !Forall_cons, Forall_nil, !Exists_cons, Exists_nil.
  rewrite !P128, (block_ipv6 addr [0; 0; 0; 0; 0; 0xffff] 96 6 0xffff),
    (block_ipv6 addr [0x64; 0xff9b; 1] 48 3 0x64ff9b0001), (block_ipv6 addr [0x100] 64 4 0x100000000000000),
    (block_ipv6 addr [0x2001; 0xdb8] 32 2 0x20010db8), (block_ipv6 addr [0xfc00] 7 1 0x7e),
    (block_ipv6 addr [0xfe80] 10 1 0x3fa), (block_ipv6 addr [0x2001] 23 2 0x100080),
    (block_ipv6 addr [0x2001; 3] 32 2 0x20010003), (block_ipv6 addr [0x2001; 4; 0x112] 48 3 0x200100040112),
    (block_ipv6 addr [0x2001; 0x20] 28 2 0x2001002) by (lia || done).
  unfold is_global_ipv6, ipv6_is_documentation, is_unique_local, is_unicast_link_local.
  change 0xfc00 with (Z.shiftl 0x7e 9). change 0xfe80 with (Z.shiftl 0x3fa 6).
  rewrite (land_high_b _ 16 9 0x7e 0xfe00), (land_high_b _ 16 6 0x3fa 0xffc0) by done.
  unfold segments_are. repeat match goal with |- context [0 + 1] => change (0 + 1) with 1
    | |- context [1 + 1] => change (1 + 1) with 2 | |- context [2 + 1] => change (2 + 1) with 3
    | |- context [3 + 1] => change (3 + 1) with 4 | |- context [4 + 1] => change (4 + 1) with 5 end.
  revert S0 S1 S2 S3 S4 S5 B0 B1 B2 B3 B4 B5. rewrite L0. clear L0 L8 P128 Ha.
  generalize (segment addr 0) (segment addr 1) (segment addr 2) (segment addr 3) (segment addr 4) (segment addr 5)
    (leading addr 1) (leading addr 2) (leading addr 3) (leading addr 4) (leading addr 5) (leading addr 6).
  intros s0 s1 s2 s3 s4 s5 l1 l2 l3 l4 l5 l6 S0 S1 S2 S3 S4 S5 B0 B1 B2 B3 B4 B5.
  assert (l6 / 2 ^ (16 * 6 - 96) = 0xffff <-> s0 = 0 /\ s1 = 0 /\ s2 = 0 /\ s3 = 0 /\ s4 = 0 /\ s5 = 0xffff) as ->
    by (change (2 ^ (16 * 6 - 96)) with 1; rewrite Z.div_1_r; lia).
  assert (l3 / 2 ^ (16 * 3 - 48) = 0x64ff9b0001 <-> s0 = 0x64 /\ s1 = 0xff9b /\ s2 = 1) as ->
    by (change (2 ^ (16 * 3 - 48)) with 1; rewrite Z.div_1_r; lia).
  assert (l4 / 2 ^ (16 * 4 - 64) = 0x100000000000000 <-> s0 = 0x100 /\ s1 = 0 /\ s2 = 0 /\ s3 = 0) as ->
    by (change (2 ^ (16 * 4 - 64)) with 1; rewrite Z.div_1_r; lia).
  assert (forall b, 0 <= b < 65536 ->
    l2 / 2 ^ (16 * 2 - 32) = 0x20010000 + b <-> s0 = 0x2001 /\ s1 = b) as P32
    by (intros; change (2 ^ (16 * 2 - 32)) with 1; rewrite Z.div_1_r; lia).
  rewrite (P32 0xdb8), (P32 3) by lia.
  assert (l3 / 2 ^ (16 * 3 - 48) = 0x200100040112 <-> s0 = 0x2001 /\ s1 = 4 /\ s2 = 0x112) as ->
    by (change (2 ^ (16 * 3 - 48)) with 1; rewrite Z.div_1_r; lia).
  assert (l2 / 2 ^ (16 * 2 - 28) = 0x2001002 <-> s0 = 0x2001 /\ 0x20 <= s1 /\ s1 <= 0x2f) as ->
    by (change (2 ^ (16 * 2 - 28)) with 16; Z.div_mod_to_equations; lia).
  assert (l2 / 2 ^ (16 * 2 - 23) = 0x100080 <-> s0 = 0x2001 /\ s1 < 0x200) as ->
    by (change (2 ^ (16 * 2 - 23)) with 512; Z.div_mod_to_equations; lia).
  assert (l1 = s0) as -> by lia.
  repeat first [rewrite negb_true_iff | rewrite <- not_true_iff_false | rewrite orb_true_iff | rewrite andb_true_iff
               | rewrite Z.eqb_eq | rewrite Z.leb_le | rewrite Z.ltb_lt].
  change (ipv6 []) with 0. change (ipv6 [0; 0; 0; 0; 0; 0; 0; 1]) with 1.
  change (ipv6 [0x2001; 1; 0; 0; 0; 0; 0; 1]) with 0x20010001000000000000000000000001.
  change (ipv6 [0x2001; 1; 0; 0; 0; 0; 0; 2]) with 0x20010001000000000000000000000002.
  change (2 ^ (16 * 1 - 7)) with (2 ^ 9). change (2 ^ (16 * 1 - 10)) with (2 ^ 6).
  assert (true = true) as Htt by done. generalize dependent (true = true). intros T HT.
  destruct (decide (addr = 0x20010001000000000000000000000001 \/ addr = 0x20010001000000000000000000000002 \/
    s0 = 0x2001 /\ s1 = 3 \/ s0 = 0x2001 /\ s1 = 4 /\ s2 = 0x112 \/ s0 = 0x2001 /\ 0x20 <= s1 /\ s1 <= 0x2f))
    as [Hx|Hx]; clear - Hx HT; tauto.
Qed.

(** ** Theorems *)

Section config_theorems.
Context `{ChainTypes} `{Libp2p} `{!EnrFields}.

(** Which records may enter the discovery table.  After [set_listening_addr] the filter admits a
    record exactly if the addresses it has of the families the node listens on are outside the
    special-purpose blocks of the IANA registries, and it has one of them. *)
Theorem table_filter_global c l e :
  (forall ip, enr_ip4 e = Some ip -> 0 <= ip < 2 ^ 32) ->
  (forall ip, enr_ip6 e = Some ip -> 0 <= ip < 2 ^ 128) ->
  let global4 ip := ip = ipv4 192 0 0 9 \/ ip = ipv4 192 0 0 10 \/
    Forall (fun b => ~ in_block 32 ip b) special_ipv4 in
  let global6 ip := Forall (fun b => ~ in_block 128 ip b) special_ipv6 /\
    (in_block 128 ip ietf_ipv6 -> Exists (in_block 128 ip) ietf_exceptions) in
  let has4 := is_Some (la_v4 l) /\ is_Some (enr_ip4 e) in
  let has6 := is_Some (la_v6 l) /\ is_Some (enr_ip6 e) in
  listen_addresses (set_listening_addr c l) = l /\
  (table_filter (discv5_config (set_listening_addr c l)) e = true <->
     (has4 \/ has6) /\
     (is_Some (la_v4 l) -> forall ip, enr_ip4 e = Some ip -> global4 ip) /\
     (is_Some (la_v6 l) -> forall ip, enr_ip6 e = Some ip -> global6 ip)).
Proof.
  intros H4 H6. cbv zeta. split; [by destruct l as [[]|[]|[] []]|].
  destruct l; simpl; unfold global_ip4, global_ip6, dual_stack_filter;
    destruct (enr_ip4 e) as [i4|], (enr_ip6 e) as [i6|]; simpl;
    rewrite ?andb_true_iff, ?global_ipv4_blocks, ?global_ipv6_blocks by auto;
    unfold is_Some; naive_solver.
Qed.

(** Message identifiers are hashes of distinct strings.  From Altair on the bytes hashed determine
    the topic and the data of a message; before, where the topic is not hashed, they determine the
    data. *)
Theorem message_id_unambiguous domain fork_context topic data topic' data' :
  in_u64 (Z.of_nat (length topic)) -> in_u64 (Z.of_nat (length topic')) ->
  message_id_prefix domain topic data fork_context = message_id_prefix domain topic' data' fork_context ->
  data = data' /\ (current_fork_name fork_context <> Phase0 -> topic = topic').
Proof.
  intros Ht Ht' E.
  assert (current_fork_name fork_context = Phase0 /\ domain ++ data = domain ++ data' \/
    domain ++ usize_le_bytes (Z.of_nat (length (bytes topic))) ++ bytes topic ++ data =
    domain ++ usize_le_bytes (Z.of_nat (length (bytes topic'))) ++ bytes topic' ++ data') as [[Hp E']|E'].
  { unfold message_id_prefix in E. destruct (current_fork_name fork_context); auto. }
  - apply app_inv_head in E'. by rewrite Hp.
  - apply app_inv_head, app_inj_1 in E' as [El E']; [|by rewrite !usize_le_bytes_length].
    unfold bytes in El. rewrite !length_map in El. apply usize_le_bytes_inj in El; [|done..].
    apply app_inj_1 in E' as [Eb ->]; [|unfold bytes; rewrite !length_map; lia]. by apply bytes_inj in Eb.
Qed.

End config_theorems.

(** ** Closed instances *)

Module ConfigExamples.

#[local] Existing Instance Toy.chain.
#[local] Existing Instance Toy.libp2p.
#[local] Existing Instance EnrExtExamples.toy_enr.

(** 192.0.0.9 is global, the other addresses of its block are not, nor is the benchmark of
    100.64.0.0/10; 2001:20::/28 is global within 2001::/23. *)
Example global_examples :
  (map is_global_ipv4 [ipv4 192 0 0 9; ipv4 192 0 0 8; ipv4 100 127 0 1; ipv4 8 8 8 8; 2 ^ 32 - 1],
   map is_global_ipv6 [ipv6 [0x2001; 0x20]; ipv6 [0x2001; 0x30]; ipv6 [0x2607; 0xf8b0]; 1]) =
  ([true; false; false; true; false], [true; false; true; false]).
Proof. evaluate. Qed.

Definition home_config : NetworkConfig := NetworkConfig_default "/home".

Lemma table_filter_global_witness :
  table_filter (discv5_config (set_listening_addr home_config (listen_addresses home_config)))
    (ipv4 8 8 8 8 : @Enr Toy.libp2p) = true.
Proof.
  apply (table_filter_global home_config (listen_addresses home_config) (ipv4 8 8 8 8 : @Enr Toy.libp2p)).
  - intros ip [= <-]. by vm_compute.
  - done.
  - split; [left; split; eauto|]. split; [|done]. intros _ ip [= <-]. right. right.
    repeat constructor; vm_compute; congruence.
Defined.

Definition altair_context : ForkContext (H := Toy.chain) := mkForkContext tt (mkHardFork Altair 10 1010) [].

Lemma message_id_unambiguous_witness :
  ([7] : Bytes) = [7] /\ (current_fork_name altair_context <> Phase0 -> lit "/eth2/a" = lit "/eth2/a").
Proof.
  apply (message_id_unambiguous [1; 0; 0; 0] altair_context (lit "/eth2/a") [7] (lit "/eth2/a") [7]);
    [by vm_compute..|reflexivity].
Defined.

(** The length keeps the topic and the data apart. *)
Example message_id_example :
  (bool_decide (message_id_prefix [1; 0; 0; 0] (lit "ab") [99] altair_context =
                message_id_prefix [1; 0; 0; 0] (lit "a") [98; 99] altair_context),
   message_id_prefix [1; 0; 0; 0] (lit "ab") [99] altair_context) =
  (false, [1; 0; 0; 0; 2; 0; 0; 0; 0; 0; 0; 0; 97; 98; 99]).
Proof. evaluate. Qed.

End ConfigExamples.
