(* ===== verification/LocalEnr.v ===== *)
(** * The node's own record ([discovery/enr.rs], [discovery/subnet_predicate.rs])

    The fields of a record this network adds, the record a node builds from its configuration, and
    whether it takes the record of its last run from disk.  The file is an argument, and the file after it
    was saved part of the result. *)

From Stdlib Require Import Ascii.
From S2P Require Import Prelude Disk Chain Timers Enr Protocol Messages Text RateLimiter RateConfig Events.
From S2P Require Import ForkContext Float64 Score PeerInfo PeerDB Topics Globals EnrExt Config.

Definition ETH2_ENR_KEY : string := "eth2".
Definition PEERDAS_CUSTODY_GROUP_COUNT_ENR_KEY : string := "cgc".
Definition NEXT_FORK_DIGEST_ENR_KEY : string := "nfd".

Record EnrForkId (D V : Type) := mkEnrForkId {
  efi_fork_digest : D;
  next_fork_version : V;
  next_fork_epoch : Epoch;
}.
Arguments mkEnrForkId {D V} _ _ _.
Arguments efi_fork_digest {D V} _.
Arguments next_fork_version {D V} _.
Arguments next_fork_epoch {D V} _.

(** What is put into a record that is being built. *)
Inductive EnrField :=
  | FieldIp4 (ip : Z)
  | FieldIp6 (ip : Z)
  | FieldUdp4 (port : Z)
  | FieldUdp6 (port : Z)
  | FieldTcp4 (port : Z)
  | FieldTcp6 (port : Z)
  | FieldClientInfo (name version : string)
  | FieldU16 (key : string) (v : Z)
  | FieldU64 (key : string) (v : Z)
  | FieldBytes (key : string) (v : Bytes).

#[export] Instance EnrField_eq_dec : EqDecision EnrField.
Proof. solve_decision. Defined.

(** The [enr] crate, the SSZ encodings of the fields, and [eip_7594]. *)
Class EnrCrates `{ChainTypes} `{Libp2p} `{!CustodyCrates} := {
  Version : Type;
  CombinedKey : Type;
  application_name : string;
  application_version : string;
  enr_get_u64 : Enr -> string -> option (result Z RlpError);
  fork_id_to_ssz : EnrForkId ForkDigest Version -> result Bytes string;
  fork_id_from_ssz : Bytes -> result (EnrForkId ForkDigest Version) unit;
  digest_to_ssz : ForkDigest -> result Bytes string;
  digest_from_ssz : Bytes -> result ForkDigest unit;
  default_attnets : BitVector;
  attnets_to_ssz : BitVector -> result Bytes string;
  syncnets_to_ssz : BitVector -> result Bytes string;
  (** [Enr::builder] with the values added in order, and [build]. *)
  enr_build : list EnrField -> CombinedKey -> result Enr string;
  enr_seq : Enr -> Z;
  enr_set_seq : Enr -> Z -> CombinedKey -> result Enr string;
  enr_to_base64 : Enr -> chars;
  enr_from_str : chars -> result Enr string;
  NodeId_eq_dec :: EqDecision NodeId;
  (** [None] stands for an error of the crate. *)
  compute_subnets_for_node : ChainConfig -> NodeId -> Z -> option (gset SubnetId);
}.

Section local_enr.
Context `{ChainTypes} `{Libp2p} `{!CustodyCrates} `{!EnrFields} `{!EnrCrates}.
Abbreviation ForkId := (EnrForkId ForkDigest Version) (only parsing).

(** ** Fields of a record *)

Definition enr_custody_group_count (config : ChainConfig) (e : Enr) : result Z string :=
  let? r := ok_or (enr_get_u64 e PEERDAS_CUSTODY_GROUP_COUNT_ENR_KEY)
              "ENR custody group count non-existent"%string in
  let? cgc := map_err (fun _ => "Could not decode the ENR custody group count"%string) r in
  if (config_custody_requirement config <=? cgc) && (cgc <=? config_number_of_custody_groups config)
  then Ok cgc else Err "Invalid custody group count in ENR"%string.

Definition enr_next_fork_digest (e : Enr) : result ForkDigest string :=
  let? r := ok_or (enr_get_bytes e NEXT_FORK_DIGEST_ENR_KEY) "ENR next fork digest non-existent"%string in
  let? nfd_bytes := map_err (fun _ => "Invalid RLP Encoding"%string) r in
  map_err (fun _ => "Could not decode the ENR next fork digest"%string) (digest_from_ssz nfd_bytes).

Definition enr_eth2 (e : Enr) : result ForkId string :=
  let? r := ok_or (enr_get_bytes e ETH2_ENR_KEY) "ENR has no eth2 field"%string in
  let? eth2_bytes := map_err (fun _ => "Invalid RLP Encoding"%string) r in
  map_err (fun _ => "Could not decode EnrForkId"%string) (fork_id_from_ssz eth2_bytes).

(** Whether a record is on one of the subnets. *)
Definition subnet_predicate (config : ChainConfig) (subnets : list Subnet) (e : Enr) : bool :=
  match attestation_bitfield e with
  | Err _ => false
  | Ok attnets =>
      existsb (fun subnet =>
        match subnet with
        | Subnet.Attestation id => default false (bit_get attnets id)
        | Subnet.SyncCommittee id =>
            match sync_committee_bitfield e with
            | Ok bitfield => default false (bit_get bitfield id)
            | Err _ => false
            end
        | Subnet.DataColumn id =>
            match enr_custody_group_count config e with
            | Ok cgc =>
                match compute_subnets_for_node config (enr_node_id e) cgc with
                | Some s => bool_decide (id ∈ s)
                | None => false
                end
            | Err _ => false
            end
        end) subnets
  end.

(** ** Building the record *)

(** [Option::or_else] of a configured port and the port listened on; port 0 is no [NonZeroU16]. *)
Definition port_or_listening (configured : option Z) (l : option ListenAddr) (port : ListenAddr -> Z)
  : option Z :=
  match configured with
  | Some p => Some p
  | None => match l with Some a => if port a =? 0 then None else Some (port a) | None => None end
  end.

Definition opt_field (mk : Z -> EnrField) (v : option Z) : list EnrField :=
  match v with Some x => [mk x] | None => [] end.

Definition build_enr (chain_config : ChainConfig) (enr_key : CombinedKey) (config : NetworkConfig)
  (enr_fork_id : ForkId) (custody_group_count : option Z) (next_fork_digest : ForkDigest)
  : result Enr string :=
  let v4 := la_v4 (listen_addresses config) in
  let v6 := la_v6 (listen_addresses config) in
  let addresses :=
    opt_field FieldIp4 (enr_address config).1 ++ opt_field FieldIp6 (enr_address config).2 ++
    opt_field FieldUdp4 (enr_udp4_port config) ++ opt_field FieldUdp6 (enr_udp6_port config) ++
    (if private_mode config then [] else [FieldClientInfo application_name application_version]) ++
    (if disable_quic_support config then []
     else
       opt_field (FieldU16 QUIC_ENR_KEY) (port_or_listening (enr_quic4_port config) v4 la_quic_port) ++
       opt_field (FieldU16 QUIC6_ENR_KEY) (port_or_listening (enr_quic6_port config) v6 la_quic_port)) ++
    opt_field FieldTcp4 (port_or_listening (enr_tcp4_port config) v4 la_tcp_port) ++
    opt_field FieldTcp6 (port_or_listening (enr_tcp6_port config) v6 la_tcp_port) in
  let? eth2 := fork_id_to_ssz enr_fork_id in
  let? att := attnets_to_ssz default_attnets in
  let? sync := syncnets_to_ssz default_syncnets in
  let? custody :=
    if config_is_peerdas_scheduled chain_config then
      let cgc :=
        match custody_group_count with
        | Some cgc => cgc
        | None =>
            if nc_subscribe_all_data_column_subnets config then config_number_of_custody_groups chain_config
            else config_custody_requirement chain_config
        end in
      let? nfd := digest_to_ssz next_fork_digest in
      Ok [FieldU64 PEERDAS_CUSTODY_GROUP_COUNT_ENR_KEY cgc; FieldBytes NEXT_FORK_DIGEST_ENR_KEY nfd]
    else Ok [] in
  enr_build (addresses ++
    [FieldBytes ETH2_ENR_KEY eth2; FieldBytes ATTESTATION_BITFIELD_ENR_KEY att;
     FieldBytes SYNC_COMMITTEE_BITFIELD_ENR_KEY sync] ++ custody) enr_key.

(** ** The record on disk *)

(** [a.is_none() || a == b]. *)
Definition none_or_eq (a b : option Z) : bool :=
  match a with None => true | Some _ => bool_decide (a = b) end.

Definition compare_enr (local_enr disk_enr : Enr) : bool :=
  none_or_eq (enr_ip4 local_enr) (enr_ip4 disk_enr) &&
  none_or_eq (enr_ip6 local_enr) (enr_ip6 disk_enr) &&
  bool_decide (enr_tcp4 local_enr = enr_tcp4 disk_enr) &&
  bool_decide (enr_tcp6 local_enr = enr_tcp6 disk_enr) &&
  bool_decide (quic4 local_enr = quic4 disk_enr) &&
  bool_decide (quic6 local_enr = quic6 disk_enr) &&
  bool_decide (enr_get_bytes local_enr ETH2_ENR_KEY = enr_get_bytes disk_enr ETH2_ENR_KEY) &&
  none_or_eq (enr_udp4 local_enr) (enr_udp4 disk_enr) &&
  none_or_eq (enr_udp6 local_enr) (enr_udp6 disk_enr) &&
  bool_decide (enr_get_bytes local_enr ATTESTATION_BITFIELD_ENR_KEY =
               enr_get_bytes disk_enr ATTESTATION_BITFIELD_ENR_KEY) &&
  bool_decide (enr_get_bytes local_enr SYNC_COMMITTEE_BITFIELD_ENR_KEY =
               enr_get_bytes disk_enr SYNC_COMMITTEE_BITFIELD_ENR_KEY) &&
  bool_decide (enr_get_u64 local_enr PEERDAS_CUSTODY_GROUP_COUNT_ENR_KEY =
               enr_get_u64 disk_enr PEERDAS_CUSTODY_GROUP_COUNT_ENR_KEY) &&
  bool_decide (enr_get_bytes local_enr NEXT_FORK_DIGEST_ENR_KEY =
               enr_get_bytes disk_enr NEXT_FORK_DIGEST_ENR_KEY).

(** Without a directory nothing is written; a failure to create the directory or the file, or to write,
    is only logged. *)
Definition save_enr_to_disk (dir : option string) (e : Enr) (disk : File ascii) : File ascii :=
  match dir with Some _ => file_write disk (enr_to_base64 e) | None => disk end.

(** The record to use, and the file after it was saved. *)
Definition use_or_load_enr (enr_key : CombinedKey) (local_enr : Enr) (config : NetworkConfig)
  (disk : File ascii) : result (Enr * File ascii) string :=
  let dir := network_dir config in
  let fresh e := Ok (e, save_enr_to_disk dir e disk) in
  match dir, contents disk with
  | Some _, Some enr_string =>
      match enr_from_str enr_string with
      | Ok disk_enr =>
          if decide (enr_node_id local_enr = enr_node_id disk_enr) then
            if compare_enr local_enr disk_enr then Ok (disk_enr, disk)
            else
              let seq := enr_seq disk_enr in
              let? new_seq_no :=
                if seq =? U64_MAX then
                  Err ("ENR sequence number on file is too large. Remove it to generate a new NodeId"%string)
                else Ok (seq + 1) in
              let? e := enr_set_seq local_enr new_seq_no enr_key in
              fresh e
          else fresh local_enr
      | Err _ => fresh local_enr
      end
  | _, _ => fresh local_enr
  end.

Definition build_or_load_enr (chain_config : ChainConfig) (enr_key : CombinedKey) (config : NetworkConfig)
  (enr_fork_id : ForkId) (custody_group_count : option Z) (next_fork_digest : ForkDigest)
  (disk : File ascii) : result (Enr * File ascii) string :=
  let? local_enr := build_enr chain_config enr_key config enr_fork_id custody_group_count next_fork_digest in
  use_or_load_enr enr_key local_enr config disk.

Definition load_enr_from_disk (disk : option chars) : result Enr string :=
  match disk with
  | None => Err "Failed to open enr file"%string
  | Some enr_string => map_err (fun e => ("ENR from file could not be decoded: " ++ e)%string) (enr_from_str enr_string)
  end.

End local_enr.

(** ** What the records rely on

    A record answers with the value added last under a key; its node is its signer's; changing the
    sequence number changes nothing else; text and SSZ can be read back.  Nothing is assumed of reading a
    value as another type than the one it was added with. *)

(** The keys of the [enr] crate's own fields. *)
Definition field_key (x : EnrField) : string :=
  match x with
  | FieldIp4 _ => "ip"
  | FieldIp6 _ => "ip6"
  | FieldUdp4 _ => "udp"
  | FieldUdp6 _ => "udp6"
  | FieldTcp4 _ => "tcp"
  | FieldTcp6 _ => "tcp6"
  | FieldClientInfo _ _ => "client"
  | FieldU16 key _ | FieldU64 key _ | FieldBytes key _ => key
  end.

Definition under (key : string) (x : EnrField) : option EnrField :=
  if String.eqb (field_key x) key then Some x else None.
Definition last_under (key : string) (fs : list EnrField) : option EnrField := last (omap (under key) fs).

Section enr_laws.
Context `{ChainTypes} `{Libp2p} `{!CustodyCrates} `{!EnrFields} `{!EnrCrates}.

(** Two records answer alike. *)
Record same_fields (e e' : Enr) : Prop := {
  sf_node : enr_node_id e = enr_node_id e';
  sf_ip4 : enr_ip4 e = enr_ip4 e';
  sf_ip6 : enr_ip6 e = enr_ip6 e';
  sf_udp4 : enr_udp4 e = enr_udp4 e';
  sf_udp6 : enr_udp6 e = enr_udp6 e';
  sf_tcp4 : enr_tcp4 e = enr_tcp4 e';
  sf_tcp6 : enr_tcp6 e = enr_tcp6 e';
  sf_u16 : forall k, enr_get_u16 e k = enr_get_u16 e' k;
  sf_u64 : forall k, enr_get_u64 e k = enr_get_u64 e' k;
  sf_bytes : forall k, enr_get_bytes e k = enr_get_bytes e' k;
}.

Class EnrCrateLaws : Prop := {
  built_node_id : forall fs fs' k e e',
    enr_build fs k = Ok e -> enr_build fs' k = Ok e' -> enr_node_id e = enr_node_id e';
  built_ip4 : forall fs k e, enr_build fs k = Ok e ->
    match last_under "ip" fs with
    | None => enr_ip4 e = None
    | Some (FieldIp4 v) => enr_ip4 e = Some v
    | Some _ => True
    end;
  built_ip6 : forall fs k e, enr_build fs k = Ok e ->
    match last_under "ip6" fs with
    | None => enr_ip6 e = None
    | Some (FieldIp6 v) => enr_ip6 e = Some v
    | Some _ => True
    end;
  built_udp4 : forall fs k e, enr_build fs k = Ok e ->
    match last_under "udp" fs with
    | None => enr_udp4 e = None
    | Some (FieldUdp4 v) => enr_udp4 e = Some v
    | Some _ => True
    end;
  built_udp6 : forall fs k e, enr_build fs k = Ok e ->
    match last_under "udp6" fs with
    | None => enr_udp6 e = None
    | Some (FieldUdp6 v) => enr_udp6 e = Some v
    | Some _ => True
    end;
  built_tcp4 : forall fs k e, enr_build fs k = Ok e ->
    match last_under "tcp" fs with
    | None => enr_tcp4 e = None
    | Some (FieldTcp4 v) => enr_tcp4 e = Some v
    | Some _ => True
    end;
  built_tcp6 : forall fs k e, enr_build fs k = Ok e ->
    match last_under "tcp6" fs with
    | None => enr_tcp6 e = None
    | Some (FieldTcp6 v) => enr_tcp6 e = Some v
    | Some _ => True
    end;
  built_u16 : forall fs k e key, enr_build fs k = Ok e ->
    match last_under key fs with
    | None => enr_get_u16 e key = None
    | Some (FieldU16 _ v) => enr_get_u16 e key = Some (Ok v)
    | Some _ => True
    end;
  built_u64 : forall fs k e key, enr_build fs k = Ok e ->
    match last_under key fs with
    | None => enr_get_u64 e key = None
    | Some (FieldU64 _ v) => enr_get_u64 e key = Some (Ok v)
    | Some _ => True
    end;
  built_bytes : forall fs k e key, enr_build fs k = Ok e ->
    match last_under key fs with
    | None => enr_get_bytes e key = None
    | Some (FieldBytes _ v) => enr_get_bytes e key = Some (Ok v)
    | Some _ => True
    end;
  set_seq_seq : forall e n k e', enr_set_seq e n k = Ok e' -> enr_seq e' = n;
  set_seq_fields : forall e n k e', enr_set_seq e n k = Ok e' -> same_fields e e';
  base64_round_trip : forall e, enr_from_str (enr_to_base64 e) = Ok e;
  fork_id_ssz : forall f b, fork_id_to_ssz f = Ok b -> fork_id_from_ssz b = Ok f;
  digest_ssz : forall d b, digest_to_ssz d = Ok b -> digest_from_ssz b = Ok d;
  attnets_ssz : forall v b, attnets_to_ssz v = Ok b -> attnets_from_ssz b = Ok v;
  syncnets_ssz : forall v b, syncnets_to_ssz v = Ok b -> syncnets_from_ssz b = Ok v;
}.

End enr_laws.

(** ** Lemmas *)

Section local_enr_lemmas.
Context `{ChainTypes} `{Libp2p} `{!CustodyCrates} `{!EnrFields} `{!EnrCrates}.

Lemma result_bind_ok {A B E} (r : result A E) (k : A -> result B E) b :
  result_bind r k = Ok b -> exists a, r = Ok a /\ k a = Ok b.
Proof. destruct r; [|done]. intros E'. by eexists. Qed.

Lemma last_under_app key l l' :
  last_under key (l ++ l') = match last_under key l' with Some x => Some x | None => last_under key l end.
Proof. unfold last_under. by rewrite omap_app, last_app. Qed.

Lemma last_under_if key (b : bool) l :
  last_under key (if b then [] else l) = if b then None else last_under key l.
Proof. by destruct b. Qed.

Lemma last_under_opt_other key mk v :
  (forall x, String.eqb (field_key (mk x)) key = false) -> last_under key (opt_field mk v) = None.
Proof. intros Hk. destruct v as [z|]; [|done]. cbv [last_under opt_field omap list_omap under].
  by rewrite Hk. Qed.

Lemma last_under_opt_same key mk v :
  (forall x, String.eqb (field_key (mk x)) key = true) -> last_under key (opt_field mk v) = mk <$> v.
Proof. intros Hk. destruct v as [z|]; [|done]. cbv [last_under opt_field omap list_omap under].
  by rewrite Hk. Qed.

Lemma none_or_eq_refl a : none_or_eq a a = true.
Proof. destruct a; [|done]. by apply bool_decide_eq_true. Qed.

(** A record has the configuration of every record with the same fields. *)
Lemma compare_enr_same e e' : same_fields e e' -> compare_enr e e' = true.
Proof.
  intros [_ Hi4 Hi6 Hu4 Hu6 Ht4 Ht6 H16 H64 Hb]. unfold compare_enr, quic4, quic6.
  rewrite Hi4, Hi6, Hu4, Hu6, Ht4, Ht6, !H16, !H64, !Hb, !none_or_eq_refl.
  by rewrite !bool_decide_eq_true_2.
Qed.

Lemma same_fields_refl e : same_fields e e.
Proof. by split. Qed.

(** A record on disk that has the configuration is loaded and not written again. *)
Lemma load_same key local config dir disk text e :
  network_dir config = Some dir -> contents disk = Some text -> enr_from_str text = Ok e ->
  enr_node_id e = enr_node_id local -> compare_enr local e = true ->
  use_or_load_enr key local config disk = Ok (e, disk).
Proof.
  intros Hd Hf Ht Hn Hc. unfold use_or_load_enr. rewrite Hd, Hf, Ht, Hc. by rewrite decide_True.
Qed.

End local_enr_lemmas.

(** Evaluates [last_under] at a key on the fields that [build_enr] assembles, in a hypothesis. *)
Ltac eval_last_under Hl :=
  rewrite ?last_under_app, ?last_under_if, ?last_under_app in Hl;
  repeat match type of Hl with
    | context [last_under ?k (opt_field ?mk ?v)] =>
        first [rewrite (last_under_opt_other k mk v) in Hl by (intros; reflexivity)
              |rewrite (last_under_opt_same k mk v) in Hl by (intros; reflexivity)]
    end;
  cbn in Hl.

(** Closes a goal about a field from a hypothesis evaluated by [eval_last_under]. *)
Ltac read_field Hl := solve [rewrite Hl; cbn [ok_or result_bind map_err];
  by repeat match goal with Hok : _ = Ok _ |- _ => rewrite Hok; clear Hok end].
Ltac absent_field Hl := clear -Hl; destruct (private_mode _), (disable_quic_support _); exact Hl.
Ltac optional_field Hl v :=
  clear -Hl; destruct (private_mode _), (disable_quic_support _), v; first [exact Hl | by rewrite Hl].

(** ** Theorems *)

Section local_enr_theorems.
Context `{ChainTypes} `{Libp2p} `{!CustodyCrates} `{!EnrFields} `{!EnrCrates} `{!EnrCrateLaws}.

(** A record built, or found on disk in its place, has empty bit fields. *)
Lemma build_enr_bits chain_config key config fork_id cgc nfd e :
  build_enr chain_config key config fork_id cgc nfd = Ok e ->
  attestation_bitfield e = Ok default_attnets /\ sync_committee_bitfield e = Ok default_syncnets.
Proof.
  unfold build_enr.
  intros (eth2 & He & (att & Ha & (sync & Hs & (custody & Hc & Hb)%result_bind_ok)%result_bind_ok)%result_bind_ok)%result_bind_ok.
  unfold attestation_bitfield, sync_committee_bitfield. apply attnets_ssz in Ha. apply syncnets_ssz in Hs.
  pose proof (built_bytes _ _ _ ATTESTATION_BITFIELD_ENR_KEY Hb) as Hatt.
  pose proof (built_bytes _ _ _ SYNC_COMMITTEE_BITFIELD_ENR_KEY Hb) as Hsync. clear Hb.
  destruct (config_is_peerdas_scheduled chain_config);
    (apply result_bind_ok in Hc as (n & Hn & [= <-]) || injection Hc as <-);
    eval_last_under Hatt; eval_last_under Hsync; (split; [read_field Hatt|read_field Hsync]).
Qed.

Lemma load_enr_bytes key local config disk e w k :
  k = ATTESTATION_BITFIELD_ENR_KEY \/ k = SYNC_COMMITTEE_BITFIELD_ENR_KEY ->
  use_or_load_enr key local config disk = Ok (e, w) -> enr_get_bytes e k = enr_get_bytes local k.
Proof.
  intros Hk Hu. unfold use_or_load_enr in Hu.
  destruct (network_dir config); [destruct (contents disk) as [text|]; [destruct (enr_from_str text) as [old|]|]|];
    try (by injection Hu as <- _).
  case_decide; [|by injection Hu as <- _]. destruct (compare_enr local old) eqn:Hc.
  - injection Hu as <- _. unfold compare_enr in Hc. rewrite !andb_true_iff, !bool_decide_eq_true in Hc.
    destruct Hk as [->| ->]; symmetry; apply Hc.
  - apply result_bind_ok in Hu as (n & _ & (e' & He & [= <- <-])%result_bind_ok).
    symmetry. by apply (set_seq_fields _ _ _ _ He).
Qed.

Lemma build_or_load_bits chain_config key config fork_id cgc nfd disk e w :
  build_or_load_enr chain_config key config fork_id cgc nfd disk = Ok (e, w) ->
  attestation_bitfield e = Ok default_attnets /\ sync_committee_bitfield e = Ok default_syncnets.
Proof.
  intros (local & [Ha Hs]%build_enr_bits & Hu)%result_bind_ok.
  unfold attestation_bitfield, sync_committee_bitfield in *.
  by rewrite (load_enr_bytes _ _ _ _ _ _ _ (or_introl eq_refl) Hu), (load_enr_bytes _ _ _ _ _ _ _ (or_intror eq_refl) Hu).
Qed.

(** The record a node builds says what its configuration says: the fork, no long-lived subnets yet,
    the custody group count and the next fork digest exactly if PeerDAS is scheduled, the addresses
    configured, and the ports configured or else listened on, QUIC only if it is enabled. *)
Theorem build_enr_describes chain_config key config fork_id cgc nfd e :
  build_enr chain_config key config fork_id cgc nfd = Ok e ->
  enr_eth2 e = Ok fork_id /\ attestation_bitfield e = Ok default_attnets /\
  sync_committee_bitfield e = Ok default_syncnets /\
  enr_ip4 e = (enr_address config).1 /\ enr_ip6 e = (enr_address config).2 /\
  enr_udp4 e = enr_udp4_port config /\ enr_udp6 e = enr_udp6_port config /\
  enr_tcp4 e = port_or_listening (enr_tcp4_port config) (la_v4 (listen_addresses config)) la_tcp_port /\
  enr_tcp6 e = port_or_listening (enr_tcp6_port config) (la_v6 (listen_addresses config)) la_tcp_port /\
  quic4 e = (if disable_quic_support config then None
             else port_or_listening (enr_quic4_port config) (la_v4 (listen_addresses config)) la_quic_port) /\
  quic6 e = (if disable_quic_support config then None
             else port_or_listening (enr_quic6_port config) (la_v6 (listen_addresses config)) la_quic_port) /\
  (if config_is_peerdas_scheduled chain_config then
     enr_next_fork_digest e = Ok nfd /\
     enr_custody_group_count chain_config e =
       let n := match cgc with
                | Some n => n
                | None => if nc_subscribe_all_data_column_subnets config
                          then config_number_of_custody_groups chain_config
                          else config_custody_requirement chain_config end in
       if (config_custody_requirement chain_config <=? n) && (n <=? config_number_of_custody_groups chain_config)
       then Ok n else Err "Invalid custody group count in ENR"%string
   else enr_get_u64 e PEERDAS_CUSTODY_GROUP_COUNT_ENR_KEY = None /\
        enr_get_bytes e NEXT_FORK_DIGEST_ENR_KEY = None).
Proof.
  unfold build_enr.
  intros (eth2 & He & (att & Ha & (sync & Hs & (custody & Hc & Hb)%result_bind_ok)%result_bind_ok)%result_bind_ok)%result_bind_ok.
  unfold enr_eth2, attestation_bitfield, sync_committee_bitfield, quic4, quic6, enr_next_fork_digest,
    enr_custody_group_count.
  apply fork_id_ssz in He. apply attnets_ssz in Ha. apply syncnets_ssz in Hs.
  pose proof (built_u64 _ _ _ PEERDAS_CUSTODY_GROUP_COUNT_ENR_KEY Hb) as Hg.
  pose proof (built_bytes _ _ _ ETH2_ENR_KEY Hb) as Hfork.
  pose proof (built_bytes _ _ _ ATTESTATION_BITFIELD_ENR_KEY Hb) as Hatt.
  pose proof (built_bytes _ _ _ SYNC_COMMITTEE_BITFIELD_ENR_KEY Hb) as Hsync.
  pose proof (built_bytes _ _ _ NEXT_FORK_DIGEST_ENR_KEY Hb) as Hnfd.
  pose proof (built_u16 _ _ _ QUIC_ENR_KEY Hb) as Hq. pose proof (built_u16 _ _ _ QUIC6_ENR_KEY Hb) as Hq6.
  apply built_ip4 in Hb as Hip4. apply built_ip6 in Hb as Hip6. apply built_udp4 in Hb as Hu4.
  apply built_udp6 in Hb as Hu6. apply built_tcp4 in Hb as Ht4. apply built_tcp6 in Hb as Ht6. clear Hb.
  destruct (config_is_peerdas_scheduled chain_config);
    (apply result_bind_ok in Hc as (n & Hn%digest_ssz & [= <-]) || injection Hc as <-);
    eval_last_under Hip4; eval_last_under Hip6; eval_last_under Hu4; eval_last_under Hu6;
    eval_last_under Ht4; eval_last_under Ht6; eval_last_under Hq; eval_last_under Hq6; eval_last_under Hg;
    eval_last_under Hfork; eval_last_under Hatt; eval_last_under Hsync; eval_last_under Hnfd;
    (repeat apply conj;
     [ read_field Hfork | read_field Hatt | read_field Hsync | optional_field Hip4 (enr_address config).1
     | optional_field Hip6 (enr_address config).2 | optional_field Hu4 (enr_udp4_port config)
     | optional_field Hu6 (enr_udp6_port config)
     | optional_field Ht4 (port_or_listening (enr_tcp4_port config) (la_v4 (listen_addresses config)) la_tcp_port)
     | optional_field Ht6 (port_or_listening (enr_tcp6_port config) (la_v6 (listen_addresses config)) la_tcp_port)
     | optional_field Hq (port_or_listening (enr_quic4_port config) (la_v4 (listen_addresses config)) la_quic_port)
     | optional_field Hq6 (port_or_listening (enr_quic6_port config) (la_v6 (listen_addresses config)) la_quic_port)
     | read_field Hnfd || absent_field Hg | read_field Hg || absent_field Hnfd]).
Qed.

(** The record of this node on disk, if there is one that can be read. *)
Definition own_record (local : Enr) (disk : File ascii) : option Enr :=
  match contents disk with
  | Some text =>
      match enr_from_str text with
      | Ok old => if decide (enr_node_id local = enr_node_id old) then Some old else None
      | Err _ => None
      end
  | None => None
  end.

(** C20: a restart settles.  The record a node starts with has its configuration and node id.  If there is
    a record of this node on disk that can be read, it is that record, untouched, or the new one with the
    next sequence number; otherwise, as on a first start, it is the new one.  A record that was not loaded
    is saved, which can fail; if it was loaded or saved in full, starting again with the same
    configuration finds it on disk and writes nothing. *)
Theorem restart_stable key local config dir disk e disk' :
  network_dir config = Some dir ->
  use_or_load_enr key local config disk = Ok (e, disk') ->
  compare_enr local e = true /\ enr_node_id e = enr_node_id local /\
  match own_record local disk with
  | Some old =>
      (compare_enr local old = true /\ e = old /\ disk' = disk) \/
      (compare_enr local old = false /\ enr_seq old <> U64_MAX /\ enr_seq e = enr_seq old + 1 /\
       same_fields local e /\ disk' = save_enr_to_disk (Some dir) e disk)
  | None => e = local /\ disk' = save_enr_to_disk (Some dir) e disk
  end /\
  (disk' = disk \/ last_outcome disk' = Written -> use_or_load_enr key local config disk' = Ok (e, disk')).
Proof.
  intros Hd Hu.
  enough (Hs : compare_enr local e = true /\ enr_node_id e = enr_node_id local /\
     match own_record local disk with
     | Some old =>
         (compare_enr local old = true /\ e = old /\ disk' = disk) \/
         (compare_enr local old = false /\ enr_seq old <> U64_MAX /\ enr_seq e = enr_seq old + 1 /\
          same_fields local e /\ disk' = save_enr_to_disk (Some dir) e disk)
     | None => e = local /\ disk' = save_enr_to_disk (Some dir) e disk
     end /\ (disk' = disk /\ use_or_load_enr key local config disk = Ok (e, disk) \/ disk' = save_enr_to_disk (Some dir) e disk)).
  { destruct Hs as (Hc & Hn & Hold & Hw). split_and!; [done..|]. intros Hok.
    destruct Hw as [[-> ?]|Hw]; [done|]. eapply load_same; eauto using base64_round_trip.
    cbn [save_enr_to_disk] in Hw. pose proof (file_write_holds disk (enr_to_base64 e)) as Hh. rewrite <- Hw in Hh.
    destruct Hok as [Heq|Hl]; [|by eapply holds_written]. rewrite Heq. apply file_write_same. by rewrite <- Hw, Heq. }
  pose proof (compare_enr_same local local (same_fields_refl local)) as Hl.
  pose proof Hu as Hload. unfold use_or_load_enr in Hu. unfold own_record. rewrite Hd in Hu.
  destruct (contents disk) as [text|]; [destruct (enr_from_str text) as [old|] eqn:Ht; [case_decide as Hn;
    [destruct (compare_enr local old) eqn:Hc|]|]|].
  - injection Hu as <- <-. split_and!; [done..|by left|by left].
  - apply result_bind_ok in Hu as (n & Hq & (e' & He & [= <- <-])%result_bind_ok).
    destruct (enr_seq old =? U64_MAX) eqn:Hm; [done|]. injection Hq as <-.
    pose proof (set_seq_fields _ _ _ _ He) as Hs. apply set_seq_seq in He.
    split_and!; [by apply compare_enr_same|symmetry; apply Hs| |by right]. right. split_and!; [done|lia|done..].
  - injection Hu as <- <-. by split_and!; auto.
  - injection Hu as <- <-. by split_and!; auto.
  - injection Hu as <- <-. by split_and!; auto.
Qed.

End local_enr_theorems.

(** ** A record as the list of its fields *)

Module LocalEnrExamples.

#[local] Existing Instance Toy.chain.

Definition field_code (x : EnrField) : Z * Z * (string * string) * Bytes :=
  match x with
  | FieldIp4 v => (0, v, (""%string, ""%string), [])
  | FieldIp6 v => (1, v, (""%string, ""%string), [])
  | FieldUdp4 v => (2, v, (""%string, ""%string), [])
  | FieldUdp6 v => (3, v, (""%string, ""%string), [])
  | FieldTcp4 v => (4, v, (""%string, ""%string), [])
  | FieldTcp6 v => (5, v, (""%string, ""%string), [])
  | FieldClientInfo a b => (6, 0, (a, b), [])
  | FieldU16 k v => (7, v, (k, ""%string), [])
  | FieldU64 k v => (8, v, (k, ""%string), [])
  | FieldBytes k v => (9, 0, (k, ""%string), v)
  end.
Definition field_decode (c : Z * Z * (string * string) * Bytes) : option EnrField :=
  let '(t, v, (k, k'), b) := c in
  nth_error [FieldIp4 v; FieldIp6 v; FieldUdp4 v; FieldUdp6 v; FieldTcp4 v; FieldTcp6 v;
             FieldClientInfo k k'; FieldU16 k v; FieldU64 k v; FieldBytes k b] (Z.to_nat t).
#[export] Instance EnrField_countable : Countable EnrField.
Proof. by apply (inj_countable field_code field_decode); intros []. Defined.

(** The sequence number, the signer and the fields. *)
Definition Rec : Type := Z * Z * list EnrField.

Definition rec_last {A} (f : EnrField -> option A) (key : string) (r : Rec) : option A :=
  last_under key r.2 ≫= f.

#[local] Instance rec_libp2p : Libp2p := {|
  PeerId := Z;
  Multiaddr := Z;
  multiaddr_iter := fun a => [MaIp4 (a / 65536); MaTcp (a mod 65536)];
  Enr := Rec;
  enr_peer_id := fun e => e.1.2;
  RlpError := unit;
  enr_get_bytes := fun e k => rec_last (fun x => match x with FieldBytes _ b => Some (Ok b) | _ => Some (Err tt) end) k e;
  attnets_from_ssz := fun b => Ok (map (fun x => x =? 1) b);
  syncnets_from_ssz := fun b => Ok (map (fun x => x =? 1) b);
|}.

#[local] Instance rec_fields : EnrFields := {
  enr_ip4 := rec_last (fun x => match x with FieldIp4 v => Some v | _ => None end) "ip";
  enr_ip6 := rec_last (fun x => match x with FieldIp6 v => Some v | _ => None end) "ip6";
  enr_udp4 := rec_last (fun x => match x with FieldUdp4 v => Some v | _ => None end) "udp";
  enr_udp6 := rec_last (fun x => match x with FieldUdp6 v => Some v | _ => None end) "udp6";
  enr_tcp4 := rec_last (fun x => match x with FieldTcp4 v => Some v | _ => None end) "tcp";
  enr_tcp6 := rec_last (fun x => match x with FieldTcp6 v => Some v | _ => None end) "tcp6";
  enr_get_u16 := fun e k => rec_last (fun x => match x with FieldU16 _ v => Some (Ok v) | _ => Some (Err tt) end) k e;
  multiaddr_from_ip := fun ip => match ip with IpV4 z | IpV6 z => z * 65536 end;
  multiaddr_push := fun a c => match c with MaTcp port => a + port | _ => a end;
  multiaddr_push_p2p := fun a _ => a;
  IdentityKey := Z;
  peer_id_to_bytes := fun p : Z => [0; 0; p];
  try_decode_protobuf := fun l => Ok (hd 0 l);
  key_type := fun _ => KeySecp256k1;
  secp256k1_uncompressed := fun k => [4; k];
  ed25519_bytes := fun k => [k];
  keccak256 := fun l => l;
}.

#[local] Instance rec_custody : CustodyCrates := {
  NodeId := Z;
  node_id_parse := hd 0;
  enr_node_id := fun e : Rec => e.1.2;
  config_number_of_custody_groups := fun _ => 128;
  config_sampling_size_custody_groups := fun _ n => Z.max 8 n;
  get_custody_groups := fun _ _ n => Some (list_to_set (seqZ 0 n));
  compute_subnets_from_custody_group := fun _ g => Some [g];
  compute_subnet_for_data_column_sidecar := fun _ c => c;
}.

Definition bit (b : bool) : Z := if b then 1 else 0.

#[local] Instance rec_crates : EnrCrates := {
  Version := Z;
  CombinedKey := Z;
  application_name := "Grandine";
  application_version := "1.0.0";
  enr_get_u64 := fun e k => rec_last (fun x => match x with FieldU64 _ v => Some (Ok v) | _ => Some (Err tt) end) k e;
  fork_id_to_ssz := fun f => Ok [efi_fork_digest f; next_fork_version f; next_fork_epoch f];
  fork_id_from_ssz := fun b => match b with [d; v; e] => Ok (mkEnrForkId d v e) | _ => Err tt end;
  digest_to_ssz := fun d : Z => Ok [d];
  digest_from_ssz := fun b => match b with [d] => Ok d | _ => Err tt end;
  default_attnets := replicate 64 false;
  attnets_to_ssz := fun v => Ok (map bit v);
  syncnets_to_ssz := fun v => Ok (map bit v);
  enr_build := fun fs k => Ok (1, k, fs);
  enr_seq := fun e : Rec => e.1.1;
  enr_set_seq := fun (e : Rec) n _ => Ok (n, e.1.2, e.2);
  enr_to_base64 := fun e : Rec => TopicsExamples.bits (encode e);
  enr_from_str := fun s => ok_or (countable.decode (TopicsExamples.unbits s)) "not a record"%string;
  compute_subnets_for_node := fun _ _ n => Some (list_to_set (seqZ 0 n));
}.

Lemma bits_round_trip v : map (fun x => x =? 1) (map bit v) = v.
Proof. rewrite map_map. induction v as [|[] v IH]; cbn; congruence. Qed.

#[local] Instance rec_laws : EnrCrateLaws.
Proof.
  split; unfold enr_build, enr_set_seq; cbn;
    try (intros; simplify_eq/=; unfold rec_last; cbn; by repeat case_match; simplify_eq/=).
  - intros e. by rewrite TopicsExamples.unbits_bits, decode_encode.
  - by intros [] b [= <-].
  - intros v b [= <-]. by rewrite bits_round_trip.
  - intros v b [= <-]. by rewrite bits_round_trip.
Qed.

Definition config_of (u : unit) : @ChainConfig Toy.chain := u.
Definition key_of (k : Z) : @CombinedKey _ _ _ rec_crates := k.
Definition home_config : NetworkConfig := NetworkConfig_default "/home".
Definition fork_id : EnrForkId Z Z := mkEnrForkId 1010 5 100.
Definition home_record : Rec :=
  default (0, 0, []) (match build_enr tt 7 home_config fork_id None 1020 with Ok e => Some e | Err _ => None end).

Lemma build_enr_describes_witness :
  enr_eth2 home_record = Ok fork_id /\ enr_tcp4 home_record = Some 9000 /\
  enr_custody_group_count tt home_record = Ok 4.
Proof.
  destruct (build_enr_describes (config_of tt) (key_of 7) home_config fork_id None 1020 home_record ltac:(by vm_compute))
    as (Hf & _ & _ & _ & _ & _ & _ & Ht & _ & _ & _ & _ & Hc).
  split; [exact Hf|]. split; [rewrite Ht; by vm_compute|]. exact (eq_trans Hc ltac:(by vm_compute)).
Defined.

(** The record on disk has another fork; the new one gets the next sequence number, and is what the next
    start loads. *)
Definition old_record : Rec := (5, 7, [FieldTcp4 9000; FieldBytes ETH2_ENR_KEY [1000; 4; 90]]).

Definition new_record : Rec := (6, 7, home_record.2).
Definition on_disk (r : Rec) : chars := enr_to_base64 r.

Definition file_of (r : Rec) : File ascii := file_found (Some (on_disk r)) [].

Lemma restart_stable_witness :
  exists disk', use_or_load_enr 7 home_record home_config (file_of old_record) = Ok (new_record, disk') /\
    use_or_load_enr 7 home_record home_config disk' = Ok (new_record, disk').
Proof.
  assert (Hu : use_or_load_enr 7 home_record home_config (file_of old_record) =
    Ok (new_record, mkFile (Some (on_disk new_record)) Written [])) by (by vm_compute).
  eexists. split; [exact Hu|].
  destruct (restart_stable (key_of 7) home_record home_config _ (file_of old_record) new_record _ eq_refl Hu)
    as (_ & _ & _ & Hs). apply Hs. by right.
Defined.

(** If the write fails, the old record stays on disk, and the next start gives the same number to a new one. *)
Example failed_write_repeats :
  match use_or_load_enr 7 home_record home_config (file_found (Some (on_disk old_record)) [NotOpened]) with
  | Ok (e, disk') => e = new_record /\ contents disk' = Some (on_disk old_record) /\
      use_or_load_enr 7 home_record home_config disk' = Ok (new_record, mkFile (Some (on_disk new_record)) Written [])
  | Err _ => False
  end.
Proof. by vm_compute. Qed.

(** A record with a subnet bit is found by the predicate; the bits of the local record are all clear. *)
Example predicate_example :
  let on := (1, 9, [FieldBytes ATTESTATION_BITFIELD_ENR_KEY [0; 1]; FieldU64 PEERDAS_CUSTODY_GROUP_COUNT_ENR_KEY 4]) : Rec in
  (map (fun s => subnet_predicate tt [s] on)
     [Subnet.Attestation 1; Subnet.Attestation 0; Subnet.Attestation 70; Subnet.SyncCommittee 0;
      Subnet.DataColumn 3; Subnet.DataColumn 4],
   subnet_predicate tt [Subnet.Attestation 1] home_record) =
  ([true; false; false; false; true; false], false).
Proof. evaluate. Qed.

End LocalEnrExamples.
