(* ===== verification/Discovery.v ===== *)
(** * Discovery ([discovery/mod.rs])

    The queries to discv5: at most one search for peers and a few grouped searches for the peers of
    subnets, the queue the groups are formed from, the record the node publishes, and the records found.
    Discv5 and the record cache are parameters; a query's answer, the answers of the boot nodes and the
    events of discv5 are arguments of the operations that receive them.  [network_globals] is passed in
    and, where it is written, returned. *)

From S2P Require Import Prelude Disk Chain Timers Enr Protocol Messages Text RateLimiter RateConfig Events.
From S2P Require Import ForkContext Float64 Score PeerInfo PeerDB Topics Globals EnrExt Config LocalEnr.

Definition TARGET_PEERS_FOR_GROUPED_QUERY : Z := 6.
Definition MAX_DISCOVERY_RETRY : Z := 3.
Definition MAX_CONCURRENT_SUBNET_QUERIES : Z := 4.
Definition MAX_SUBNETS_IN_QUERY : nat := 3.
Definition FIND_NODE_QUERY_CLOSEST_PEERS : Z := 16.
Definition DURATION_DIFFERENCE : Duration := Duration_from_millis 1.
Definition ENR_CACHE_CAPACITY : nat := 50.

(** The handle of discv5 and [lru::LruCache]. *)
Class Discv5Service `{EnrCrates} := {
  Discv5 : Type;
  discv5_new : Enr -> CombinedKey -> Discv5Config -> result Discv5 string;
  discv5_start : Discv5 -> result Discv5 string;
  discv5_local_enr : Discv5 -> Enr;
  discv5_add_enr : Discv5 -> Enr -> result Discv5 string;
  discv5_table_entries : Discv5 -> list Enr;
  discv5_enr_insert : Discv5 -> EnrField -> result Discv5 string;
  (** [update_local_enr_socket] of a socket, for TCP or UDP: whether the record changed. *)
  discv5_update_socket : Discv5 -> IpAddr * Z -> bool -> bool * Discv5;
  discv5_ban_node : Discv5 -> NodeId -> Discv5;
  discv5_ban_node_remove : Discv5 -> NodeId -> Discv5;
  discv5_ban_ip : Discv5 -> IpAddr -> Discv5;
  discv5_ban_ip_remove : Discv5 -> IpAddr -> Discv5;
  discv5_disconnect_node : Discv5 -> NodeId -> Discv5;
  EnrCache : Type;
  cache_new : nat -> EnrCache;
  cache_put : EnrCache -> PeerId -> Enr -> EnrCache;
  cache_pop : EnrCache -> PeerId -> EnrCache;
  cache_iter : EnrCache -> list (PeerId * Enr);
}.

Record UpdatePorts := mkUpdatePorts { up_tcp4 : bool; up_tcp6 : bool; up_quic4 : bool; up_quic6 : bool }.

Record SubnetQuery := mkSubnetQuery { sq_subnet : Subnet; sq_min_ttl : option Instant; sq_retries : Z }.

#[export] Instance SubnetQuery_eq_dec : EqDecision SubnetQuery.
Proof. solve_decision. Defined.

Definition expired (q : SubnetQuery) (now : Instant) : bool :=
  match sq_min_ttl q with Some ttl => ttl <? now | None => false end.

Inductive QueryType :=
  | QSubnet (l : list SubnetQuery)
  | QFindPeers.

Inductive EventStream := Awaiting | Present | InActive.

Inductive Discv5Event :=
  | SocketUpdated (socket : IpAddr * Z)
  | OtherEvent.

Inductive DialError :=
  | Denied | LocalPeerId | NoAddresses | TransportError | WrongPeerId | DialPeerConditionFalse | Aborted.

(** [<] of [Option<Instant>]. *)
Definition ttl_ltb (a b : option Instant) : bool :=
  match a, b with
  | None, Some _ => true
  | Some x, Some y => x <? y
  | _, None => false
  end.

Definition set_g_local_enr `{ChainTypes} `{Libp2p} (g : NetworkGlobals) (e : Enr) : NetworkGlobals :=
  mkNetworkGlobals (g_config g) e (g_peer_id g) (listen_multiaddrs g) (g_peers g) (local_metadata g)
    (gossipsub_subscriptions g) (sync_state g) (backfill_state g) (sampling_subnets g)
    (target_subnet_peers g) (network_config g).

Section discovery.
Context `{ChainTypes} `{Libp2p} `{!CustodyCrates} `{!EnrFields} `{!EnrCrates} `{!Discv5Service}.
Context `{HashIter} `{FloatExp} `{UnstableSort}.

(** A query given to discv5 and not answered yet. *)
Record ActiveQuery := mkActiveQuery {
  aq_query : QueryType;
  aq_target_peers : Z;
  aq_predicate : Enr -> bool;
}.

(** [enr_file] is the file in [enr_dir]. *)
Record Discovery := mkDiscovery {
  d_config : ChainConfig;
  cached_enrs : EnrCache;
  enr_dir : option string;
  discv5 : Discv5;
  find_peer_active : bool;
  queued_queries : list SubnetQuery;
  active_queries : list ActiveQuery;
  event_stream : EventStream;
  started : bool;
  update_ports : UpdatePorts;
  enr_file : File Ascii.ascii;
}.

Definition set_cache (d : Discovery) (x : EnrCache) : Discovery :=
  let '(mkDiscovery c _ dir v fp q a ev st up f) := d in mkDiscovery c x dir v fp q a ev st up f.
Definition set_discv5 (d : Discovery) (x : Discv5) : Discovery :=
  let '(mkDiscovery c ca dir _ fp q a ev st up f) := d in mkDiscovery c ca dir x fp q a ev st up f.
Definition set_find_peer_active (d : Discovery) (x : bool) : Discovery :=
  let '(mkDiscovery c ca dir v _ q a ev st up f) := d in mkDiscovery c ca dir v x q a ev st up f.
Definition set_queue (d : Discovery) (x : list SubnetQuery) : Discovery :=
  let '(mkDiscovery c ca dir v fp _ a ev st up f) := d in mkDiscovery c ca dir v fp x a ev st up f.
Definition set_active (d : Discovery) (x : list ActiveQuery) : Discovery :=
  let '(mkDiscovery c ca dir v fp q _ ev st up f) := d in mkDiscovery c ca dir v fp q x ev st up f.
Definition set_event_stream (d : Discovery) (x : EventStream) : Discovery :=
  let '(mkDiscovery c ca dir v fp q a _ st up f) := d in mkDiscovery c ca dir v fp q a x st up f.
Definition set_enr_file (d : Discovery) (x : File Ascii.ascii) : Discovery :=
  let '(mkDiscovery c ca dir v fp q a ev st up _) := d in mkDiscovery c ca dir v fp q a ev st up x.

(** ** Construction *)

(** [add_enr] of discv5, with errors only logged. *)
Definition add_to_table (v : Discv5) (e : Enr) : Discv5 :=
  match discv5_add_enr v e with Ok v => v | Err _ => v end.

(** [answers] are the records the multiaddress boot nodes answer with, in the order they come in. *)
Definition Discovery_new (config : ChainConfig) (enr_key : result CombinedKey string) (nc : NetworkConfig)
  (g : NetworkGlobals) (answers : list (result Enr string)) : result Discovery string :=
  let? key := enr_key in
  let? v := discv5_new (local_enr g) key (discv5_config nc) in
  let v := fold_left (fun v bootnode_enr =>
             if decide (enr_node_id bootnode_enr = enr_node_id (local_enr g)) then v
             else add_to_table v bootnode_enr) (boot_nodes_enr nc) v in
  let? vs := if disable_discovery nc then Ok (v, InActive)
             else let? v := discv5_start v in Ok (v, Awaiting) in
  let v := fold_left (fun v answer => match answer with Ok e => add_to_table v e | Err _ => v end) answers vs.1 in
  Ok (mkDiscovery config (cache_new ENR_CACHE_CAPACITY) (network_dir nc) v false [] [] vs.2
        (negb (disable_discovery nc))
        (mkUpdatePorts (bool_decide (enr_tcp4_port nc = None)) (bool_decide (enr_tcp6_port nc = None))
           (bool_decide (enr_quic4_port nc = None)) (bool_decide (enr_quic6_port nc = None))) (file_found None [])).

Definition d_local_enr (d : Discovery) : Enr := discv5_local_enr (discv5 d).
Definition remove_cached_enr (d : Discovery) (p : PeerId) : Discovery := set_cache d (cache_pop (cached_enrs d) p).
Definition add_enr (d : Discovery) (e : Enr) : Discovery :=
  let d := set_cache d (cache_put (cached_enrs d) (enr_peer_id e) e) in
  set_discv5 d (add_to_table (discv5 d) e).
Definition table_entries_enr (d : Discovery) : list Enr := discv5_table_entries (discv5 d).

(** ** Queries *)

(** The fork digests must match; the upcoming forks may differ. *)
Definition eth2_fork_predicate (digest : ForkDigest) (e : Enr) : bool :=
  match enr_eth2 e with Ok f => bool_decide (efi_fork_digest f = digest) | Err _ => false end
  && (bool_decide (is_Some (enr_tcp4 e)) || bool_decide (is_Some (enr_tcp6 e))).

Definition start_query (d : Discovery) (query : QueryType) (target_peers : Z) (additional : Enr -> bool)
  : Discovery :=
  match enr_eth2 (d_local_enr d) with
  | Err _ => d
  | Ok enr_fork_id =>
      set_active d (active_queries d ++
        [mkActiveQuery query target_peers
           (fun e => eth2_fork_predicate (efi_fork_digest enr_fork_id) e && additional e)])
  end.

Definition discover_peers (d : Discovery) (target_peers : Z) : Discovery :=
  if negb (started d) || find_peer_active d then d
  else start_query (set_find_peer_active d true) QFindPeers
         (Z.min FIND_NODE_QUERY_CLOSEST_PEERS target_peers) (fun _ => true).

(** The queue after the loop that looks for the subnet, and whether it was found. *)
Fixpoint update_queued (l : list SubnetQuery) (subnet : Subnet) (min_ttl : option Instant) (retries : Z)
  : bool * list SubnetQuery :=
  match l with
  | [] => (false, [])
  | q :: l =>
      if decide (sq_subnet q = subnet) then
        (true, mkSubnetQuery (sq_subnet q) (if ttl_ltb (sq_min_ttl q) min_ttl then min_ttl else sq_min_ttl q)
                 retries :: l)
      else let '(found, l) := update_queued l subnet min_ttl retries in (found, q :: l)
  end.

Definition add_subnet_query (d : Discovery) (subnet : Subnet) (min_ttl : option Instant) (retries : Z)
  : Discovery :=
  if MAX_DISCOVERY_RETRY <? retries then d
  else
    let '(found, l) := update_queued (queued_queries d) subnet min_ttl retries in
    set_queue d (if found then l else l ++ [mkSubnetQuery subnet min_ttl retries]).

Definition discover_subnet_peers (d : Discovery) (subnets_to_discover : list SubnetDiscovery) : Discovery :=
  if negb (started d) then d
  else fold_left (fun d s => add_subnet_query d (sd_subnet s) (sd_min_ttl s) 0) subnets_to_discover d.

Definition at_capacity (d : Discovery) : bool :=
  MAX_CONCURRENT_SUBNET_QUERIES <=?
  saturating_sub (Z.of_nat (length (active_queries d))) (if find_peer_active d then 1 else 0).

(** Whether there are too few good peers on the subnet of a query. *)
Definition still_needed (g : NetworkGlobals) (q : SubnetQuery) : bool :=
  negb (target_subnet_peers g <=? Z.of_nat (length (good_peers_on_subnet (g_peers g) (sq_subnet q)))).

Definition start_subnet_query (g : NetworkGlobals) (d : Discovery) (subnet_queries : list SubnetQuery)
  : Discovery :=
  let filtered := filter (fun q => still_needed g q = true) subnet_queries in
  match filtered with
  | [] => d
  | _ => start_query d (QSubnet filtered) TARGET_PEERS_FOR_GROUPED_QUERY
           (subnet_predicate (d_config d) (map sq_subnet filtered))
  end.

(** The loop of [process_queue]: [queue] is what is left of the queue, which the loop shortens by one
    query each time; [group] is what was popped since the last query was started. *)
Fixpoint process_loop (g : NetworkGlobals) (d : Discovery) (queue group : list SubnetQuery) (processed : bool)
  : bool * Discovery :=
  match queue with
  | [] => (processed, set_queue d [])
  | q :: queue' =>
      if at_capacity d then (processed, set_queue d queue)
      else
        let group := group ++ [q] in
        if (length group =? MAX_SUBNETS_IN_QUERY)%nat || bool_decide (queue' = [])
        then process_loop g (start_subnet_query g d group) queue' [] true
        else process_loop g d queue' group processed
  end.

Definition process_queue (g : NetworkGlobals) (d : Discovery) (now : Instant) : bool * Discovery :=
  process_loop g d (filter (fun q => expired q now = false) (queued_queries d)) [] false.

(** ** Answers *)

Abbreviation Results := (gmap Enr (option Instant)) (only parsing).

Definition map_result (min_ttl : option Instant) (m : Results) (e : Enr) : Results :=
  match min_ttl, m !! e with
  | Some t, Some (Some other) =>
      if DURATION_DIFFERENCE <? saturating_sub t other then <[e := Some t]> m else m
  | Some t, Some None => <[e := Some t]> m
  | min_ttl, None => <[e := min_ttl]> m
  | None, Some _ => m
  end.

Definition cache_found (d : Discovery) (r : list Enr) : Discovery :=
  set_cache d (fold_left (fun c e => cache_put c (enr_peer_id e) e) r (cached_enrs d)).

(** A query for a subnet is queued again, with one retry more. *)
Definition retry (d : Discovery) (q : SubnetQuery) : Discovery :=
  add_subnet_query d (sq_subnet q) (sq_min_ttl q) (sq_retries q + 1).

Definition process_completed_queries (d : Discovery) (query : QueryType) (r : result (list Enr) string)
  : option Results * Discovery :=
  match query with
  | QFindPeers =>
      let d := set_find_peer_active d false in
      match r with
      | Err _ | Ok [] => (None, d)
      | Ok r => (Some (list_to_map (map (fun e => (e, None)) r)), cache_found d r)
      end
  | QSubnet queries =>
      match r with
      | Err _ => (None, d)
      | Ok [] => (None, fold_left retry queries d)
      | Ok r =>
          let '(mapped_results, d) :=
            fold_left (fun '(m, d) q =>
              let d := retry d q in
              (fold_left (map_result (sq_min_ttl q))
                 (filter (fun e => subnet_predicate (d_config d) [sq_subnet q] e = true) r) m, d))
              queries (∅ : Results, cache_found d r) in
          (if decide (mapped_results = ∅) then None else Some mapped_results, d)
      end
  end.

(** [completed] are the answers in the order the runtime delivers them, each with the position of its
    query among those active; after the last one the set of queries is pending. *)
Fixpoint poll_queries (d : Discovery) (completed : list (nat * result (list Enr) string))
  : option Results * Discovery :=
  match completed with
  | [] => (None, d)
  | (i, r) :: completed =>
      match active_queries d !! i with
      | None => poll_queries d completed
      | Some a =>
          let d := set_active d (take i (active_queries d) ++ drop (S i) (active_queries d)) in
          match process_completed_queries d (aq_query a) r with
          | (Some m, d) => (Some m, d)
          | (None, d) => poll_queries d completed
          end
      end
  end.

(** ** The node's own record *)

(** [save_enr_to_disk] of the current record. *)
Definition persist (d : Discovery) : Discovery :=
  set_enr_file d (save_enr_to_disk (enr_dir d) (d_local_enr d) (enr_file d)).

(** The global version is replaced and the record written to disk. *)
Definition publish (g : NetworkGlobals) (d : Discovery) : NetworkGlobals * Discovery :=
  (set_g_local_enr g (d_local_enr d), persist d).

(** [enr_insert]; an error leaves the record as it is and is returned before anything is published. *)
Definition insert_and_publish {A} (g : NetworkGlobals) (d : Discovery) (field : EnrField) (ok : A)
  : result A string * (NetworkGlobals * Discovery) :=
  match discv5_enr_insert (discv5 d) field with
  | Err e => (Err e, (g, d))
  | Ok v => (Ok ok, publish g (set_discv5 d v))
  end.

Definition update_enr_tcp_port (g : NetworkGlobals) (d : Discovery) (port : Z) (v6 : bool)
  : result bool string * (NetworkGlobals * Discovery) :=
  if v6 then
    if decide (enr_tcp6 (d_local_enr d) = Some port) then (Ok false, (g, d))
    else insert_and_publish g d (FieldU16 "tcp6" port) true
  else
    if decide (enr_tcp4 (d_local_enr d) = Some port) then (Ok false, (g, d))
    else insert_and_publish g d (FieldU16 "tcp" port) true.

Definition update_enr_quic_port (g : NetworkGlobals) (d : Discovery) (port : Z) (v6 : bool)
  : result bool string * (NetworkGlobals * Discovery) :=
  let insert enr_field :=
    if decide (quic4 (d_local_enr d) = Some port) then (Ok false, (g, d))
    else insert_and_publish g d (FieldU16 enr_field port) true in
  if v6 then
    if decide (quic6 (d_local_enr d) = Some port) then (Ok false, (g, d)) else insert QUIC6_ENR_KEY
  else
    if decide (quic4 (d_local_enr d) = Some port) then (Ok false, (g, d)) else insert QUIC_ENR_KEY.

Definition update_enr_udp_socket (g : NetworkGlobals) (d : Discovery) (socket : IpAddr * Z)
  : NetworkGlobals * Discovery :=
  let '(changed, v) := discv5_update_socket (discv5 d) socket false in
  let d := set_discv5 d v in
  let d := if changed then persist d else d in
  (set_g_local_enr g (d_local_enr d), d).

Definition update_enr_cgc (g : NetworkGlobals) (d : Discovery) (cgc : Z)
  : result unit string * (NetworkGlobals * Discovery) :=
  insert_and_publish g d (FieldU64 PEERDAS_CUSTODY_GROUP_COUNT_ENR_KEY cgc) tt.

(** A bit of a bit field of the record; nothing happens if it has the value already. *)
Definition update_bit (g : NetworkGlobals) (d : Discovery) (bitfield : result BitVector string) (id : Z)
  (value : bool) (key : string) (to_ssz : BitVector -> result Bytes string)
  : result unit string * (NetworkGlobals * Discovery) :=
  match bitfield with
  | Err e => (Err e, (g, d))
  | Ok current_bitfield =>
      match bit_get current_bitfield id with
      | None => (Err "subnet ID out of bounds"%string, (g, d))
      | Some b =>
          if Bool.eqb b value then (Ok tt, (g, d))
          else
            match to_ssz (<[Z.to_nat id := value]> current_bitfield) with
            | Err e => (Err e, (g, d))
            | Ok bitfield_ssz => insert_and_publish g d (FieldBytes key bitfield_ssz) tt
            end
      end
  end.

Definition update_enr_bitfield (g : NetworkGlobals) (d : Discovery) (subnet : Subnet) (value : bool)
  : result unit string * (NetworkGlobals * Discovery) :=
  let local_enr := d_local_enr d in
  match subnet with
  | Subnet.Attestation id =>
      update_bit g d (attestation_bitfield local_enr) id value ATTESTATION_BITFIELD_ENR_KEY attnets_to_ssz
  | Subnet.SyncCommittee id =>
      update_bit g d (sync_committee_bitfield local_enr) id value SYNC_COMMITTEE_BITFIELD_ENR_KEY syncnets_to_ssz
  | Subnet.DataColumn _ => (Ok tt, (g, d))
  end.

Definition update_enr_nfd (g : NetworkGlobals) (d : Discovery) (next_fork_digest : ForkDigest)
  : result unit string * (NetworkGlobals * Discovery) :=
  match digest_to_ssz next_fork_digest with
  | Err e => (Err e, (g, d))
  | Ok ssz => insert_and_publish g d (FieldBytes NEXT_FORK_DIGEST_ENR_KEY ssz) tt
  end.

(** Errors are logged; the record is published all the same. *)
Definition update_eth2_enr (g : NetworkGlobals) (d : Discovery) (enr_fork_id : EnrForkId ForkDigest Version)
  : NetworkGlobals * Discovery :=
  let update :=
    let? ssz := fork_id_to_ssz enr_fork_id in discv5_enr_insert (discv5 d) (FieldBytes ETH2_ENR_KEY ssz) in
  publish g (match update with Ok v => set_discv5 d v | Err _ => d end).

(** ** Peers *)

(** [peer_id_to_node_id], if the key of the peer can be read from its identifier. *)
Definition on_node (d : Discovery) (p : PeerId) (f : Discv5 -> NodeId -> Discv5) : Discovery :=
  match peer_id_to_node_id p with
  | Ok raw => set_discv5 d (f (discv5 d) (node_id_parse raw))
  | Err _ => d
  end.

Definition d_ban_peer (d : Discovery) (p : PeerId) (ips : list IpAddr) : Discovery :=
  let d := on_node d p discv5_ban_node in
  set_discv5 d (fold_left discv5_ban_ip ips (discv5 d)).

Definition d_unban_peer (d : Discovery) (p : PeerId) (ips : list IpAddr) : Discovery :=
  let d := on_node d p discv5_ban_node_remove in
  set_discv5 d (fold_left discv5_ban_ip_remove ips (discv5 d)).

Definition d_disconnect_peer (d : Discovery) (p : PeerId) : Discovery :=
  let d := on_node d p discv5_disconnect_node in
  set_cache d (cache_pop (cached_enrs d) p).

(** ** The behaviour *)

Definition handle_discv5_event (s : NetworkGlobals * Discovery) (e : Discv5Event) : NetworkGlobals * Discovery :=
  let '(g, d) := s in
  match e with
  | SocketUpdated socket =>
      let update :=
        match socket.1 with IpV4 _ => up_tcp4 (update_ports d) | IpV6 _ => up_tcp6 (update_ports d) end in
      let d := if update then set_discv5 d (discv5_update_socket (discv5 d) socket true).2 else d in
      publish g d
  | OtherEvent => (g, d)
  end.

(** What the runtime has ready in a poll: answers to queries, the event stream, events of discv5. *)
Record PollInput := mkPollInput {
  pi_now : Instant;
  pi_completed : list (nat * result (list Enr) string);
  pi_stream : option (result unit string);
  pi_events : list Discv5Event;
}.

Definition d_poll (g : NetworkGlobals) (d : Discovery) (i : PollInput)
  : option Results * (NetworkGlobals * Discovery) :=
  if negb (started d) then (None, (g, d))
  else
    let d := (process_queue g d (pi_now i)).2 in
    match poll_queries d (pi_completed i) with
    | (Some peers, d) => (Some peers, (g, d))
    | (None, d) =>
        match event_stream d with
        | Awaiting =>
            (None, (g, match pi_stream i with
                       | Some (Ok _) => set_event_stream d Present
                       | Some (Err _) => set_event_stream d InActive
                       | None => d
                       end))
        | InActive => (None, (g, d))
        | Present => (None, fold_left handle_discv5_event (pi_events i) (g, d))
        end
    end.

(** [FromSwarm::NewListenAddr]. *)
Definition on_new_listen_addr (g : NetworkGlobals) (d : Discovery) (addr : Multiaddr) : NetworkGlobals * Discovery :=
  let up := update_ports d in
  match multiaddr_iter addr with
  | [MaIp4 _; MaTcp port] => if up_tcp4 up then (update_enr_tcp_port g d port false).2 else (g, d)
  | MaIp4 _ :: MaUdp port :: MaQuicV1 :: _ =>
      if up_quic4 up then (update_enr_quic_port g d port false).2 else (g, d)
  | [MaIp6 _; MaTcp port] => if up_tcp6 up then (update_enr_tcp_port g d port true).2 else (g, d)
  | MaIp6 _ :: MaUdp port :: MaQuicV1 :: _ =>
      if up_quic6 up then (update_enr_quic_port g d port true).2 else (g, d)
  | _ => (g, d)
  end.

Definition d_on_dial_failure (g : NetworkGlobals) (d : Discovery) (peer_id : option PeerId) (error : DialError)
  : Discovery :=
  match peer_id with
  | None => d
  | Some p =>
      match error with
      | Denied => if db_is_connected (g_peers g) p then d else d_disconnect_peer d p
      | LocalPeerId | NoAddresses | TransportError | WrongPeerId => d_disconnect_peer d p
      | DialPeerConditionFalse | Aborted => d
      end
  end.

End discovery.

(** ** Sums *)

Definition sum_Z {A} (f : A -> Z) (l : list A) : Z := foldr (fun x s => f x + s) 0 l.

Lemma sum_Z_cons {A} (f : A -> Z) x l : sum_Z f (x :: l) = f x + sum_Z f l.
Proof. done. Qed.

Lemma sum_Z_app {A} (f : A -> Z) l l' : sum_Z f (l ++ l') = sum_Z f l + sum_Z f l'.
Proof.
  induction l as [|x l IH]; [done|]. rewrite <- app_comm_cons, !sum_Z_cons, IH. lia.
Qed.

Lemma sum_Z_delete {A} (f : A -> Z) l i x :
  l !! i = Some x -> sum_Z f (take i l ++ drop (S i) l) = sum_Z f l - f x.
Proof.
  intros Hi. rewrite <- (take_drop_middle l i x Hi) at 3. rewrite !sum_Z_app, sum_Z_cons. lia.
Qed.

Lemma sum_Z_nonneg {A} (f : A -> Z) l : Forall (fun x => 0 <= f x) l -> 0 <= sum_Z f l.
Proof. induction 1; [done|]. rewrite sum_Z_cons. lia. Qed.

Lemma sum_Z_filter {A} (f : A -> Z) (P : A -> Prop) `{!forall x, Decision (P x)} l :
  Forall (fun x => 0 <= f x) l -> sum_Z f (filter P l) <= sum_Z f l.
Proof.
  induction 1 as [|x l Hx _ IH]; [done|]. rewrite filter_cons, sum_Z_cons.
  case_decide; rewrite ?sum_Z_cons; lia.
Qed.

(** ** What is relied on *)

Section discovery_laws.
Context `{ChainTypes} `{Libp2p} `{!CustodyCrates} `{!EnrFields} `{!EnrCrates} `{!Discv5Service}.

(** The keys of addresses, which discv5 maintains. *)
Definition address_keys : list string := ["ip"; "ip6"; "udp"; "udp6"; "tcp"; "tcp6"]%string.

Class Discv5Laws : Prop := {
  new_local_enr : forall e k c v, discv5_new e k c = Ok v -> discv5_local_enr v = e;
  start_local_enr : forall v v', discv5_start v = Ok v' -> discv5_local_enr v' = discv5_local_enr v;
  add_enr_local : forall v e v', discv5_add_enr v e = Ok v' -> discv5_local_enr v' = discv5_local_enr v;
  (** Only the field inserted changes, and it can be read back. *)
  insert_other : forall v f v' key, discv5_enr_insert v f = Ok v' -> key <> field_key f ->
    enr_get_bytes (discv5_local_enr v') key = enr_get_bytes (discv5_local_enr v) key;
  insert_same : forall v key b v', discv5_enr_insert v (FieldBytes key b) = Ok v' ->
    enr_get_bytes (discv5_local_enr v') key = Some (Ok b);
  update_socket_other : forall v s tcp key, key ∉ address_keys ->
    enr_get_bytes (discv5_local_enr (discv5_update_socket v s tcp).2) key =
    enr_get_bytes (discv5_local_enr v) key;
  (** An update that reports no change makes none. *)
  update_socket_same : forall v s tcp, (discv5_update_socket v s tcp).1 = false ->
    discv5_local_enr (discv5_update_socket v s tcp).2 = discv5_local_enr v;
  ban_node_local : forall v n, discv5_local_enr (discv5_ban_node v n) = discv5_local_enr v;
  ban_node_remove_local : forall v n, discv5_local_enr (discv5_ban_node_remove v n) = discv5_local_enr v;
  ban_ip_local : forall v i, discv5_local_enr (discv5_ban_ip v i) = discv5_local_enr v;
  ban_ip_remove_local : forall v i, discv5_local_enr (discv5_ban_ip_remove v i) = discv5_local_enr v;
  disconnect_node_local : forall v n, discv5_local_enr (discv5_disconnect_node v n) = discv5_local_enr v;
}.

End discovery_laws.

(** ** Runs *)

Section discovery_runs.
Context `{ChainTypes} `{Libp2p} `{!CustodyCrates} `{!EnrFields} `{!EnrCrates} `{!Discv5Service}.
Context `{HashIter} `{FloatExp} `{UnstableSort}.

(** The calls of the network service and the swarm. *)
Inductive DOp :=
  | OpDiscoverPeers (target_peers : Z)
  | OpDiscoverSubnetPeers (l : list SubnetDiscovery)
  | OpAddEnr (e : Enr)
  | OpRemoveCachedEnr (p : PeerId)
  | OpUpdateTcpPort (port : Z) (v6 : bool)
  | OpUpdateQuicPort (port : Z) (v6 : bool)
  | OpUpdateUdpSocket (socket : IpAddr * Z)
  | OpUpdateCgc (cgc : Z)
  | OpUpdateBitfield (subnet : Subnet) (value : bool)
  | OpUpdateNfd (digest : ForkDigest)
  | OpUpdateEth2 (id : EnrForkId ForkDigest Version)
  | OpBanPeer (p : PeerId) (ips : list IpAddr)
  | OpUnbanPeer (p : PeerId) (ips : list IpAddr)
  | OpDisconnectPeer (p : PeerId)
  | OpPoll (i : PollInput)
  | OpNewListenAddr (addr : Multiaddr)
  | OpDialFailure (p : option PeerId) (error : DialError).

(** [g] is what the globals are at the time of the call. *)
Definition run_op (g : NetworkGlobals) (op : DOp) (d : Discovery) : NetworkGlobals * Discovery :=
  match op with
  | OpDiscoverPeers n => (g, discover_peers d n)
  | OpDiscoverSubnetPeers l => (g, discover_subnet_peers d l)
  | OpAddEnr e => (g, add_enr d e)
  | OpRemoveCachedEnr p => (g, remove_cached_enr d p)
  | OpUpdateTcpPort port v6 => (update_enr_tcp_port g d port v6).2
  | OpUpdateQuicPort port v6 => (update_enr_quic_port g d port v6).2
  | OpUpdateUdpSocket socket => update_enr_udp_socket g d socket
  | OpUpdateCgc cgc => (update_enr_cgc g d cgc).2
  | OpUpdateBitfield subnet value => (update_enr_bitfield g d subnet value).2
  | OpUpdateNfd digest => (update_enr_nfd g d digest).2
  | OpUpdateEth2 id => update_eth2_enr g d id
  | OpBanPeer p ips => (g, d_ban_peer d p ips)
  | OpUnbanPeer p ips => (g, d_unban_peer d p ips)
  | OpDisconnectPeer p => (g, d_disconnect_peer d p)
  | OpPoll i => (d_poll g d i).2
  | OpNewListenAddr addr => on_new_listen_addr g d addr
  | OpDialFailure p error => (g, d_on_dial_failure g d p error)
  end.

(** Discv5 may change the addresses of the local record by itself, and the file may be replaced.  [known]
    says that the fork of the local record could be read at the start and that discv5 leaves it alone:
    without it no search starts. *)
Inductive d_reachable (known : bool) : Discovery -> Prop :=
  | reach_new config key nc g answers d :
      Discovery_new config key nc g answers = Ok d ->
      (known = true -> exists f, enr_eth2 (local_enr g) = Ok f) -> d_reachable known d
  | reach_op g op d : d_reachable known d -> d_reachable known (run_op g op d).2
  | reach_discv5 v d : d_reachable known d ->
      (known = true ->
       enr_get_bytes (discv5_local_enr v) ETH2_ENR_KEY = enr_get_bytes (d_local_enr d) ETH2_ENR_KEY) ->
      d_reachable known (set_discv5 d v)
  | reach_file text d : d_reachable known d -> d_reachable known (set_enr_file d text).

(** ** Invariants *)

Definition is_find (a : ActiveQuery) : bool := match aq_query a with QFindPeers => true | QSubnet _ => false end.
Definition group_of (a : ActiveQuery) : list SubnetQuery :=
  match aq_query a with QFindPeers => [] | QSubnet l => l end.

Definition retries_ok (q : SubnetQuery) : Prop := 0 <= sq_retries q <= MAX_DISCOVERY_RETRY.

(** Queries in the queue are for different subnets; groups are small, with different subnets, and nothing
    is tried more than a few times. *)
Definition queue_wf (l : list SubnetQuery) : Prop := NoDup (map sq_subnet l) /\ Forall retries_ok l.

Definition active_wf (a : ActiveQuery) : Prop :=
  match aq_query a with
  | QFindPeers => aq_target_peers a <= FIND_NODE_QUERY_CLOSEST_PEERS
  | QSubnet l => l <> [] /\ (length l <= MAX_SUBNETS_IN_QUERY)%nat /\ queue_wf l /\
                 aq_target_peers a = TARGET_PEERS_FOR_GROUPED_QUERY
  end.

Definition queries_wf (d : Discovery) : Prop := queue_wf (queued_queries d) /\ Forall active_wf (active_queries d).

(** At most one search for peers is active, and only while the flag is set, beside at most four for
    subnets.  The flag may be set without a search if the fork of the local record could not be read, and
    then a fifth search for subnets finds room. *)
Definition find_count (l : list ActiveQuery) : nat := length (filter (fun a => is_find a = true) l).
Definition subnet_count (l : list ActiveQuery) : nat := length (filter (fun a => is_find a = false) l).

Definition flag_wf (known : bool) (d : Discovery) : Prop :=
  let finding := if find_peer_active d then 1 else 0 in
  Z.of_nat (find_count (active_queries d)) <= finding /\
  (known = true -> Z.of_nat (find_count (active_queries d)) = finding) /\
  Z.of_nat (find_count (active_queries d) + subnet_count (active_queries d)) <= MAX_CONCURRENT_SUBNET_QUERIES + finding.

Definition fork_known (d : Discovery) : Prop := exists f, enr_eth2 (d_local_enr d) = Ok f.

(** ** Potential

    What a queued query may still cost: a search now and one for each retry left; of an active one only
    the retries are left to pay.  Every subnet has its own account. *)
Definition queued_cost (target : Subnet) (q : SubnetQuery) : Z :=
  if decide (sq_subnet q = target) then MAX_DISCOVERY_RETRY + 1 - sq_retries q else 0.
Definition retry_cost (target : Subnet) (q : SubnetQuery) : Z :=
  if decide (sq_subnet q = target) then MAX_DISCOVERY_RETRY - sq_retries q else 0.
Definition active_cost (target : Subnet) (a : ActiveQuery) : Z := sum_Z (retry_cost target) (group_of a).
Definition potential (target : Subnet) (d : Discovery) : Z :=
  sum_Z (queued_cost target) (queued_queries d) + sum_Z (active_cost target) (active_queries d).

(** How often a subnet is being searched for. *)
Definition searched (target : Subnet) (a : ActiveQuery) : Z :=
  sum_Z (fun q => if decide (sq_subnet q = target) then 1 else 0) (group_of a).
Definition load (target : Subnet) (d : Discovery) : Z := sum_Z (searched target) (active_queries d).

(** Searches for a subnet an operation starts, and requests for it that it makes. *)
Definition op_searches (target : Subnet) (g : NetworkGlobals) (op : DOp) (d : Discovery) : Z :=
  match op with
  | OpPoll i => if started d then load target (process_queue g d (pi_now i)).2 - load target d else 0
  | _ => 0
  end.
Definition op_requests (target : Subnet) (op : DOp) : Z :=
  match op with
  | OpDiscoverSubnetPeers l => sum_Z (fun x => if decide (sd_subnet x = target) then 1 else 0) l
  | _ => 0
  end.

Fixpoint run_searches (target : Subnet) (l : list (NetworkGlobals * DOp)) (d : Discovery) : Z :=
  match l with
  | [] => 0
  | (g, op) :: l => op_searches target g op d + run_searches target l (run_op g op d).2
  end.

End discovery_runs.

(** ** Lemmas *)

Create Rewrite HintDb discovery.

Section discovery_lemmas.
Context `{ChainTypes} `{Libp2p} `{!CustodyCrates} `{!EnrFields} `{!EnrCrates} `{!Discv5Service}.
Context `{HashIter} `{FloatExp} `{UnstableSort}.

(** The subnet whose searches are counted. *)
Context {target : Subnet}.

(** The part of the state that the queries live in. *)
Definition core (d : Discovery) : list SubnetQuery * list ActiveQuery * bool :=
  (queued_queries d, active_queries d, find_peer_active d).

Lemma core_set_cache d x : core (set_cache d x) = core d.
Proof. by destruct d. Qed.
Lemma core_set_discv5 d x : core (set_discv5 d x) = core d.
Proof. by destruct d. Qed.
Lemma core_set_enr_file d x : core (set_enr_file d x) = core d.
Proof. by destruct d. Qed.
Lemma core_set_event_stream d x : core (set_event_stream d x) = core d.
Proof. by destruct d. Qed.
Lemma core_set_queue d x : core (set_queue d x) = (x, active_queries d, find_peer_active d).
Proof. by destruct d. Qed.
Lemma core_set_active d x : core (set_active d x) = (queued_queries d, x, find_peer_active d).
Proof. by destruct d. Qed.
Lemma core_set_find_peer_active d x : core (set_find_peer_active d x) = (queued_queries d, active_queries d, x).
Proof. by destruct d. Qed.
#[local] Hint Rewrite core_set_cache core_set_discv5 core_set_enr_file core_set_event_stream : discovery.

Lemma frame_set_cache d x : discv5 (set_cache d x) = discv5 d /\ started (set_cache d x) = started d.
Proof. by destruct d. Qed.
Lemma frame_set_active d x : discv5 (set_active d x) = discv5 d /\ started (set_active d x) = started d.
Proof. by destruct d. Qed.
Lemma frame_set_find_peer_active d x :
  discv5 (set_find_peer_active d x) = discv5 d /\ started (set_find_peer_active d x) = started d.
Proof. by destruct d. Qed.
Lemma frame_set_queue d x : discv5 (set_queue d x) = discv5 d /\ started (set_queue d x) = started d.
Proof. by destruct d. Qed.

Lemma core_persist d : core (persist d) = core d.
Proof. apply core_set_enr_file. Qed.
#[local] Hint Rewrite core_persist : discovery.

Lemma core_publish g d : core (publish g d).2 = core d.
Proof. unfold publish. cbn [snd]. by autorewrite with discovery. Qed.
#[local] Hint Rewrite core_publish : discovery.

Lemma core_insert {A} g d f (x : A) : core (insert_and_publish g d f x).2.2 = core d.
Proof. unfold insert_and_publish. case_match; cbn [snd]; by autorewrite with discovery. Qed.
#[local] Hint Rewrite @core_insert : discovery.

Lemma core_on_node d p f : core (on_node d p f) = core d.
Proof. unfold on_node. case_match; by autorewrite with discovery. Qed.
#[local] Hint Rewrite core_on_node : discovery.

Lemma core_event s e : core (handle_discv5_event s e).2 = core s.2.
Proof.
  destruct s as [g d], e; cbn [handle_discv5_event snd]; [|done].
  rewrite core_publish. by repeat case_match; autorewrite with discovery.
Qed.

Lemma core_events l s : core (fold_left handle_discv5_event l s).2 = core s.2.
Proof. revert s. induction l as [|e l IH]; intros s; cbn [fold_left]; [done|]. by rewrite IH, core_event. Qed.

(** Everything but the three operations on queries leaves them alone. *)
Definition quiet (op : DOp) : Prop :=
  match op with OpDiscoverPeers _ | OpDiscoverSubnetPeers _ | OpPoll _ => False | _ => True end.

Lemma quiet_core g op d : quiet op -> core (run_op g op d).2 = core d.
Proof.
  destruct op; try done; intros _; cbn [run_op snd];
    unfold add_enr, remove_cached_enr, update_enr_tcp_port, update_enr_quic_port, update_enr_udp_socket,
      update_enr_cgc, update_enr_bitfield, update_bit, update_enr_nfd, update_eth2_enr, d_ban_peer,
      d_unban_peer, d_on_dial_failure, d_disconnect_peer, on_new_listen_addr;
    unfold update_enr_tcp_port, update_enr_quic_port; cbv zeta;
    repeat (case_match; simplify_eq/=); by autorewrite with discovery.
Qed.

(** *** The queue *)

Lemma update_queued_spec l subnet ttl retries found l' :
  update_queued l subnet ttl retries = (found, l') ->
  map sq_subnet l' = map sq_subnet l /\ (found = false -> l' = l /\ subnet ∉ map sq_subnet l) /\
  (Forall retries_ok l -> 0 <= retries <= MAX_DISCOVERY_RETRY ->
   Forall retries_ok l' /\
   sum_Z (queued_cost target) l' <= sum_Z (queued_cost target) l +
     (if found then if decide (subnet = target) then MAX_DISCOVERY_RETRY + 1 - retries else 0 else 0)).
Proof.
  revert found l'. induction l as [|q l IH]; cbn [update_queued]; intros found l'.
  - intros [= <- <-]. split_and!; [done| |]; [split; [done|]; set_solver|].
    intros _ _. split; [constructor|]. cbn. lia.
  - destruct (decide (sq_subnet q = subnet)) as [Hs|Hs]; [|destruct (update_queued l subnet ttl retries) as [f l1] eqn:Hu].
    + intros [= <- <-]. split_and!; [done..|]. rewrite Forall_cons. intros [Hq Hl] Hr.
      split; [by constructor|]. rewrite !sum_Z_cons. unfold queued_cost at 1 3. cbn [sq_retries sq_subnet].
      unfold retries_ok in Hq. subst subnet. case_decide; lia.
    + intros [= <- <-]. destruct (IH _ _ eq_refl) as (Hm & Hf & Hok). cbn [map]. split_and!.
      * by rewrite Hm.
      * intros ->. destruct (Hf eq_refl) as [-> ?]. split; [done|]. rewrite elem_of_cons. intros [?|?]; done.
      * rewrite Forall_cons. intros [Hq Hl] Hr. destruct (Hok Hl Hr) as [? ?].
        split; [by constructor|]. rewrite !sum_Z_cons. lia.
Qed.

Lemma add_subnet_query_spec d subnet ttl retries :
  queue_wf (queued_queries d) -> 0 <= retries ->
  exists l, core (add_subnet_query d subnet ttl retries) = (l, active_queries d, find_peer_active d) /\
    queue_wf l /\ sum_Z (queued_cost target) l <= sum_Z (queued_cost target) (queued_queries d) +
      (if decide (subnet = target) then Z.max 0 (MAX_DISCOVERY_RETRY + 1 - retries) else 0).
Proof.
  intros [Hn Hr] H0'. unfold add_subnet_query. destruct (MAX_DISCOVERY_RETRY <? retries) eqn:Hm.
  { exists (queued_queries d). split_and!; [done..|]. case_decide; lia. }
  destruct (update_queued _ _ _ _) as [found l] eqn:Hu.
  apply update_queued_spec in Hu as (Hl & Hf & Hok). destruct (Hok Hr ltac:(lia)) as [Hr' Hc].
  rewrite core_set_queue. eexists. split; [done|]. destruct found.
  - split; [|case_decide; lia]. split; [by rewrite Hl|done].
  - destruct (Hf eq_refl) as [-> Hni]. split; [split|].
    + rewrite map_app, NoDup_app. split_and!; [done| |apply NoDup_singleton].
      cbn. intros x Hx ->%list_elem_of_singleton. done.
    + rewrite Forall_app, Forall_singleton. split; [done|]. unfold retries_ok. cbn. lia.
    + rewrite sum_Z_app, sum_Z_cons. unfold queued_cost at 2. cbn [sq_subnet sq_retries]. case_decide; cbn; lia.
Qed.

Lemma add_queries_spec {X} (sub : X -> Subnet) (ttl : X -> option Instant) (ret : X -> Z) l d :
  queue_wf (queued_queries d) -> Forall (fun x => 0 <= ret x) l ->
  exists q, core (fold_left (fun d x => add_subnet_query d (sub x) (ttl x) (ret x)) l d) =
            (q, active_queries d, find_peer_active d) /\
    queue_wf q /\
    sum_Z (queued_cost target) q <=
      sum_Z (queued_cost target) (queued_queries d) + sum_Z (fun x => if decide (sub x = target) then Z.max 0 (MAX_DISCOVERY_RETRY + 1 - ret x) else 0) l.
Proof.
  revert d. induction l as [|x l IH]; intros d Hq Hr; cbn [fold_left].
  - exists (queued_queries d). split_and!; [done..|]. cbn. lia.
  - apply Forall_cons in Hr as [Hx Hr].
    destruct (add_subnet_query_spec d (sub x) (ttl x) (ret x) Hq Hx) as (q & Hc & Hwf & Hs).
    set (d1 := add_subnet_query d (sub x) (ttl x) (ret x)) in *. injection Hc as Hq1 Ha1 Hf1.
    destruct (IH d1 ltac:(by rewrite Hq1) Hr) as (q' & Hc' & Hwf' & Hs').
    exists q'. rewrite Hc', Ha1, Hf1. split_and!; [done..|]. rewrite Hq1 in Hs'. rewrite sum_Z_cons. lia.
Qed.

(** The state after the answer to a query for subnets: its subnets are queued again. *)
Lemma completed_subnets d queries r :
  exists c, (process_completed_queries d (QSubnet queries) r).2 =
    fold_left retry (match r with Ok _ => queries | Err _ => [] end) (set_cache d c).
Proof.
  unfold process_completed_queries.
  destruct r as [[|e r]|]; [exists (cached_enrs d); by destruct d| |exists (cached_enrs d); by destruct d].
  destruct (fold_left _ queries _) as [m d'] eqn:Hf. exists (fold_left (fun c e => cache_put c (enr_peer_id e) e) (e :: r) (cached_enrs d)).
  change (set_cache d _) with (cache_found d (e :: r)). cbn [snd].
  revert Hf. generalize (∅ : gmap Enr (option Instant)), (cache_found d (e :: r)).
  induction queries as [|q queries IH]; cbn [fold_left]; intros m0 d0; [by intros [= _ <-]|apply IH].
Qed.

Lemma retry_all queries d :
  queue_wf (queued_queries d) -> Forall retries_ok queries ->
  exists q, core (fold_left retry queries d) = (q, active_queries d, find_peer_active d) /\ queue_wf q /\
    sum_Z (queued_cost target) q <= sum_Z (queued_cost target) (queued_queries d) +
      sum_Z (retry_cost target) queries.
Proof.
  intros Hq Hr.
  destruct (add_queries_spec sq_subnet sq_min_ttl (fun q => sq_retries q + 1) queries d Hq) as (q & Hc & Hwf & Hs).
  { eapply Forall_impl; [exact Hr|]. unfold retries_ok. cbn. lia. }
  exists q. split_and!; [exact Hc|done|]. etrans; [exact Hs|].
  apply Z.add_le_mono_l. clear -Hr. induction Hr as [|x l Hx _ IH]; [done|].
  rewrite !sum_Z_cons. unfold retry_cost at 1. unfold retries_ok, MAX_DISCOVERY_RETRY in *. case_decide; lia.
Qed.

Lemma retry_cost_nonneg l : Forall retries_ok l -> 0 <= sum_Z (retry_cost target) l.
Proof.
  intros Hl. apply sum_Z_nonneg. eapply Forall_impl; [exact Hl|]. intros q. unfold retries_ok, retry_cost. case_decide; lia.
Qed.


(** *** Answers *)

Lemma find_count_delete l i a : l !! i = Some a ->
  find_count l = (find_count (take i l ++ drop (S i) l) + if is_find a then 1 else 0)%nat /\
  subnet_count l = (subnet_count (take i l ++ drop (S i) l) + if is_find a then 0 else 1)%nat.
Proof.
  intros Hi. rewrite <- (take_drop_middle l i a Hi) at 1 4. unfold find_count, subnet_count.
  rewrite !filter_app, !length_app, !filter_cons. destruct (is_find a); repeat case_decide; try done; cbn [length]; split; lia.
Qed.

(** What the operations on queries keep; [flag_wf] is kept where it holds. *)
Record keeps (d d' : Discovery) : Prop := {
  k_wf : queries_wf d';
  k_potential : potential target d' <= potential target d;
  k_flag : forall known, flag_wf known d -> flag_wf known d';
  k_discv5 : discv5 d' = discv5 d;
  k_started : started d' = started d;
}.

Lemma disc_keeps_trans d d' d'' : keeps d d' -> keeps d' d'' -> keeps d d''.
Proof.
  intros [? ? ? ? ?] [? ? ? ? ?]. split; [done|lia|auto|congruence|congruence].
Qed.

Lemma fold_retry_frame queries d :
  discv5 (fold_left retry queries d) = discv5 d /\ started (fold_left retry queries d) = started d.
Proof.
  revert d. induction queries as [|q queries IH]; intros d; [done|]. cbn [fold_left].
  destruct (IH (retry d q)) as [-> ->]. unfold retry, add_subnet_query. repeat case_match; by destruct d.
Qed.

Lemma completed_find d r d' :
  (process_completed_queries d QFindPeers r).2 = d' ->
  core d' = (queued_queries d, active_queries d, false) /\ discv5 d' = discv5 d /\ started d' = started d.
Proof.
  intros <-. cbn [process_completed_queries]. destruct (frame_set_find_peer_active d false) as [Hv Hs].
  rewrite <- core_set_find_peer_active. destruct r as [[|e r]|]; cbn [snd]; [done| |done].
  unfold cache_found. rewrite core_set_cache.
  by destruct (frame_set_cache (set_find_peer_active d false)
    (fold_left (fun c e => cache_put c (enr_peer_id e) e) (e :: r) (cached_enrs (set_find_peer_active d false))))
    as [-> ->].
Qed.

Lemma completed_keeps d i a r :
  queries_wf d -> active_queries d !! i = Some a ->
  keeps d (process_completed_queries
             (set_active d (take i (active_queries d) ++ drop (S i) (active_queries d))) (aq_query a) r).2.
Proof.
  intros [Hq Ha] Hi. set (act := take i (active_queries d) ++ drop (S i) (active_queries d)).
  assert (Ha' : Forall active_wf act).
  { rewrite <- (take_drop_middle _ _ _ Hi), Forall_app, Forall_cons in Ha. apply Forall_app. tauto. }
  destruct (find_count_delete _ _ _ Hi) as [Hfc Hsc]. fold act in Hfc, Hsc.
  pose proof (sum_Z_delete (active_cost target) _ _ _ Hi) as Hsum. fold act in Hsum.
  assert (Hwa : active_wf a) by exact (Forall_lookup_1 _ _ _ _ Ha Hi).
  set (d1 := set_active d act). assert (Hd1 : core d1 = (queued_queries d, act, find_peer_active d)) by apply core_set_active.
  destruct (frame_set_active d act) as [Hv1 Hs1]. fold d1 in Hv1, Hs1.
  injection Hd1 as Hq1 Ha1 Hf1. unfold is_find in *.
  assert (Hcost : active_cost target a = sum_Z (retry_cost target)
    (match aq_query a with QFindPeers => [] | QSubnet l => l end)) by done.
  rewrite Hcost in Hsum. clear Hcost.
  unfold active_wf in Hwa.
  destruct (aq_query a) as [queries|].
  - destruct Hwa as (_ & _ & [_ Hret] & _).
    destruct (completed_subnets d1 queries r) as (c & ->). pose proof (core_set_cache d1 c) as Hc0.
    destruct (frame_set_cache d1 c) as [Hv0 Hs0]. set (d0 := set_cache d1 c) in *.
    set (again := match r with Ok _ => queries | Err _ => [] end).
    assert (Hag : Forall retries_ok again /\
      sum_Z (retry_cost target) again <= sum_Z (retry_cost target) queries).
    { unfold again. destruct r; [done|]. split; [constructor|]. by apply retry_cost_nonneg. }
    destruct Hag as [Hag Hle]. injection Hc0 as Hq0 Ha0 Hf0.
    destruct (retry_all again d0) as (q & Hc & Hwf & Hcost); [by rewrite Hq0, Hq1|done|].
    destruct (fold_retry_frame again d0) as [Hv Hs].
    injection Hc as Hqq Haa Hff. split.
    + split; [by rewrite Hqq|]. by rewrite Haa, Ha0, Ha1.
    + unfold potential. rewrite Hqq, Haa, Ha0, Ha1. rewrite Hq0, Hq1 in Hcost. lia.
    + intros known. unfold flag_wf. rewrite Haa, Ha0, Ha1, Hff, Hf0, Hf1. intros (Hle1 & Hex & Hle2).
      split_and!; [lia|intros Hkn; specialize (Hex Hkn); lia|lia].
    + congruence.
    + congruence.
  - remember (process_completed_queries d1 QFindPeers r).2 as d2 eqn:Hd2.
    destruct (completed_find d1 r d2 (eq_sym Hd2)) as (Hc & Hv & Hs). rewrite Hq1, Ha1 in Hc. rewrite Hv1 in Hv. rewrite Hs1 in Hs.
    injection Hc as Hqq Haa Hff. cbn in Hsum. split; [split; [by rewrite Hqq|by rewrite Haa]| | |done|done].
    + unfold potential. rewrite Hqq, Haa. lia.
    + intros known. unfold flag_wf. rewrite Haa, Hff. intros (Hle1 & Hex & Hle2).
      split_and!; [|intros Hkn; specialize (Hex Hkn)|]; destruct (find_peer_active d); lia.
Qed.

Lemma poll_queries_keeps completed d : queries_wf d -> keeps d (poll_queries d completed).2.
Proof.
  revert d. induction completed as [|[i r] completed IH]; intros d Hd; cbn [poll_queries].
  { by split. }
  destruct (active_queries d !! i) as [a|] eqn:Hi; [|by apply IH].
  pose proof (completed_keeps d i a r Hd Hi) as Hk.
  destruct (process_completed_queries _ _ _) as [[m|] d']; cbn [snd] in Hk |- *; [done|].
  eapply disc_keeps_trans; [exact Hk|]. apply IH, Hk.
Qed.


(** *** Starting queries *)

Lemma queue_wf_app l l' : queue_wf (l ++ l') -> queue_wf l /\ queue_wf l'.
Proof.
  unfold queue_wf. rewrite map_app, NoDup_app, Forall_app. tauto.
Qed.

Lemma queue_wf_filter (P : SubnetQuery -> Prop) `{!forall x, Decision (P x)} l :
  queue_wf l -> queue_wf (filter P l).
Proof.
  intros [Hn Hr]. split.
  - eapply sublist_NoDup; [exact Hn|]. apply fmap_sublist, sublist_filter.
  - rewrite Forall_forall in *. intros q [_ Hq]%list_elem_of_filter. auto.
Qed.

Lemma queued_cost_nonneg l : Forall retries_ok l -> Forall (fun q => 0 <= queued_cost target q) l.
Proof. intros Hl. eapply Forall_impl; [exact Hl|]. intros q. unfold retries_ok, queued_cost. case_decide; lia. Qed.

Lemma cost_of_search l :
  sum_Z (retry_cost target) l + sum_Z (fun q => if decide (sq_subnet q = target) then 1 else 0) l =
  sum_Z (queued_cost target) l.
Proof.
  induction l as [|q l IH]; [done|]. rewrite !sum_Z_cons. unfold queued_cost at 1, retry_cost at 1. case_decide; lia.
Qed.

Lemma start_subnet_query_spec g d group :
  (length group <= MAX_SUBNETS_IN_QUERY)%nat -> queue_wf group ->
  let d' := start_subnet_query g d group in
  discv5 d' = discv5 d /\ started d' = started d /\
  exists new, core d' = (queued_queries d, active_queries d ++ new, find_peer_active d) /\
    Forall active_wf new /\ (find_count new = 0 /\ subnet_count new <= 1)%nat /\
    sum_Z (active_cost target) new + sum_Z (searched target) new <= sum_Z (queued_cost target) group.
Proof.
  intros Hlen Hwf d'. subst d'. unfold start_subnet_query.
  set (f := filter (fun q => still_needed g q = true) group).
  assert (Hf : queue_wf f) by (by apply queue_wf_filter).
  assert (Hlf : (length f <= length group)%nat) by apply length_filter.
  assert (Hcost : sum_Z (queued_cost target) f <= sum_Z (queued_cost target) group)
    by (apply sum_Z_filter, queued_cost_nonneg, Hwf).
  assert (Hpos : 0 <= sum_Z (queued_cost target) f) by (apply sum_Z_nonneg, queued_cost_nonneg, Hf).
  assert (Hnone : exists new, core d = (queued_queries d, active_queries d ++ new, find_peer_active d) /\
    Forall active_wf new /\ (find_count new = 0 /\ subnet_count new <= 1)%nat /\
    sum_Z (active_cost target) new + sum_Z (searched target) new <= sum_Z (queued_cost target) group).
  { exists []. rewrite app_nil_r. split_and!; [done|constructor|done|cbn; lia|].
    change (0 + 0 <= sum_Z (queued_cost target) group). lia. }
  destruct f as [|q f'] eqn:Ef; [done|]. unfold start_query.
  destruct (enr_eth2 (d_local_enr d)) as [id|]; [|done].
  match goal with |- context [set_active d ?x] => destruct (frame_set_active d x) as [Hv Hs] end.
  split_and!; [done..|]. rewrite core_set_active. eexists. split; [done|]. split_and!.
  - constructor; [|constructor]. unfold active_wf. cbn [aq_query aq_target_peers]. split_and!; [done|lia|done|done].
  - done.
  - exact (le_n 1).
  - rewrite !sum_Z_cons. unfold active_cost at 1, searched at 1. cbn [group_of aq_query].
    pose proof (cost_of_search (q :: f')) as Hc. unfold sum_Z at 2 4. cbn [foldr]. lia.
Qed.


(** Below capacity there is room for a query. *)
Lemma below_capacity d : at_capacity d = false ->
  Z.of_nat (find_count (active_queries d) + subnet_count (active_queries d)) <
    MAX_CONCURRENT_SUBNET_QUERIES + (if find_peer_active d then 1 else 0).
Proof.
  unfold at_capacity, find_count, subnet_count. intros Hc%Z.leb_gt.
  assert (Hl : length (active_queries d) =
    (length (filter (fun a => is_find a = true) (active_queries d)) +
     length (filter (fun a => is_find a = false) (active_queries d)))%nat).
  { generalize (active_queries d). intros l. induction l as [|a l IH]; [done|]. rewrite !filter_cons.
    destruct (is_find a); repeat case_decide; try done; cbn [length]; lia. }
  unfold saturating_sub in Hc. destruct (find_peer_active d); lia.
Qed.

Lemma find_count_app l l' : find_count (l ++ l') = (find_count l + find_count l')%nat.
Proof. unfold find_count. by rewrite filter_app, length_app. Qed.
Lemma subnet_count_app l l' : subnet_count (l ++ l') = (subnet_count l + subnet_count l')%nat.
Proof. unfold subnet_count. by rewrite filter_app, length_app. Qed.

Lemma searched_nonneg a : 0 <= searched target a.
Proof. apply sum_Z_nonneg, Forall_forall. intros q _. by case_decide. Qed.

(** What the loop of [process_queue] keeps. *)
Lemma process_loop_keeps g queue : forall d group p,
  queue_wf (group ++ queue) -> Forall active_wf (active_queries d) ->
  (length group < MAX_SUBNETS_IN_QUERY)%nat -> (queue = [] -> group = []) ->
  (group = [] \/ at_capacity d = false) ->
  let d' := (process_loop g d queue group p).2 in
  queries_wf d' /\ discv5 d' = discv5 d /\ started d' = started d /\ (forall known, flag_wf known d -> flag_wf known d') /\
  potential target d' + (load target d' - load target d) <= sum_Z (queued_cost target) (group ++ queue) + sum_Z (active_cost target) (active_queries d) /\
  load target d <= load target d'.
Proof.
  assert (Hstop : forall d l, queue_wf l -> Forall active_wf (active_queries d) ->
    let d' := set_queue d l in
    queries_wf d' /\ discv5 d' = discv5 d /\ started d' = started d /\ (forall known, flag_wf known d -> flag_wf known d') /\
    potential target d' + (load target d' - load target d) <= sum_Z (queued_cost target) l + sum_Z (active_cost target) (active_queries d) /\
    load target d <= load target d').
  { intros d l Hl Ha. destruct d. split_and!; [by split|done|done|done| |]; unfold potential, load; cbn [set_queue queued_queries active_queries]; lia. }
  assert (Hn0 : forall new, 0 <= sum_Z (searched target) new)
    by (intros; apply sum_Z_nonneg, Forall_forall; intros; apply searched_nonneg).
  induction queue as [|q queue IH]; intros d group p Hwf Ha Hlen Hnil Hcap; cbn [process_loop].
  - pose proof (Hnil eq_refl) as ->. by apply Hstop.
  - destruct (at_capacity d) eqn:Hc.
    { destruct Hcap as [-> |?]; [|done]. by apply Hstop. }
    replace (group ++ q :: queue) with ((group ++ [q]) ++ queue) in * by (by rewrite <- app_assoc).
    assert (Hl1 : length (group ++ [q]) = S (length group)) by (rewrite length_app; cbn; lia).
    destruct ((length (group ++ [q]) =? MAX_SUBNETS_IN_QUERY)%nat || bool_decide (queue = [])) eqn:Hb.
    + destruct (queue_wf_app _ _ Hwf) as [Hg Hq].
      destruct (start_subnet_query_spec g d (group ++ [q])) as (Hv & Hs & new & Hcore & Hn & [Hnf Hns] & Hcost);
        [lia|done|].
      set (d1 := start_subnet_query g d (group ++ [q])) in *. injection Hcore as Hq1 Ha1 Hf1.
      destruct (IH d1 [] true) as (Hw & Hv' & Hs' & Hfl & Hp & Hl); [done| |cbn; lia|done|by left|].
      { rewrite Ha1, Forall_app. done. }
      specialize (Hn0 new). unfold load in Hl at 1. rewrite Ha1, sum_Z_app in Hl.
      split_and!; [done|congruence|congruence| | |unfold load at 1; lia].
      * intros known (Hfc & Hex & Hsc). apply Hfl. pose proof (below_capacity d Hc) as Hlt.
        unfold flag_wf. rewrite Ha1, Hf1, find_count_app, subnet_count_app.
        split_and!; [lia|intros Hkn; specialize (Hex Hkn); lia|lia].
      * cbn [app] in Hp. rewrite Ha1, sum_Z_app in Hp. unfold load in Hp at 2. rewrite Ha1, sum_Z_app in Hp.
        rewrite sum_Z_app. unfold load at 2. lia.
    + apply orb_false_iff in Hb as [Hb1 Hb2]. apply Nat.eqb_neq in Hb1. apply bool_decide_eq_false in Hb2.
      apply IH; [done|done|lia|done|by right].
Qed.

Lemma process_queue_keeps g d now :
  queries_wf d -> let d' := (process_queue g d now).2 in
  keeps d d' /\ potential target d' + (load target d' - load target d) <= potential target d /\ load target d <= load target d'.
Proof.
  intros [Hq Ha] d'.
  destruct (process_loop_keeps g (filter (fun q => expired q now = false) (queued_queries d)) d [] false)
    as (Hw & Hv & Hs & Hf & Hp & Hl); [by apply queue_wf_filter|done|exact (Nat.lt_0_succ 2)|done|by left|].
  fold (process_queue g d now) in *. fold d' in Hw, Hv, Hs, Hf, Hp, Hl.
  cbn [app] in Hp.
  assert (Hle : sum_Z (queued_cost target) (filter (fun q => expired q now = false) (queued_queries d)) <=
    sum_Z (queued_cost target) (queued_queries d)) by (apply sum_Z_filter, queued_cost_nonneg, Hq).
  unfold potential at 2. split_and!; [|lia|lia]. split; [done|unfold potential at 2; lia|done..].
Qed.


End discovery_lemmas.

(** *** The fork of the local record *)

Section fork_lemmas.
Context `{ChainTypes} `{Libp2p} `{!CustodyCrates} `{!EnrFields} `{!EnrCrates} `{!Discv5Service}.
Context `{!EnrCrateLaws} `{!Discv5Laws} `{HashIter} `{FloatExp} `{UnstableSort}.

Definition eth2_bytes (v : Discv5) : option (result Bytes RlpError) :=
  enr_get_bytes (discv5_local_enr v) ETH2_ENR_KEY.

Lemma fork_known_bytes d d' : eth2_bytes (discv5 d') = eth2_bytes (discv5 d) -> fork_known d -> fork_known d'.
Proof. unfold fork_known, enr_eth2, eth2_bytes, d_local_enr. by intros ->. Qed.

Lemma discv5_set_discv5 d v : discv5 (set_discv5 d v) = v.
Proof. by destruct d. Qed.
Lemma discv5_set_cache d x : discv5 (set_cache d x) = discv5 d.
Proof. by destruct d. Qed.
Lemma discv5_persist d : discv5 (persist d) = discv5 d.
Proof. by destruct d. Qed.
Lemma discv5_publish g d : discv5 (publish g d).2 = discv5 d.
Proof. apply discv5_persist. Qed.
#[local] Hint Rewrite discv5_set_discv5 discv5_set_cache discv5_persist discv5_publish : discovery.

Lemma insert_fork {A} g d f (x : A) :
  field_key f <> ETH2_ENR_KEY -> eth2_bytes (discv5 (insert_and_publish g d f x).2.2) = eth2_bytes (discv5 d).
Proof.
  intros Hk. unfold insert_and_publish. destruct (discv5_enr_insert (discv5 d) f) as [v|] eqn:Hi; [|done].
  cbn [snd]. autorewrite with discovery. eapply insert_other; [exact Hi|]. congruence.
Qed.

Lemma update_socket_fork v s tcp : eth2_bytes (discv5_update_socket v s tcp).2 = eth2_bytes v.
Proof. apply update_socket_other. unfold address_keys, ETH2_ENR_KEY. set_solver by discriminate. Qed.

Lemma add_to_table_local v e : discv5_local_enr (add_to_table v e) = discv5_local_enr v.
Proof. unfold add_to_table. case_match eqn:He; [by eapply add_enr_local|done]. Qed.

(** A fold of changes that leave the local record alone. *)
Lemma fold_local {X} (f : Discv5 -> X -> Discv5) l v :
  (forall v x, discv5_local_enr (f v x) = discv5_local_enr v) ->
  discv5_local_enr (fold_left f l v) = discv5_local_enr v.
Proof. intros Hf. revert v. induction l as [|x l IH]; intros v; cbn; [done|]. by rewrite IH, Hf. Qed.

Lemma on_node_local d p f :
  (forall v n, discv5_local_enr (f v n) = discv5_local_enr v) ->
  discv5_local_enr (discv5 (on_node d p f)) = discv5_local_enr (discv5 d).
Proof. intros Hf. unfold on_node. case_match; [|done]. autorewrite with discovery. apply Hf. Qed.

Lemma update_eth2_fork g d id : fork_known d -> fork_known (update_eth2_enr g d id).2.
Proof.
  intros Hd. unfold update_eth2_enr, result_bind.
  destruct (fork_id_to_ssz id) as [ssz|] eqn:Hs.
  - destruct (discv5_enr_insert _ _) as [v|] eqn:Hi.
    + exists id. unfold enr_eth2, d_local_enr. rewrite discv5_publish, discv5_set_discv5.
      rewrite (insert_same _ _ _ _ Hi). cbn. by rewrite (fork_id_ssz _ _ Hs).
    + eapply fork_known_bytes; [|exact Hd]. by rewrite discv5_publish.
  - eapply fork_known_bytes; [|exact Hd]. by rewrite discv5_publish.
Qed.

Lemma tcp_port_fork g d port v6 : eth2_bytes (discv5 (update_enr_tcp_port g d port v6).2.2) = eth2_bytes (discv5 d).
Proof. unfold update_enr_tcp_port. repeat case_match; try done; by apply insert_fork. Qed.

Lemma quic_port_fork g d port v6 : eth2_bytes (discv5 (update_enr_quic_port g d port v6).2.2) = eth2_bytes (discv5 d).
Proof. unfold update_enr_quic_port. repeat case_match; try done; by apply insert_fork. Qed.

Lemma disconnect_fork d p : eth2_bytes (discv5 (d_disconnect_peer d p)) = eth2_bytes (discv5 d).
Proof.
  unfold d_disconnect_peer, eth2_bytes. autorewrite with discovery.
  by rewrite on_node_local by apply disconnect_node_local.
Qed.

Lemma events_fork l s : eth2_bytes (discv5 (fold_left handle_discv5_event l s).2) = eth2_bytes (discv5 s.2).
Proof.
  revert s. induction l as [|e l IH]; intros [g d]; [done|]. cbn [fold_left]. rewrite IH. clear IH.
  destruct e as [s|]; [|done]. unfold handle_discv5_event. rewrite discv5_publish.
  case_match; case_match; autorewrite with discovery; rewrite ?update_socket_fork; done.
Qed.

Lemma quiet_fork g op d : quiet op -> fork_known d -> fork_known (run_op g op d).2.
Proof.
  intros Hq Hd. destruct op; try done; cbn [run_op snd]; try (by apply update_eth2_fork);
    (eapply fork_known_bytes; [|exact Hd]).
  - unfold add_enr. autorewrite with discovery. unfold eth2_bytes. by rewrite add_to_table_local.
  - unfold remove_cached_enr. by autorewrite with discovery.
  - apply tcp_port_fork.
  - apply quic_port_fork.
  - unfold update_enr_udp_socket. destruct (discv5_update_socket _ _ _) as [c v] eqn:Hs. cbn [snd].
    destruct c; autorewrite with discovery; by rewrite <- (update_socket_fork (discv5 d) socket false), Hs.
  - by apply insert_fork.
  - unfold update_enr_bitfield, update_bit. repeat case_match; try done; by apply insert_fork.
  - unfold update_enr_nfd. case_match; [|done]. by apply insert_fork.
  - unfold d_ban_peer, eth2_bytes. rewrite discv5_set_discv5.
    by rewrite fold_local, on_node_local by eauto using ban_node_local, ban_ip_local.
  - unfold d_unban_peer, eth2_bytes. rewrite discv5_set_discv5.
    by rewrite fold_local, on_node_local by eauto using ban_node_remove_local, ban_ip_remove_local.
  - apply disconnect_fork.
  - unfold on_new_listen_addr. repeat case_match; try done; try apply tcp_port_fork; apply quic_port_fork.
  - unfold d_on_dial_failure. repeat case_match; try done; apply disconnect_fork.
Qed.

End fork_lemmas.

Section discovery_counts.
Context `{ChainTypes} `{Libp2p} `{!CustodyCrates} `{!EnrFields} `{!EnrCrates} `{!Discv5Service}.
Context `{HashIter} `{FloatExp} `{UnstableSort}.

Context {target : Subnet}.

Lemma queries_wf_core d d' : core d' = core d -> queries_wf d -> queries_wf d'.
Proof. intros [= Hq Ha _]. unfold queries_wf. by rewrite Hq, Ha. Qed.
Lemma flag_wf_core known d d' : core d' = core d -> flag_wf known d -> flag_wf known d'.
Proof. intros [= _ Ha Hf]. unfold flag_wf. by rewrite Ha, Hf. Qed.
Lemma potential_core d d' : core d' = core d -> potential target d' = potential target d.
Proof. intros [= Hq Ha _]. unfold potential. by rewrite Hq, Ha. Qed.

Lemma discover_peers_keeps d n :
  queries_wf d -> let d' := discover_peers d n in
  queries_wf d' /\ potential target d' = potential target d /\ discv5 d' = discv5 d /\
  (forall known, (known = true -> fork_known d) -> flag_wf known d -> flag_wf known d').
Proof.
  intros [Hq Ha] d'. subst d'. unfold discover_peers.
  destruct (negb (started d) || find_peer_active d) eqn:Hs; [done|].
  apply orb_false_iff in Hs as [_ Hf]. unfold start_query, fork_known, d_local_enr.
  destruct (frame_set_find_peer_active d true) as [-> _].
  assert (Hc : core (set_find_peer_active d true) = (queued_queries d, active_queries d, true))
    by apply core_set_find_peer_active.
  set (d1 := set_find_peer_active d true) in *. injection Hc as Hq1 Ha1 Hf1.
  assert (Hv1 : discv5 d1 = discv5 d) by apply frame_set_find_peer_active.
  destruct (enr_eth2 _) as [id|] eqn:He.
  - match goal with |- context [set_active d1 ?x] => set (act := x);
      pose proof (core_set_active d1 act) as Hc2; destruct (frame_set_active d1 act) as [Hv2 _] end.
    set (d2 := set_active d1 act) in *. injection Hc2 as Hq2 Ha2 Hf2. split_and!.
    + unfold queries_wf. rewrite Hq2, Hq1, Ha2. split; [done|]. unfold act. rewrite Ha1, Forall_app. split; [done|].
      constructor; [|constructor]. unfold active_wf. cbn. lia.
    + unfold potential. rewrite Hq2, Hq1, Ha2. unfold act. rewrite Ha1, sum_Z_app.
      match goal with |- context [sum_Z (active_cost target) [?x]] => change (sum_Z (active_cost target) [x]) with 0 end. lia.
    + congruence.
    + intros known _ (Hfc & Hex & Hsc). unfold flag_wf. rewrite Ha2, Hf2, Hf1. unfold act.
      rewrite Ha1, find_count_app, subnet_count_app. rewrite Hf in *.
      match goal with |- context [subnet_count [?x]] => change (subnet_count [x]) with 0%nat; change (find_count [x]) with 1%nat end.
      split_and!; lia.
  - split_and!; [by split; rewrite ?Hq1, ?Ha1|unfold potential; by rewrite Hq1, Ha1|done|].
    intros known Hk (Hfc & _ & Hsc). unfold flag_wf. rewrite Ha1, Hf1. rewrite Hf in *.
    split_and!; [lia| |lia]. intros [id' ?]%Hk. congruence.
Qed.

Lemma requests_nonneg op : 0 <= op_requests target op.
Proof. destruct op; try done. apply sum_Z_nonneg, Forall_forall. intros x _. by case_decide. Qed.

Lemma discover_subnet_peers_keeps d l :
  queries_wf d -> let d' := discover_subnet_peers d l in
  queries_wf d' /\ potential target d' <= potential target d + (MAX_DISCOVERY_RETRY + 1) * op_requests target (OpDiscoverSubnetPeers l) /\
  discv5 d' = discv5 d /\ (forall known, flag_wf known d -> flag_wf known d').
Proof.
  intros [Hq Ha] d'. subst d'. unfold discover_subnet_peers. destruct (negb (started d)).
  { split_and!; [done| |done|done]. pose proof (requests_nonneg (OpDiscoverSubnetPeers l)).
    unfold MAX_DISCOVERY_RETRY. lia. }
  destruct (add_queries_spec (target := target) sd_subnet sd_min_ttl (fun _ => 0) l d Hq) as (q & Hc & Hwf & Hs).
  { by apply Forall_forall. }
  set (d1 := fold_left _ l d) in *. injection Hc as Hq1 Ha1 Hf1. split_and!.
  - split; [by rewrite Hq1|by rewrite Ha1].
  - unfold potential. rewrite Hq1, Ha1.
    assert (Hn : sum_Z (fun x => if decide (sd_subnet x = target) then Z.max 0 (MAX_DISCOVERY_RETRY + 1 - 0) else 0) l =
      (MAX_DISCOVERY_RETRY + 1) * op_requests target (OpDiscoverSubnetPeers l)).
    { clear. cbn [op_requests]. induction l as [|x l IH]; [done|]. rewrite !sum_Z_cons, IH.
      unfold MAX_DISCOVERY_RETRY. case_decide; lia. }
    rewrite Hn in Hs. lia.
  - unfold d1. clear. revert d. induction l as [|x l IH]; intros d; [done|]. cbn [fold_left]. rewrite IH.
    unfold add_subnet_query. repeat case_match; by destruct d.
  - unfold flag_wf. by rewrite Ha1, Hf1.
Qed.

Lemma poll_keeps g d i :
  queries_wf d -> let d' := (d_poll g d i).2.2 in
  queries_wf d' /\ op_searches target g (OpPoll i) d + potential target d' <= potential target d /\
  0 <= op_searches target g (OpPoll i) d /\ (forall known, flag_wf known d -> flag_wf known d').
Proof.
  intros Hd d'. subst d'. unfold d_poll, op_searches.
  destruct (started d); cbn [negb]; [|split_and!; done || lia].
  destruct (process_queue_keeps (target := target) g d (pi_now i) Hd) as (Hk & Hp & Hl).
  set (d1 := (process_queue g d (pi_now i)).2) in *.
  pose proof (poll_queries_keeps (target := target) (pi_completed i) d1 (k_wf _ _ Hk)) as Hk2.
  assert (Hgoal : forall d', core d' = core (poll_queries d1 (pi_completed i)).2 ->
    queries_wf d' /\ load target d1 - load target d + potential target d' <= potential target d /\ 0 <= load target d1 - load target d /\ (forall known, flag_wf known d -> flag_wf known d')).
  { intros d' Hc. destruct Hk as [_ _ Hf1 _ _], Hk2 as [Hw2 Hp2 Hf2 _ _]. split_and!.
    - by eapply queries_wf_core.
    - rewrite (potential_core _ _ Hc). lia.
    - lia.
    - intros known Hf. eapply flag_wf_core; eauto. }
  destruct (poll_queries d1 (pi_completed i)) as [[m|] d2]; cbn [snd] in *; [by apply Hgoal|].
  destruct (event_stream d2); cbn [snd]; apply Hgoal; [repeat case_match; try done; apply core_set_event_stream| |done].
  apply core_events.
Qed.

Lemma op_keeps g op d :
  queries_wf d -> queries_wf (run_op g op d).2 /\
  op_searches target g op d + potential target (run_op g op d).2 <= potential target d + (MAX_DISCOVERY_RETRY + 1) * op_requests target op /\
  0 <= op_searches target g op d.
Proof.
  intros Hd.
  assert (Hquiet : quiet op -> queries_wf (run_op g op d).2 /\ potential target (run_op g op d).2 = potential target d).
  { intros Hq. pose proof (quiet_core g op d Hq). by eauto using queries_wf_core, potential_core. }
  destruct op; try (destruct Hquiet as [? Hp]; [done|]; split; [done|]; rewrite Hp; cbn; lia);
    cbn [run_op snd op_searches op_requests].
  - destruct (discover_peers_keeps d target_peers Hd) as (? & -> & _). split_and!; [done|lia|lia].
  - destruct (discover_subnet_peers_keeps d l Hd) as (? & Hp & _). cbn [op_requests] in Hp. split_and!; [done|lia|lia].
  - destruct (poll_keeps g d i Hd) as (? & ? & ? & _). unfold op_searches in *. split_and!; [done|lia|done].
Qed.

Definition run_ops (l : list (NetworkGlobals * DOp)) (d : Discovery) : Discovery :=
  fold_left (fun d '(g, op) => (run_op g op d).2) l d.

Lemma run_potential l d : queries_wf d ->
  run_searches target l d + potential target (run_ops l d) <=
    potential target d + (MAX_DISCOVERY_RETRY + 1) * sum_Z (fun x => op_requests target x.2) l /\ queries_wf (run_ops l d).
Proof.
  revert d. induction l as [|[g op] l IH]; intros d Hd; cbn [run_searches run_ops fold_left].
  { split; [cbn; lia|done]. }
  destruct (op_keeps g op d Hd) as (Hw & Hp & _). destruct (IH _ Hw) as [Hr Hwf]. split; [|done].
  rewrite sum_Z_cons. cbn [snd]. unfold run_ops in Hr. lia.
Qed.

Lemma potential_nonneg d : queries_wf d -> 0 <= potential target d.
Proof.
  intros [[_ Hq] Ha]. unfold potential. apply Z.add_nonneg_nonneg.
  - by apply sum_Z_nonneg, queued_cost_nonneg.
  - apply sum_Z_nonneg. eapply Forall_impl; [exact Ha|]. intros a. unfold active_wf, active_cost, group_of.
    destruct (aq_query a); [|done]. intros (_ & _ & [_ Hr] & _). by apply retry_cost_nonneg.
Qed.

Lemma new_core config key nc g answers d :
  Discovery_new config key nc g answers = Ok d -> core d = ([], [], false).
Proof. unfold Discovery_new, result_bind. repeat case_match; naive_solver. Qed.

End discovery_counts.

(** ** Theorems *)

Section discovery_theorems.
Context `{ChainTypes} `{Libp2p} `{!CustodyCrates} `{!EnrFields} `{!EnrCrates} `{!Discv5Service}.
Context `{HashIter} `{FloatExp} `{UnstableSort}.

(** C11: searching for the peers of a subnet stops: however the runtime schedules the queries, whatever is
    found and whatever else is asked for, discovery searches for a subnet at most four times for each
    request for that subnet, the first search and three retries. *)
Theorem searches_bounded config key nc g answers d l (subnet : Subnet) :
  Discovery_new config key nc g answers = Ok d ->
  run_searches subnet l d <= (MAX_DISCOVERY_RETRY + 1) * sum_Z (fun x => op_requests subnet x.2) l.
Proof.
  intros [= Hq Ha _]%new_core.
  assert (Hd : queries_wf d) by (split; [rewrite Hq; repeat constructor|by rewrite Ha]).
  destruct (run_potential (target := subnet) l d Hd) as [Hr Hw]. pose proof (potential_nonneg (target := subnet) _ Hw).
  assert (potential subnet d = 0) by (unfold potential; by rewrite Hq, Ha). lia.
Qed.

(** *** Grouping *)

(** The loop cuts the queue into groups, in order. *)
Lemma process_loop_groups g queue : forall d group p,
  (length group < MAX_SUBNETS_IN_QUERY)%nat -> (queue = [] -> group = []) ->
  (group = [] \/ at_capacity d = false) ->
  exists groups rest,
    group ++ queue = concat groups ++ rest /\
    process_loop g d queue group p =
      (p || negb (bool_decide (groups = [])), set_queue (fold_left (start_subnet_query g) groups d) rest) /\
    Forall (fun l => length l = MAX_SUBNETS_IN_QUERY) (removelast groups) /\
    Forall (fun l => 0 < length l <= MAX_SUBNETS_IN_QUERY)%nat groups /\
    (rest = [] \/ at_capacity (fold_left (start_subnet_query g) groups d) = true /\
       Forall (fun l => length l = MAX_SUBNETS_IN_QUERY) groups).
Proof.
  induction queue as [|q queue IH]; intros d group p Hlen Hnil Hcap; cbn [process_loop].
  { exists [], []. rewrite (Hnil eq_refl), orb_false_r. split_and!; try constructor; done. }
  destruct (at_capacity d) eqn:Hc.
  { destruct Hcap as [-> |?]; [|done]. exists [], (q :: queue). rewrite orb_false_r.
    split_and!; try constructor; done. }
  assert (Hl1 : length (group ++ [q]) = S (length group)) by (rewrite length_app; cbn; lia).
  replace (group ++ q :: queue) with ((group ++ [q]) ++ queue) by (by rewrite <- app_assoc).
  destruct ((length (group ++ [q]) =? MAX_SUBNETS_IN_QUERY)%nat || bool_decide (queue = [])) eqn:Hb.
  - destruct (IH (start_subnet_query g d (group ++ [q])) [] true) as (groups & rest & Hcat & Hrun & Hrl & Hall & Hend);
      [exact (Nat.lt_0_succ 2)|done|by left|].
    exists ((group ++ [q]) :: groups), rest. cbn [app] in Hcat. rewrite Hrun. cbn [concat fold_left].
    assert (Hlast : length (group ++ [q]) = MAX_SUBNETS_IN_QUERY \/ groups = [] /\ rest = []).
    { apply orb_true_iff in Hb as [Hb%Nat.eqb_eq|Hb%bool_decide_eq_true]; [by left|right]. subst queue.
      symmetry in Hcat. apply app_eq_nil in Hcat as [Hcat ->]. split; [|done].
      destruct groups as [|x groups]; [done|]. apply Forall_cons in Hall as [Hx _].
      destruct x; cbn in Hx, Hcat; [lia|done]. }
    split_and!.
    + by rewrite Hcat, app_assoc.
    + by rewrite orb_true_r.
    + destruct groups as [|x groups]; [constructor|]. cbn [removelast]. constructor; [|done].
      by destruct Hlast as [|[? _]].
    + constructor; [lia|done].
    + destruct Hend as [?|[? Hg]]; [by left|]. destruct Hlast as [?|[_ ?]]; [|by left].
      right. split; [done|]. by constructor.
  - apply orb_false_iff in Hb as [Hb1 Hb2]. apply Nat.eqb_neq in Hb1. apply bool_decide_eq_false in Hb2.
    apply IH; [lia|done|by right].
Qed.

(** C18: the queue is worked off in order and nothing in it is lost.  The queries that have not expired are
    cut into consecutive groups of three (only the last may be smaller, if it ends the queue), a search is
    started for what each group still needs, and what is left is kept; something is left only if as many
    searches are running as may be. *)
Theorem process_queue_in_order g d now :
  exists groups rest,
    filter (fun q => expired q now = false) (queued_queries d) = concat groups ++ rest /\
    (process_queue g d now).2 = set_queue (fold_left (start_subnet_query g) groups d) rest /\
    ((process_queue g d now).1 = true <-> groups <> []) /\
    Forall (fun l => length l = MAX_SUBNETS_IN_QUERY) (removelast groups) /\
    Forall (fun l => 0 < length l <= MAX_SUBNETS_IN_QUERY)%nat groups /\
    (rest = [] \/ at_capacity (process_queue g d now).2 = true /\
                  Forall (fun l => length l = MAX_SUBNETS_IN_QUERY) groups).
Proof.
  destruct (process_loop_groups g (filter (fun q => expired q now = false) (queued_queries d)) d [] false)
    as (groups & rest & Hcat & Hrun & Hrl & Hall & Hend); [exact (Nat.lt_0_succ 2)|done|by left|].
  exists groups, rest. unfold process_queue. rewrite Hrun. cbn [fst snd orb]. split_and!; try done.
  - rewrite negb_true_iff, bool_decide_eq_false. done.
  - destruct Hend as [?|[? ?]]; [by left|right]. split; [|done].
    by destruct (fold_left (start_subnet_query g) groups d).
Qed.

(** *** Results *)

(** The queries whose subnet a record is on. *)
Definition on_subnet (config : ChainConfig) (e : Enr) (q : SubnetQuery) : bool :=
  subnet_predicate config [sq_subnet q] e.

(** What [map_result] does to the expiry of one record. *)
Definition merge_ttl (cur : option (option Instant)) (ttl : option Instant) : option (option Instant) :=
  match ttl, cur with
  | Some t, Some (Some other) => if DURATION_DIFFERENCE <? saturating_sub t other then Some (Some t) else cur
  | Some t, Some None => Some (Some t)
  | _, None => Some ttl
  | None, Some _ => cur
  end.

Lemma map_result_lookup ttl m e e' :
  map_result ttl m e !! e' = if decide (e = e') then merge_ttl (m !! e') ttl else m !! e'.
Proof.
  unfold map_result, merge_ttl. case_decide as He; [subst e'|].
  - repeat case_match; simplify_eq; try done; by rewrite ?lookup_insert_eq.
  - repeat case_match; try done; by rewrite lookup_insert_ne.
Qed.

Lemma merge_ttl_idemp cur ttl : merge_ttl (merge_ttl cur ttl) ttl = merge_ttl cur ttl.
Proof.
  unfold merge_ttl, saturating_sub, DURATION_DIFFERENCE.
  destruct ttl as [t|], cur as [[c|]|]; try done; repeat case_match; simplify_eq; try done; exfalso;
    repeat match goal with Hb : (_ <? _) = _ |- _ => revert Hb end; change (Duration_from_millis 1) with 1000000; lia.
Qed.

Lemma map_results_lookup ttl r m e :
  fold_left (map_result ttl) r m !! e = if decide (e ∈ r) then merge_ttl (m !! e) ttl else m !! e.
Proof.
  revert m. induction r as [|x r IH]; intros m; cbn [fold_left].
  { by rewrite decide_False by apply not_elem_of_nil. }
  rewrite IH, map_result_lookup. destruct (decide (x = e)) as [->|Hx].
  - rewrite (decide_True (P := e ∈ e :: r)) by apply list_elem_of_here.
    case_decide; [apply merge_ttl_idemp|done].
  - destruct (decide (e ∈ r)) as [Hr|Hr].
    + by rewrite decide_True by (by apply list_elem_of_further).
    + rewrite decide_False; [done|]. rewrite elem_of_cons. intros [?|?]; congruence.
Qed.

(** The expiry chosen for a record, from those of the queries it answers. *)
Definition ttl_chosen (ttls : list (option Instant)) (cur : option (option Instant)) : Prop :=
  match cur with
  | None => ttls = []
  | Some None => ttls <> [] /\ Forall (fun t => t = None) ttls
  | Some (Some t) => Some t ∈ ttls /\ forall t', Some t' ∈ ttls -> t' <= t + DURATION_DIFFERENCE
  end.

Lemma merge_ttl_chosen ttls cur ttl : ttl_chosen ttls cur -> ttl_chosen (ttls ++ [ttl]) (merge_ttl cur ttl).
Proof.
  assert (Hd : 0 <= DURATION_DIFFERENCE) by done.
  destruct cur as [[c|]|], ttl as [t|]; cbn [ttl_chosen merge_ttl].
  - unfold saturating_sub. intros [Hc Hle]. destruct (DURATION_DIFFERENCE <? Z.max 0 (t - c)) eqn:Hlt.
    + split; [set_solver|]. intros t'. rewrite elem_of_app, list_elem_of_singleton. intros [Ht|[= ->]]; [|lia].
      specialize (Hle _ Ht). lia.
    + split; [set_solver|]. intros t'. rewrite elem_of_app, list_elem_of_singleton. intros [Ht|[= ->]]; [auto|lia].
  - intros [Hc Hle]. split; [set_solver|]. intros t'. rewrite elem_of_app, list_elem_of_singleton.
    intros [Ht|?]; [auto|done].
  - intros [_ Hn]. split; [set_solver|]. intros t'. rewrite elem_of_app, list_elem_of_singleton.
    intros [Ht|[= ->]]; [|lia]. rewrite Forall_forall in Hn. by specialize (Hn _ Ht).
  - intros [Hne Hn]. split; [by destruct ttls|]. rewrite Forall_app, Forall_singleton. done.
  - intros ->. split; [set_solver|]. intros t'. rewrite elem_of_app, list_elem_of_singleton.
    intros [Ht|[= ->]]; [set_solver|lia].
  - intros ->. split; [done|]. by repeat constructor.
Qed.

Lemma fold_merge_chosen ttls seen cur :
  ttl_chosen seen cur -> ttl_chosen (seen ++ ttls) (fold_left merge_ttl ttls cur).
Proof.
  revert seen cur. induction ttls as [|t ttls IH]; intros seen cur Hc; cbn [fold_left].
  { by rewrite app_nil_r. }
  replace (seen ++ t :: ttls) with ((seen ++ [t]) ++ ttls) by (by rewrite <- app_assoc).
  by apply IH, merge_ttl_chosen.
Qed.

(** The expiries of the queries for subnets a record is on. *)
Definition ttls_of (config : ChainConfig) (e : Enr) (queries : list SubnetQuery) : list (option Instant) :=
  map sq_min_ttl (filter (fun q => on_subnet config e q = true) queries).

Lemma config_retry d q : d_config (retry d q) = d_config d.
Proof. unfold retry, add_subnet_query. repeat case_match; by destruct d. Qed.

Lemma fold_results_lookup r queries e : forall m d,
  (fold_left (fun '(m, d) q =>
     let d := retry d q in
     (fold_left (map_result (sq_min_ttl q))
        (filter (fun e => subnet_predicate (d_config d) [sq_subnet q] e = true) r) m, d))
     queries (m, d)).1 !! e =
  if decide (e ∈ r) then fold_left merge_ttl (ttls_of (d_config d) e queries) (m !! e) else m !! e.
Proof.
  induction queries as [|q queries IH]; intros m d; cbn [fold_left]; [by case_decide|].
  rewrite IH, config_retry, map_results_lookup. unfold ttls_of, on_subnet. rewrite filter_cons.
  destruct (decide (e ∈ r)) as [Hr|Hr].
  - destruct (decide (subnet_predicate (d_config d) [sq_subnet q] e = true)) as [Hp|Hp].
    + rewrite decide_True by (by apply list_elem_of_filter). done.
    + rewrite decide_False; [done|]. rewrite list_elem_of_filter. tauto.
  - rewrite decide_False; [done|]. rewrite list_elem_of_filter. tauto.
Qed.

(** C19: the records found for a group of subnets are reported with the right expiry: exactly the records
    that are on a subnet of the group, each with the expiry of one of the queries it answers, at most a
    millisecond before the latest of them, and without one only if none of them has one. *)
Theorem subnet_results_expiry d queries r e :
  r <> [] ->
  match default ∅ (process_completed_queries d (QSubnet queries) (Ok r)).1 !! e with
  | None => e ∉ r \/ ttls_of (d_config d) e queries = []
  | Some ttl => e ∈ r /\ ttl_chosen (ttls_of (d_config d) e queries) (Some ttl)
  end.
Proof.
  intros Hr. destruct r as [|e0 r]; [done|]. clear Hr. unfold process_completed_queries.
  pose proof (fold_results_lookup (e0 :: r) queries e ∅ (cache_found d (e0 :: r))) as Hl.
  pose proof (fold_merge_chosen (ttls_of (d_config d) e queries) [] None eq_refl) as Hc. cbn [app] in Hc.
  assert (Hcfg : d_config (cache_found d (e0 :: r)) = d_config d) by (by destruct d).
  rewrite Hcfg, lookup_empty in Hl. clear Hcfg.
  destruct (fold_left _ queries _) as [m d'].
  cbn [fst] in Hl |- *. replace (default ∅ (if decide (m = ∅) then None else Some m)) with m.
  - rewrite Hl. case_decide as Hin; [|by left]. destruct (fold_left merge_ttl _ _); [done|by right].
  - by destruct (decide (m = ∅)) as [->|].
Qed.


End discovery_theorems.

Section discovery_record_theorems.
Context `{ChainTypes} `{Libp2p} `{!CustodyCrates} `{!EnrFields} `{!EnrCrates} `{!Discv5Service}.
Context `{!EnrCrateLaws} `{!Discv5Laws} `{HashIter} `{FloatExp} `{UnstableSort}.

Lemma poll_fork g d i : queries_wf d -> fork_known d -> fork_known (d_poll g d i).2.2.
Proof.
  intros Hd Hk. unfold d_poll. destruct (started d); cbn [negb]; [|done].
  destruct (process_queue_keeps (target := Subnet.Attestation 0) g d (pi_now i) Hd) as [Hk1 _].
  set (d1 := (process_queue g d (pi_now i)).2) in *.
  pose proof (poll_queries_keeps (target := Subnet.Attestation 0) (pi_completed i) d1 (k_wf _ _ Hk1)) as Hk2.
  eapply fork_known_bytes; [|exact Hk]. rewrite <- (k_discv5 _ _ Hk1), <- (k_discv5 _ _ Hk2).
  destruct (poll_queries d1 (pi_completed i)) as [[m|] d2]; cbn [snd]; [done|].
  destruct (event_stream d2); cbn [snd]; [|apply events_fork|done].
  destruct (pi_stream i) as [[]|]; by destruct d2.
Qed.

Lemma new_fork config key nc g answers d :
  Discovery_new config key nc g answers = Ok d -> d_local_enr d = local_enr g.
Proof.
  unfold Discovery_new. intros (k & _ & (v & Hv & (vs & Hs & [= <-])%result_bind_ok)%result_bind_ok)%result_bind_ok.
  unfold d_local_enr. cbn [discv5].
  rewrite fold_local by (intros ? [e|]; [apply add_to_table_local|done]).
  set (v1 := fold_left _ (boot_nodes_enr nc) v) in *.
  assert (Hv1 : discv5_local_enr v1 = local_enr g).
  { unfold v1. rewrite fold_local by (intros; case_decide; [done|apply add_to_table_local]).
    by eapply new_local_enr. }
  destruct (disable_discovery nc); [by injection Hs as <-|].
  apply result_bind_ok in Hs as (v2 & Hs & [= <-]). cbn [fst]. by rewrite (start_local_enr _ _ Hs).
Qed.

(** C10: however discovery is used, it never runs more than one search for peers, and none while its flag is
    clear, nor more than four searches beside; a search is for one to three different subnets, the queue
    holds a subnet once, and nothing is retried more than three times.  If the fork of the local record
    could be read when discovery was built, and discv5 leaves it alone, the search for peers is running
    exactly while the flag is set; otherwise the flag can stay set without a search. *)
Theorem discovery_invariant known d : d_reachable known d -> queries_wf d /\ flag_wf known d.
Proof.
  intros Hd. enough (queries_wf d /\ flag_wf known d /\ (known = true -> fork_known d)) by tauto.
  induction Hd as [config key nc g answers d Hn Hf|g op d _ (Hw & Hf & Hk)|v d _ (Hw & Hf & Hk) Hv|text d _ (Hw & Hf & Hk)].
  - pose proof (new_core _ _ _ _ _ _ Hn) as Hc. injection Hc as Hq Ha Hfl. split_and!.
    + split; [rewrite Hq; repeat constructor|by rewrite Ha].
    + unfold flag_wf. by rewrite Ha, Hfl.
    + unfold fork_known. by rewrite (new_fork _ _ _ _ _ _ Hn).
  - destruct (op_keeps (target := Subnet.Attestation 0) g op d Hw) as [Hw' _]. split; [done|].
    assert (Hquiet : quiet op -> flag_wf known (run_op g op d).2 /\ (known = true -> fork_known (run_op g op d).2)).
    { intros Hq. split; [by eapply flag_wf_core, Hf; apply quiet_core|]. intros Hkn. by apply quiet_fork, Hk. }
    destruct op; try (by apply Hquiet); cbn [run_op snd].
    + destruct (discover_peers_keeps (target := Subnet.Attestation 0) d target_peers Hw) as (_ & _ & Hv & Hfl).
      split; [by apply Hfl|]. intros Hkn. eapply fork_known_bytes; [|by apply Hk]. by rewrite Hv.
    + destruct (discover_subnet_peers_keeps (target := Subnet.Attestation 0) d l Hw) as (_ & _ & Hv & Hfl).
      split; [by apply Hfl|]. intros Hkn. eapply fork_known_bytes; [|by apply Hk]. by rewrite Hv.
    + destruct (poll_keeps (target := Subnet.Attestation 0) g d i Hw) as (_ & _ & _ & Hfl).
      split; [by apply Hfl|]. intros Hkn. by apply poll_fork, Hk.
  - split_and!.
    + eapply queries_wf_core, Hw. apply core_set_discv5.
    + eapply flag_wf_core, Hf. apply core_set_discv5.
    + intros Hkn. eapply fork_known_bytes, Hk, Hkn. unfold eth2_bytes. rewrite discv5_set_discv5. by apply Hv.
  - split_and!.
    + eapply queries_wf_core, Hw. apply core_set_enr_file.
    + eapply flag_wf_core, Hf. apply core_set_enr_file.
    + intros Hkn. eapply fork_known_bytes, Hk, Hkn. by destruct d.
Qed.

(** *** The published record *)

(** The globals and, if there is a directory, the file hold the record discv5 announces, the file as far
    as the last write got. *)
Definition published (s : NetworkGlobals * Discovery) : Prop :=
  local_enr s.1 = d_local_enr s.2 /\
  (enr_dir s.2 <> None -> holds_write (enr_file s.2) (enr_to_base64 (d_local_enr s.2))).

(** What [published] reads of the state. *)
Definition record_view (d : Discovery) : Enr * option string * File Ascii.ascii :=
  (d_local_enr d, enr_dir d, enr_file d).

Lemma published_publish g d : published (publish g d).
Proof.
  unfold publish, published, persist, save_enr_to_disk. cbn [fst snd].
  destruct d as [? ? [dir|] ? ? ? ? ? ? ? ?]; cbn; [|by split]. split; [done|]. intros _. apply file_write_holds.
Qed.

(** What an operation does to the record: nothing, or it publishes a new one. *)
Definition kept (s s' : NetworkGlobals * Discovery) : Prop :=
  record_view s'.2 = record_view s.2 /\ (local_enr s'.1 = local_enr s.1 \/ local_enr s'.1 = d_local_enr s'.2).
Definition publishes (s s' : NetworkGlobals * Discovery) : Prop := kept s s' \/ published s'.

Lemma publishes_view g d d' : record_view d' = record_view d -> publishes (g, d) (g, d').
Proof. intros Hv. left. split; [done|by left]. Qed.

Lemma publishes_refl s : publishes s s.
Proof. destruct s. by apply publishes_view. Qed.

Lemma publishes_publish s g d : publishes s (publish g d).
Proof. right. apply published_publish. Qed.

Lemma publishes_insert {A} g d f (x : A) : publishes (g, d) (insert_and_publish g d f x).2.
Proof. unfold insert_and_publish. case_match; [apply publishes_publish|apply publishes_refl]. Qed.

Lemma publishes_trans s1 s2 s3 : publishes s1 s2 -> publishes s2 s3 -> publishes s1 s3.
Proof.
  intros Hs [[Hv Hg]|Hp]; [|by right]. destruct Hg as [Hg|Hg].
  - destruct Hs as [[Hv1 [Hg1|Hg1]]|[Hp Hf]].
    + left. split; [congruence|left; congruence].
    + left. split; [congruence|right]. injection Hv as Hv _ _. congruence.
    + right. injection Hv as Hv Hd Hfile. split; [congruence|]. by rewrite Hd, Hfile, Hv.
  - destruct Hs as [[Hv1 _]|[Hp Hf]]; [left; split; [congruence|by right]|].
    right. injection Hv as Hv Hd Hfile. split; [done|]. by rewrite Hd, Hfile, Hv.
Qed.

Lemma view_discv5 d v : discv5_local_enr v = d_local_enr d -> record_view (set_discv5 d v) = record_view d.
Proof. intros Hv. destruct d. unfold record_view, d_local_enr in *. cbn in *. by rewrite Hv. Qed.

Lemma view_on_node d p f :
  (forall v n, discv5_local_enr (f v n) = discv5_local_enr v) -> record_view (on_node d p f) = record_view d.
Proof. intros Hf. unfold on_node. case_match; [|done]. apply view_discv5, Hf. Qed.

Lemma view_disconnect d p : record_view (d_disconnect_peer d p) = record_view d.
Proof.
  unfold d_disconnect_peer. rewrite <- (view_on_node d p discv5_disconnect_node disconnect_node_local).
  by destruct (on_node d p discv5_disconnect_node).
Qed.

Lemma publishes_events l s : publishes s (fold_left handle_discv5_event l s).
Proof.
  revert s. induction l as [|e l IH]; intros s; [apply publishes_refl|]. cbn [fold_left].
  eapply publishes_trans, IH. destruct s as [g d], e as [socket|]; [apply publishes_publish|apply publishes_refl].
Qed.

Lemma view_set_queue d x : record_view (set_queue d x) = record_view d.
Proof. by destruct d. Qed.
Lemma view_set_active d x : record_view (set_active d x) = record_view d.
Proof. by destruct d. Qed.
Lemma view_set_find_peer_active d x : record_view (set_find_peer_active d x) = record_view d.
Proof. by destruct d. Qed.
Lemma view_set_cache d x : record_view (set_cache d x) = record_view d.
Proof. by destruct d. Qed.
Lemma view_set_event_stream d x : record_view (set_event_stream d x) = record_view d.
Proof. by destruct d. Qed.

Lemma view_add_subnet_query d s t r : record_view (add_subnet_query d s t r) = record_view d.
Proof. unfold add_subnet_query. repeat case_match; by rewrite ?view_set_queue. Qed.

Lemma view_start_query d q n f : record_view (start_query d q n f) = record_view d.
Proof. unfold start_query. case_match; by rewrite ?view_set_active. Qed.

Lemma view_fold {X} (f : Discovery -> X -> Discovery) l d :
  (forall d x, record_view (f d x) = record_view d) -> record_view (fold_left f l d) = record_view d.
Proof. intros Hf. revert d. induction l as [|x l IH]; intros d; [done|]. cbn. by rewrite IH, Hf. Qed.

Lemma view_process_queue g d now : record_view (process_queue g d now).2 = record_view d.
Proof.
  unfold process_queue. generalize (filter (fun q => expired q now = false) (queued_queries d)) as queue.
  intros queue. generalize (@nil SubnetQuery) as group, false as p. revert d.
  induction queue as [|q queue IH]; intros d group p; cbn [process_loop]; [apply view_set_queue|].
  case_match; [apply view_set_queue|]. case_match; [|apply IH]. rewrite IH. unfold start_subnet_query.
  case_match; [done|apply view_start_query].
Qed.

Lemma view_completed d q r : record_view (process_completed_queries d q r).2 = record_view d.
Proof.
  destruct q as [queries|].
  - destruct (completed_subnets d queries r) as (c & ->).
    rewrite view_fold by (intros; apply view_add_subnet_query). apply view_set_cache.
  - unfold process_completed_queries. destruct r as [[|e r]|]; cbn [snd]; unfold cache_found;
      rewrite ?view_set_cache; apply view_set_find_peer_active.
Qed.

Lemma view_poll_queries completed d : record_view (poll_queries d completed).2 = record_view d.
Proof.
  revert d. induction completed as [|[i r] completed IH]; intros d; [done|]. cbn [poll_queries].
  destruct (active_queries d !! i); [|apply IH].
  match goal with |- context [process_completed_queries ?x ?q ?y] =>
    pose proof (view_completed x q y) as Hc; destruct (process_completed_queries x q y) as [[m|] d'] end;
    cbn [snd] in *; rewrite view_set_active in Hc; [done|]. by rewrite IH.
Qed.

Lemma publishes_poll g d i : publishes (g, d) (d_poll g d i).2.
Proof.
  unfold d_poll. destruct (started d); cbn [negb]; [|apply publishes_refl].
  assert (Hv : record_view (poll_queries (process_queue g d (pi_now i)).2 (pi_completed i)).2 = record_view d)
    by (by rewrite view_poll_queries, view_process_queue).
  destruct (poll_queries _ _) as [[m|] d2]; cbn [snd] in *; [by apply publishes_view|].
  pose proof (publishes_view g d d2 Hv) as Hp2.
  destruct (event_stream d2); cbn [snd]; [|by eapply publishes_trans, publishes_events|done].
  repeat case_match; try done; apply publishes_view; by rewrite view_set_event_stream.
Qed.

(** Every operation leaves the record alone or publishes a new one. *)
Lemma op_publishes g d op : publishes (g, d) (run_op g op d).
Proof.
  destruct op; cbn [run_op].
  - apply publishes_view. unfold discover_peers. case_match; [done|].
    by rewrite view_start_query, view_set_find_peer_active.
  - apply publishes_view. unfold discover_subnet_peers. case_match; [done|].
    apply view_fold. intros. apply view_add_subnet_query.
  - apply publishes_view. unfold add_enr. rewrite view_discv5; [apply view_set_cache|]. apply add_to_table_local.
  - apply publishes_view, view_set_cache.
  - unfold update_enr_tcp_port. repeat case_match; first [apply publishes_refl|apply publishes_insert].
  - unfold update_enr_quic_port. repeat case_match; first [apply publishes_refl|apply publishes_insert].
  - unfold update_enr_udp_socket. destruct (discv5_update_socket _ _ _) as [[] v] eqn:Hs.
    + right. pose proof (published_publish g (set_discv5 d v)) as Hpub. unfold publish in Hpub.
      unfold d_local_enr in *. by rewrite discv5_persist.
    + left. pose proof (update_socket_same (discv5 d) socket false) as Hsame. rewrite Hs in Hsame.
      split; [apply view_discv5; by apply Hsame|by right].
  - apply publishes_insert.
  - unfold update_enr_bitfield, update_bit. repeat case_match; first [apply publishes_refl|apply publishes_insert].
  - unfold update_enr_nfd. case_match; [apply publishes_insert|apply publishes_refl].
  - apply publishes_publish.
  - apply publishes_view. unfold d_ban_peer. rewrite view_discv5; [by apply view_on_node, ban_node_local|].
    by rewrite fold_local by apply ban_ip_local.
  - apply publishes_view. unfold d_unban_peer. rewrite view_discv5; [by apply view_on_node, ban_node_remove_local|].
    by rewrite fold_local by apply ban_ip_remove_local.
  - apply publishes_view, view_disconnect.
  - apply publishes_poll.
  - unfold on_new_listen_addr, update_enr_tcp_port, update_enr_quic_port.
    repeat case_match; first [apply publishes_refl|apply publishes_insert].
  - apply publishes_view. unfold d_on_dial_failure. repeat case_match; try done; apply view_disconnect.
Qed.

(** What the node says of itself stays in step: if the record in the globals and in the file is the one
    discv5 announces, it is so after every operation, whether it succeeds or fails, the file as far as the
    last write got. *)
Theorem local_record_published g d op : published (g, d) -> published (run_op g op d).
Proof.
  intros [Hg Hf]. destruct (op_publishes g d op) as [[[= Hv Hd Hfile] Hl]|Hp]; [|done].
  cbn [fst snd] in *. split; [destruct Hl; congruence|]. by rewrite Hd, Hfile, Hv.
Qed.

(** Of the globals an operation changes the record at most. *)
Lemma only_record_refl g : exists e, g = set_g_local_enr g e.
Proof. exists (local_enr g). by destruct g. Qed.

Lemma only_record_insert {A} g d f (x : A) : exists e, (insert_and_publish g d f x).2.1 = set_g_local_enr g e.
Proof. unfold insert_and_publish. case_match; [by eexists|apply only_record_refl]. Qed.

Lemma only_record_events l s : exists e, (fold_left handle_discv5_event l s).1 = set_g_local_enr s.1 e.
Proof.
  revert s. induction l as [|ev l IH]; intros s; [apply only_record_refl|]. cbn [fold_left].
  destruct (IH (handle_discv5_event s ev)) as [e ->]. destruct s as [g d]. exists e. by destruct g, ev.
Qed.

Lemma op_only_record g d op : exists e, (run_op g op d).1 = set_g_local_enr g e.
Proof.
  destruct op; cbn [run_op fst]; try apply only_record_refl; try apply only_record_insert; try (by eexists).
  - unfold update_enr_tcp_port. repeat case_match; first [apply only_record_refl|apply only_record_insert].
  - unfold update_enr_quic_port. repeat case_match; first [apply only_record_refl|apply only_record_insert].
  - unfold update_enr_udp_socket. case_match. by eexists.
  - unfold update_enr_bitfield, update_bit. repeat case_match; first [apply only_record_refl|apply only_record_insert].
  - unfold update_enr_nfd. case_match; [apply only_record_insert|apply only_record_refl].
  - unfold d_poll. repeat case_match; cbn [fst snd]; first [apply only_record_refl|apply only_record_events].
  - unfold on_new_listen_addr, update_enr_tcp_port, update_enr_quic_port.
    repeat case_match; first [apply only_record_refl|apply only_record_insert].
Qed.

(** *** Fields an operation does not write *)

(** The keys of the record that an operation may change, besides addresses. *)
Definition op_keys (op : DOp) : list string :=
  match op with
  | OpUpdateBitfield (Subnet.Attestation _) _ => [ATTESTATION_BITFIELD_ENR_KEY]
  | OpUpdateBitfield (Subnet.SyncCommittee _) _ => [SYNC_COMMITTEE_BITFIELD_ENR_KEY]
  | OpUpdateCgc _ => [PEERDAS_CUSTODY_GROUP_COUNT_ENR_KEY]
  | OpUpdateNfd _ => [NEXT_FORK_DIGEST_ENR_KEY]
  | OpUpdateEth2 _ => [ETH2_ENR_KEY]
  | _ => []
  end.

#[local] Hint Rewrite discv5_set_discv5 discv5_set_cache discv5_persist discv5_publish : discovery.

Definition transport_keys : list string := address_keys ++ [QUIC_ENR_KEY; QUIC6_ENR_KEY].

Lemma insert_key {A} key g d f (x : A) :
  key <> field_key f -> enr_get_bytes (d_local_enr (insert_and_publish g d f x).2.2) key = enr_get_bytes (d_local_enr d) key.
Proof.
  intros Hk. unfold insert_and_publish, d_local_enr. destruct (discv5_enr_insert (discv5 d) f) as [v|] eqn:Hi; [|done].
  cbn [snd]. autorewrite with discovery. by eapply insert_other.
Qed.

Lemma view_key key d d' :
  record_view d' = record_view d -> enr_get_bytes (d_local_enr d') key = enr_get_bytes (d_local_enr d) key.
Proof. by intros [= -> _ _]. Qed.

#[local] Ltac not_key := unfold transport_keys, address_keys in *; set_solver.

Lemma ports_key key g d port v6 :
  key ∉ transport_keys ->
  enr_get_bytes (d_local_enr (update_enr_tcp_port g d port v6).2.2) key = enr_get_bytes (d_local_enr d) key /\
  enr_get_bytes (d_local_enr (update_enr_quic_port g d port v6).2.2) key = enr_get_bytes (d_local_enr d) key.
Proof.
  intros Hk. unfold update_enr_tcp_port, update_enr_quic_port.
  split; repeat case_match; try done; apply insert_key; cbn [field_key]; not_key.
Qed.

Lemma events_key key l s :
  key ∉ address_keys ->
  enr_get_bytes (d_local_enr (fold_left handle_discv5_event l s).2) key = enr_get_bytes (d_local_enr s.2) key.
Proof.
  intros Hk. unfold d_local_enr. revert s. induction l as [|e l IH]; intros [g d]; [done|]. cbn [fold_left]. rewrite IH. clear IH.
  destruct e as [s|]; [|done]. unfold handle_discv5_event. rewrite discv5_publish.
  case_match; case_match; autorewrite with discovery; rewrite ?update_socket_other; done.
Qed.

Lemma poll_key key g d i :
  key ∉ address_keys -> enr_get_bytes (d_local_enr (d_poll g d i).2.2) key = enr_get_bytes (d_local_enr d) key.
Proof.
  intros Hk. unfold d_poll. destruct (started d); cbn [negb]; [|done].
  assert (Hv : record_view (poll_queries (process_queue g d (pi_now i)).2 (pi_completed i)).2 = record_view d)
    by (by rewrite view_poll_queries, view_process_queue).
  destruct (poll_queries _ _) as [[m|] d2]; cbn [snd] in *; [by apply view_key|].
  rewrite <- (view_key key _ _ Hv). destruct (event_stream d2); cbn [snd]; [|by apply events_key|done].
  repeat case_match; try done; apply view_key, view_set_event_stream.
Qed.

Lemma op_keeps_key key g op d :
  key ∉ op_keys op -> key ∉ transport_keys ->
  enr_get_bytes (d_local_enr (run_op g op d).2) key = enr_get_bytes (d_local_enr d) key.
Proof.
  intros Hop Hk. assert (Ha : key ∉ address_keys) by not_key.
  destruct op; cbn [run_op snd op_keys] in *.
  - apply view_key. unfold discover_peers. case_match; [done|].
    by rewrite view_start_query, view_set_find_peer_active.
  - apply view_key. unfold discover_subnet_peers. case_match; [done|].
    apply view_fold. intros. apply view_add_subnet_query.
  - apply view_key. unfold add_enr. rewrite view_discv5; [apply view_set_cache|]. apply add_to_table_local.
  - apply view_key, view_set_cache.
  - by apply ports_key.
  - by apply ports_key.
  - unfold update_enr_udp_socket, d_local_enr. pose proof (update_socket_other (discv5 d) socket false key Ha) as Hs.
    destruct (discv5_update_socket _ _ _) as [c v]. cbn [snd] in *. destruct c; by autorewrite with discovery.
  - apply insert_key. cbn [field_key]. set_solver.
  - unfold update_enr_bitfield, update_bit. destruct subnet; [..|done]; repeat case_match; try done;
      apply insert_key; cbn [field_key]; set_solver.
  - unfold update_enr_nfd. case_match; [|done]. apply insert_key. cbn [field_key]. set_solver.
  - unfold update_eth2_enr, result_bind, d_local_enr. rewrite discv5_publish.
    destruct (fork_id_to_ssz id); [|done]. destruct (discv5_enr_insert _ _) eqn:Hi; [|done].
    rewrite discv5_set_discv5. eapply insert_other; [exact Hi|]. cbn [field_key]. set_solver.
  - apply view_key. unfold d_ban_peer. rewrite view_discv5; [by apply view_on_node, ban_node_local|].
    by rewrite fold_local by apply ban_ip_local.
  - apply view_key. unfold d_unban_peer. rewrite view_discv5; [by apply view_on_node, ban_node_remove_local|].
    by rewrite fold_local by apply ban_ip_remove_local.
  - apply view_key, view_disconnect.
  - by apply poll_key.
  - unfold on_new_listen_addr. repeat case_match; try done; by apply ports_key.
  - apply view_key. unfold d_on_dial_failure. repeat case_match; try done; apply view_disconnect.
Qed.

(** Setting or clearing a subnet succeeds only for a subnet of the bit field, and changes that bit of the
    announced record and nothing else in its bit fields and its fork. *)
Theorem update_bitfield_sets g d id value g' d' :
  update_enr_bitfield g d (Subnet.Attestation id) value = (Ok tt, (g', d')) ->
  exists old, attestation_bitfield (d_local_enr d) = Ok old /\ 0 <= id < Z.of_nat (length old) /\
    attestation_bitfield (d_local_enr d') = Ok (<[Z.to_nat id := value]> old) /\
    sync_committee_bitfield (d_local_enr d') = sync_committee_bitfield (d_local_enr d) /\
    enr_eth2 (d_local_enr d') = enr_eth2 (d_local_enr d).
Proof.
  unfold update_enr_bitfield, update_bit. destruct (attestation_bitfield (d_local_enr d)) as [old|] eqn:Ho; [|done].
  destruct (bit_get old id) as [b|] eqn:Hb; [|done]. intros Hu. exists old. split; [done|].
  assert (Hid : 0 <= id < Z.of_nat (length old) /\ old !! Z.to_nat id = Some b).
  { unfold bit_get in Hb. destruct (id <? 0) eqn:Hn; [done|]. pose proof (lookup_lt_Some _ _ _ Hb).
    split; [lia|done]. }
  destruct Hid as [Hid Hl]. split; [done|]. destruct (Bool.eqb b value) eqn:Hbv.
  - apply eqb_prop in Hbv as ->. injection Hu as <- <-.
    assert (<[Z.to_nat id := value]> old = old) as -> by exact (list_insert_id old _ _ Hl). done.
  - destruct (attnets_to_ssz _) as [ssz|] eqn:Hs; [|done]. unfold insert_and_publish in Hu.
    destruct (discv5_enr_insert _ _) as [v|] eqn:Hi; [|done].
    assert (Hv : d_local_enr d' = discv5_local_enr v).
    { injection Hu as _ <-. unfold d_local_enr. by rewrite discv5_persist, discv5_set_discv5. }
    rewrite Hv. unfold attestation_bitfield, sync_committee_bitfield, enr_eth2.
    rewrite (insert_same _ _ _ _ Hi), !(insert_other _ _ _ _ Hi) by done.
    cbn. by rewrite (attnets_ssz _ _ Hs).
Qed.


End discovery_record_theorems.

(** ** Examples *)

Module DiscoveryExamples.

#[local] Existing Instance Toy.chain.
#[local] Existing Instance LocalEnrExamples.rec_libp2p.
#[local] Existing Instance LocalEnrExamples.rec_fields.
#[local] Existing Instance LocalEnrExamples.rec_custody.
#[local] Existing Instance LocalEnrExamples.rec_crates.
#[local] Existing Instance LocalEnrExamples.rec_laws.
#[local] Existing Instance ScoreExamples.step_float_exp.
#[local] Existing Instance PeerDBExamples.stable_unstable_sort.
Abbreviation Rec := LocalEnrExamples.Rec.

Definition with_field (r : Rec) (f : EnrField) : Rec := (r.1.1 + 1, r.1.2, r.2 ++ [f]).

(** A service that only keeps its record; a socket sets the address and the port of its family. *)
#[local] Instance toy_discv5 : Discv5Service := {
  Discv5 := Rec;
  discv5_new := fun e _ _ => Ok e;
  discv5_start := fun v => Ok v;
  discv5_local_enr := fun v => v;
  discv5_add_enr := fun v _ => Ok v;
  discv5_table_entries := fun _ => [];
  discv5_enr_insert := fun v f => Ok (with_field v f);
  discv5_update_socket := fun v s tcp =>
    (true, match s.1 with
           | IpV4 a => with_field (with_field v (FieldIp4 a)) (if tcp then FieldTcp4 s.2 else FieldUdp4 s.2)
           | IpV6 a => with_field (with_field v (FieldIp6 a)) (if tcp then FieldTcp6 s.2 else FieldUdp6 s.2)
           end);
  discv5_ban_node := fun v _ => v;
  discv5_ban_node_remove := fun v _ => v;
  discv5_ban_ip := fun v _ => v;
  discv5_ban_ip_remove := fun v _ => v;
  discv5_disconnect_node := fun v _ => v;
  EnrCache := list (Z * Rec);
  cache_new := fun _ => [];
  cache_put := fun c p e => (p, e) :: filter (fun x => x.1 <> p) c;
  cache_pop := fun c p => filter (fun x => x.1 <> p) c;
  cache_iter := id;
}.

Lemma with_field_other r f key :
  key <> field_key f -> enr_get_bytes (with_field r f : @Enr LocalEnrExamples.rec_libp2p) key =
    enr_get_bytes (r : @Enr LocalEnrExamples.rec_libp2p) key.
Proof.
  intros Hk. cbn. unfold LocalEnrExamples.rec_last. cbn [snd with_field]. rewrite last_under_app.
  unfold last_under at 1. cbn [omap list_omap]. unfold under.
  by rewrite (proj2 (String.eqb_neq _ _) (not_eq_sym Hk)).
Qed.

#[local] Instance toy_laws : Discv5Laws.
Proof.
  split; cbn [discv5_new discv5_start discv5_local_enr discv5_add_enr discv5_enr_insert discv5_update_socket
    discv5_ban_node discv5_ban_node_remove discv5_ban_ip discv5_ban_ip_remove discv5_disconnect_node toy_discv5];
    try naive_solver.
  - intros v f v' key [= <-] Hk. by apply with_field_other.
  - intros v key b v' [= <-]. cbn. unfold LocalEnrExamples.rec_last. cbn [snd with_field].
    rewrite last_under_app. unfold last_under at 1. cbn [omap list_omap]. unfold under. cbn [field_key].
    by rewrite String.eqb_refl.
  - intros v [[a|a] port] [] key Hk; cbn [fst snd]; rewrite !with_field_other; try done;
      cbn; unfold address_keys in Hk; set_solver.
Qed.

Definition globals : NetworkGlobals :=
  mkNetworkGlobals (tt : @ChainConfig Toy.chain) (LocalEnrExamples.home_record : @Enr LocalEnrExamples.rec_libp2p)
    (7 : @PeerId LocalEnrExamples.rec_libp2p) [] (PeerDB_new [] false)
    (MDV3 (mkMetaDataV3 0 [] [] 4)) ∅ SyncState.Stalled BackFillPaused ∅ 3 (mkNetworkFlags false false false).

Definition fresh : result Discovery string :=
  Discovery_new (tt : @ChainConfig Toy.chain) (Ok (LocalEnrExamples.key_of 7)) LocalEnrExamples.home_config globals [].
Definition disc0 : Discovery :=
  match fresh with Ok d => d | Err _ => mkDiscovery (tt : @ChainConfig Toy.chain) [] None LocalEnrExamples.home_record
    false [] [] InActive false (mkUpdatePorts false false false false) (file_found None []) end.

Definition att (n : Z) (ttl : option Instant) : SubnetDiscovery := mkSubnetDiscovery (Subnet.Attestation n) ttl.
Definition idle (now : Instant) : PollInput := mkPollInput now [] None [].
Definition peer_on (l : list Z) : @Enr LocalEnrExamples.rec_libp2p :=
  (1, 9, [FieldBytes ATTESTATION_BITFIELD_ENR_KEY l]).

(** Four subnets are requested and grouped; the first group is answered and retried. *)
Definition ops : list (NetworkGlobals * DOp) :=
  [(globals, OpDiscoverPeers 20); (globals, OpDiscoverSubnetPeers [att 0 (Some 50); att 1 None; att 2 None; att 1 (Some 90); att 3 None]);
   (globals, OpPoll (idle 10)); (globals, OpPoll (mkPollInput 20 [(1%nat, Ok [peer_on [1; 1]])] None []))].

Example ops_example :
  (map aq_target_peers (active_queries (run_ops ops disc0)),
   map group_of (active_queries (run_ops (take 3 ops) disc0)),
   queued_queries (run_ops ops disc0), run_searches (Subnet.Attestation 1) (ops ++ [(globals, OpPoll (idle 30))]) disc0) =
  ([16; 6],
   [[]; [mkSubnetQuery (Subnet.Attestation 0) (Some 50) 0; mkSubnetQuery (Subnet.Attestation 1) (Some 90) 0;
         mkSubnetQuery (Subnet.Attestation 2) None 0]; [mkSubnetQuery (Subnet.Attestation 3) None 0]],
   [mkSubnetQuery (Subnet.Attestation 0) (Some 50) 1; mkSubnetQuery (Subnet.Attestation 1) (Some 90) 1;
    mkSubnetQuery (Subnet.Attestation 2) None 1], 2).
Proof. evaluate. Qed.

Lemma reachable_ops known l d : d_reachable known d -> d_reachable known (run_ops l d).
Proof.
  revert d. induction l as [|[g op] l IH]; intros d Hd; [done|]. cbn. apply IH. by apply reach_op.
Qed.

Lemma discovery_invariant_witness : queries_wf (run_ops ops disc0) /\ flag_wf true (run_ops ops disc0).
Proof.
  apply discovery_invariant, reachable_ops.
  apply (reach_new true (tt : @ChainConfig Toy.chain) (Ok (LocalEnrExamples.key_of 7)) LocalEnrExamples.home_config globals []).
  - reflexivity.
  - intros _. exists LocalEnrExamples.fork_id. by vm_compute.
Defined.

(** One request for subnet 0 among the five, so at most four searches for it. *)
Lemma searches_bounded_witness : run_searches (Subnet.Attestation 0) ops disc0 <= 4.
Proof.
  apply (searches_bounded (tt : @ChainConfig Toy.chain) (Ok (LocalEnrExamples.key_of 7)) LocalEnrExamples.home_config globals []
    disc0 ops (Subnet.Attestation 0)). reflexivity.
Defined.

(** A peer on the two subnets of a group is reported with the later expiry; a millisecond is not later. *)
Lemma subnet_results_expiry_witness :
  let queries := [mkSubnetQuery (Subnet.Attestation 0) (Some 5000000) 0;
                  mkSubnetQuery (Subnet.Attestation 1) (Some 5999999) 0;
                  mkSubnetQuery (Subnet.Attestation 2) (Some 7000000) 0] in
  default ∅ (process_completed_queries disc0 (QSubnet queries) (Ok [peer_on [1; 1]])).1 !! peer_on [1; 1] = Some (Some 5000000) /\
  Some 5000000 ∈ ttls_of (tt : @ChainConfig Toy.chain) (peer_on [1; 1]) queries.
Proof.
  intros queries.
  pose proof (subnet_results_expiry disc0 queries [peer_on [1; 1]] (peer_on [1; 1]) ltac:(done)) as Hr.
  assert (Hl : default ∅ (process_completed_queries disc0 (QSubnet queries) (Ok [peer_on [1; 1]])).1 !! peer_on [1; 1] =
    Some (Some 5000000)) by (by vm_compute).
  split; [exact Hl|]. rewrite Hl in Hr. destruct Hr as [_ [Hin _]]. exact Hin.
Defined.

Definition saved : Discovery := (publish globals disc0).2.

Lemma local_record_published_witness :
  published (run_op globals (OpUpdateCgc 64) saved) /\
  enr_custody_group_count (tt : @ChainConfig Toy.chain) (d_local_enr (run_op globals (OpUpdateCgc 64) saved).2) = Ok 64.
Proof.
  split; [|by vm_compute]. apply local_record_published. split; [by vm_compute|]. intros _. by vm_compute.
Defined.

Lemma update_bitfield_sets_witness :
  let s := update_enr_bitfield globals disc0 (Subnet.Attestation 1) true in
  attestation_bitfield (d_local_enr s.2.2) = Ok (false :: true :: replicate 62 false).
Proof.
  intros s. assert (Hs : s.1 = Ok tt) by (by vm_compute).
  destruct (update_bitfield_sets globals disc0 1 true s.2.1 s.2.2) as (old & Ho & _ & Hn & _).
  { rewrite <- Hs. unfold s. by destruct (update_enr_bitfield _ _ _ _) as [? []]. }
  assert (Hold : attestation_bitfield (d_local_enr disc0) = Ok (replicate 64 false)) by (by vm_compute).
  rewrite Hold in Ho. injection Ho as <-. exact Hn.
Defined.

(** An IPv6 QUIC port equal to the IPv4 one is never announced: the common check compares with [quic]. *)
Example quic6_not_updated :
  let d := set_discv5 disc0 (with_field LocalEnrExamples.home_record (FieldU16 QUIC_ENR_KEY 9001)) in
  let r := update_enr_quic_port globals d 9001 true in
  (r.1, quic6 (d_local_enr d), quic6 (d_local_enr r.2.2)) = (Ok false, None, None).
Proof. evaluate. Qed.

(** If the record's fork cannot be read, the flag of the search for peers is set and never cleared. *)
Example find_peers_stuck :
  let d := set_discv5 disc0 (1, 7, []) in
  let d1 := discover_peers d 8 in
  let d2 := set_discv5 d1 LocalEnrExamples.home_record in
  (find_peer_active d1, length (active_queries d1), length (active_queries (discover_peers d2 8))) =
  (true, 0%nat, 0%nat).
Proof. evaluate. Qed.

(** A long-lived request does not survive a later one with an expiry: the merged query expires. *)
Example long_lived_expires :
  let d := discover_subnet_peers disc0 [att 1 None; att 1 (Some 50)] in
  map (fun q => expired q 60) (queued_queries d) = [true].
Proof. evaluate. Qed.


End DiscoveryExamples.
