(* ===== verification/Pubsub.v ===== *)
(** * Gossip messages ([types/pubsub.rs])

    The messages of gossipsub, their topics, how they are written to and read from the bytes of a topic,
    and the compression around it.  The SSZ containers that only travel over gossip and raw snappy are
    parameters, as the other payloads are. *)

From Stdlib Require Import Ascii.
From S2P Require Import Prelude Chain Protocol Messages Text Events ForkContext Limits Codec Float64 Score PeerInfo Topics.

(** The containers and [snap::raw].  The readers of a combined type read the container of the phase and
    wrap it in the variant of that name, as in [Wire]. *)
Class GossipWire `{Wire} := {
  SignedAggregateAndProof : Type;
  aggregate_write :: SszWrite SignedAggregateAndProof;
  aggregate_read : Phase -> Bytes -> result SignedAggregateAndProof (list Z);
  Attestation : Type;
  attestation_write :: SszWrite Attestation;
  attestation_read : Phase -> Bytes -> result Attestation (list Z);
  AttesterSlashing : Type;
  attester_slashing_write :: SszWrite AttesterSlashing;
  attester_slashing_read : Phase -> Bytes -> result AttesterSlashing (list Z);
  SingleAttestation : Type;
  single_write :: SszWrite SingleAttestation;
  single_read :: SszRead SingleAttestation;
  SignedVoluntaryExit : Type;
  exit_write :: SszWrite SignedVoluntaryExit;
  exit_read :: SszRead SignedVoluntaryExit;
  ProposerSlashing : Type;
  proposer_write :: SszWrite ProposerSlashing;
  proposer_read :: SszRead ProposerSlashing;
  SignedContributionAndProof : Type;
  contribution_write :: SszWrite SignedContributionAndProof;
  contribution_read :: SszRead SignedContributionAndProof;
  SyncCommitteeMessage : Type;
  sync_message_write :: SszWrite SyncCommitteeMessage;
  sync_message_read :: SszRead SyncCommitteeMessage;
  SignedBlsToExecutionChange : Type;
  bls_change_write :: SszWrite SignedBlsToExecutionChange;
  bls_change_read :: SszRead SignedBlsToExecutionChange;
  SignedExecutionPayloadBid : Type;
  bid_write :: SszWrite SignedExecutionPayloadBid;
  bid_read :: SszRead SignedExecutionPayloadBid;
  (** [snap::raw]. *)
  decompress_len : Bytes -> result Z (list Z);
  decompress_vec : Bytes -> result Bytes (list Z);
  compress_vec : Bytes -> result Bytes (list Z);
}.

Section pubsub.
Context `{GossipWire} `{!TopicCrates}.

Inductive PubsubMessage :=
  | PsBeaconBlock (b : SignedBeaconBlock)
  | PsBlobSidecar (subnet : SubnetId) (b : BlobSidecar)
  | PsDataColumnSidecar (subnet : SubnetId) (c : DataColumnSidecar)
  | PsAggregateAndProofAttestation (a : SignedAggregateAndProof)
  | PsAttestation (subnet : SubnetId) (a : Attestation)
  | PsSingleAttestation (subnet : SubnetId) (a : SingleAttestation)
  | PsVoluntaryExit (e : SignedVoluntaryExit)
  | PsProposerSlashing (s : ProposerSlashing)
  | PsAttesterSlashing (s : AttesterSlashing)
  | PsSignedContributionAndProof (c : SignedContributionAndProof)
  | PsSyncCommitteeMessage (subnet : SubnetId) (m : SyncCommitteeMessage)
  | PsBlsToExecutionChange (c : SignedBlsToExecutionChange)
  | PsLightClientFinalityUpdate (u : LightClientFinalityUpdate)
  | PsLightClientOptimisticUpdate (u : LightClientOptimisticUpdate)
  | PsExecutionPayloadBid (b : SignedExecutionPayloadBid).

(** ** Compression *)

Record SnappyTransform := mkSnappyTransform { max_uncompressed_len : Z; max_compressed_len : Z }.

(** [gossipsub::RawMessage] and [gossipsub::Message], the fields that are read. *)
Record GossipMessage := mkGossipMessage {
  gm_source : option (list Z);
  gm_data : Bytes;
  gm_sequence_number : option Z;
  gm_topic : list ascii;
}.

Inductive TransformError :=
  | CompressedTooLong
  | DecodedTooLong
  | EncodedTooLong
  | SnapError (e : list Z).

Definition inbound_transform (t : SnappyTransform) (raw : GossipMessage) : result GossipMessage TransformError :=
  if max_compressed_len t <? blen (gm_data raw) then Err CompressedTooLong
  else
    let? len := map_err SnapError (decompress_len (gm_data raw)) in
    if max_uncompressed_len t <? len then Err DecodedTooLong
    else
      let? data := map_err SnapError (decompress_vec (gm_data raw)) in
      Ok (mkGossipMessage (gm_source raw) data (gm_sequence_number raw) (gm_topic raw)).

Definition outbound_transform (t : SnappyTransform) (topic : list ascii) (data : Bytes)
  : result Bytes TransformError :=
  if max_uncompressed_len t <? blen data then Err EncodedTooLong
  else map_err SnapError (compress_vec data).

(** ** Topics of a message *)

Definition kind (m : PubsubMessage) : GossipKind :=
  match m with
  | PsBeaconBlock _ => GossipKind.BeaconBlock
  | PsBlobSidecar subnet _ => GossipKind.BlobSidecar subnet
  | PsDataColumnSidecar subnet _ => GossipKind.DataColumnSidecar subnet
  | PsAggregateAndProofAttestation _ => GossipKind.BeaconAggregateAndProof
  | PsAttestation subnet _ => GossipKind.Attestation subnet
  | PsSingleAttestation subnet _ => GossipKind.Attestation subnet
  | PsVoluntaryExit _ => GossipKind.VoluntaryExit
  | PsProposerSlashing _ => GossipKind.ProposerSlashing
  | PsAttesterSlashing _ => GossipKind.AttesterSlashing
  | PsSignedContributionAndProof _ => GossipKind.SignedContributionAndProof
  | PsSyncCommitteeMessage subnet _ => GossipKind.SyncCommitteeMessage subnet
  | PsBlsToExecutionChange _ => GossipKind.BlsToExecutionChange
  | PsLightClientFinalityUpdate _ => GossipKind.LightClientFinalityUpdate
  | PsLightClientOptimisticUpdate _ => GossipKind.LightClientOptimisticUpdate
  | PsExecutionPayloadBid _ => GossipKind.ExecutionPayloadBid
  end.

Definition topics (m : PubsubMessage) (encoding : GossipEncoding) (digest : ForkDigest) : list GossipTopic :=
  [mkGossipTopic encoding digest (kind m)].

(** ** Encoding *)

Inductive GossipError :=
  | UnknownGossipsubTopic (topic : list ascii)
  | UnknownGossipsubForkDigest (d : ForkDigest)
  | TopicInvalidForFork (k : GossipKind) (d : ForkDigest)
  | SszError (e : list Z).

(** The arms of [decode], one for each kind of topic. *)
Definition decode_aggregate (fork : option Phase) (digest : ForkDigest) (data : Bytes) : result PubsubMessage GossipError :=
  let? agg_and_proof :=
    match fork with
    | Some (Phase0 | Altair | Bellatrix | Capella | Deneb) => map_err SszError (aggregate_read Phase0 data)
    | Some (Electra | Fulu | Gloas) => map_err SszError (aggregate_read Electra data)
    | None => Err (UnknownGossipsubForkDigest digest)
    end in
  Ok (PsAggregateAndProofAttestation agg_and_proof).

Definition decode_attestation (fork : option Phase) (digest : ForkDigest) (subnet : SubnetId) (data : Bytes)
  : result PubsubMessage GossipError :=
  match fork with
  | Some (Phase0 | Altair | Bellatrix | Capella | Deneb) =>
      let? attestation := map_err SszError (attestation_read Phase0 data) in
      Ok (PsAttestation subnet attestation)
  | Some (Electra | Fulu | Gloas) =>
      let? single_attestation := map_err SszError (from_ssz_default data) in
      Ok (PsSingleAttestation subnet single_attestation)
  | None => Err (UnknownGossipsubForkDigest digest)
  end.

Definition decode_block (fork : option Phase) (digest : ForkDigest) (data : Bytes) : result PubsubMessage GossipError :=
  match fork with
  | Some phase => let? b := map_err SszError (block_read phase data) in Ok (PsBeaconBlock b)
  | None => Err (UnknownGossipsubForkDigest digest)
  end.

Definition decode_blob (fork : option Phase) (digest : ForkDigest) (index : Z) (data : Bytes)
  : result PubsubMessage GossipError :=
  match fork with
  | Some (Deneb | Electra) =>
      let? b := map_err SszError (from_ssz_default data) in Ok (PsBlobSidecar index b)
  | Some (Phase0 | Altair | Bellatrix | Capella | Fulu | Gloas) | None =>
      Err (TopicInvalidForFork (GossipKind.BlobSidecar index) digest)
  end.

Definition decode_column (fork : option Phase) (digest : ForkDigest) (subnet : SubnetId) (data : Bytes)
  : result PubsubMessage GossipError :=
  match fork with
  | Some Gloas => let? c := map_err SszError (column_read Gloas data) in Ok (PsDataColumnSidecar subnet c)
  | Some Fulu => let? c := map_err SszError (column_read Fulu data) in Ok (PsDataColumnSidecar subnet c)
  | Some (Phase0 | Altair | Bellatrix | Capella | Deneb | Electra) | None =>
      Err (TopicInvalidForFork (GossipKind.DataColumnSidecar subnet) digest)
  end.

Definition decode_attester_slashing (fork : option Phase) (digest : ForkDigest) (data : Bytes)
  : result PubsubMessage GossipError :=
  let? s :=
    match fork with
    | Some (Phase0 | Altair | Bellatrix | Capella | Deneb) => map_err SszError (attester_slashing_read Phase0 data)
    | Some (Electra | Fulu | Gloas) => map_err SszError (attester_slashing_read Electra data)
    | None => Err (UnknownGossipsubForkDigest digest)
    end in
  Ok (PsAttesterSlashing s).

(** Bellatrix has the containers of Altair. *)
Definition decode_light_client {A} (read : Phase -> Bytes -> result A (list Z)) (wrap : A -> PubsubMessage)
  (k : GossipKind) (fork : option Phase) (digest : ForkDigest) (data : Bytes) : result PubsubMessage GossipError :=
  let? u :=
    match fork with
    | Some Phase0 => Err (TopicInvalidForFork k digest)
    | Some (Altair | Bellatrix) => map_err SszError (read Altair data)
    | Some Capella => map_err SszError (read Capella data)
    | Some Deneb => map_err SszError (read Deneb data)
    | Some Electra => map_err SszError (read Electra data)
    | Some Fulu => map_err SszError (read Fulu data)
    | Some Gloas => map_err SszError (read Gloas data)
    | None => Err (TopicInvalidForFork k digest)
    end in
  Ok (wrap u).

Definition decode_bid (fork : option Phase) (digest : ForkDigest) (data : Bytes) : result PubsubMessage GossipError :=
  match fork with
  | Some Gloas => let? b := map_err SszError (from_ssz_default data) in Ok (PsExecutionPayloadBid b)
  | Some (Phase0 | Altair | Bellatrix | Capella | Deneb | Electra | Fulu) | None =>
      Err (TopicInvalidForFork GossipKind.ExecutionPayloadBid digest)
  end.

Definition PubsubMessage_decode (topic : list ascii) (data : Bytes) (fork_context : ForkContext)
  : result PubsubMessage GossipError :=
  match GossipTopic_decode topic with
  | Err _ => Err (UnknownGossipsubTopic topic)
  | Ok t =>
      let digest := Topics.fork_digest t in
      let fork := get_fork_from_context_bytes fork_context digest in
      match gt_kind t with
      | GossipKind.BeaconAggregateAndProof => decode_aggregate fork digest data
      | GossipKind.Attestation subnet => decode_attestation fork digest subnet data
      | GossipKind.BeaconBlock => decode_block fork digest data
      | GossipKind.BlobSidecar index => decode_blob fork digest index data
      | GossipKind.DataColumnSidecar subnet => decode_column fork digest subnet data
      | GossipKind.VoluntaryExit =>
          let? e := map_err SszError (from_ssz_default data) in Ok (PsVoluntaryExit e)
      | GossipKind.ProposerSlashing =>
          let? s := map_err SszError (from_ssz_default data) in Ok (PsProposerSlashing s)
      | GossipKind.AttesterSlashing => decode_attester_slashing fork digest data
      | GossipKind.SignedContributionAndProof =>
          let? c := map_err SszError (from_ssz_default data) in Ok (PsSignedContributionAndProof c)
      | GossipKind.SyncCommitteeMessage subnet =>
          let? m := map_err SszError (from_ssz_default data) in Ok (PsSyncCommitteeMessage subnet m)
      | GossipKind.BlsToExecutionChange =>
          let? c := map_err SszError (from_ssz_default data) in Ok (PsBlsToExecutionChange c)
      | GossipKind.LightClientFinalityUpdate =>
          decode_light_client finality_read PsLightClientFinalityUpdate GossipKind.LightClientFinalityUpdate
            fork digest data
      | GossipKind.LightClientOptimisticUpdate =>
          decode_light_client optimistic_read PsLightClientOptimisticUpdate GossipKind.LightClientOptimisticUpdate
            fork digest data
      | GossipKind.ExecutionPayloadBid => decode_bid fork digest data
      end
  end.

Definition PubsubMessage_encode (m : PubsubMessage) (encoding : GossipEncoding) : result Bytes (list Z) :=
  match m with
  | PsBeaconBlock data => to_ssz data
  | PsBlobSidecar _ data => to_ssz data
  | PsDataColumnSidecar _ data => to_ssz data
  | PsAggregateAndProofAttestation data => to_ssz data
  | PsVoluntaryExit data => to_ssz data
  | PsProposerSlashing data => to_ssz data
  | PsAttesterSlashing data => to_ssz data
  | PsAttestation _ attestation => to_ssz attestation
  | PsSingleAttestation _ attestation => to_ssz attestation
  | PsSignedContributionAndProof data => to_ssz data
  | PsSyncCommitteeMessage _ data => to_ssz data
  | PsBlsToExecutionChange data => to_ssz data
  | PsLightClientFinalityUpdate data => to_ssz data
  | PsLightClientOptimisticUpdate data => to_ssz data
  | PsExecutionPayloadBid data => to_ssz data
  end.

End pubsub.

(** ** What is relied on *)

(** The container that a phase has of an attestation, an aggregate or a slashing. *)
Definition attestation_variant_of (p : Phase) : Phase := if Phase_leb Electra p then Electra else Phase0.

Class GossipWireLaws `{GossipWire} `{!WireLaws} := {
  aggregate_variant : SignedAggregateAndProof -> Phase;
  aggregate_law : forall x b, to_ssz x = Ok b -> aggregate_read (aggregate_variant x) b = Ok x;
  aggregate_read_variant : forall p b x, aggregate_read p b = Ok x -> aggregate_variant x = p;
  attestation_variant : Attestation -> Phase;
  attestation_law : forall x b, to_ssz x = Ok b -> attestation_read (attestation_variant x) b = Ok x;
  attestation_read_variant : forall p b x, attestation_read p b = Ok x -> attestation_variant x = p;
  slashing_variant : AttesterSlashing -> Phase;
  slashing_law : forall x b, to_ssz x = Ok b -> attester_slashing_read (slashing_variant x) b = Ok x;
  slashing_read_variant : forall p b x, attester_slashing_read p b = Ok x -> slashing_variant x = p;
  block_read_variant : forall p b x, block_read p b = Ok x -> block_phase x = p;
  column_read_variant : forall p b x, column_read p b = Ok x -> column_phase x = p;
  finality_read_variant : forall p b x, finality_read p b = Ok x -> finality_phase x = p;
  optimistic_read_variant : forall p b x, optimistic_read p b = Ok x -> optimistic_phase x = p;
  single_law :: SszRoundTrip SingleAttestation;
  exit_law :: SszRoundTrip SignedVoluntaryExit;
  proposer_law :: SszRoundTrip ProposerSlashing;
  contribution_law :: SszRoundTrip SignedContributionAndProof;
  sync_message_law :: SszRoundTrip SyncCommitteeMessage;
  bls_change_law :: SszRoundTrip SignedBlsToExecutionChange;
  bid_law :: SszRoundTrip SignedExecutionPayloadBid;
  (** Raw snappy announces the length and gives the bytes back; it adds no more than [max_compress_len]. *)
  snap_law : forall b c, compress_vec b = Ok c ->
    decompress_len c = Ok (blen b) /\ decompress_vec c = Ok b /\ blen c <= max_compress_len (blen b);
}.

Section pubsub_theorems.
Context `{GossipWireLaws} `{!TopicCrates} `{!TopicCrateLaws}.

(** The messages whose containers belong to a phase. *)
Definition belongs (m : PubsubMessage) (p : Phase) : Prop :=
  match m with
  | PsBeaconBlock b => block_phase b = p
  | PsBlobSidecar _ _ => p = Deneb \/ p = Electra
  | PsDataColumnSidecar _ c => column_phase c = p /\ (p = Fulu \/ p = Gloas)
  | PsAggregateAndProofAttestation a => aggregate_variant a = attestation_variant_of p
  | PsAttestation _ a => attestation_variant a = Phase0 /\ attestation_variant_of p = Phase0
  | PsSingleAttestation _ _ => attestation_variant_of p = Electra
  | PsAttesterSlashing s => slashing_variant s = attestation_variant_of p
  | PsLightClientFinalityUpdate u => p <> Phase0 /\ finality_phase u = light_client_variant p
  | PsLightClientOptimisticUpdate u => p <> Phase0 /\ optimistic_phase u = light_client_variant p
  | PsExecutionPayloadBid _ => p = Gloas
  | _ => True
  end.

(** Messages that look alike in every phase. *)
Definition fork_independent (m : PubsubMessage) : bool :=
  match m with
  | PsVoluntaryExit _ | PsProposerSlashing _ | PsSignedContributionAndProof _ | PsSyncCommitteeMessage _ _
  | PsBlsToExecutionChange _ => true
  | _ => false
  end.

Lemma read_back {A} (r : result A (list Z)) (x : A) (k : A -> PubsubMessage) :
  r = Ok x -> result_bind (map_err SszError r) (fun y => Ok (k y)) = Ok (k x).
Proof. by intros ->. Qed.

Lemma decode_encoded m data digest p c :
  in_u64 (GossipKind_code (kind m)).2 -> get_fork_from_context_bytes c digest = Some p -> belongs m p ->
  PubsubMessage_encode m SSZSnappy = Ok data ->
  PubsubMessage_decode (GossipTopic_to_string (mkGossipTopic SSZSnappy digest (kind m))) data c = Ok m.
Proof.
  intros Hk Hp Hb He. unfold PubsubMessage_decode. rewrite topic_decode_printed by done.
  cbn [Topics.fork_digest gt_kind]. rewrite Hp.
  destruct m; cbn [kind PubsubMessage_encode belongs] in *.
  - apply read_back. subst p. by apply block_law.
  - destruct Hb as [-> | ->]; apply read_back, (ssz_round_trip _ _ He).
  - destruct Hb as [<- [Hc|Hc]]; unfold decode_column; rewrite Hc; apply read_back; rewrite <- Hc; by apply column_law.
  - apply aggregate_law in He. rewrite Hb in He. by destruct p; apply read_back.
  - destruct Hb as [Ha Hv]. apply attestation_law in He. rewrite Ha in He. by destruct p; try done; apply read_back.
  - apply ssz_round_trip in He. by destruct p; try done; apply read_back.
  - by apply read_back, (ssz_round_trip _ _ He).
  - by apply read_back, (ssz_round_trip _ _ He).
  - apply slashing_law in He. rewrite Hb in He. by destruct p; apply read_back.
  - by apply read_back, (ssz_round_trip _ _ He).
  - by apply read_back, (ssz_round_trip _ _ He).
  - by apply read_back, (ssz_round_trip _ _ He).
  - destruct Hb as [Hn Hv]. apply finality_law in He. rewrite Hv in He. by destruct p; try done; apply read_back.
  - destruct Hb as [Hn Hv]. apply optimistic_law in He. rewrite Hv in He. by destruct p; try done; apply read_back.
  - subst p. apply read_back, (ssz_round_trip _ _ He).
Qed.

(** C21: what is published arrives: a message of the phase of its topic, written, compressed and sent, is
    accepted by a receiver with the same limits and read back as the same message. *)
Theorem gossip_round_trip t m digest p c data wire source seq :
  in_u64 (GossipKind_code (kind m)).2 -> get_fork_from_context_bytes c digest = Some p -> belongs m p ->
  max_compress_len (blen data) <= max_compressed_len t ->
  let topic := GossipTopic_to_string (mkGossipTopic SSZSnappy digest (kind m)) in
  PubsubMessage_encode m SSZSnappy = Ok data ->
  outbound_transform t topic data = Ok wire ->
  exists msg, inbound_transform t (mkGossipMessage source wire seq topic) = Ok msg /\
    gm_source msg = source /\ PubsubMessage_decode (gm_topic msg) (gm_data msg) c = Ok m.
Proof.
  intros Hk Hp Hb Hmax topic He Ho. unfold outbound_transform in Ho.
  destruct (max_uncompressed_len t <? blen data) eqn:Hl; [done|].
  destruct (compress_vec data) as [w|] eqn:Hw; [|done]. injection Ho as <-.
  destruct (snap_law _ _ Hw) as (Hlen & Hdec & Hbound).
  exists (mkGossipMessage source data seq topic). split_and!; [|done|by eapply decode_encoded].
  unfold inbound_transform. cbn [gm_data gm_source gm_sequence_number gm_topic].
  rewrite (proj2 (Z.ltb_ge _ _)) by lia. rewrite Hlen. cbn [map_err result_bind].
  by rewrite Hl, Hdec.
Qed.

(** C22: nothing is mistaken for something else: a message that is decoded has the kind of its topic, and
    its containers are those of the phase of the topic's fork digest; for an unknown digest only messages
    that are the same in every phase are read. *)
Theorem gossip_decode_sound topic data c m :
  PubsubMessage_decode topic data c = Ok m ->
  exists t, GossipTopic_decode topic = Ok t /\ kind m = gt_kind t /\
    match get_fork_from_context_bytes c (Topics.fork_digest t) with
    | Some p => belongs m p
    | None => fork_independent m = true
    end.
Proof.
  unfold PubsubMessage_decode. destruct (GossipTopic_decode topic) as [t|]; [|done]. intros Hd.
  exists t. split; [done|].
  destruct (get_fork_from_context_bytes c (Topics.fork_digest t)) as [p|];
    destruct (gt_kind t); cbn in Hd;
    unfold decode_attestation, decode_block, decode_blob, decode_column, decode_bid, decode_light_client,
      decode_attester_slashing, decode_aggregate, result_bind, map_err in Hd;
    repeat (case_match; simplify_eq/=); eauto 6 using block_read_variant, column_read_variant,
      aggregate_read_variant, attestation_read_variant, slashing_read_variant, finality_read_variant,
      optimistic_read_variant.
  all: done.
Qed.

End pubsub_theorems.

Module PubsubExamples.

#[local] Existing Instance Toy.chain.
#[local] Existing Instance ToyWire.wire.
#[local] Existing Instance ToyWire.laws.
#[local] Existing Instance TopicsExamples.toy_crates.
#[local] Existing Instance TopicsExamples.toy_laws.

Definition agg_variant (x : Z) : Phase := attestation_variant_of (ToyWire.phase_of x).

(** Containers are slots; raw snappy puts the length in front. *)
#[local] Instance toy_gossip : GossipWire := {
  SignedAggregateAndProof := Z; aggregate_write := fun x => Ok [x]; aggregate_read := ToyWire.read_phased agg_variant;
  Attestation := Z; attestation_write := fun x => Ok [x]; attestation_read := ToyWire.read_phased agg_variant;
  AttesterSlashing := Z; attester_slashing_write := fun x => Ok [x];
  attester_slashing_read := ToyWire.read_phased agg_variant;
  SingleAttestation := Z; single_write := fun x => Ok [x]; single_read := ToyWire.read_one;
  SignedVoluntaryExit := Z; exit_write := fun x => Ok [x]; exit_read := ToyWire.read_one;
  ProposerSlashing := Z; proposer_write := fun x => Ok [x]; proposer_read := ToyWire.read_one;
  SignedContributionAndProof := Z; contribution_write := fun x => Ok [x]; contribution_read := ToyWire.read_one;
  SyncCommitteeMessage := Z; sync_message_write := fun x => Ok [x]; sync_message_read := ToyWire.read_one;
  SignedBlsToExecutionChange := Z; bls_change_write := fun x => Ok [x]; bls_change_read := ToyWire.read_one;
  SignedExecutionPayloadBid := Z; bid_write := fun x => Ok [x]; bid_read := ToyWire.read_one;
  decompress_len := fun b => match b with n :: _ => Ok n | [] => Err [] end;
  decompress_vec := fun b => match b with _ :: b => Ok b | [] => Err [] end;
  compress_vec := fun b => Ok (blen b :: b);
}.

Lemma read_phased_variant (variant : Z -> Phase) p b x : ToyWire.read_phased variant p b = Ok x -> variant x = p.
Proof. unfold ToyWire.read_phased. destruct b as [|y b]; [done|]. case_decide; [by intros [= <-]|done]. Qed.

#[local,refine] Instance toy_gossip_laws : GossipWireLaws := {
  aggregate_variant := agg_variant; attestation_variant := agg_variant; slashing_variant := agg_variant;
}.
Proof.
  all: try (exact (read_phased_variant _)).
  all: try (intros x b [= <-]; first [done | by apply ToyWire.read_phased_law with (n := 0%nat)]).
  intros b w [= <-]. split_and!; [done|done|].
  assert (0 <= blen b / 6) by (apply Z.div_pos; unfold blen; lia).
  change (blen (blen b :: b) <= 32 + blen b + blen b / 6). change (blen b :: b) with ([blen b] ++ b).
  rewrite blen_app. change (blen [blen b]) with 1. lia.
Defined.

Definition transform : SnappyTransform := mkSnappyTransform 10000 12000.
Definition att_message : PubsubMessage := PsAttestation 3 (1290 : @Attestation _ _ toy_gossip).
Definition att_topic : list ascii := GossipTopic_to_string (mkGossipTopic SSZSnappy (1040 : @ForkDigest Toy.chain) (GossipKind.Attestation 3)).

Lemma gossip_round_trip_witness :
  exists msg, inbound_transform transform (mkGossipMessage None [1; 1290] None att_topic) = Ok msg /\
    PubsubMessage_decode (gm_topic msg) (gm_data msg) CodecExamples.fork_context = Ok att_message.
Proof.
  destruct (gossip_round_trip transform att_message (1040 : @ForkDigest Toy.chain) Deneb CodecExamples.fork_context [1290]
    [1; 1290] None None) as (msg & Hi & _ & Hd); [done|evaluate|done|by vm_compute|done|done|].
  by exists msg.
Defined.

Lemma gossip_decode_sound_witness :
  belongs att_message Deneb.
Proof.
  assert (Hd : PubsubMessage_decode att_topic [1290] CodecExamples.fork_context = Ok att_message) by evaluate.
  destruct (gossip_decode_sound _ _ _ _ Hd) as (t & Ht & _ & Hb).
  assert (Ht' : GossipTopic_decode att_topic = Ok (mkGossipTopic SSZSnappy (1040 : @ForkDigest Toy.chain) (GossipKind.Attestation 3)))
    by evaluate.
  rewrite Ht' in Ht. injection Ht as <-. exact Hb.
Defined.

(** A blob sidecar is refused on a Fulu topic, a data column before it. *)
Example refused :
  map (fun k => PubsubMessage_decode (GossipTopic_to_string (mkGossipTopic SSZSnappy (1050 : @ForkDigest Toy.chain) k)) [1605]
                  CodecExamples.fork_context)
    [GossipKind.BlobSidecar 1; GossipKind.DataColumnSidecar 1] =
  [Ok (PsBlobSidecar 1 (1605 : @BlobSidecar Toy.chain));
   Err (TopicInvalidForFork (GossipKind.DataColumnSidecar 1) (1050 : @ForkDigest Toy.chain))].
Proof. evaluate. Qed.

End PubsubExamples.
