(* ===== verification/ServiceUtils.v ===== *)
(** * Metadata and the topic filter ([service/utils.rs])

    The metadata a node starts with, from the file of its last run, and the topics gossipsub accepts.  The
    file is an argument, and the file after it was saved part of the result. *)

From Stdlib Require Import Ascii.
From S2P Require Import Prelude Disk Chain Timers Enr Protocol Messages Text RateLimiter RateConfig Events.
From S2P Require Import ForkContext Limits Codec Float64 Score PeerInfo PeerDB Topics Globals EnrExt Config LocalEnr.

(** The blob subnets before and from Electra, in the chain configuration. *)
Class BlobSubnets `{ChainTypes} := {
  blob_sidecar_subnet_count : ChainConfig -> Z;
  blob_sidecar_subnet_count_electra : ChainConfig -> Z;
}.

Section service_utils.
Context `{ChainTypes} `{Libp2p} `{!CustodyCrates} `{!EnrFields} `{!EnrCrates} `{!Wire} `{!TopicCrates} `{!BlobSubnets}.

(** ** Metadata *)

(** [seq_number_mut] and [custody_group_count_mut]. *)
Definition set_seq_number (m : MetaData) (n : Z) : MetaData :=
  match m with
  | MDV1 m => MDV1 (mkMetaDataV1 n (md1_attnets m))
  | MDV2 m => MDV2 (mkMetaDataV2 n (md2_attnets m) (md2_syncnets m))
  | MDV3 m => MDV3 (mkMetaDataV3 n (md3_attnets m) (md3_syncnets m) (md3_custody_group_count m))
  end.
Definition set_custody_group_count (m : MetaData) (n : Z) : MetaData :=
  match m with
  | MDV3 m => MDV3 (mkMetaDataV3 (md3_seq_number m) (md3_attnets m) (md3_syncnets m) n)
  | _ => m
  end.

(** [+= 1] as a release build computes it. *)
Definition increment (n : Z) : Z := as_u64 (n + 1).

(** [Option::is_some_and] of a field that differs from the persisted one. *)
Definition differs {A} `{EqDecision A} (o : option A) (persisted : A) : bool :=
  match o with Some x => negb (bool_decide (persisted = x)) | None => false end.

Definition fresh_metadata (custody_group_count_opt : option Z) : MetaData :=
  match custody_group_count_opt with
  | Some cgc => MDV3 (mkMetaDataV3 0 default_attnets default_syncnets cgc)
  | None => MDV2 (mkMetaDataV2 0 default_attnets default_syncnets)
  end.

(** The metadata after the content of the file was looked at. *)
Definition load_persisted (m : MetaData) (metadata_ssz : Bytes) : MetaData :=
  match from_ssz_default (A := MetaDataV3_) metadata_ssz with
  | Ok p =>
      let changed := negb (bool_decide (md3_attnets p = attnets m)) || differs (syncnets m) (md3_syncnets p)
                     || differs (custody_group_count m) (md3_custody_group_count p) in
      let m := set_seq_number m (md3_seq_number p) in
      let m := if changed then set_seq_number m (increment (seq_number m)) else m in
      set_custody_group_count m (md3_custody_group_count p)
  | Err _ =>
      match from_ssz_default (A := MetaDataV2_) metadata_ssz with
      | Ok p =>
          let changed := negb (bool_decide (md2_attnets p = attnets m)) || differs (syncnets m) (md2_syncnets p) in
          let m := set_seq_number m (md2_seq_number p) in
          if changed then set_seq_number m (increment (seq_number m)) else m
      | Err _ =>
          match from_ssz_default (A := MetaDataV1_) metadata_ssz with
          | Ok p => set_seq_number m (increment (md1_seq_number p))
          | Err _ => m
          end
      end
  end.

(** Without a directory nothing is written; a failure to encode, to create the directory or the file, or to
    write, is only logged. *)
Definition save_metadata_to_disk (dir : option string) (m : MetaData) (file : File Z) : File Z :=
  match dir with
  | None => file
  | Some _ => match MetaData_to_ssz m with Ok ssz_bytes => file_write file ssz_bytes | Err _ => file end
  end.

(** The metadata to start with, and the file after it was saved. *)
Definition load_or_build_metadata (network_dir : option string) (custody_group_count_opt : option Z)
  (file : File Z) : MetaData * File Z :=
  let m := fresh_metadata custody_group_count_opt in
  let m := match network_dir, contents file with Some _, Some metadata_ssz => load_persisted m metadata_ssz | _, _ => m end in
  (m, save_metadata_to_disk network_dir m file).

(** ** The topic filter *)

Definition whitelisted_kinds (config : ChainConfig) (attestation_subnet_count sync_committee_subnet_count : Z)
  : list GossipKind :=
  [GossipKind.BeaconBlock; GossipKind.BeaconAggregateAndProof; GossipKind.VoluntaryExit;
   GossipKind.ProposerSlashing; GossipKind.AttesterSlashing; GossipKind.SignedContributionAndProof;
   GossipKind.BlsToExecutionChange; GossipKind.LightClientFinalityUpdate; GossipKind.LightClientOptimisticUpdate] ++
  map GossipKind.Attestation (range attestation_subnet_count) ++
  map GossipKind.SyncCommitteeMessage (range sync_committee_subnet_count) ++
  (let blob_subnet_count :=
     if negb (config_fork_epoch config Electra =? FAR_FUTURE_EPOCH)
     then blob_sidecar_subnet_count_electra config else blob_sidecar_subnet_count config in
   map GossipKind.BlobSidecar (range blob_subnet_count)) ++
  map GossipKind.DataColumnSidecar (range (config_data_column_sidecar_subnet_count config)).

(** A hash set filled by insertion. *)
Definition hash_set {A} `{Countable A} (l : list A) : gset A := dom (list_to_map (map (fun x => (x, tt)) l) : gmap A unit).

(** The hashes of the topics, which are their names. *)
Definition create_whitelist_filter (possible_fork_digests : list ForkDigest) (config : ChainConfig)
  (attestation_subnet_count sync_committee_subnet_count : Z) : gset (list ascii) :=
  hash_set (flat_map (fun digest =>
    map (fun k => GossipTopic_to_string (mkGossipTopic SSZSnappy digest k))
      (whitelisted_kinds config attestation_subnet_count sync_committee_subnet_count)) possible_fork_digests).

End service_utils.

(** ** Theorems *)

Section service_utils_theorems.
Context `{ChainTypes} `{Libp2p} `{!CustodyCrates} `{!EnrFields} `{!EnrCrates} `{!Wire} `{!TopicCrates} `{!BlobSubnets}.

#[local] Ltac settle :=
  split_and!; [auto|intros [Hd|Hd]|done|done|intros x Hx; congruence]; try done; exfalso;
  repeat match goal with Hb : bool_decide _ = true |- _ => apply bool_decide_eq_true in Hb end; congruence.

(** Peers that know the metadata of the last run learn of every change: the sequence number a node
    starts with is the one on file or the next, and it is the next one whenever the subnets announced
    differ from those on file.  The subnets are none yet, and the custody group count is the one on file. *)
Theorem metadata_changes_are_numbered dir cgc file ssz p :
  contents file = Some ssz -> from_ssz_default (A := MetaDataV3_) ssz = Ok p -> in_u64 (md3_seq_number p + 1) ->
  let m := (load_or_build_metadata (Some dir) cgc file).1 in
  (seq_number m = md3_seq_number p \/ seq_number m = md3_seq_number p + 1) /\
  (attnets m <> md3_attnets p \/ syncnets m <> Some (md3_syncnets p) -> seq_number m = md3_seq_number p + 1) /\
  attnets m = default_attnets /\ syncnets m = Some default_syncnets /\
  (forall n, custody_group_count m = Some n -> n = md3_custody_group_count p).
Proof.
  intros Hf Hp Hu m. subst m. unfold load_or_build_metadata, load_persisted. rewrite Hf, Hp. cbn [fst].
  assert (Hinc : increment (md3_seq_number p) = md3_seq_number p + 1) by (unfold increment; by apply as_u64_small).
  destruct cgc as [n|]; cbn [fresh_metadata attnets syncnets custody_group_count differs md3_attnets md3_syncnets
    md3_custody_group_count md2_attnets md2_syncnets].
  - destruct (bool_decide (md3_attnets p = default_attnets)) eqn:Ha;
      destruct (bool_decide (md3_syncnets p = default_syncnets)) eqn:Hs;
      destruct (bool_decide (md3_custody_group_count p = n)) eqn:Hc;
      cbn; rewrite ?Hinc; settle.
  - destruct (bool_decide (md3_attnets p = default_attnets)) eqn:Ha;
      destruct (bool_decide (md3_syncnets p = default_syncnets)) eqn:Hs;
      cbn; rewrite ?Hinc; settle.
Qed.

Lemma elem_hash_set {A} `{Countable A} (l : list A) x : x ∈ hash_set l <-> x ∈ l.
Proof.
  unfold hash_set. rewrite dom_list_to_map, elem_of_list_to_set, <- list_fmap_compose. by rewrite list_fmap_id.
Qed.

Lemma elem_whitelist digests config na ns s :
  s ∈ create_whitelist_filter digests config na ns <->
  exists d k, d ∈ digests /\ k ∈ whitelisted_kinds config na ns /\
    s = GossipTopic_to_string (mkGossipTopic SSZSnappy d k).
Proof.
  unfold create_whitelist_filter. rewrite elem_hash_set, list_elem_of_In, in_flat_map.
  setoid_rewrite <- list_elem_of_In. setoid_rewrite list_elem_of_fmap. naive_solver.
Qed.

(** The number of blob subnets the filter knows of. *)
Definition whitelisted_blobs (config : ChainConfig) : Z :=
  if negb (config_fork_epoch config Electra =? FAR_FUTURE_EPOCH)
  then blob_sidecar_subnet_count_electra config else blob_sidecar_subnet_count config.

Lemma elem_whitelisted_kinds config na ns k :
  k ∈ whitelisted_kinds config na ns <->
  match k with
  | GossipKind.ExecutionPayloadBid => False
  | GossipKind.Attestation i => 0 <= i < na
  | GossipKind.SyncCommitteeMessage i => 0 <= i < ns
  | GossipKind.BlobSidecar i => 0 <= i < whitelisted_blobs config
  | GossipKind.DataColumnSidecar i => 0 <= i < config_data_column_sidecar_subnet_count config
  | _ => True
  end.
Proof.
  unfold whitelisted_kinds. fold (whitelisted_blobs config). cbv zeta.
  rewrite !elem_of_app, !list_elem_of_fmap, !elem_of_cons, elem_of_nil.
  setoid_rewrite range_elem. clear. destruct k; split; try tauto.
  all: naive_solver.
Qed.

(** The filter accepts every topic a node may have to subscribe to under a fork it knows, but for
    execution payload bids, which it accepts under no fork. *)
Theorem whitelist_covers_core `{HashIter} `{!TopicCrateLaws} config digests phase d k :
  d ∈ digests ->
  config_blob_sidecar_subnet_count config phase <= whitelisted_blobs config ->
  (forall k, k ∈ whitelisted_kinds config AttestationSubnetCount SyncCommitteeSubnetCount ->
     in_u64 (GossipKind_code k).2) ->
  let allowed d k := GossipTopic_to_string (mkGossipTopic SSZSnappy d k) ∈
    create_whitelist_filter digests config AttestationSubnetCount SyncCommitteeSubnetCount in
  (k ∈ all_topics_at_fork config phase -> k <> GossipKind.ExecutionPayloadBid -> allowed d k) /\
  ~ allowed d GossipKind.ExecutionPayloadBid.
Proof.
  intros Hd Hb Hu allowed. unfold allowed. split.
  - unfold all_topics_at_fork. rewrite core_topics_elem. intros Hk Hne. apply elem_whitelist.
    exists d, k. split_and!; [done| |done]. apply elem_whitelisted_kinds.
    destruct k; cbn in Hk; naive_solver lia.
  - intros (d' & k' & _ & Hk' & He)%elem_whitelist.
    apply topic_to_string_inj in He; [|done|cbn; by apply Hu].
    injection He as _ <-. by apply elem_whitelisted_kinds in Hk'.
Qed.

End service_utils_theorems.

Module ServiceUtilsExamples.

#[local] Existing Instance Toy.chain.
#[local] Existing Instance LocalEnrExamples.rec_libp2p.
#[local] Existing Instance LocalEnrExamples.rec_fields.
#[local] Existing Instance LocalEnrExamples.rec_custody.
#[local] Existing Instance LocalEnrExamples.rec_crates.
#[local] Existing Instance ToyWire.wire.
#[local] Existing Instance TopicsExamples.toy_crates.
#[local] Existing Instance TopicsExamples.toy_laws.

#[local] Instance toy_blobs : BlobSubnets := {
  blob_sidecar_subnet_count := fun _ => 6;
  blob_sidecar_subnet_count_electra := fun _ => 9;
}.

Definition persisted (n : Z) (att : BitVector) : MetaDataV3_ := mkMetaDataV3 n att default_syncnets 8.
Definition on_file (p : MetaDataV3_) : Bytes := match to_ssz p with Ok b => b | Err _ => [] end.
Definition some_subnet : BitVector := true :: replicate 63 false.

Lemma metadata_changes_are_numbered_witness :
  seq_number (load_or_build_metadata (Some "/home"%string) (Some 8) (file_found (Some (on_file (persisted 41 some_subnet))) [])).1 = 42.
Proof.
  assert (Hp : from_ssz_default (A := MetaDataV3_) (on_file (persisted 41 some_subnet)) = Ok (persisted 41 some_subnet))
    by evaluate.
  assert (Hu : in_u64 (md3_seq_number (persisted 41 some_subnet) + 1)) by (unfold in_u64, U64_MAX; cbn; lia).
  pose proof (metadata_changes_are_numbered "/home"%string (Some 8) (file_found (Some (on_file (persisted 41 some_subnet))) []) _ _ eq_refl Hp Hu) as (_ & Hc & Ha & _).
  apply Hc. left. rewrite Ha. discriminate.
Defined.

Lemma whitelist_covers_core_witness :
  GossipTopic_to_string (mkGossipTopic SSZSnappy (1050 : @ForkDigest Toy.chain) (GossipKind.Attestation 63)) ∈
    create_whitelist_filter [1050 : @ForkDigest Toy.chain] (tt : @ChainConfig Toy.chain)
      AttestationSubnetCount SyncCommitteeSubnetCount.
Proof.
  refine (proj1 (whitelist_covers_core (tt : @ChainConfig Toy.chain) [1050 : @ForkDigest Toy.chain] Electra
    (1050 : @ForkDigest Toy.chain) (GossipKind.Attestation 63) _ _ _) _ _).
  - by apply list_elem_of_here.
  - by vm_compute.
  - intros k Hk. apply elem_whitelisted_kinds in Hk. change (whitelisted_blobs (tt : @ChainConfig Toy.chain)) with 9 in Hk.
    change (config_data_column_sidecar_subnet_count (tt : @ChainConfig Toy.chain)) with 128 in Hk.
    destruct k; cbn in Hk |- *; unfold in_u64, U64_MAX; lia.
  - unfold all_topics_at_fork. apply core_topics_elem. cbn. lia.
  - done.
Defined.

(** A configured custody group count that differs from the one on file is not announced, but every restart
    increments the sequence number. *)
Example configured_custody_ignored :
  let restart := load_or_build_metadata (Some "/home"%string) (Some 128) in
  let m1 := restart (file_found (Some (on_file (persisted 7 default_attnets))) []) in
  let m2 := restart m1.2 in
  (seq_number m1.1, custody_group_count m1.1, seq_number m2.1, custody_group_count m2.1) = (8, Some 8, 9, Some 8).
Proof. evaluate. Qed.

End ServiceUtilsExamples.
