(* ===== verification/NodeKey.v ===== *)
(** * The key of the node ([load_private_key] of [service/utils.rs])

    The secret key a node is known by is read from a file, as hexadecimal text or as raw bytes, or made and
    saved.  Files are a map from paths to contents; a file that cannot be opened is absent, and which files
    can be written is an argument.  The secp256k1 and hex crates are parameters. *)

From S2P Require Import Prelude.

Definition NETWORK_KEY_FILENAME : string := "key".

(** Keys as [try_from_bytes] reads them; strings are lists of code points. *)
Class KeyCrates := {
  SecretKey : Type;
  secret_from_bytes : list Z -> option SecretKey;
  secret_to_bytes : SecretKey -> list Z;
  hex_encode : list Z -> list Z;
  hex_decode : list Z -> option (list Z);
}.

(** ** Strings *)

Definition between (lo hi x : Z) : bool := (lo <=? x) && (x <=? hi).
Definition continuation (b : Z) : Z := Z.land b 63.

(** [String::from_utf8]: the code points, or nothing for an ill-formed sequence. *)
Fixpoint from_utf8 (l : list Z) : option (list Z) :=
  match l with
  | [] => Some []
  | a :: l1 =>
      if between 0 127 a then let* r := from_utf8 l1 in Some (a :: r)
      else
        match l1 with
        | [] => None
        | b :: l2 =>
            if between 194 223 a then
              if between 128 191 b then
                let* r := from_utf8 l2 in Some (Z.lor (Z.shiftl (Z.land a 31) 6) (continuation b) :: r)
              else None
            else
              match l2 with
              | [] => None
              | c :: l3 =>
                  if between 224 239 a then
                    if between (if a =? 224 then 160 else 128) (if a =? 237 then 159 else 191) b && between 128 191 c then
                      let* r := from_utf8 l3 in
                      Some (Z.lor (Z.shiftl (Z.land a 15) 12) (Z.lor (Z.shiftl (continuation b) 6) (continuation c)) :: r)
                    else None
                  else
                    match l3 with
                    | [] => None
                    | d :: l4 =>
                        if between 240 244 a && between (if a =? 240 then 144 else 128) (if a =? 244 then 143 else 191) b
                           && between 128 191 c && between 128 191 d then
                          let* r := from_utf8 l4 in
                          Some (Z.lor (Z.shiftl (Z.land a 7) 18) (Z.lor (Z.shiftl (continuation b) 12)
                                  (Z.lor (Z.shiftl (continuation c) 6) (continuation d))) :: r)
                        else None
                    end
              end
        end
  end.

(** [char::is_whitespace]. *)
Definition is_whitespace (c : Z) : bool :=
  between 9 13 c || (c =? 32) || (c =? 133) || (c =? 160) || (c =? 5760) || between 8192 8202 c || (c =? 8232) ||
  (c =? 8233) || (c =? 8239) || (c =? 8287) || (c =? 12288).

Fixpoint trim_start (l : list Z) : list Z :=
  match l with
  | c :: rest => if is_whitespace c then trim_start rest else l
  | [] => []
  end.
Definition trim (l : list Z) : list Z := rev (trim_start (rev (trim_start l))).

(** [strip_prefix] of [0x]. *)
Definition strip_0x (l : list Z) : list Z :=
  match l with
  | a :: b :: rest => if (a =? 48) && (b =? 120) then rest else l
  | _ => l
  end.

(** ** Loading *)

Section node_key.
Context `{KeyCrates}.

Definition keypair_from_bytes (b : list Z) : option SecretKey := secret_from_bytes b.

Definition keypair_from_hex (s : list Z) : option SecretKey :=
  let* b := hex_decode (strip_0x s) in keypair_from_bytes b.

Abbreviation Files := (gmap string (list Z)) (only parsing).

(** [File::create] and [write_all]; without the permission nothing happens. *)
Definition write_file (writable : string -> bool) (files : Files) (path : string) (content : list Z) : Files :=
  if writable path then <[path := content]> files else files.

Definition key_path (network_dir : string) : string := (network_dir ++ "/" ++ NETWORK_KEY_FILENAME)%string.

(** The file a key is looked for in. *)
Definition key_file (network_dir libp2p_private_key_file : option string) : option string :=
  match libp2p_private_key_file with
  | Some path => Some path
  | None => key_path <$> network_dir
  end.

(** The first bytes of the file as text, then all of it as raw bytes; a raw key is rewritten as text. *)
Definition read_key (writable : string -> bool) (files : Files) (path : string) : option (SecretKey * Files) :=
  let* content := files !! path in
  let text := let* s := from_utf8 (take 70 content) in keypair_from_hex (trim s) in
  match text with
  | Some key => Some (key, files)
  | None =>
      let* key := secret_from_bytes content in
      Some (key, write_file writable files path (hex_encode (secret_to_bytes key)))
  end.

(** [generated] is the key that is made if none is found. *)
Definition load_private_key (writable : string -> bool) (network_dir libp2p_private_key_file : option string)
  (files : Files) (generated : SecretKey) : SecretKey * Files :=
  match (let* path := key_file network_dir libp2p_private_key_file in read_key writable files path) with
  | Some r => r
  | None =>
      (generated,
       match network_dir with
       | Some dir => write_file writable files (key_path dir) (hex_encode (secret_to_bytes generated))
       | None => files
       end)
  end.

End node_key.

(** ** Theorems *)

(** Keys and hexadecimal text can be read back; a key has 32 bytes, a byte two lower-case digits. *)
Definition is_hex_digit (c : Z) : bool := between 48 57 c || between 97 102 c.

Class KeyLaws `{KeyCrates} : Prop := {
  secret_round_trip : forall k, secret_from_bytes (secret_to_bytes k) = Some k;
  secret_length : forall k, length (secret_to_bytes k) = 32%nat;
  secret_bytes : forall k, Forall (fun x => 0 <= x < 256) (secret_to_bytes k);
  hex_round_trip : forall b, Forall (fun x => 0 <= x < 256) b -> hex_decode (hex_encode b) = Some b;
  hex_length : forall b, length (hex_encode b) = (2 * length b)%nat;
  hex_digits : forall b, Forall (fun c => is_hex_digit c = true) (hex_encode b);
}.

Section node_key_theorems.
Context `{KeyLaws}.

Lemma hex_digit_plain c : is_hex_digit c = true -> between 0 127 c = true /\ is_whitespace c = false /\ c <> 120.
Proof. unfold is_hex_digit, is_whitespace, between. rewrite orb_true_iff, !andb_true_iff. intros Hc. repeat split; lia. Qed.

Lemma from_utf8_hex l : Forall (fun c => is_hex_digit c = true) l -> from_utf8 l = Some l.
Proof. induction 1 as [|c l Hc Hl IH]; [done|]. cbn. apply hex_digit_plain in Hc as [-> _]. by rewrite IH. Qed.

Lemma trim_start_hex l : Forall (fun c => is_hex_digit c = true) l -> trim_start l = l.
Proof. intros [|c l' Hc _]; [done|]. cbn. by apply hex_digit_plain in Hc as (_ & -> & _). Qed.

Lemma trim_hex l : Forall (fun c => is_hex_digit c = true) l -> trim l = l.
Proof.
  intros Hl. unfold trim. rewrite (trim_start_hex l Hl), trim_start_hex; [apply rev_involutive|]. by apply Forall_rev.
Qed.

Lemma strip_hex l : Forall (fun c => is_hex_digit c = true) l -> strip_0x l = l.
Proof.
  intros [|a l' Ha [|b l'' Hb _]]; [done..|]. cbn. apply hex_digit_plain in Hb as (_ & _ & Hb).
  by destruct (a =? 48), (b =? 120) eqn:Hx; try done; apply Z.eqb_eq in Hx.
Qed.

(** A key written as text is read back, and nothing is written again. *)
Lemma read_written writable files path k :
  files !! path = Some (hex_encode (secret_to_bytes k)) -> read_key writable files path = Some (k, files).
Proof.
  intros Hf. unfold read_key. rewrite Hf. pose proof (hex_digits (secret_to_bytes k)) as Hd.
  rewrite take_ge by (rewrite hex_length, secret_length; lia).
  rewrite (from_utf8_hex _ Hd), (trim_hex _ Hd). unfold keypair_from_hex. rewrite (strip_hex _ Hd), hex_round_trip by apply secret_bytes.
  unfold keypair_from_bytes. by rewrite secret_round_trip.
Qed.

Lemma read_again writable files path k files' :
  writable path = true -> read_key writable files path = Some (k, files') -> read_key writable files' path = Some (k, files').
Proof.
  intros Hw Hr. unfold read_key in Hr. destruct (files !! path) as [content|] eqn:Hf; [|done].
  destruct (let* s := from_utf8 (take 70 content) in keypair_from_hex (trim s)) as [key|] eqn:Ht.
  - injection Hr as <- <-. unfold read_key. by rewrite Hf, Ht.
  - destruct (secret_from_bytes content) as [key|]; [|done]. injection Hr as <- <-. apply read_written.
    unfold write_file. rewrite Hw. apply lookup_insert_eq.
Qed.

(** C17: a node keeps its identity: if the file its key is read from can be written and is the one in its
    network directory, the key it starts with, whether read as text, read as raw bytes or newly made, is the
    one every later start finds, and later starts write nothing. *)
Theorem key_restart_stable writable dir files made made' :
  writable (key_path dir) = true ->
  let r := load_private_key writable (Some dir) None files made in
  load_private_key writable (Some dir) None r.2 made' = r.
Proof.
  intros Hw r. subst r. unfold load_private_key, key_file. cbn [fmap option_fmap option_map].
  destruct (read_key writable files (key_path dir)) as [[k files']|] eqn:Hr; cbn [snd].
  - by rewrite (read_again _ _ _ _ _ Hw Hr).
  - rewrite (read_written writable _ _ made); [done|]. unfold write_file. rewrite Hw. apply lookup_insert_eq.
Qed.

End node_key_theorems.

Module NodeKeyExamples.

(** A key is a byte; hexadecimal digits as usual. *)
Definition digit (n : Z) : Z := if n <? 10 then 48 + n else 87 + n.
Definition undigit (c : Z) : option Z :=
  if between 48 57 c then Some (c - 48) else if between 97 102 c then Some (c - 87) else None.

Fixpoint undigits (l : list Z) : option (list Z) :=
  match l with
  | [] => Some []
  | a :: b :: l =>
      let* x := undigit a in
      let* y := undigit b in
      let* r := undigits l in
      Some (16 * x + y :: r)
  | [_] => None
  end.

#[local] Instance byte_keys : KeyCrates := {
  SecretKey := bool;
  secret_from_bytes := fun b =>
    if decide (b = replicate 32 1) then Some true else if decide (b = replicate 32 2) then Some false else None;
  secret_to_bytes := fun k => replicate 32 (if k : bool then 1 else 2);
  hex_encode := flat_map (fun x => [digit (Z.land (Z.shiftr x 4) 15); digit (Z.land x 15)]);
  hex_decode := undigits;
}.

Lemma undigit_digit x : 0 <= x < 16 -> undigit (digit x) = Some x.
Proof.
  intros Hx. unfold undigit, digit, between. destruct (x <? 10) eqn:Hs.
  - replace ((48 <=? 48 + x) && (48 + x <=? 57)) with true by lia. f_equal. lia.
  - replace ((48 <=? 87 + x) && (87 + x <=? 57)) with false by lia.
    replace ((97 <=? 87 + x) && (87 + x <=? 102)) with true by lia. f_equal. lia.
Qed.

Lemma nibble x : 0 <= Z.land x 15 < 16.
Proof. change 15 with (Z.ones 4). rewrite Z.land_ones by lia. by apply Z.mod_pos_bound. Qed.

Lemma digit_hex x : 0 <= x < 16 -> is_hex_digit (digit x) = true.
Proof. intros Hx. unfold is_hex_digit, digit, between. destruct (x <? 10) eqn:Hs; lia. Qed.

#[local] Instance byte_laws : KeyLaws.
Proof.
  split; cbn [secret_from_bytes secret_to_bytes hex_encode hex_decode byte_keys].
  - intros []; by vm_compute.
  - intros k. apply length_replicate.
  - intros k. apply Forall_replicate. destruct k; lia.
  - induction 1 as [|x b Hx Hb IH]; [done|]. cbn [flat_map app undigits].
    rewrite !undigit_digit by apply nibble. rewrite IH. do 2 f_equal.
    change 15 with (Z.ones 4). rewrite !Z.land_ones, Z.shiftr_div_pow2 by lia. change (2 ^ 4) with 16.
    rewrite (Z.mod_small (x / 16)) by (split; [apply Z.div_pos; lia|apply Z.div_lt_upper_bound; lia]).
    pose proof (Z.div_mod x 16). lia.
  - induction b as [|x b IH]; [done|]. cbn. lia.
  - induction b as [|x b IH]; [constructor|]. cbn. repeat constructor; [apply digit_hex, nibble..|exact IH].
Qed.

Definition writable (path : string) : bool := true.

Lemma key_restart_stable_witness :
  let files := {["/home/key"%string := replicate 32 1]} : gmap string (list Z) in
  let r := load_private_key writable (Some "/home"%string) None files false in
  load_private_key writable (Some "/home"%string) None r.2 false = r /\ r.1 = true.
Proof.
  split; [|by vm_compute].
  by apply (key_restart_stable (H := byte_keys) writable "/home"%string {["/home/key"%string := replicate 32 1]}
    (false : @SecretKey byte_keys) (false : @SecretKey byte_keys)).
Defined.

(** A raw key is migrated to text, and found again. *)
Example raw_key_migrated :
  let files := {["/home/key"%string := replicate 32 1]} : gmap string (list Z) in
  let r := load_private_key writable (Some "/home"%string) None files false in
  (r.1, r.2 !! "/home/key"%string, load_private_key writable (Some "/home"%string) None r.2 false) =
  (true, Some (concat (replicate 32 [48; 49])), r).
Proof. by vm_compute. Qed.

(** A key made because the configured key file is missing is saved elsewhere: the next start makes another. *)
Example configured_file_not_written :
  let start made files := load_private_key writable (Some "/home"%string) (Some "/keys/node"%string) files made in
  let r := start true ∅ in
  (r.1, (start false r.2).1) = (true, false).
Proof. by vm_compute. Qed.

End NodeKeyExamples.
