(* ===== verification/GossipScoring.v ===== *)
(** * Scoring parameters of gossipsub ([service/gossipsub_scoring_parameters.rs])

    How gossipsub scores the peers of a mesh, in binary64 arithmetic.  The power functions and the number
    of committees of a slot come from outside; the parameters are records of the gossipsub library. *)

From Stdlib Require Import Ascii SpecFloat.
From S2P Require Import Prelude Chain Text Float64 Score PeerInfo Topics.

(** [f64::powf] and [f64::powi], the preset, and [misc::committee_count_from_active_validator_count]. *)
Class ScoringCrates := {
  powf : f64 -> f64 -> f64;
  powi : f64 -> Z -> f64;
  SlotsPerEpoch : Z;
  TargetAggregatorsPerCommittee : Z;
  committee_count_from_active_validator_count : Z -> Z;
}.

(** The constants of the preset are positive, and a slot has at least one committee and at most a few. *)
Class ScoringLaws `{ScoringCrates} : Prop := {
  slots_positive : 0 < SlotsPerEpoch;
  target_positive : 0 < TargetAggregatorsPerCommittee;
  committees_positive : forall v, 0 < committee_count_from_active_validator_count v;
  committees_fit : forall v, committee_count_from_active_validator_count v * SlotsPerEpoch <= U64_MAX;
}.

Definition f64_sub : f64 -> f64 -> f64 := SFsub prec64 emax64.
(** The literal [n / d]: division rounds as reading a literal does. *)
Definition f64_lit (n d : Z) : f64 := f64_div (f64_of_Z n) (f64_of_Z d).

(** [Duration::as_secs_f64]. *)
Definition as_secs_f64 (d : Duration) : f64 :=
  f64_add (f64_of_Z (d / NANOS_PER_SEC)) (f64_div (f64_of_Z (d mod NANOS_PER_SEC)) (f64_of_Z NANOS_PER_SEC)).

(** [as u32]. *)
Definition as_u32 (n : Z) : Z := n mod 2 ^ 32.

Definition MAX_IN_MESH_SCORE : f64 := f64_of_Z 10.
Definition MAX_FIRST_MESSAGE_DELIVERIES_SCORE : f64 := f64_of_Z 40.
Definition BEACON_BLOCK_WEIGHT : f64 := f64_lit 1 2.
Definition BEACON_AGGREGATE_PROOF_WEIGHT : f64 := f64_lit 1 2.
Definition VOLUNTARY_EXIT_WEIGHT : f64 := f64_lit 1 20.
Definition PROPOSER_SLASHING_WEIGHT : f64 := f64_lit 1 20.
Definition ATTESTER_SLASHING_WEIGHT : f64 := f64_lit 1 20.
Definition MESH_MESSAGE_DELIVERIES_WINDOW : Z := 2.

Record PeerScoreThresholds := mkPeerScoreThresholds {
  gossip_threshold : f64;
  publish_threshold : f64;
  graylist_threshold : f64;
  accept_px_threshold : f64;
  opportunistic_graft_threshold : f64;
}.

Definition peer_gossip_thresholds : PeerScoreThresholds :=
  mkPeerScoreThresholds (f64_of_Z (-4000)) (f64_of_Z (-8000)) GREYLIST_THRESHOLD (f64_of_Z 100) (f64_of_Z 5).

Record TopicScoreParams := mkTopicScoreParams {
  topic_weight : f64;
  time_in_mesh_weight : f64;
  time_in_mesh_quantum : Duration;
  time_in_mesh_cap : f64;
  first_message_deliveries_weight : f64;
  first_message_deliveries_decay : f64;
  first_message_deliveries_cap : f64;
  mesh_message_deliveries_weight : f64;
  mesh_message_deliveries_decay : f64;
  mesh_message_deliveries_cap : f64;
  mesh_message_deliveries_threshold : f64;
  mesh_message_deliveries_window : Duration;
  mesh_message_deliveries_activation : Duration;
  mesh_failure_penalty_weight : f64;
  mesh_failure_penalty_decay : f64;
  invalid_message_deliveries_weight : f64;
  invalid_message_deliveries_decay : f64;
}.

(** The addresses exempt from the colocation factor keep their default and are left out. *)
Record PeerScoreParams := mkPeerScoreParams {
  ps_topics : gmap (list ascii) TopicScoreParams;
  topic_score_cap : f64;
  app_specific_weight : f64;
  ip_colocation_factor_weight : f64;
  ip_colocation_factor_threshold : f64;
  behaviour_penalty_weight : f64;
  behaviour_penalty_threshold : f64;
  behaviour_penalty_decay : f64;
  ps_decay_interval : Duration;
  ps_decay_to_zero : f64;
  retain_score : Duration;
  slow_peer_weight : f64;
  slow_peer_threshold : f64;
  slow_peer_decay : f64;
}.

Record PeerScoreSettings := mkPeerScoreSettings {
  ss_slot : Duration;
  ss_epoch : Duration;
  beacon_attestation_subnet_weight : f64;
  max_positive_score : f64;
  decay_interval : Duration;
  decay_to_zero : f64;
  mesh_n : Z;
  target_aggregators_per_committee : Z;
  attestation_subnet_count : Z;
}.

Section gossip_scoring.
Context `{TopicCrates} `{ScoringCrates}.

(** [slot] is the slot duration of the chain configuration. *)
Definition PeerScoreSettings_new (slot : Duration) (mesh_n : Z) : PeerScoreSettings :=
  let subnet_weight := f64_div (f64_of_Z 1) (f64_of_Z AttestationSubnetCount) in
  let max_positive :=
    f64_mul (f64_add MAX_IN_MESH_SCORE MAX_FIRST_MESSAGE_DELIVERIES_SCORE)
      (f64_add (f64_add (f64_add (f64_add (f64_add BEACON_BLOCK_WEIGHT BEACON_AGGREGATE_PROOF_WEIGHT)
         (f64_mul subnet_weight (f64_of_Z AttestationSubnetCount)))
         VOLUNTARY_EXIT_WEIGHT) PROPOSER_SLASHING_WEIGHT) ATTESTER_SLASHING_WEIGHT) in
  mkPeerScoreSettings slot (slot * SlotsPerEpoch) subnet_weight max_positive
    (Z.max (Duration_from_secs 1) slot) (f64_lit 1 100) mesh_n TargetAggregatorsPerCommittee
    AttestationSubnetCount.

Definition score_parameter_decay_with_base (decay_time interval : Duration) (to_zero : f64) : f64 :=
  let ticks := f64_div (as_secs_f64 decay_time) (as_secs_f64 interval) in
  powf to_zero (f64_div (f64_of_Z 1) ticks).

Definition score_parameter_decay (s : PeerScoreSettings) (decay_time : Duration) : f64 :=
  score_parameter_decay_with_base decay_time (decay_interval s) (decay_to_zero s).

Definition decay_convergence (decay rate : f64) : f64 := f64_div rate (f64_sub (f64_of_Z 1) decay).

Definition threshold (decay rate : f64) : f64 := f64_mul (decay_convergence decay rate) decay.

(** The sizes of the committees of an epoch: how many there are, the smaller size, and how many have one
    validator more.  [None] stands for the panic of a division by zero. *)
Definition committee_sizes (active_validators : Z) : option (Z * Z * Z) :=
  let committees_per_slot := committee_count_from_active_validator_count active_validators in
  let committees := as_u64 (committees_per_slot * SlotsPerEpoch) in
  if committees =? 0 then None
  else
    let smaller_committee_size := active_validators / committees in
    Some (committees, smaller_committee_size,
          as_u64 (active_validators - as_u64 (smaller_committee_size * committees))).

Definition expected_aggregator_count_per_slot (s : PeerScoreSettings) (active_validators : Z) : option f64 :=
  let* (committees, smaller_committee_size, num_larger_committees) := committee_sizes active_validators in
  let target := target_aggregators_per_committee s in
  if target =? 0 then None
  else
    let modulo_smaller := Z.max 1 (smaller_committee_size / target) in
    let modulo_larger := Z.max 1 (as_u64 (smaller_committee_size + 1) / target) in
    Some (f64_div
      (f64_add
        (f64_div (f64_of_Z (as_u64 (as_u64 (committees - num_larger_committees) * smaller_committee_size)))
           (f64_of_Z modulo_smaller))
        (f64_div (f64_of_Z (as_u64 (num_larger_committees * as_u64 (smaller_committee_size + 1))))
           (f64_of_Z modulo_larger)))
      (f64_of_Z SlotsPerEpoch)).

Record MeshMessageInfo := mkMeshMessageInfo {
  mi_decay_slots : Z;
  mi_cap_factor : f64;
  mi_activation_window : Duration;
  mi_current_slot : Slot;
}.

Definition get_topic_params (s : PeerScoreSettings) (weight expected_message_rate : f64)
  (first_message_decay_time : Duration) (mesh_message_info : option MeshMessageInfo) : TopicScoreParams :=
  let cap := f64_div (f64_of_Z 3600) (as_secs_f64 (ss_slot s)) in
  let first_decay := score_parameter_decay s first_message_decay_time in
  let first_cap :=
    decay_convergence first_decay (f64_div (f64_mul (f64_of_Z 2) expected_message_rate) (f64_of_Z (mesh_n s))) in
  let first_weight := f64_div (f64_of_Z 40) first_cap in
  let invalid_weight := f64_div (f64_neg (max_positive_score s)) weight in
  let invalid_decay := score_parameter_decay s (ss_epoch s * 50) in
  let zero := f64_of_Z 0 in
  match mesh_message_info with
  | Some i =>
      let decay := score_parameter_decay s (ss_slot s * as_u32 (mi_decay_slots i)) in
      let limit := threshold decay (f64_div expected_message_rate (f64_of_Z 50)) in
      let mesh_cap :=
        if f64_lt (f64_mul (mi_cap_factor i) limit) (f64_of_Z 2) then f64_of_Z 2 else f64_mul (mi_cap_factor i) limit in
      let early := mi_current_slot i <=? mi_decay_slots i in
      mkTopicScoreParams weight (f64_div (f64_of_Z 10) cap) (ss_slot s) cap first_weight first_decay first_cap
        (if early then zero else f64_neg weight) decay mesh_cap (if early then zero else limit)
        (Duration_from_secs MESH_MESSAGE_DELIVERIES_WINDOW) (mi_activation_window i)
        (f64_neg weight) decay invalid_weight invalid_decay
  | None =>
      mkTopicScoreParams weight (f64_div (f64_of_Z 10) cap) (ss_slot s) cap first_weight first_decay first_cap
        zero zero zero zero 0 0 zero zero invalid_weight invalid_decay
  end.

(** Those of blocks, aggregates and attestation subnets. *)
Definition get_dynamic_topic_params (s : PeerScoreSettings) (active_validators : Z) (current_slot : Slot)
  : option (TopicScoreParams * TopicScoreParams * TopicScoreParams) :=
  let committees_per_slot := committee_count_from_active_validator_count active_validators in
  let* aggregators_per_slot := expected_aggregator_count_per_slot s active_validators in
  let multiple_bursts := 2 * attestation_subnet_count s / SlotsPerEpoch <=? committees_per_slot in
  let beacon_block_params :=
    get_topic_params s BEACON_BLOCK_WEIGHT (f64_of_Z 1) (ss_epoch s * 20)
      (Some (mkMeshMessageInfo (SlotsPerEpoch * 5) (f64_of_Z 3) (ss_epoch s) current_slot)) in
  let beacon_aggregate_proof_params :=
    get_topic_params s BEACON_AGGREGATE_PROOF_WEIGHT aggregators_per_slot (ss_epoch s)
      (Some (mkMeshMessageInfo (SlotsPerEpoch * 2) (f64_of_Z 4) (ss_epoch s) current_slot)) in
  let beacon_attestation_subnet_params :=
    get_topic_params s (beacon_attestation_subnet_weight s)
      (f64_div (f64_div (f64_of_Z active_validators) (f64_of_Z (attestation_subnet_count s))) (f64_of_Z SlotsPerEpoch))
      (ss_epoch s * (if multiple_bursts then 1 else 4))
      (Some (mkMeshMessageInfo (SlotsPerEpoch * (if multiple_bursts then 4 else 16)) (f64_of_Z 16)
         (if multiple_bursts then ss_slot s * (as_u32 SlotsPerEpoch / 2 + 1) else ss_epoch s * 3) current_slot)) in
  Some (beacon_block_params, beacon_aggregate_proof_params, beacon_attestation_subnet_params).

Definition topic_hash (digest : ForkDigest) (kind : GossipKind) : list ascii :=
  GossipTopic_to_string (mkGossipTopic SSZSnappy digest kind).

(** The topics with their parameters, in the order they are inserted. *)
Definition topic_entries (s : PeerScoreSettings) (block aggregate subnet : TopicScoreParams)
  : list (GossipKind * TopicScoreParams) :=
  [(GossipKind.VoluntaryExit, get_topic_params s VOLUNTARY_EXIT_WEIGHT
      (f64_div (f64_of_Z 4) (f64_of_Z SlotsPerEpoch)) (ss_epoch s * 100) None);
   (GossipKind.AttesterSlashing, get_topic_params s ATTESTER_SLASHING_WEIGHT
      (f64_div (f64_lit 1 5) (f64_of_Z SlotsPerEpoch)) (ss_epoch s * 100) None);
   (GossipKind.ProposerSlashing, get_topic_params s PROPOSER_SLASHING_WEIGHT
      (f64_div (f64_lit 1 5) (f64_of_Z SlotsPerEpoch)) (ss_epoch s * 100) None);
   (GossipKind.BeaconBlock, block); (GossipKind.BeaconAggregateAndProof, aggregate)] ++
  map (fun i => (GossipKind.Attestation i, subnet)) (range (attestation_subnet_count s)).

Definition get_peer_score_params (s : PeerScoreSettings) (active_validators : Z)
  (thresholds : PeerScoreThresholds) (digest : ForkDigest) (current_slot : Slot) : option PeerScoreParams :=
  let penalty_decay := score_parameter_decay s (ss_epoch s * 10) in
  let penalty_threshold := f64_of_Z 6 in
  let target_value :=
    f64_sub (decay_convergence penalty_decay (f64_div (f64_of_Z 10) (f64_of_Z SlotsPerEpoch))) penalty_threshold in
  let score_cap := f64_mul (max_positive_score s) (f64_lit 1 2) in
  let* (block, aggregate, subnet) := get_dynamic_topic_params s active_validators current_slot in
  Some (mkPeerScoreParams
    (fold_left (fun m kp => <[topic_hash digest kp.1 := kp.2]> m) (topic_entries s block aggregate subnet) ∅)
    score_cap (f64_of_Z 1) (f64_neg score_cap) (f64_of_Z 8)
    (f64_div (gossip_threshold thresholds) (powi target_value 2)) penalty_threshold penalty_decay
    (decay_interval s) (decay_to_zero s) (ss_epoch s * 100) (f64_of_Z (-10)) (f64_of_Z 0) (f64_lit 1 10)).

End gossip_scoring.

(** ** Theorems *)

Section gossip_scoring_theorems.
Context `{TopicCrates} `{ScoringCrates}.

(** No step of the split over [c] committees overflows. *)
Lemma split_exact a c :
  in_u64 a -> 0 < c <= U64_MAX ->
  as_u64 (a - as_u64 (a / c * c)) = a mod c /\
  as_u64 (as_u64 (c - a mod c) * (a / c)) + as_u64 (a mod c * as_u64 (a / c + 1)) = a.
Proof.
  unfold in_u64. intros Ha Hc.
  pose proof (Z.mod_pos_bound a c ltac:(lia)) as Hm. pose proof (Z.div_mod a c ltac:(lia)) as Hd.
  pose proof (Z.div_pos a c ltac:(lia) ltac:(lia)) as Hq.
  generalize dependent (a mod c). intros r Hm Hd. generalize dependent (a / c). intros q Hd Hq.
  assert (Hqc : 0 <= c * q) by nia. assert (Hrq : r * q <= c * q) by nia. assert (Hrq0 : 0 <= r * q) by nia.
  rewrite (as_u64_small (q * c)) by (unfold in_u64; lia). rewrite (as_u64_small (a - _)) by (unfold in_u64; lia).
  rewrite (as_u64_small (c - r)) by (unfold in_u64; lia).
  rewrite (as_u64_small ((c - r) * q)) by (unfold in_u64; lia). split; [lia|].
  destruct (decide (r = 0)) as [->|Hr].
  - rewrite Z.mul_0_l, (as_u64_small 0) by (unfold in_u64; lia). lia.
  - rewrite (as_u64_small (q + 1)) by (unfold in_u64; nia).
    rewrite (as_u64_small (r * _)) by (unfold in_u64; lia). lia.
Qed.

(** The divisors of the estimate are not zero. *)
Lemma aggregators_computable s active_validators :
  0 < committee_count_from_active_validator_count active_validators -> 0 < SlotsPerEpoch ->
  committee_count_from_active_validator_count active_validators * SlotsPerEpoch <= U64_MAX ->
  0 < target_aggregators_per_committee s -> is_Some (expected_aggregator_count_per_slot s active_validators).
Proof.
  intros Hc Hs Hu Ht. unfold expected_aggregator_count_per_slot, committee_sizes.
  rewrite as_u64_small by (unfold in_u64; nia).
  destruct (_ * _ =? 0) eqn:Hz; [nia|]. destruct (target_aggregators_per_committee s =? 0) eqn:Hz'; [lia|by eexists].
Qed.

(** The estimate of the aggregators of a slot splits the validators over the committees without
    overflow: fewer committees than there are have one validator more, and the sizes add up to the number
    of validators, so the estimate exists. *)
Theorem committees_partition s active_validators :
  in_u64 active_validators -> 0 < committee_count_from_active_validator_count active_validators ->
  0 < SlotsPerEpoch -> committee_count_from_active_validator_count active_validators * SlotsPerEpoch <= U64_MAX ->
  0 < target_aggregators_per_committee s ->
  exists committees smaller larger,
    committee_sizes active_validators = Some (committees, smaller, larger) /\
    0 <= larger < committees /\
    as_u64 (as_u64 (committees - larger) * smaller) + as_u64 (larger * as_u64 (smaller + 1)) = active_validators /\
    is_Some (expected_aggregator_count_per_slot s active_validators).
Proof.
  intros Ha Hc Hs Hu Ht. set (c := committee_count_from_active_validator_count active_validators * SlotsPerEpoch) in *.
  assert (Hpos : 0 < c) by (subst c; nia).
  destruct (split_exact active_validators c Ha ltac:(lia)) as [Hr Hsum].
  assert (Hsizes : committee_sizes active_validators = Some (c, active_validators / c, active_validators mod c)).
  { unfold committee_sizes. fold c. rewrite (as_u64_small c) by (unfold in_u64; lia).
    destruct (c =? 0) eqn:Hz; [lia|]. by rewrite Hr. }
  exists c, (active_validators / c), (active_validators mod c).
  split_and!; [done|by apply Z.mod_pos_bound|by apply Z.mod_pos_bound|done|by apply aggregators_computable].
Qed.

(** The topics gossipsub scores. *)
Definition scored (s : PeerScoreSettings) (k : GossipKind) : Prop :=
  match k with
  | GossipKind.VoluntaryExit | GossipKind.AttesterSlashing | GossipKind.ProposerSlashing
  | GossipKind.BeaconBlock | GossipKind.BeaconAggregateAndProof => True
  | GossipKind.Attestation i => 0 <= i < attestation_subnet_count s
  | _ => False
  end.

Lemma fold_insert_lookup {K V W} `{Countable K} (f : W -> K) (g : W -> V) (l : list W) : forall (m : gmap K V) k v,
  fold_left (fun m w => <[f w := g w]> m) l m !! k = Some v ->
  m !! k = Some v \/ exists w, w ∈ l /\ k = f w /\ v = g w.
Proof.
  induction l as [|w l IH]; intros m k v; cbn [fold_left]; [by left|].
  intros [Hi|(w' & Hin & ? & ?)]%IH; [|right; exists w'; set_solver].
  apply lookup_insert_Some in Hi as [[<- <-]|[_ Hi]]; [right; exists w; set_solver|by left].
Qed.

Lemma fold_insert_mono {K V W} `{Countable K} (f : W -> K) (g : W -> V) (l : list W) : forall (m : gmap K V) k,
  is_Some (m !! k) \/ (exists w, w ∈ l /\ k = f w) ->
  is_Some (fold_left (fun m w => <[f w := g w]> m) l m !! k).
Proof.
  induction l as [|w l IH]; intros m k Hk; cbn [fold_left].
  - destruct Hk as [Hk|(w & Hw & _)]; [done|by apply elem_of_nil in Hw].
  - apply IH. destruct Hk as [[v Hk]|(w' & [->|Hw]%elem_of_cons & ->)].
    + left. destruct (decide (f w = k)) as [->|Hne]; [rewrite lookup_insert_eq; by eexists|].
      rewrite lookup_insert_ne by done. by eexists.
    + left. rewrite lookup_insert_eq. by eexists.
    + right. by exists w'.
Qed.

(** A topic is without penalty for missing deliveries. *)
Definition lenient (t : TopicScoreParams) : Prop :=
  mesh_message_deliveries_weight t = f64_of_Z 0 /\ mesh_message_deliveries_threshold t = f64_of_Z 0.

Lemma lenient_start s w r d i :
  (forall x, i = Some x -> mi_current_slot x <= mi_decay_slots x) -> lenient (get_topic_params s w r d i).
Proof.
  intros Hi. unfold lenient, get_topic_params. destruct i as [x|]; [|done].
  specialize (Hi x eq_refl). cbn. by rewrite (proj2 (Z.leb_le _ _) Hi).
Qed.

Lemma elem_topic_entries s block aggregate subnet k t :
  (k, t) ∈ topic_entries s block aggregate subnet ->
  scored s k /\ (lenient block -> lenient aggregate -> lenient subnet -> lenient t).
Proof.
  unfold topic_entries. rewrite elem_of_app, !elem_of_cons, elem_of_nil, list_elem_of_fmap.
  intros [Hin|(i & [= -> ->] & Hi%range_elem)]; [|done].
  destruct_or! Hin; apply pair_eq in Hin as [-> ->]; (split; [exact I|]); intros Hb Hg Hs;
    first [assumption | apply lenient_start; intros x Hx; discriminate Hx].
Qed.

Lemma scored_entry s block aggregate subnet k :
  scored s k -> exists t, (k, t) ∈ topic_entries s block aggregate subnet.
Proof.
  intros Hk. unfold topic_entries. destruct k; try done.
  all: match goal with
    | |- exists t, (GossipKind.Attestation ?i, t) ∈ _ =>
        exists subnet; apply elem_of_app; right; apply list_elem_of_fmap; exists i;
        split; [reflexivity|by apply range_elem]
    | |- _ => eexists; apply elem_of_app; left; repeat first [apply list_elem_of_here | apply list_elem_of_further]
    end.
Qed.

(** The parameters a node starts gossipsub with score the topics of blocks, aggregates, exits,
    slashings and attestation subnets of its fork and no others, and penalise nobody for missing
    deliveries yet. *)
Theorem startup_scoring `{!TopicCrateLaws} s active_validators thresholds digest p :
  0 <= SlotsPerEpoch -> attestation_subnet_count s <= U64_MAX + 1 ->
  get_peer_score_params s active_validators thresholds digest 0 = Some p ->
  (forall k, in_u64 (GossipKind_code k).2 -> is_Some (ps_topics p !! topic_hash digest k) <-> scored s k) /\
  (forall h t, ps_topics p !! h = Some t -> (exists k, scored s k /\ h = topic_hash digest k) /\ lenient t).
Proof.
  intros Hslots Hcount Hp. unfold get_peer_score_params in Hp.
  destruct (get_dynamic_topic_params s active_validators 0) as [[[block aggregate] subnet]|] eqn:Hd; [|done].
  apply (inj Some) in Hp as <-. cbn [ps_topics].
  assert (Hlen : lenient block /\ lenient aggregate /\ lenient subnet).
  { unfold get_dynamic_topic_params in Hd. destruct (expected_aggregator_count_per_slot _ _); [|done].
    apply (inj Some) in Hd. apply pair_eq in Hd as [[<- <-]%pair_eq <-].
    split_and!; apply lenient_start; intros x ->%(inj Some)%symmetry; cbn [mi_current_slot mi_decay_slots]; try case_match; lia. }
  destruct Hlen as (Hb & Hg & Hs).
  set (l := topic_entries s block aggregate subnet).
  assert (Hsound : forall h t, fold_left (fun m kp => <[topic_hash digest kp.1 := kp.2]> m) l
      (∅ : gmap (list ascii) TopicScoreParams) !! h = Some t ->
    (exists k, scored s k /\ h = topic_hash digest k) /\ lenient t).
  { intros h t [Hh|((k & v) & Hin & -> & ->)]%(fold_insert_lookup (fun kp => topic_hash digest kp.1) snd); [by rewrite lookup_empty in Hh|].
    apply elem_topic_entries in Hin as [Hk Hv]. split; [by exists k|by apply Hv]. }
  split; [|exact Hsound]. intros k Hk. split.
  - intros [t Ht]. destruct (Hsound _ _ Ht) as [(k' & Hk' & He) _].
    apply topic_to_string_inj in He; [by injection He as ->|done|].
    destruct k'; cbn in *; unfold in_u64, U64_MAX in *; try lia; done.
  - intros (t & Hin)%(scored_entry s block aggregate subnet). apply (fold_insert_mono (fun kp => topic_hash digest kp.1) snd l). right.
    exists (k, t). split; [exact Hin|reflexivity].
Qed.

End gossip_scoring_theorems.

Module GossipScoringExamples.

#[local] Existing Instance Toy.chain.
#[local] Existing Instance TopicsExamples.toy_crates.
#[local] Existing Instance TopicsExamples.toy_laws.

(** The mainnet preset, with a power function that is good enough for an example. *)
#[local] Instance mainnet : ScoringCrates := {
  powf := fun x y => f64_div (f64_of_Z 9) (f64_of_Z 10);
  powi := fun x n => f64_mul x x;
  SlotsPerEpoch := 32;
  TargetAggregatorsPerCommittee := 16;
  committee_count_from_active_validator_count := fun n => Z.max 1 (Z.min 64 (n / 32 / 128));
}.

#[local] Instance mainnet_laws : ScoringLaws.
Proof. split; cbn; unfold U64_MAX; lia. Qed.

Definition settings : PeerScoreSettings := PeerScoreSettings_new (Duration_from_secs 12) 8.

Lemma committees_partition_witness :
  exists committees smaller larger,
    committee_sizes 524333 = Some (committees, smaller, larger) /\ 0 <= larger < committees /\
    as_u64 (as_u64 (committees - larger) * smaller) + as_u64 (larger * as_u64 (smaller + 1)) = 524333 /\
    is_Some (expected_aggregator_count_per_slot settings 524333).
Proof. apply (committees_partition settings 524333); vm_compute; repeat split; discriminate. Defined.

Definition params : option PeerScoreParams :=
  get_peer_score_params settings 32 peer_gossip_thresholds (1050 : @ForkDigest Toy.chain) 0.

Lemma startup_scoring_witness :
  match params with
  | Some p => is_Some (ps_topics p !! topic_hash (1050 : @ForkDigest Toy.chain) (GossipKind.Attestation 63))
  | None => False
  end.
Proof.
  assert (Hs : match params with Some _ => true | None => false end = true) by evaluate.
  destruct params as [p|] eqn:Hp; [|discriminate Hs].
  refine (proj2 (proj1 (startup_scoring settings 32 peer_gossip_thresholds (1050 : @ForkDigest Toy.chain) p _ _ Hp)
    (GossipKind.Attestation 63) _) _); by vm_compute.
Defined.

End GossipScoringExamples.
