(* ===== verification/PeerManager.v ===== *)
(** * The peer manager ([peer_manager/mod.rs], [peer_manager/network_behaviour.rs])

    Decides on bans, disconnections, dials and discovery queries.  Its state is a record; every method is
    a definition that takes the state and the instant [now] its clock reads give, and returns [None] only
    where the source would panic or loop.  The peer database is the one of the network globals.  Gauges
    and logs are left out. *)

From S2P Require Import Prelude Chain Protocol Messages Text Events Float64 Score PeerInfo PeerDB TimeCache Pruning Topics Globals EnrExt.

Definition HEARTBEAT_INTERVAL : Duration := Duration_from_secs 30.
Definition PEER_RECONNECTION_TIMEOUT : Duration := Duration_from_secs 600.
Definition DEFAULT_STATUS_INTERVAL : Z := 300.
Definition DEFAULT_PING_INTERVAL_OUTBOUND : Z := 15.
Definition DEFAULT_PING_INTERVAL_INBOUND : Z := 20.
Definition DEFAULT_TARGET_PEERS : Z := 200.

(** ** Timers

    [delay_map::HashSetDelay]: keys with the instants they expire at.  Inserting a key again resets its
    timer.  Which of the expired keys a poll delivers is the library's choice; it delivers one whenever
    there is one. *)
Class DelaySet := {
  poll_delay : forall {K : Type} `{Countable K}, gmap K Instant -> Instant -> option K;
  poll_delay_Some : forall {K} `{Countable K} (m : gmap K Instant) now k,
    poll_delay m now = Some k -> exists t, m !! k = Some t /\ t <= now;
  poll_delay_None : forall {K} `{Countable K} (m : gmap K Instant) now,
    poll_delay m now = None -> forall k t, m !! k = Some t -> now < t;
}.

Section delay_set.
Context `{DelaySet} {K : Type} `{Countable K}.

Record HashSetDelay := mkHashSetDelay { hs_entries : gmap K Instant; hs_timeout : Duration }.

Definition HashSetDelay_new (timeout : Duration) : HashSetDelay := mkHashSetDelay ∅ timeout.

Definition hs_insert (s : HashSetDelay) (now : Instant) (k : K) : HashSetDelay :=
  mkHashSetDelay (<[k := now + hs_timeout s]> (hs_entries s)) (hs_timeout s).

Definition hs_remove (s : HashSetDelay) (k : K) : HashSetDelay :=
  mkHashSetDelay (delete k (hs_entries s)) (hs_timeout s).

(** The loops of [poll]: expired keys are delivered and inserted again; [None] when the fuel does not
    suffice. *)
Fixpoint poll_all (fuel : nat) (s : HashSetDelay) (now : Instant) : option (list K * HashSetDelay) :=
  match fuel with
  | O => None
  | S fuel =>
      match poll_delay (hs_entries s) now with
      | None => Some ([], s)
      | Some k =>
          let* r := poll_all fuel (hs_insert (hs_remove s k) now k) now in
          Some (k :: r.1, r.2)
      end
  end.

End delay_set.
Arguments HashSetDelay K {_ _}.

Section peer_manager.
Context `{ChainTypes} `{Libp2p} `{HashIter} `{FloatExp} `{UnstableSort} `{ThreadRng} `{DelaySet}.
Context `{!TopicCrates} `{!CustodyCrates} `{!EnrFields}.

Inductive PeerManagerEvent :=
  | EvPeerConnectedIncoming (p : PeerId)
  | EvPeerConnectedOutgoing (p : PeerId)
  | EvPeerDisconnected (p : PeerId)
  | EvStatus (p : PeerId)
  | EvPing (p : PeerId)
  | EvMetaData (p : PeerId)
  | EvDisconnectPeer (p : PeerId) (reason : GoodbyeReason)
  | EvBanned (p : PeerId) (ips : list IpAddr)
  | EvUnBanned (p : PeerId) (ips : list IpAddr)
  | EvDiscoverPeers (n : Z)
  | EvDiscoverSubnetPeers (l : list SubnetDiscovery).

Record PeerManager := mkPeerManager {
  network_globals : NetworkGlobals;
  events : list PeerManagerEvent;
  inbound_ping_peers : HashSetDelay PeerId;
  outbound_ping_peers : HashSetDelay PeerId;
  status_peers : HashSetDelay PeerId;
  target_peers : Z;
  peers_to_dial : list Enr;
  temporary_banned_peers : LRUTimeCache PeerId;
  sync_committee_subnets : gmap SubnetId Instant;
  subnets_by_custody_group : gmap Z (list SubnetId);
  (** The instant of the next tick of the interval. *)
  next_heartbeat : Instant;
  discovery_enabled : bool;
  quic_enabled : bool;
  pm_trusted_peers : gset Enr;
}.

Definition set_globals (m : PeerManager) (x : NetworkGlobals) : PeerManager :=
  let '(mkPeerManager _ ev ib ob st tp di tb sc sg hb de qu tr) := m in
  mkPeerManager x ev ib ob st tp di tb sc sg hb de qu tr.
Definition set_events (m : PeerManager) (x : list PeerManagerEvent) : PeerManager :=
  let '(mkPeerManager g _ ib ob st tp di tb sc sg hb de qu tr) := m in
  mkPeerManager g x ib ob st tp di tb sc sg hb de qu tr.
Definition set_inbound (m : PeerManager) (x : HashSetDelay PeerId) : PeerManager :=
  let '(mkPeerManager g ev _ ob st tp di tb sc sg hb de qu tr) := m in
  mkPeerManager g ev x ob st tp di tb sc sg hb de qu tr.
Definition set_outbound (m : PeerManager) (x : HashSetDelay PeerId) : PeerManager :=
  let '(mkPeerManager g ev ib _ st tp di tb sc sg hb de qu tr) := m in
  mkPeerManager g ev ib x st tp di tb sc sg hb de qu tr.
Definition set_status (m : PeerManager) (x : HashSetDelay PeerId) : PeerManager :=
  let '(mkPeerManager g ev ib ob _ tp di tb sc sg hb de qu tr) := m in
  mkPeerManager g ev ib ob x tp di tb sc sg hb de qu tr.
Definition set_dial (m : PeerManager) (x : list Enr) : PeerManager :=
  let '(mkPeerManager g ev ib ob st tp _ tb sc sg hb de qu tr) := m in
  mkPeerManager g ev ib ob st tp x tb sc sg hb de qu tr.
Definition set_temporary (m : PeerManager) (x : LRUTimeCache PeerId) : PeerManager :=
  let '(mkPeerManager g ev ib ob st tp di _ sc sg hb de qu tr) := m in
  mkPeerManager g ev ib ob st tp di x sc sg hb de qu tr.
Definition set_sync_subnets (m : PeerManager) (x : gmap SubnetId Instant) : PeerManager :=
  let '(mkPeerManager g ev ib ob st tp di tb _ sg hb de qu tr) := m in
  mkPeerManager g ev ib ob st tp di tb x sg hb de qu tr.
Definition set_heartbeat (m : PeerManager) (x : Instant) : PeerManager :=
  let '(mkPeerManager g ev ib ob st tp di tb sc sg _ de qu tr) := m in
  mkPeerManager g ev ib ob st tp di tb sc sg x de qu tr.
Definition set_trusted (m : PeerManager) (x : gset Enr) : PeerManager :=
  let '(mkPeerManager g ev ib ob st tp di tb sc sg hb de qu _) := m in
  mkPeerManager g ev ib ob st tp di tb sc sg hb de qu x.

Definition pm_db (m : PeerManager) : PeerDB := g_peers (network_globals m).
Definition set_db (m : PeerManager) (db : PeerDB) : PeerManager :=
  set_globals m (set_g_peers (network_globals m) db).
Definition push_event (m : PeerManager) (e : PeerManagerEvent) : PeerManager :=
  set_events m (events m ++ [e]).

Record Config := mkConfig {
  cfg_discovery_enabled : bool;
  cfg_metrics_enabled : bool;
  cfg_quic_enabled : bool;
  target_peer_count : Z;
  status_interval : Z;
  ping_interval_inbound : Z;
  ping_interval_outbound : Z;
}.

Definition Config_default : Config :=
  mkConfig true false true DEFAULT_TARGET_PEERS DEFAULT_STATUS_INTERVAL DEFAULT_PING_INTERVAL_INBOUND
    DEFAULT_PING_INTERVAL_OUTBOUND.

(** The subnets of every custody group. *)
Fixpoint custody_map (config : ChainConfig) (groups : list Z) : option (gmap Z (list SubnetId)) :=
  match groups with
  | [] => Some ∅
  | custody_index :: groups =>
      let* subnets := compute_subnets_from_custody_group config custody_index in
      let* m := custody_map config groups in
      Some (<[custody_index := subnets]> m)
  end.

Definition PeerManager_new (cfg : Config) (globals : NetworkGlobals) (now : Instant) : option PeerManager :=
  let chain_config := g_config globals in
  let* subnets :=
    if config_is_peerdas_scheduled chain_config
    then custody_map chain_config (range (config_number_of_custody_groups chain_config))
    else Some ∅ in
  Some (mkPeerManager globals []
    (HashSetDelay_new (Duration_from_secs (ping_interval_inbound cfg)))
    (HashSetDelay_new (Duration_from_secs (ping_interval_outbound cfg)))
    (HashSetDelay_new (Duration_from_secs (status_interval cfg)))
    (target_peer_count cfg) [] (TimeCache_new PEER_RECONNECTION_TIMEOUT) ∅ subnets now
    (cfg_discovery_enabled cfg) (cfg_quic_enabled cfg) ∅).

(** ** Scores and bans *)

Definition is_unbanned_event (p : PeerId) (e : PeerManagerEvent) : bool :=
  match e with EvUnBanned q _ => bool_decide (q = p) | _ => false end.

Definition handle_ban_operation (m : PeerManager) (now : Instant) (p : PeerId) (op : BanOperation)
  (reason : option GoodbyeReason) : option PeerManager :=
  match op with
  | TemporaryBan =>
      if target_peers m <=? g_connected_peers (network_globals m) then
        let* r := raw_insert (temporary_banned_peers m) now p in
        Some (push_event (set_temporary m r.2) (EvBanned p []))
      else Some m
  | DisconnectThePeer => Some (push_event m (EvDisconnectPeer p (default GoodbyeReason.BadScore reason)))
  | PeerDisconnecting => Some m
  | ReadyToBan banned_ips =>
      let* r := raw_remove (temporary_banned_peers m) p in
      let m := set_temporary m r.2 in
      if r.1 then Some m
      else
        let m := push_event m (EvBanned p banned_ips) in
        Some (set_events m (List.filter (fun e => negb (is_unbanned_event p e)) (events m)))
  end.

Definition handle_score_action (m : PeerManager) (now : Instant) (p : PeerId) (action : ScoreUpdateResult)
  (reason : option GoodbyeReason) : option PeerManager :=
  match action with
  | ResBan op => handle_ban_operation m now p op reason
  | ResDisconnect =>
      let m := set_inbound m (hs_remove (inbound_ping_peers m) p) in
      let m := set_outbound m (hs_remove (outbound_ping_peers m) p) in
      Some (push_event m (EvDisconnectPeer p GoodbyeReason.BadScore))
  | ResNoAction => Some m
  | ResUnbanned unbanned_ips => Some (push_event m (EvUnBanned p unbanned_ips))
  end.

Fixpoint handle_score_actions (m : PeerManager) (now : Instant) (l : list (PeerId * ScoreUpdateResult))
  : option PeerManager :=
  match l with
  | [] => Some m
  | (p, action) :: l =>
      let* m := handle_score_action m now p action None in handle_score_actions m now l
  end.

Definition pm_report_peer (m : PeerManager) (now : Instant) (p : PeerId) (action : PeerAction)
  (reason : option GoodbyeReason) : option PeerManager :=
  let '(res, db) := report_peer (pm_db m) now p action in
  handle_score_action (set_db m db) now p res reason.

(** The sync status of a peer of another network. *)
Definition mark_irrelevant (m : PeerManager) (p : PeerId) (reason : GoodbyeReason) : PeerManager :=
  if decide (reason = GoodbyeReason.IrrelevantNetwork)
  then set_db m (db_update_sync_status (pm_db m) p IrrelevantPeer).2 else m.

Definition goodbye_peer (m : PeerManager) (now : Instant) (p : PeerId) (reason : GoodbyeReason)
  : option PeerManager :=
  pm_report_peer (mark_irrelevant m p reason) now p Fatal (Some reason).

Definition pm_update_gossipsub_scores (m : PeerManager) (now : Instant) (gossipsub : PeerId -> option f64)
  : option PeerManager :=
  let '(actions, db) := update_gossipsub_scores (pm_db m) now (target_peers m) gossipsub in
  handle_score_actions (set_db m db) now actions.

(** ** Dialing and discovery *)

Definition dial_peer (m : PeerManager) (e : Enr) : bool * PeerManager :=
  if should_dial (pm_db m) (enr_peer_id e) then (true, set_dial m (peers_to_dial m ++ [e])) else (false, m).

(** [usize] subtraction as a release build computes it. *)
Definition usize_wrapping_sub (a b : Z) : Z := as_u64 (a - b).

Definition wanted_peers (m : PeerManager) (dialing_peers : Z) : Z :=
  let peer_count := g_connected_or_dialing_peers (network_globals m) in
  let outbound_only_peer_count := g_connected_outbound_only_peers (network_globals m) in
  let target := target_peers m in
  if peer_count <? saturating_sub target dialing_peers
  then usize_wrapping_sub (saturating_sub (max_peers target) dialing_peers) peer_count
  else if (outbound_only_peer_count <? min_outbound_only_peers target) &&
          (peer_count <? max_outbound_dialing_peers target)
  then saturating_sub (saturating_sub (max_outbound_dialing_peers target) dialing_peers) peer_count
  else 0.

Definition maintain_peer_count (m : PeerManager) (dialing_peers : Z) : PeerManager :=
  if discovery_enabled m then
    if wanted_peers m dialing_peers =? 0 then m
    else push_event m (EvDiscoverPeers (wanted_peers m dialing_peers))
  else m.

(** The loop of [peers_discovered]; [n] is the number of peers connected or dialing at its start. *)
Fixpoint dial_discovered (m : PeerManager) (now : Instant) (n to_dial_peers : Z)
  (results : list (Enr * option Instant)) : Z * PeerManager :=
  match results with
  | [] => (to_dial_peers, m)
  | (e, ttl) :: results =>
      let wanted :=
        negb (bool_decide (e ∈ peers_to_dial m)) &&
        ((bool_decide (is_Some ttl) &&
          (usize_wrapping_add n to_dial_peers <? max_priority_peers (target_peers m))) ||
         (usize_wrapping_add n to_dial_peers <? max_peers (target_peers m))) in
      if wanted then
        let m :=
          match ttl with
          | Some t => set_db m (update_min_ttl (pm_db m) now (enr_peer_id e) t)
          | None => m
          end in
        let '(dialed, m) := dial_peer m e in
        dial_discovered m now n (if dialed then usize_wrapping_add to_dial_peers 1 else to_dial_peers) results
      else dial_discovered m now n to_dial_peers results
  end.

Definition peers_discovered (m : PeerManager) (now : Instant) (results : gmap Enr (option Instant))
  : PeerManager :=
  let n := g_connected_or_dialing_peers (network_globals m) in
  let '(to_dial_peers, m) := dial_discovered m now n 0 (hash_iter results) in
  if (0 <? Z.of_nat (size results)) && (to_dial_peers =? 0) then m
  else maintain_peer_count m to_dial_peers.

Definition peer_statusd (m : PeerManager) (now : Instant) (p : PeerId) : PeerManager :=
  set_status m (hs_insert (status_peers m) now p).

Definition add_sync_subnet (m : PeerManager) (subnet : SubnetId) (ttl : Instant) : PeerManager :=
  match sync_committee_subnets m !! subnet with
  | None => set_sync_subnets m (<[subnet := ttl]> (sync_committee_subnets m))
  | Some old =>
      if old <? ttl then set_sync_subnets m (<[subnet := ttl]> (sync_committee_subnets m)) else m
  end.

(** ** Requests and responses *)

Definition identify (m : PeerManager) (p : PeerId) (listen_addrs : list Multiaddr)
  (agent_version protocol_version : chars) : PeerManager :=
  match peers (pm_db m) !! p with
  | Some i =>
      let i := (set_listening_addresses i listen_addrs).2 in
      set_db m (put_peer (pm_db m) p (set_client i (from_identify_info agent_version protocol_version)))
  | None => m
  end.

(** What an error costs the peer; [None]: nothing. *)
Definition rate_limited_action (protocol : Protocol) : option PeerAction :=
  match protocol with
  | Protocol.Ping | Protocol.BlocksByRange | Protocol.BlocksByRoot | Protocol.BlobsByRange =>
      Some MidToleranceError
  | Protocol.LightClientBootstrap | Protocol.LightClientOptimisticUpdate
  | Protocol.LightClientFinalityUpdate | Protocol.LightClientUpdatesByRange => None
  | Protocol.BlobsByRoot | Protocol.DataColumnsByRoot | Protocol.DataColumnsByRange =>
      Some MidToleranceError
  | Protocol.Goodbye | Protocol.MetaData | Protocol.Status => Some LowToleranceError
  end.

Definition unsupported_action (protocol : Protocol) : option PeerAction :=
  match protocol with
  | Protocol.Ping | Protocol.MetaData | Protocol.Status => Some Fatal
  | _ => None
  end.

Definition timeout_action (protocol : Protocol) : option PeerAction :=
  match protocol with
  | Protocol.Ping => Some LowToleranceError
  | Protocol.BlocksByRange | Protocol.BlocksByRoot | Protocol.BlobsByRange | Protocol.BlobsByRoot
  | Protocol.DataColumnsByRoot | Protocol.DataColumnsByRange => Some MidToleranceError
  | Protocol.LightClientBootstrap | Protocol.LightClientOptimisticUpdate
  | Protocol.LightClientFinalityUpdate | Protocol.LightClientUpdatesByRange
  | Protocol.Goodbye | Protocol.MetaData | Protocol.Status => None
  end.

Definition unavailable_action (protocol : Protocol) (direction : ConnectionDirection) : option PeerAction :=
  match protocol with
  | Protocol.BlobsByRoot | Protocol.DataColumnsByRoot => None
  | _ => match direction with Outgoing => Some Fatal | Incoming => None end
  end.

Definition rpc_error_action (protocol : Protocol) (err : RPCError) (direction : ConnectionDirection)
  : option PeerAction :=
  match err with
  | IncompleteStream => Some MidToleranceError
  | InternalError _ => None
  | HandlerRejected => Some Fatal
  | InvalidData _ => Some Fatal
  | IoError _ => Some HighToleranceError
  | ErrorResponse code _ =>
      match code with
      | UnknownError => Some HighToleranceError
      | ResourceUnavailable => unavailable_action protocol direction
      | ServerError => Some MidToleranceError
      | InvalidRequest => Some LowToleranceError
      | RateLimited => rate_limited_action protocol
      | BlobsNotFoundForBlock => Some LowToleranceError
      end
  | SszReadError _ => Some Fatal
  | SszWriteError _ => Some LowToleranceError
  | UnsupportedProtocol => unsupported_action protocol
  | StreamTimeout => match direction with Incoming => None | Outgoing => timeout_action protocol end
  | NegotiationTimeout => Some LowToleranceError
  | Events.Disconnected => None
  end.

Definition handle_rpc_error (m : PeerManager) (now : Instant) (p : PeerId) (protocol : Protocol)
  (err : RPCError) (direction : ConnectionDirection) : option PeerManager :=
  match rpc_error_action protocol err direction with
  | Some action => pm_report_peer m now p action None
  | None => Some m
  end.

(** Metadata is requested when it is missing or out of date. *)
Definition request_metadata (m : PeerManager) (p : PeerId) (i : PeerInfo) (seq : Z) : PeerManager :=
  match meta_data i with
  | Some md => if seq_number md <? seq then push_event m (EvMetaData p) else m
  | None => push_event m (EvMetaData p)
  end.

Definition ping_request (m : PeerManager) (now : Instant) (p : PeerId) (seq : Z) : PeerManager :=
  match peers (pm_db m) !! p with
  | Some i =>
      let m :=
        match connection_direction i with
        | Some Incoming => set_inbound m (hs_insert (inbound_ping_peers m) now p)
        | Some Outgoing => set_outbound m (hs_insert (outbound_ping_peers m) now p)
        | None => m
        end in
      request_metadata m p i seq
  | None => m
  end.

Definition pong_response (m : PeerManager) (p : PeerId) (seq : Z) : PeerManager :=
  match peers (pm_db m) !! p with
  | Some i => request_metadata m p i seq
  | None => m
  end.

(** [None]: an error. *)
Definition compute_peer_custody_groups (m : PeerManager) (p : PeerId) (count : Z) : option (gset Z) :=
  let config := g_config (network_globals m) in
  match peer_id_to_node_id p with
  | Err _ => None
  | Ok node_id =>
      if (config_custody_requirement config <=? count) && (count <=? config_number_of_custody_groups config)
      then get_custody_groups config (node_id_parse node_id) count
      else None
  end.

Definition groups_subnets (m : PeerManager) (groups : gset Z) : gset SubnetId :=
  list_to_set (flat_map (fun custody_index => default [] (subnets_by_custody_group m !! custody_index))
    (set_iter groups)).

(** Whether the custody group count changed. *)
Definition meta_data_response (m : PeerManager) (now : Instant) (p : PeerId) (md : MetaData)
  : option (bool * PeerManager) :=
  match peers (pm_db m) !! p with
  | None => Some (false, m)
  | Some i =>
      let known_cgc := meta_data i ≫= custody_group_count in
      let i := set_meta_data i md in
      let m1 := set_db m (put_peer (pm_db m) p i) in
      if config_is_peerdas_scheduled (g_config (network_globals m)) then
        match custody_group_count md with
        | Some count =>
            match compute_peer_custody_groups m p count with
            | Some groups =>
                Some (bool_decide (known_cgc <> Some count),
                      set_db m (put_peer (pm_db m) p (set_custody_subnets i (groups_subnets m groups))))
            | None =>
                let* m := goodbye_peer m1 now p GoodbyeReason.Fault in Some (false, m)
            end
        | None => Some (false, m1)
        end
      else Some (false, m1)
  end.

(** ** Connections *)

Inductive ConnectingType :=
  | CtDialing
  | CtIngoingConnected (a : Multiaddr)
  | CtOutgoingConnected (a : Multiaddr).

Definition inject_peer_connection (m : PeerManager) (now : Instant) (p : PeerId) (connection : ConnectingType)
  (e : option Enr) : bool * PeerManager :=
  match connection with
  | CtDialing => (true, set_db m (dialing_peer (pm_db m) now p e))
  | CtIngoingConnected a =>
      let m := set_db m (db_connect_ingoing (pm_db m) now p a e) in
      let m := set_inbound m (hs_insert (inbound_ping_peers m) now p) in
      (true, set_status m (hs_insert (status_peers m) now p))
  | CtOutgoingConnected a =>
      let m := set_db m (db_connect_outgoing (pm_db m) now p a e) in
      let m := set_outbound m (hs_insert (outbound_ping_peers m) now p) in
      (true, set_status m (hs_insert (status_peers m) now p))
  end.

Definition inject_connect_ingoing (m : PeerManager) (now : Instant) (p : PeerId) (a : Multiaddr)
  (e : option Enr) : bool * PeerManager := inject_peer_connection m now p (CtIngoingConnected a) e.
Definition inject_connect_outgoing (m : PeerManager) (now : Instant) (p : PeerId) (a : Multiaddr)
  (e : option Enr) : bool * PeerManager := inject_peer_connection m now p (CtOutgoingConnected a) e.

Definition pm_inject_disconnect (m : PeerManager) (now : Instant) (p : PeerId) : option PeerManager :=
  let* r := inject_disconnect (pm_db m) now p in
  let '(ban_operation, purged_peers, db) := r in
  let m := set_db m db in
  let* m :=
    match ban_operation with
    | Some op => handle_ban_operation m now p op None
    | None => Some m
    end in
  let m := set_inbound m (hs_remove (inbound_ping_peers m) p) in
  let m := set_outbound m (hs_remove (outbound_ping_peers m) p) in
  let m := set_status m (hs_remove (status_peers m) p) in
  Some (set_events m (events m ++ map (fun kv => EvUnBanned kv.1 kv.2) purged_peers)).

Definition disconnect_peer (m : PeerManager) (now : Instant) (p : PeerId) (reason : GoodbyeReason)
  : PeerManager :=
  let m := push_event m (EvDisconnectPeer p reason) in
  set_db m (notify_disconnecting (pm_db m) now p false).

(** ** The heartbeat *)

Definition push_subnet_query (m : PeerManager) (l : list SubnetDiscovery) : PeerManager :=
  match l with [] => m | _ => push_event m (EvDiscoverSubnetPeers l) end.

Definition maintain_sync_committee_peers (m : PeerManager) (now : Instant) : PeerManager :=
  let m := set_sync_subnets m (filter (fun kv => now < kv.2) (sync_committee_subnets m)) in
  push_subnet_query m
    (omap (fun '(k, v) =>
       if Z.of_nat (length (good_peers_on_subnet (pm_db m) (Subnet.SyncCommittee k)))
            <? target_subnet_peers (network_globals m)
       then Some (mkSubnetDiscovery (Subnet.SyncCommittee k) (Some v)) else None)
     (hash_iter (sync_committee_subnets m))).

Definition maintain_custody_peers (m : PeerManager) : PeerManager :=
  push_subnet_query m
    (omap (fun subnet =>
       if has_good_peers_in_custody_subnet (pm_db m) subnet MIN_SAMPLING_COLUMN_SUBNET_PEERS then None
       else Some (mkSubnetDiscovery (Subnet.DataColumn subnet) None))
     (set_iter (sampling_subnets (network_globals m)))).

Definition maintain_trusted_peers (m : PeerManager) : PeerManager :=
  fold_left (fun m e => (dial_peer m e).2) (set_iter (pm_trusted_peers m)) m.

Definition prune_excess_peers (m : PeerManager) (now : Instant) : option PeerManager :=
  let* X := excess_peers (pm_db m) now (target_peers m) (sampling_subnets (network_globals m)) in
  Some (fold_left (fun m p => disconnect_peer m now p GoodbyeReason.TooManyPeers) (set_iter X) m).

Definition unban_temporary_banned_peers (m : PeerManager) (now : Instant) : PeerManager :=
  let '(expired, c) := remove_expired (temporary_banned_peers m) now in
  let m := set_temporary m c in
  set_events m (events m ++ map (fun p => EvUnBanned p []) expired).

Definition is_data_column (t : GossipTopic) : bool :=
  match gt_kind t with GossipKind.DataColumnSidecar _ => true | _ => false end.

Definition pm_update_scores (m : PeerManager) (now : Instant) : option PeerManager :=
  let '(actions, db) := update_scores (pm_db m) now in
  handle_score_actions (set_db m db) now actions.

Definition pm_heartbeat (m : PeerManager) (now : Instant) : option PeerManager :=
  let m := maintain_peer_count m 0 in
  let m := maintain_trusted_peers m in
  let m := set_db m (cleanup_dialing_peers (pm_db m) now) in
  let* m := pm_update_scores m now in
  let m :=
    if existsb is_data_column (set_iter (gossipsub_subscriptions (network_globals m)))
    then maintain_custody_peers m else m in
  let m := maintain_sync_committee_peers m now in
  let* m := prune_excess_peers m now in
  Some (unban_temporary_banned_peers m now).

Definition pm_add_trusted_peer (m : PeerManager) (e : Enr) : PeerManager :=
  set_trusted m ({[e]} ∪ pm_trusted_peers m).
Definition pm_remove_trusted_peer (m : PeerManager) (e : Enr) : PeerManager :=
  set_trusted m (pm_trusted_peers m ∖ {[e]}).

(** ** The behaviour of the swarm ([network_behaviour.rs]) *)

Inductive PollResult :=
  | PollEvent (e : PeerManagerEvent)
  | PollDial (p : PeerId) (addresses : list Multiaddr)
  | PollPending.

(** The ticks of the interval that are due, each with a heartbeat. *)
Fixpoint run_heartbeats (fuel : nat) (m : PeerManager) (now : Instant) : option PeerManager :=
  if next_heartbeat m <=? now then
    match fuel with
    | O => None
    | S fuel =>
        let* m := pm_heartbeat (set_heartbeat m (next_heartbeat m + HEARTBEAT_INTERVAL)) now in
        run_heartbeats fuel m now
    end
  else Some m.

Definition heartbeat_fuel (m : PeerManager) (now : Instant) : nat :=
  Z.to_nat ((now - next_heartbeat m) / HEARTBEAT_INTERVAL + 1).

Definition poll_set (s : HashSetDelay PeerId) (now : Instant) : option (list PeerId * HashSetDelay PeerId) :=
  poll_all (S (size (hs_entries s))) s now.

Definition poll_timers (m : PeerManager) (now : Instant) : option PeerManager :=
  let* r := poll_set (inbound_ping_peers m) now in
  let m := set_events (set_inbound m r.2) (events m ++ map EvPing r.1) in
  let* r := poll_set (outbound_ping_peers m) now in
  let m := set_events (set_outbound m r.2) (events m ++ map EvPing r.1) in
  match sync_state (network_globals m) with
  | SyncState.SyncingFinalized _ _ | SyncState.SyncingHead _ _ => Some m
  | _ =>
      let* r := poll_set (status_peers m) now in
      Some (set_events (set_status m r.2) (events m ++ map EvStatus r.1))
  end.

(** [Vec::pop]. *)
Definition pop_back {A} (l : list A) : option (A * list A) :=
  match rev l with [] => None | x :: r => Some (x, rev r) end.

Definition poll_output (m : PeerManager) (now : Instant) : PollResult * PeerManager :=
  match events m with
  | e :: rest => (PollEvent e, set_events m rest)
  | [] =>
      match pop_back (peers_to_dial m) with
      | None => (PollPending, m)
      | Some (e, rest) =>
          let m := (inject_peer_connection (set_dial m rest) now (enr_peer_id e) CtDialing (Some e)).2 in
          (PollDial (enr_peer_id e)
             ((if quic_enabled m then multiaddr_quic e else []) ++ multiaddr_tcp e), m)
      end
  end.

Definition pm_poll (m : PeerManager) (now : Instant) : option (PollResult * PeerManager) :=
  let* m := run_heartbeats (heartbeat_fuel m now) m now in
  let* m := poll_timers m now in
  Some (poll_output m now).

Inductive ConnectedPoint :=
  | Listener (send_back_addr : Multiaddr)
  | Dialer (address : Multiaddr).

Definition on_connection_established (m : PeerManager) (now : Instant) (p : PeerId)
  (endpoint : ConnectedPoint) : PeerManager :=
  match endpoint with
  | Listener a => push_event (inject_connect_ingoing m now p a None).2 (EvPeerConnectedIncoming p)
  | Dialer a => push_event (inject_connect_outgoing m now p a None).2 (EvPeerConnectedOutgoing p)
  end.

Definition on_connection_closed (m : PeerManager) (now : Instant) (p : PeerId) (remaining_established : Z)
  : option PeerManager :=
  if 0 <? remaining_established then Some m
  else
    let m :=
      if db_is_connected_or_disconnecting (pm_db m) p then push_event m (EvPeerDisconnected p) else m in
    pm_inject_disconnect m now p.

Definition on_dial_failure (m : PeerManager) (now : Instant) (p : option PeerId) : option PeerManager :=
  match p with
  | Some p => if db_is_connected (pm_db m) p then Some m else pm_inject_disconnect m now p
  | None => Some m
  end.

Inductive ConnectionDenied :=
  | InvalidMultiaddr
  | DeniedBannedIp (ip : IpAddr)
  | DeniedBadScore
  | TooManyConnections
  | DeniedCause (cause : BanResult).

Definition handle_pending_inbound_connection (m : PeerManager) (remote_addr : Multiaddr)
  : result unit ConnectionDenied :=
  let? ip :=
    match multiaddr_iter remote_addr with
    | MaIp6 ip :: _ => Ok (IpV6 ip)
    | MaIp4 ip :: _ => Ok (IpV4 ip)
    | _ => Err InvalidMultiaddr
    end in
  if is_ip_banned (pm_db m) ip then Err (DeniedBannedIp ip) else Ok tt.

(** [is_none_or(|peer| !peer.has_future_duty())]. *)
Definition no_future_duty (m : PeerManager) (now : Instant) (p : PeerId) : bool :=
  match peers (pm_db m) !! p with
  | Some i => negb (has_future_duty i now)
  | None => true
  end.

Definition handle_established_inbound_connection (m : PeerManager) (now : Instant) (p : PeerId)
  : result unit ConnectionDenied :=
  match ban_status (pm_db m) p with
  | Some _ => Err DeniedBadScore
  | None =>
      if (max_peers (target_peers m) <=? g_connected_or_dialing_peers (network_globals m)) &&
         no_future_duty m now p
      then Err TooManyConnections else Ok tt
  end.

Definition handle_established_outbound_connection (m : PeerManager) (now : Instant) (p : PeerId)
  : result unit ConnectionDenied :=
  match ban_status (pm_db m) p with
  | Some cause => Err (DeniedCause cause)
  | None =>
      if (max_outbound_dialing_peers (target_peers m) <=? g_connected_peers (network_globals m)) &&
         no_future_duty m now p
      then Err TooManyConnections else Ok tt
  end.

End peer_manager.

(** ** Lemmas: which database operations ban a peer *)

Section ban_lemmas.
Context `{ChainTypes} `{Libp2p} `{HashIter} `{FloatExp} `{UnstableSort}.
Implicit Types (db : PeerDB) (i : PeerInfo) (p q : PeerId).

Definition bans db p : Prop := exists i, peers db !! p = Some i /\ is_banned i = true.

(** The operation bans nobody. *)
Definition no_new_bans db db' : Prop := forall q, bans db' q -> bans db q.

Lemma bans_lookup db db' q : peers db' !! q = peers db !! q -> bans db' q <-> bans db q.
Proof. intros Hq. unfold bans. by rewrite Hq. Qed.

Lemma bans_entry db now p : bans db p <-> is_banned (entry_info db now p) = true /\ is_Some (peers db !! p).
Proof.
  unfold bans, entry_info. destruct (peers db !! p) as [i|] eqn:Hp; [naive_solver|].
  split; [by intros (? & [=] & _)|]. by intros [_ [? [=]]].
Qed.

Lemma entry_banned db now p : is_banned (entry_info db now p) = true -> bans db p.
Proof.
  unfold bans, entry_info. destruct (peers db !! p) as [i|] eqn:Hp; [by eauto|].
  by destruct (disable_peer_scoring db).
Qed.

Lemma no_new_bans_put db p i i' :
  peers db !! p = Some i -> connection_status i' = connection_status i -> no_new_bans db (put_peer db p i').
Proof.
  intros Hp Hs q (j & Hj & Hb). simpl in Hj. apply lookup_insert_Some in Hj as [[<- <-]|[Hne Hj]].
  - exists i. split; [done|]. unfold is_banned in *. by rewrite <- Hs.
  - by exists j.
Qed.

Lemma no_new_bans_new db p i' :
  is_banned i' = false -> no_new_bans db (put_peer db p i').
Proof.
  intros Hs q (j & Hj & Hb). simpl in Hj. apply lookup_insert_Some in Hj as [[<- <-]|[Hne Hj]]; [congruence|].
  by exists j.
Qed.

Lemma no_new_bans_fmap db (f : PeerInfo -> PeerInfo) :
  (forall i, connection_status (f i) = connection_status i) -> no_new_bans db (set_peers db (f <$> peers db)).
Proof.
  intros Hf q (j & Hj & Hb). simpl in Hj. rewrite lookup_fmap in Hj. apply fmap_Some in Hj as (i & Hi & ->).
  exists i. split; [done|]. unfold is_banned in *. by rewrite <- Hf.
Qed.

Lemma no_new_bans_subseteq db db' : peers db' ⊆ peers db -> no_new_bans db db'.
Proof. intros Hs q (i & Hi & Hb). exists i. split; [by eapply lookup_weaken|done]. Qed.

Lemma no_new_bans_trans db1 db2 db3 : no_new_bans db1 db2 -> no_new_bans db2 db3 -> no_new_bans db1 db3.
Proof. unfold no_new_bans. auto. Qed.

(** *** One transition *)

Lemma ucs_lookup db now p ns q :
  q <> p -> peers (update_connection_state db now p ns).2 !! q = peers db !! q.
Proof.
  intros Hne. destruct (update_connection_state_peers db now p ns) as (i' & -> & _).
  by rewrite lookup_insert_ne.
Qed.

Definition ready_to_ban (op : option BanOperation) : Prop :=
  match op with Some (ReadyToBan _) => True | _ => False end.

Lemma banned_put db p i : bans (put_peer db p i) p <-> is_banned i = true.
Proof.
  unfold bans. simpl. rewrite lookup_insert_eq. split; [by intros (? & [= <-] & ?)|by eauto].
Qed.

(** A transition of a peer bans that peer at most, and then it says so. *)
Lemma ucs_bans db now p ns :
  let '(op, db') := update_connection_state db now p ns in
  (forall q, bans db' q -> bans db q \/ (q = p /\ ready_to_ban op)) /\
  (op = Some TemporaryBan -> ~ bans db' p) /\
  (ns = NewUnbanned -> ~ bans db' p) /\
  (op <> None -> ns = NewDisconnected \/ ns = NewBanned) /\
  (ns = NewBanned -> op <> Some TemporaryBan).
Proof.
  destruct (update_connection_state db now p ns) as [op db'] eqn:E.
  assert (forall q, q <> p -> bans db' q -> bans db q) as Hother.
  { intros q Hq. apply bans_lookup. pose proof (ucs_lookup db now p ns q Hq) as Hl. by rewrite E in Hl. }
  assert ((bans db' p -> bans db p \/ ready_to_ban op) /\ (op = Some TemporaryBan -> ~ bans db' p) /\
    (ns = NewUnbanned -> ~ bans db' p) /\ (op <> None -> ns = NewDisconnected \/ ns = NewBanned) /\
    (ns = NewBanned -> op <> Some TemporaryBan)) as (Hp & Ht & Hu & Ho & Hb).
  { pose proof (entry_banned db now p) as He. unfold update_connection_state in E.
    set (i := entry_info db now p) in *.
    destruct ns as [e a d|b|e| | |]; simplify_eq.
    - unfold enter_connected. cbv zeta.
      assert (forall db0, ~ bans (put_peer db0 p (match d with
        | Incoming => connect_ingoing (opt_set_enr e i) a
        | Outgoing => connect_outgoing (opt_set_enr e i) a end)) p) as Hc.
      { intros db0. rewrite banned_put. unfold is_banned.
        destruct (connect_status (opt_set_enr e i) a d) as (? & ? & ? & ->). done. }
      split_and!; [intros Hc'; exfalso; by eapply Hc|by intros [=]|done..].
    - unfold enter_disconnecting. rewrite banned_put. unfold is_banned. rewrite status_set. by split_and!.
    - unfold enter_dialing. cbv zeta. rewrite banned_put. split_and!; [|done..]. unfold set_dialing_peer.
      rewrite status_enr. unfold is_banned in *.
      destruct (connection_status i) eqn:Es; rewrite ?status_set, ?status_enr, ?Es; naive_solver.
    - unfold enter_disconnected, clear_subnets in E. cbv zeta in E. rewrite status_subnets in E.
      unfold is_banned in He. destruct (connection_status i) as [| [] | | | |] eqn:Es; simplify_eq;
        rewrite ?banned_put; unfold is_banned; rewrite ?status_set, ?status_subnets, ?Es; naive_solver.
    - unfold enter_banned in E. rewrite status_ensure in E. unfold is_banned in He.
      destruct (connection_status i) as [| | | | |] eqn:Es; simplify_eq;
        rewrite ?banned_put; unfold is_banned; rewrite ?status_set, ?status_ensure, ?Es; naive_solver.
    - unfold enter_unbanned. unfold is_banned in He.
      destruct (connection_status i) as [| | | | |] eqn:Es; rewrite ?banned_put; unfold is_banned;
        rewrite ?status_set, ?Es; naive_solver. }
  split_and!; try done. intros q Hq. destruct (decide (q = p)) as [->|Hne]; [|left; by apply Hother].
  destruct (Hp Hq); eauto.
Qed.

Lemma ucs_quiet db now p ns :
  ns <> NewDisconnected -> ns <> NewBanned -> no_new_bans db (update_connection_state db now p ns).2.
Proof.
  intros H1' H2' q Hq. pose proof (ucs_bans db now p ns) as Hb.
  destruct (update_connection_state db now p ns) as [op db'].
  destruct Hb as (Hb & _ & _ & Ho & _). destruct (Hb q Hq) as [?|[_ Hr]]; [done|].
  destruct op; [|done]. destruct Ho as [?|?]; done.
Qed.

(** *** Scores *)

Definition is_ready (r : ScoreUpdateResult) : Prop :=
  match r with ResBan (ReadyToBan _) => True | _ => False end.

Lemma apply_transition_bans db now p t :
  let '(res, db') := apply_transition db now p t in
  (forall q, bans db' q -> bans db q \/ (q = p /\ is_ready res)) /\
  res <> ResBan TemporaryBan /\
  ((exists ips, res = ResUnbanned ips) -> ~ bans db' p) /\
  (forall q, q <> p -> peers db' !! q = peers db !! q).
Proof.
  destruct t; unfold apply_transition.
  - split_and!; [|done|by intros [? [=]]|by intros; apply ucs_lookup].
    intros q Hq. left. revert q Hq. by apply ucs_quiet.
  - pose proof (ucs_bans db now p NewBanned) as Hb. pose proof (ucs_lookup db now p NewBanned) as Hl.
    destruct (update_connection_state db now p NewBanned) as [op db'].
    destruct Hb as (Hb & _ & _ & _ & Ht). split_and!; [| | |done].
    + intros q [?|[-> Hr]]%Hb; [by left|]. right. by destruct op as [[]|].
    + destruct op as [[]|]; simpl; try done. by specialize (Ht eq_refl).
    + intros [ips Hu]. by destruct op.
  - split_and!; [|done| |by intros; apply ucs_lookup].
    + intros q Hq. left. revert q Hq. by apply ucs_quiet.
    + intros _. pose proof (ucs_bans db now p NewUnbanned) as Hb.
      destruct (update_connection_state db now p NewUnbanned) as [op db']. by apply Hb.
  - split_and!; [by left|done|by intros [? [=]]|done].
Qed.

Lemma report_peer_bans db now p a :
  let '(res, db') := report_peer db now p a in
  (forall q, bans db' q -> bans db q \/ (q = p /\ is_ready res)) /\
  res <> ResBan TemporaryBan /\ forall ips, res <> ResUnbanned ips.
Proof.
  unfold report_peer. destruct (peers db !! p) as [i|] eqn:Hp; [|by split_and!; [left|..]]. cbv zeta.
  set (i' := apply_peer_action_to_score i a).
  assert (no_new_bans db (put_peer db p i')) as Hput
    by (eapply no_new_bans_put; [done|apply status_action]).
  set (t := handle_score_transition (pi_score_state i) i').
  assert (t <> TransUnbanned -> let '(res, db') := apply_transition (put_peer db p i') now p t in
    (forall q, bans db' q -> bans db q \/ (q = p /\ is_ready res)) /\
    res <> ResBan TemporaryBan /\ forall ips, res <> ResUnbanned ips) as Hgo.
  { intros Ht. pose proof (apply_transition_bans (put_peer db p i') now p t) as Hb.
    destruct (apply_transition (put_peer db p i') now p t) as [res db'] eqn:E.
    destruct Hb as (Hb & Hn & _). split_and!; [|done|].
    - intros q [Hq|?]%Hb; [left; by apply Hput|by right].
    - intros ips ->. unfold apply_transition in E. destruct t; simplify_eq; try done.
      destruct (update_connection_state _ _ _ NewBanned) as [[]]; simplify_eq. }
  destruct t; [by apply Hgo..| |by apply Hgo].
  split_and!; [|done..]. intros q Hq. left. by apply Hput.
Qed.

Lemma unban_all_bans now ps : forall db,
  let '(actions, db') := unban_all db now ps in
  (forall q, bans db' q -> bans db q /\ q ∉ ps) /\
  Forall (fun pr => pr.1 ∈ ps /\ exists ips, pr.2 = ResUnbanned ips) actions.
Proof.
  induction ps as [|p ps IH]; intros db; cbn [unban_all]; [set_solver|].
  pose proof (ucs_bans db now p NewUnbanned) as Hb.
  assert (no_new_bans db (update_connection_state db now p NewUnbanned).2) as Hn by by apply ucs_quiet.
  destruct (update_connection_state db now p NewUnbanned) as [op db1]. cbn [snd] in *.
  destruct Hb as (_ & _ & Hu & _). specialize (Hu eq_refl). specialize (IH db1).
  destruct (unban_all db1 now ps) as [rest db2]. destruct IH as [IHb IHa]. split.
  - intros q [Hq Hps]%IHb. split; [by apply Hn|]. intros [->|?]%elem_of_cons; done.
  - constructor; [set_solver|]. eapply Forall_impl; [exact IHa|]. intros pr [? ?]. split; [set_solver|done].
Qed.

Lemma update_scores_bans db now :
  let '(actions, db') := update_scores db now in
  no_new_bans db db' /\
  Forall (fun pr => ~ bans db' pr.1 /\ exists ips, pr.2 = ResUnbanned ips) actions.
Proof.
  unfold update_scores. cbv zeta.
  match goal with |- context [unban_all ?d now ?l] =>
    pose proof (unban_all_bans now l d) as Hu;
    assert (no_new_bans db d) as Hn by (apply no_new_bans_fmap; intros i; apply profile_score_update)
  end.
  destruct (unban_all _ now _) as [actions db']. destruct Hu as [Hb Ha]. split.
  - intros q [Hq _]%Hb. by apply Hn.
  - eapply Forall_impl; [exact Ha|]. intros pr [Hin ?]. split; [|done]. by intros [_ ?]%Hb.
Qed.

Lemma apply_transitions_bans now ts : forall db,
  NoDup ts.*1 ->
  let '(actions, db') := apply_transitions db now ts in
  (forall q, bans db' q -> bans db q \/ exists r, (q, r) ∈ actions /\ is_ready r) /\
  Forall (fun pr => pr.2 <> ResBan TemporaryBan /\
                    ((exists ips, pr.2 = ResUnbanned ips) -> ~ bans db' pr.1)) actions /\
  (forall q, q ∉ ts.*1 -> peers db' !! q = peers db !! q).
Proof.
  induction ts as [|[p t] ts IH]; intros db Hnd; simpl; [by split_and!; [left|constructor|]|].
  apply NoDup_cons in Hnd as [Hp Hnd].
  pose proof (apply_transition_bans db now p t) as Hb.
  destruct (apply_transition db now p t) as [res db1]. destruct Hb as (Hb & Hn & Hu & Hl).
  specialize (IH db1 Hnd). destruct (apply_transitions db1 now ts) as [rest db2].
  destruct IH as (IHb & IHa & IHl). split_and!.
  - intros q [[Hq|[-> Hr]]%Hb|(r & Hin & Hr)]%IHb; [by left|right|right].
    + exists res. split; [|done]. destruct res; try done; set_solver.
    + exists r. split; [|done]. destruct res; set_solver.
  - assert (Forall (fun pr => pr.2 <> ResBan TemporaryBan /\
      ((exists ips, pr.2 = ResUnbanned ips) -> ~ bans db2 pr.1)) ((p, res) :: rest)) as Hall.
    { constructor; [|done]. simpl. split; [done|]. intros Hr. specialize (Hu Hr).
      by rewrite (bans_lookup db1 db2 p (IHl p Hp)). }
    by destruct res.
  - intros q Hq. rewrite IHl by set_solver. apply Hl. set_solver.
Qed.

(** The transitions of the first loop of gossipsub scores concern different peers, and the loop
    changes no status. *)
Lemma gossip_loop_status now ps : forall db n,
  let '(actions, db') := gossip_loop db now n ps in
  sublist actions.*1 ps.*1 /\ no_new_bans db db'.
Proof.
  induction ps as [|[p x] ps IH]; intros db n; simpl; [split; [reflexivity|by intros q]|].
  destruct (peers db !! p) as [i|] eqn:E.
  2: { specialize (IH db n). destruct (gossip_loop db now n ps). destruct IH. split; [by constructor|done]. }
  set (b := _ && _). set (i' := pi_update_gossipsub_score i now x b).
  specialize (IH (put_peer db p i') (if b then n - 1 else n)).
  destruct (gossip_loop (put_peer db p i') now _ ps) as [actions db']. destruct IH as [Hs Hn].
  split; [by constructor|]. eapply no_new_bans_trans; [|exact Hn].
  eapply no_new_bans_put; [done|]. apply profile_gossip.
Qed.

Lemma gossip_bans db now t f :
  let '(actions, db') := update_gossipsub_scores db now t f in
  (forall q, bans db' q -> bans db q \/ exists r, (q, r) ∈ actions /\ is_ready r) /\
  Forall (fun pr => pr.2 <> ResBan TemporaryBan /\
                    ((exists ips, pr.2 = ResUnbanned ips) -> ~ bans db' pr.1)) actions.
Proof.
  unfold update_gossipsub_scores. cbv zeta.
  match goal with |- context [gossip_loop db now ?n ?ps] =>
    pose proof (gossip_loop_status now ps db n) as Hg; assert (NoDup ps.*1) as Hnd end.
  { apply gossip_scored_nodup. }
  destruct (gossip_loop db now _ _) as [ts db1]. destruct Hg as [Hs Hn].
  assert (NoDup ts.*1) as Hnd' by by eapply sublist_NoDup.
  pose proof (apply_transitions_bans now ts db1 Hnd') as Ha.
  destruct (apply_transitions db1 now ts) as [actions db2]. destruct Ha as (Hb & Hf & _).
  split; [|done]. intros q [Hq|?]%Hb; [left; by apply Hn|by right].
Qed.

(** *** Dials that time out and disconnects *)

Lemma List_filter_sublist {A} (f : A -> bool) l : List.filter f l `sublist_of` l.
Proof. induction l as [|x l IH]; simpl; [done|]. destruct (f x); by constructor. Qed.

Lemma cleanup_bans db now : no_new_bans db (cleanup_dialing_peers db now).
Proof.
  unfold cleanup_dialing_peers.
  assert (forall ps db0, NoDup ps ->
    (forall p, p ∈ ps -> exists i, peers db0 !! p = Some i /\ is_dialing i = true) ->
    no_new_bans db0 (fold_left (fun db p => (update_connection_state db now p NewDisconnected).2) ps db0))
    as Hgen.
  { clear db. induction ps as [|p ps IH]; intros db Hnd Hd; cbn [fold_left]; [by intros q|].
    apply NoDup_cons in Hnd as [Hp Hnd].
    destruct (Hd p) as (i & Hi & Hdial); [set_solver|].
    eapply no_new_bans_trans; [|apply IH; [done|]].
    - intros q Hq. destruct (decide (q = p)) as [->|Hne]; [|by rewrite <- bans_lookup; [done|apply ucs_lookup]].
      exfalso. revert Hq. unfold update_connection_state, entry_info. rewrite Hi.
      unfold enter_disconnected, clear_subnets. rewrite status_subnets. unfold is_dialing in Hdial.
      destruct (connection_status i); try done. cbn [snd]. rewrite banned_put. unfold is_banned.
      by rewrite status_set.
    - intros q Hq. rewrite ucs_lookup by (intros ->; done). apply Hd. set_solver. }
  apply Hgen.
  - unfold peers_where. pose proof (NoDup_fst_hash_iter (peers db)) as Hn.
    eapply sublist_NoDup; [exact Hn|]. apply fmap_sublist. apply List_filter_sublist.
  - intros p Hp. apply list_elem_of_fmap in Hp as ([q i] & -> & Hin).
    apply list_elem_of_In, filter_In in Hin as [Hin Ht]. apply list_elem_of_In, elem_of_hash_iter in Hin.
    exists i. split; [done|]. unfold dial_timed_out in Ht. unfold is_dialing. simpl in Ht. by destruct (connection_status i).
Qed.

Lemma shrink_banned_purged fuel : forall db acc acc' db',
  shrink_banned fuel db acc = Some (acc', db') ->
  peers db' ⊆ peers db /\ forall q ips, (q, ips) ∈ acc' -> (q, ips) ∈ acc \/ peers db' !! q = None.
Proof.
  induction fuel as [|fuel IH]; intros db acc acc' db' E; simpl in E;
    destruct (MAX_BANNED_PEERS <? _); simplify_eq; try (by split; [done|by left]).
  destruct (min_by_key _ _) as [[[p i] t]|]; apply IH in E as [Hs Hq]; simpl in Hs.
  - split; [etrans; [exact Hs|apply delete_subseteq]|]. intros q ips Hin.
    destruct (Hq q ips Hin) as [[Hin'|Heq%list_elem_of_singleton]%elem_of_app|?]; [by left| |by right].
    right. injection Heq as -> _. destruct (peers db' !! p) eqn:Ep; [|done].
    eapply lookup_weaken in Ep; [|exact Hs]. by rewrite lookup_delete_eq in Ep.
  - by split.
Qed.

Lemma shrink_disconnected_peers fuel : forall db db',
  shrink_disconnected fuel db = Some db' -> peers db' ⊆ peers db.
Proof.
  induction fuel as [|fuel IH]; intros db db' E; simpl in E; destruct (MAX_DC_PEERS <? _); simplify_eq; try done.
  apply IH in E. simpl in E. destruct (min_by_key _ _) as [[p t]|]; simpl in E; [|done].
  etrans; [exact E|apply delete_subseteq].
Qed.

Lemma inject_disconnect_bans db now p op purged db' :
  inject_disconnect db now p = Some (op, purged, db') ->
  (forall q, bans db' q -> bans db q \/ (q = p /\ ready_to_ban op)) /\
  (op = Some TemporaryBan -> ~ bans db' p) /\
  (forall q ips, (q, ips) ∈ purged -> ~ bans db' q).
Proof.
  unfold inject_disconnect, shrink_to_fit. intros E. pose proof (ucs_bans db now p NewDisconnected) as Hb.
  destruct (update_connection_state db now p NewDisconnected) as [op1 db1]. destruct Hb as (Hb & Ht & _).
  destruct (shrink_banned _ db1 []) as [[purged1 db2]|] eqn:E1; [|done].
  destruct (shrink_disconnected _ db2) as [db3|] eqn:E2; [|done]. simplify_eq.
  apply shrink_banned_purged in E1 as [Hs1 Hq]. apply shrink_disconnected_peers in E2 as Hs2.
  assert (no_new_bans db1 db') as Hn.
  { apply no_new_bans_subseteq. etrans; [exact Hs2|exact Hs1]. }
  split_and!.
  - intros q Hq'. by apply Hb, Hn.
  - intros Hop Hp. apply (Ht Hop). by apply Hn.
  - intros q ips Hin. destruct (Hq q ips Hin) as [?%elem_of_nil|Hnone]; [done|]. intros (i & Hi & _).
    eapply lookup_weaken in Hi; [|exact Hs2]. congruence.
Qed.

Lemma shrink_disconnected_keeps fuel : forall db db' p i,
  shrink_disconnected fuel db = Some db' -> peers db !! p = Some i -> is_disconnected i = false ->
  peers db' !! p = Some i.
Proof.
  induction fuel as [|fuel IH]; intros db db' p i E Hp Hd; simpl in E; destruct (MAX_DC_PEERS <? _);
    simplify_eq; try done.
  eapply IH; [exact E| |done]. simpl. pose proof (oldest_disconnected db) as Ho.
  destruct (min_by_key _ _) as [[q t]|]; [|done]. destruct Ho as (j & Hj & Hjd & _). simpl.
  rewrite lookup_delete_ne; [done|]. intros ->. congruence.
Qed.

(** With room for another ban, a peer that ends up banned stays in the database. *)
Lemma inject_disconnect_keeps db now p op db2 i op' purged db' :
  update_connection_state db now p NewDisconnected = (op, db2) ->
  banned_peers (banned_peers_count db2) <= MAX_BANNED_PEERS ->
  peers db2 !! p = Some i -> is_disconnected i = false ->
  inject_disconnect db now p = Some (op', purged, db') ->
  op' = op /\ purged = [] /\ peers db' !! p = Some i.
Proof.
  intros E Hm Hp Hd. unfold inject_disconnect, shrink_to_fit. rewrite E.
  assert (forall fuel, shrink_banned fuel db2 [] = Some ([], db2)) as ->.
  { intros fuel. destruct fuel; simpl; by rewrite (proj2 (Z.ltb_ge _ _) Hm). }
  destruct (shrink_disconnected _ db2) as [db3|] eqn:E3; [|done]. intros [= <- <- <-].
  split_and!; [done|done|]. by eapply shrink_disconnected_keeps.
Qed.

End ban_lemmas.

(** ** Lemmas: the timers *)

Section timer_lemmas.
Context `{DelaySet} {K : Type} `{Countable K}.

(** Number of expired keys. *)
Definition n_due (now : Instant) (m : gmap K Instant) : Z := map_count (fun kv => kv.2 <= now) m.

Lemma poll_all_total fuel : forall (s : HashSetDelay K) now,
  0 < hs_timeout s -> n_due now (hs_entries s) < Z.of_nat fuel ->
  exists l s', poll_all fuel s now = Some (l, s') /\ hs_timeout s' = hs_timeout s /\
    dom (hs_entries s') = dom (hs_entries s).
Proof.
  induction fuel as [|fuel IH]; intros s now Ht Hn.
  - exfalso. unfold n_due, map_count in Hn. lia.
  - cbn [poll_all]. destruct (poll_delay (hs_entries s) now) as [k|] eqn:Hp; [|by eauto].
    apply poll_delay_Some in Hp as (t & Hk & Hle).
    destruct (IH (hs_insert (hs_remove s k) now k) now) as (l & s' & -> & Hto & Hd).
    + done.
    + unfold n_due in *. simpl. rewrite insert_delete_eq. rewrite (map_count_replace _ _ k t) by done.
      unfold indicator. simpl. rewrite decide_True, decide_False by lia. lia.
    + simpl. eexists _, _. split; [done|]. split; [done|]. rewrite Hd. simpl.
      rewrite insert_delete_eq, dom_insert_lookup_L; [done|by eauto].
Qed.

End timer_lemmas.

(** ** The invariant *)

Section pm_spec.
Context `{ChainTypes} `{Libp2p} `{HashIter} `{FloatExp} `{UnstableSort} `{ThreadRng} `{DelaySet}.
Context `{!TopicCrates} `{!CustodyCrates} `{!EnrFields}.
Implicit Types (m : PeerManager) (p q : PeerId).

(** The peers under a temporary ban. *)
Definition temporary m : gset PeerId := tc_map (temporary_banned_peers m).

Definition timers_positive m : Prop :=
  0 < hs_timeout (inbound_ping_peers m) /\ 0 < hs_timeout (outbound_ping_peers m) /\
  0 < hs_timeout (status_peers m).

Record pm_core (clock : Instant) m : Prop := {
  pc_db : db_inv (pm_db m);
  pc_cache : exists c, represents clock (temporary_banned_peers m) c;
  pc_timers : timers_positive m;
}.

(** Temporary bans and bans of the database do not overlap, except for [R]. *)
Definition apart_but (R : PeerId -> Prop) m : Prop := forall p, p ∈ temporary m -> bans (pm_db m) p -> R p.

Record pm_inv (clock : Instant) m : Prop := {
  pv_core : pm_core clock m;
  pv_apart : forall p, p ∈ temporary m -> ~ bans (pm_db m) p;
}.

(** The queue says that the peer is banned, and nothing else. *)
Definition announced p m : Prop :=
  (exists ips, EvBanned p ips ∈ events m) /\ forall ips, EvUnBanned p ips ∉ events m.

(** The calls of the network service, of the swarm and of other parts of the client. *)
Inductive PmOp :=
  | OpGoodbye (p : PeerId) (reason : GoodbyeReason)
  | OpReport (p : PeerId) (action : PeerAction) (reason : option GoodbyeReason)
  | OpGossipScores (scores : PeerId -> option f64)
  | OpDiscovered (results : gmap Enr (option Instant))
  | OpStatusd (p : PeerId)
  | OpAddSyncSubnet (subnet : SubnetId) (ttl : Instant)
  | OpDial (e : Enr)
  | OpIdentify (p : PeerId) (listen_addrs : list Multiaddr) (agent_version protocol_version : chars)
  | OpRpcError (p : PeerId) (protocol : Protocol) (err : RPCError) (direction : ConnectionDirection)
  | OpPing (p : PeerId) (seq : Z)
  | OpPong (p : PeerId) (seq : Z)
  | OpMetaData (p : PeerId) (md : MetaData)
  | OpDisconnect (p : PeerId) (reason : GoodbyeReason)
  | OpAddTrusted (e : Enr)
  | OpRemoveTrusted (e : Enr)
  | OpPoll
  | OpEstablished (p : PeerId) (endpoint : ConnectedPoint)
  | OpClosed (p : PeerId) (remaining : Z)
  | OpDialFailure (p : option PeerId)
  (** Changes of the shared state by other parts. *)
  | OpGlobalTrust (e : Enr)
  | OpGlobalUntrust (e : Enr)
  | OpGlobalSync (s : SyncState)
  | OpSubscribed (p : PeerId) (subnet : Subnet)
  | OpUnsubscribed (p : PeerId) (subnet : Subnet)
  | OpExtend (subnet : Subnet) (ttl : Instant)
  | OpSyncStatus (p : PeerId) (s : SyncStatus).

(** One call: what [poll] delivers to the swarm, and the new state. *)
Definition pm_step m (now : Instant) (op : PmOp) : option (PollResult * PeerManager) :=
  let quiet new := Some (PollPending, new) in
  let ret r := let* new := r in Some (PollPending, new) in
  match op with
  | OpGoodbye p reason => ret (goodbye_peer m now p reason)
  | OpReport p action reason => ret (pm_report_peer m now p action reason)
  | OpGossipScores scores => ret (pm_update_gossipsub_scores m now scores)
  | OpDiscovered results => quiet (peers_discovered m now results)
  | OpStatusd p => quiet (peer_statusd m now p)
  | OpAddSyncSubnet s ttl => quiet (add_sync_subnet m s ttl)
  | OpDial e => quiet (dial_peer m e).2
  | OpIdentify p la agent proto => quiet (identify m p la agent proto)
  | OpRpcError p proto err dir => ret (handle_rpc_error m now p proto err dir)
  | OpPing p seq => quiet (ping_request m now p seq)
  | OpPong p seq => quiet (pong_response m p seq)
  | OpMetaData p md => let* r := meta_data_response m now p md in Some (PollPending, r.2)
  | OpDisconnect p reason => quiet (disconnect_peer m now p reason)
  | OpAddTrusted e => quiet (pm_add_trusted_peer m e)
  | OpRemoveTrusted e => quiet (pm_remove_trusted_peer m e)
  | OpPoll => pm_poll m now
  | OpEstablished p endpoint => quiet (on_connection_established m now p endpoint)
  | OpClosed p remaining => ret (on_connection_closed m now p remaining)
  | OpDialFailure p => ret (on_dial_failure m now p)
  | OpGlobalTrust e => quiet (set_globals m (g_add_trusted_peer (network_globals m) e))
  | OpGlobalUntrust e => quiet (set_globals m (g_remove_trusted_peer (network_globals m) now e))
  | OpGlobalSync s => quiet (set_globals m (set_sync_state (network_globals m) s).2)
  | OpSubscribed p s => quiet (set_db m (add_subscription (pm_db m) p s))
  | OpUnsubscribed p s => quiet (set_db m (remove_subscription (pm_db m) p s))
  | OpExtend s ttl => quiet (set_db m (extend_peers_on_subnet (pm_db m) s ttl))
  | OpSyncStatus p s => quiet (set_db m (db_update_sync_status (pm_db m) p s).2)
  end.

Fixpoint pm_run m (ops : list (Instant * PmOp)) : option (list PollResult * PeerManager) :=
  match ops with
  | [] => Some ([], m)
  | (now, op) :: ops =>
      let* r := pm_step m now op in
      let* rs := pm_run r.2 ops in
      Some (r.1 :: rs.1, rs.2)
  end.

(** How much a call can add to the size of the database. *)
Definition op_cost (op : PmOp) : Z :=
  match op with OpDiscovered results => 2 * Z.of_nat (size results) | _ => 2 end.

End pm_spec.

(** ** Lemmas: single methods *)

Section pm_lemmas.
Context `{ChainTypes} `{Libp2p} `{HashIter} `{FloatExp} `{UnstableSort} `{ThreadRng} `{DelaySet}.
Context `{!TopicCrates} `{!CustodyCrates} `{!EnrFields}.
Implicit Types (m : PeerManager) (p q : PeerId) (R : PeerId -> Prop).

(** Everything but the events and the database stays as it was, as far as the invariant sees it. *)
Record frame m m' : Prop := {
  fr_db : pm_db m' = pm_db m;
  fr_temp : temporary_banned_peers m' = temporary_banned_peers m;
  fr_timers : timers_positive m -> timers_positive m';
  fr_target : target_peers m' = target_peers m;
}.

Lemma frame_refl m : frame m m.
Proof. by split. Qed.

Lemma frame_trans m1 m2 m3 : frame m1 m2 -> frame m2 m3 -> frame m1 m3.
Proof. intros [] []. split; try congruence; auto. Qed.

Lemma frame_events m l : frame m (set_events m l).
Proof. by destruct m. Qed.
Lemma frame_push m e : frame m (push_event m e).
Proof. apply frame_events. Qed.
Lemma frame_dial m l : frame m (set_dial m l).
Proof. by destruct m. Qed.
Lemma frame_sync m l : frame m (set_sync_subnets m l).
Proof. by destruct m. Qed.
Lemma frame_heartbeat m t : frame m (set_heartbeat m t).
Proof. by destruct m. Qed.
Lemma frame_trusted m l : frame m (set_trusted m l).
Proof. by destruct m. Qed.
Lemma frame_inbound m s : hs_timeout s = hs_timeout (inbound_ping_peers m) -> frame m (set_inbound m s).
Proof. intros Hs. destruct m. split; try done. unfold timers_positive. simpl in *. by rewrite Hs. Qed.
Lemma frame_outbound m s : hs_timeout s = hs_timeout (outbound_ping_peers m) -> frame m (set_outbound m s).
Proof. intros Hs. destruct m. split; try done. unfold timers_positive. simpl in *. by rewrite Hs. Qed.
Lemma frame_status m s : hs_timeout s = hs_timeout (status_peers m) -> frame m (set_status m s).
Proof. intros Hs. destruct m. split; try done. unfold timers_positive. simpl in *. by rewrite Hs. Qed.

Lemma frame_core clock m m' : frame m m' -> pm_core clock m -> pm_core clock m'.
Proof. intros [Hd Ht Hs] [? ? ?]. split; [by rewrite Hd|by rewrite Ht|by apply Hs]. Qed.

Lemma frame_apart R m m' : frame m m' -> apart_but R m -> apart_but R m'.
Proof. intros [Hd Ht _] Ha p. unfold temporary. rewrite Hd, Ht. apply Ha. Qed.

Lemma inv_apart clock m : pm_inv clock m <-> pm_core clock m /\ apart_but (fun _ => False) m.
Proof.
  split; [intros [Hc Ha]|intros [Hc Ha]]; split; try done.
Qed.

Lemma frame_inv clock m m' : frame m m' -> pm_inv clock m -> pm_inv clock m'.
Proof.
  rewrite !inv_apart. intros Hf [? ?]. split; [by eapply frame_core|by eapply frame_apart].
Qed.

Lemma later clock now m : clock <= now -> pm_core clock m -> pm_core now m.
Proof.
  intros Hle [? (c & [? ? ? ? Hp]) ?]. split; try done. exists c. split; try done.
  eapply Forall_impl; [exact Hp|]. simpl. lia.
Qed.

Lemma pm_db_set_db m db : pm_db (set_db m db) = db.
Proof. by destruct m. Qed.

(** A new database that bans nobody outside [R]. *)
Lemma set_db_core clock m db : pm_core clock m -> db_inv db -> pm_core clock (set_db m db).
Proof. intros [? ? ?] Hdb. destruct m. split; done. Qed.

Lemma set_db_apart R m db :
  (forall q, bans db q -> bans (pm_db m) q \/ R q) -> apart_but (fun _ => False) m -> apart_but R (set_db m db).
Proof.
  intros Hb Ha p Hp Hbp. rewrite pm_db_set_db in Hbp. destruct (Hb p Hbp) as [Hold|?]; [|done].
  exfalso. apply (Ha p); [|done]. by destruct m.
Qed.

Lemma set_db_inv clock m db :
  pm_inv clock m -> db_inv db -> no_new_bans (pm_db m) db -> pm_inv clock (set_db m db).
Proof.
  rewrite !inv_apart. intros [Hc Ha] Hdb Hn. split; [by apply set_db_core|].
  apply set_db_apart; [|done]. intros q Hq. left. by apply Hn.
Qed.

(** *** The ban operation *)

Lemma temporary_insert clock now m p :
  pm_core clock m -> clock <= now ->
  exists r, raw_insert (temporary_banned_peers m) now p = Some r /\
    pm_core now (set_temporary m r.2) /\ temporary (set_temporary m r.2) = {[p]} ∪ temporary m.
Proof.
  intros [Hdb (c & Hc) Ht] Hle. destruct (raw_insert_spec _ now _ _ p Hc Hle) as (c' & -> & _ & Hr).
  eexists. split; [done|]. destruct m. split.
  - split; try done. simpl. by eauto.
  - unfold temporary. simpl in *. rewrite (rep_set _ _ _ Hr), (rep_set _ _ _ Hc). by rewrite dom_insert_L.
Qed.

Lemma temporary_remove clock m p :
  pm_core clock m ->
  exists r, raw_remove (temporary_banned_peers m) p = Some r /\ r.1 = bool_decide (p ∈ temporary m) /\
    pm_core clock (set_temporary m r.2) /\ temporary (set_temporary m r.2) = temporary m ∖ {[p]}.
Proof.
  intros [Hdb (c & Hc) Ht].
  destruct (raw_remove_spec clock clock _ _ p Hc ltac:(lia)) as (c' & -> & _ & Hr).
  eexists. split; [done|]. destruct m. simpl in *. split_and!.
  - unfold temporary. simpl. rewrite (rep_set _ _ _ Hc). apply bool_decide_ext.
    by rewrite elem_of_dom, <- not_eq_None_Some.
  - split; try done. simpl. by eauto.
  - unfold temporary. simpl. rewrite (rep_set _ _ _ Hr), (rep_set _ _ _ Hc). by rewrite dom_delete_L.
Qed.

Lemma temporary_expire clock now m :
  pm_core clock m ->
  let r := remove_expired (temporary_banned_peers m) now in
  pm_core clock (set_temporary m r.2) /\ temporary (set_temporary m r.2) ⊆ temporary m /\
  forall p, p ∈ r.1 -> p ∈ temporary m.
Proof.
  intros [Hdb (c & Hc) Ht]. pose proof (remove_expired_spec clock now _ _ Hc) as Hr. simpl in Hr.
  destruct Hr as (Hks & _ & _ & Hr).
  assert (dom (live (tc_ttl (temporary_banned_peers m)) now c) ⊆ dom c) as Hsub.
  { apply subseteq_dom, map_filter_subseteq. }
  split_and!.
  - destruct m. split; try done. simpl in *. by eauto.
  - destruct m. unfold temporary. simpl in *. rewrite (rep_set _ _ _ Hr), (rep_set _ _ _ Hc). done.
  - intros p Hp. unfold temporary. rewrite (rep_set _ _ _ Hc).
    assert (p ∈ (list_to_set (remove_expired (temporary_banned_peers m) now).1 : gset PeerId)) as Hin
      by by apply elem_of_list_to_set.
    rewrite Hks in Hin. set_solver.
Qed.

(** What a method that does not touch the database does to the rest: it resolves the overlap for
    the peers of [S], keeps announcements of banned peers, and adds at most [T] to the temporary bans. *)
Record resolves (now : Instant) (S T : PeerId -> Prop) m m' : Prop := {
  rs_core : pm_core now m';
  rs_db : pm_db m' = pm_db m;
  rs_target : target_peers m' = target_peers m;
  rs_apart : forall R, apart_but R m -> apart_but (fun q => R q /\ ~ S q) m';
  rs_ready : forall q, S q -> bans (pm_db m) q -> q ∈ temporary m \/ announced q m';
  rs_announced : forall q, bans (pm_db m) q -> announced q m -> announced q m';
  rs_temporary : forall q, q ∈ temporary m' -> q ∈ temporary m \/ T q;
}.

Lemma announced_push q m e :
  announced q m -> is_unbanned_event q e = false -> announced q (push_event m e).
Proof.
  intros [(ips & Hin) Hno] He. unfold push_event, announced. destruct m; simpl in *. split; [exists ips; set_solver|].
  intros ips' [Hin'|Heq%list_elem_of_singleton]%elem_of_app; [by apply (Hno ips')|]. subst e. simpl in He.
  by rewrite bool_decide_true in He.
Qed.

Lemma resolves_frame clock now m m' :
  pm_core clock m -> clock <= now -> frame m m' ->
  (forall q, bans (pm_db m) q -> announced q m -> announced q m') ->
  resolves now (fun _ => False) (fun _ => False) m m'.
Proof.
  intros Hc Hle Hf Ha. split; [|apply Hf|apply Hf| |done|done|].
  - eapply frame_core; [done|]. by eapply later.
  - intros R HR. pose proof (frame_apart R m m' Hf HR) as HR'. intros q Hq Hb. split; [by apply HR'|tauto].
  - intros q. unfold temporary. rewrite (fr_temp _ _ Hf). by left.
Qed.

Lemma resolves_weaken now (S S' T T' : PeerId -> Prop) m m' :
  (forall q, S q <-> S' q) -> (forall q, T q -> T' q) -> resolves now S T m m' -> resolves now S' T' m m'.
Proof.
  intros HS HT [? ? ? Ha Hr ? Ht]. split; try done.
  - intros R HR q Hq Hb. rewrite <- HS. by apply Ha.
  - intros q Hq. apply Hr. by apply HS.
  - intros q Hq. destruct (Ht q Hq); [by left|right; by apply HT].
Qed.

Lemma resolves_ready clock now m p ips :
  pm_core clock m -> clock <= now ->
  exists m', handle_ban_operation m now p (ReadyToBan ips) None = Some m' /\
    resolves now (fun q => q = p) (fun _ => False) m m'.
Proof.
  intros Hc Hle. unfold handle_ban_operation.
  destruct (temporary_remove clock m p Hc) as (r & -> & Hr & Hc' & Ht).
  assert (pm_db (set_temporary m r.2) = pm_db m) as Hdb by by destruct m.
  assert (target_peers (set_temporary m r.2) = target_peers m) as Htg by by destruct m.
  assert (events (set_temporary m r.2) = events m) as Hev by by destruct m.
  set (m1 := set_temporary m r.2) in *. clearbody m1.
  assert (forall R, apart_but R m -> apart_but (fun q => R q /\ q <> p) m1) as Hap.
  { intros R HR q. rewrite Ht, Hdb. intros [Hq Hne]%elem_of_difference Hb. split; [by apply HR|set_solver]. }
  destruct r.1; symmetry in Hr.
  - apply bool_decide_eq_true in Hr. exists m1. split; [done|]. split; try done.
    + by eapply later.
    + intros q -> _. by left.
    + intros q _. unfold announced. by rewrite Hev.
    + intros q. rewrite Ht. set_solver.
  - set (f := fun e => negb (is_unbanned_event p e)).
    set (m2 := set_events (push_event m1 (EvBanned p ips)) _). exists m2. split; [done|].
    assert (frame m1 m2) as Hf by (eapply frame_trans; [apply frame_push|apply frame_events]).
    assert (events m2 = List.filter f (events m1 ++ [EvBanned p ips])) as He2 by by destruct m1.
    assert (forall e, e ∈ events m2 <-> (e ∈ events m \/ e = EvBanned p ips) /\ is_unbanned_event p e = false)
      as Hin.
    { intros e. rewrite He2, Hev, list_elem_of_In, filter_In, <- list_elem_of_In, elem_of_app,
        list_elem_of_singleton. unfold f. by rewrite negb_true_iff. }
    split.
    + eapply frame_core; [done|]. by eapply later.
    + by rewrite (fr_db _ _ Hf).
    + by rewrite (fr_target _ _ Hf).
    + intros R HR. eapply frame_apart; [done|]. by apply Hap.
    + intros q -> _. right. split; [exists ips; apply Hin; by eauto|].
      intros ips' Hu. apply Hin in Hu as [_ Hu]. simpl in Hu. by rewrite bool_decide_true in Hu.
    + intros q _ [(ips' & Hb) Hno]. split; [exists ips'; apply Hin; by eauto|].
      intros ips'' Hu. apply Hin in Hu as [[Hu|[=]] _]. by apply (Hno ips'').
    + intros q. unfold temporary. rewrite (fr_temp _ _ Hf). fold (temporary m1). rewrite Ht. set_solver.
Qed.

Lemma handle_ban_operation_reason m now p ips r1 r2 :
  handle_ban_operation m now p (ReadyToBan ips) r1 = handle_ban_operation m now p (ReadyToBan ips) r2.
Proof. done. Qed.

Lemma ban_operation_resolves clock now m p op reason :
  pm_core clock m -> clock <= now -> (op = TemporaryBan -> ~ bans (pm_db m) p) ->
  exists m', handle_ban_operation m now p op reason = Some m' /\
    resolves now (fun q => q = p /\ ready_to_ban (Some op)) (fun q => q = p /\ op = TemporaryBan) m m'.
Proof.
  intros Hc Hle Hop. destruct op as [| |ips|].
  - unfold handle_ban_operation. destruct (target_peers m <=? _).
    2: { exists m. split; [done|]. eapply resolves_weaken, (resolves_frame clock now m m Hc Hle (frame_refl m));
         [|done|done]. naive_solver. }
    destruct (temporary_insert clock now m p Hc Hle) as (r & -> & Hc' & Ht).
    assert (pm_db (set_temporary m r.2) = pm_db m) as Hdb by by destruct m.
    assert (target_peers (set_temporary m r.2) = target_peers m) as Htg by by destruct m.
    assert (events (set_temporary m r.2) = events m) as Hev by by destruct m.
    set (m1 := set_temporary m r.2) in *. clearbody m1.
    pose proof (frame_push m1 (EvBanned p [])) as Hf. eexists. split; [done|]. split.
    + by eapply frame_core.
    + by rewrite (fr_db _ _ Hf).
    + by rewrite (fr_target _ _ Hf).
    + intros R HR. eapply frame_apart; [done|]. intros q. rewrite Ht, Hdb.
      intros [->%elem_of_singleton|Hq]%elem_of_union Hb; [by specialize (Hop eq_refl)|].
      split; [by apply HR|by intros [_ []]].
    + by intros q [_ []].
    + intros q _ Ha. apply announced_push; [|done]. unfold announced in *. by rewrite Hev.
    + intros q. unfold temporary. rewrite (fr_temp _ _ Hf). fold (temporary m1). rewrite Ht. set_solver.
  - eexists. split; [done|].
    eapply resolves_weaken, (resolves_frame clock now m _ Hc Hle (frame_push _ _)); [naive_solver|done|].
    intros q _ Ha. by apply announced_push.
  - rewrite (handle_ban_operation_reason _ _ _ _ _ None).
    destruct (resolves_ready clock now m p ips Hc Hle) as (m' & -> & Hm'). exists m'. split; [done|].
    eapply resolves_weaken, Hm'; [|done]. simpl. naive_solver.
  - exists m. split; [done|]. eapply resolves_weaken, (resolves_frame clock now m m Hc Hle (frame_refl m));
      [|done|done]. naive_solver.
Qed.

Definition action_fits (db : PeerDB) (pr : PeerId * ScoreUpdateResult) : Prop :=
  pr.2 <> ResBan TemporaryBan /\ ((exists ips, pr.2 = ResUnbanned ips) -> ~ bans db pr.1).

Lemma score_action_resolves clock now m p a reason :
  pm_core clock m -> clock <= now -> action_fits (pm_db m) (p, a) ->
  exists m', handle_score_action m now p a reason = Some m' /\
    resolves now (fun q => q = p /\ is_ready a) (fun _ => False) m m'.
Proof.
  intros Hc Hle [Hn Hu]. simpl in *. destruct a as [op| |ips|]; simpl.
  - destruct (ban_operation_resolves clock now m p op reason Hc Hle) as (m' & -> & Hm'); [by intros ->|].
    exists m'. split; [done|]. eapply resolves_weaken, Hm'; [done|]. intros q [_ ->]. by destruct Hn.
  - eexists. split; [done|]. eapply resolves_weaken, (resolves_frame clock now m _ Hc Hle);
      [naive_solver|done|by destruct m|].
    intros q _ Ha. apply announced_push; [|done]. unfold announced in *. by destruct m.
  - eexists. split; [done|]. eapply resolves_weaken, (resolves_frame clock now m _ Hc Hle);
      [naive_solver|done|apply frame_push|].
    intros q Hb Ha. apply announced_push; [done|]. simpl. apply bool_decide_eq_false.
    intros <-. by apply Hu; eauto.
  - exists m. split; [done|]. eapply resolves_weaken, (resolves_frame clock now m m Hc Hle (frame_refl m));
      [|done|done]. naive_solver.
Qed.

Lemma score_actions_resolves now l : forall clock m,
  pm_core clock m -> clock <= now -> Forall (action_fits (pm_db m)) l ->
  exists m', handle_score_actions m now l = Some m' /\
    resolves now (fun q => exists r, (q, r) ∈ l /\ is_ready r) (fun _ => False) m m'.
Proof.
  induction l as [|[p a] l IH]; intros clock m Hc Hle Hl; cbn [handle_score_actions].
  - exists m. split; [done|]. eapply resolves_weaken, (resolves_frame clock now m m Hc Hle (frame_refl m));
      [|done|done]. set_solver.
  - apply Forall_cons in Hl as [Ha Hl].
    destruct (score_action_resolves clock now m p a None Hc Hle Ha) as (m1 & -> & H1').
    destruct (IH now m1) as (m2 & -> & H2').
    { apply H1'. } { lia. } { by rewrite (rs_db _ _ _ _ _ H1'). }
    exists m2. split; [done|]. destruct H1' as [? Hdb Htg Hap Hr Han Ht], H2' as [? Hdb' Htg' Hap' Hr' Han' Ht'].
    rewrite Hdb in *. split; try congruence.
    + intros R HR q Hq Hb. rewrite Hdb' in Hb.
      destruct (Hap' _ (Hap R HR) q Hq) as [[HRq Hnp] Hnl]; [by rewrite Hdb'|]. split; [done|].
      intros (r & [Heq|Hin]%elem_of_cons & Hready); [injection Heq as -> ->; by apply Hnp|]. eauto.
    + intros q (r & [Heq|Hin]%elem_of_cons & Hready) Hb.
      * injection Heq as -> ->. destruct (Hr p) as [?|Hann]; [done|done|by left|]. right. by apply Han'.
      * destruct (Hr' q) as [Hq|?]; [by eauto|done| |by right]. destruct (Ht q Hq); [by left|done].
    + intros q Hb Hq. apply Han'; [done|]. by apply Han.
    + intros q Hq. destruct (Ht' q Hq) as [Hq'|[]]. by apply Ht.
Qed.

(** A method that changes the database and then resolves what the change asks for. *)
Record step_ok (w : Z) (clock now : Instant) m m' : Prop := {
  so_inv : pm_inv now m';
  so_weight : db_weight (pm_db m') <= db_weight (pm_db m) + w;
  so_announced : forall q, bans (pm_db m') q ->
    bans (pm_db m) q \/ q ∈ temporary m \/ announced q m';
}.

Lemma resolved_step w clock now m db m' (S T : PeerId -> Prop) :
  pm_inv clock m -> db_weight db <= db_weight (pm_db m) + w ->
  (forall q, bans db q -> bans (pm_db m) q \/ S q) ->
  resolves now S T (set_db m db) m' -> step_ok w clock now m m'.
Proof.
  rewrite inv_apart. intros [Hc Ha] Hw Hb [Hcore Hdb _ Hap Hr Han Ht]. rewrite pm_db_set_db in Hdb.
  split.
  - apply inv_apart. split; [done|]. specialize (Hap S (set_db_apart S m db Hb Ha)).
    intros q Hq Hbq. destruct (Hap q Hq Hbq). tauto.
  - by rewrite Hdb.
  - intros q Hq. rewrite Hdb in Hq. destruct (Hb q Hq) as [?|HS]; [by left|]. right.
    destruct (Hr q HS) as [Hq'|?]; [by rewrite pm_db_set_db| |by right]. left. by destruct m.
Qed.

(** A method that bans nobody. *)
Record quiet_step (w : Z) (now : Instant) m m' : Prop := {
  qs_inv : pm_inv now m';
  qs_weight : db_weight (pm_db m') <= db_weight (pm_db m) + w;
  qs_bans : no_new_bans (pm_db m) (pm_db m');
}.

Lemma quiet_ok w clock now m m' : quiet_step w now m m' -> step_ok w clock now m m'.
Proof. intros [? ? Hn]. split; [done|done|]. intros q Hq. left. by apply Hn. Qed.

Lemma quiet_trans w1 w2 now m1 m2 m3 :
  quiet_step w1 now m1 m2 -> quiet_step w2 now m2 m3 -> quiet_step (w1 + w2) now m1 m3.
Proof. intros [_ H1' H2'] [H3' H4' H5']. split; [done|lia|]. by eapply no_new_bans_trans. Qed.

Lemma quiet_weaken w w' now m m' : w <= w' -> quiet_step w now m m' -> quiet_step w' now m m'.
Proof. intros Hle [? ? ?]. split; [done|lia|done]. Qed.

Lemma quiet_frame w now m m' : 0 <= w -> pm_inv now m -> frame m m' -> quiet_step w now m m'.
Proof.
  intros Hw Hi Hf. split; [by eapply frame_inv|rewrite (fr_db _ _ Hf); lia|].
  rewrite (fr_db _ _ Hf). by intros q.
Qed.

Lemma quiet_db w now m db :
  pm_inv now m -> db_inv db -> db_weight db <= db_weight (pm_db m) + w -> no_new_bans (pm_db m) db ->
  quiet_step w now m (set_db m db).
Proof. intros Hi Hdb Hw Hn. split; [by apply set_db_inv|by rewrite pm_db_set_db|by rewrite pm_db_set_db]. Qed.

(** A database call that bans nobody, followed by changes of other parts. *)
Lemma quiet_call now m m' op db :
  pm_inv now m -> db_weight (pm_db m) + 2 <= USIZE_MAX -> db_step (pm_db m) op = Some db ->
  no_new_bans (pm_db m) db -> frame (set_db m db) m' -> quiet_step 2 now m m'.
Proof.
  intros Hi Hw E Hn Hf.
  destruct (inv_db_step (pm_db m) op) as (db' & E' & Hdb & Hwt); [apply Hi|done|].
  rewrite E in E'. injection E' as <-. replace 2 with (2 + 0) by lia.
  eapply quiet_trans; [by apply quiet_db|]. apply quiet_frame; [lia|by apply set_db_inv|done].
Qed.

Lemma inv_later clock now m : clock <= now -> pm_inv clock m -> pm_inv now m.
Proof. intros Hle [? ?]. split; [by eapply later|done]. Qed.

(** A quiet method before another. *)
Lemma step_after w1 w2 clock now m m1 m' :
  quiet_step w1 now m m1 -> temporary m1 = temporary m -> step_ok w2 clock now m1 m' ->
  step_ok (w1 + w2) clock now m m'.
Proof.
  intros [_ Hw Hn] Ht [Hi Hw' Ha]. split; [done|lia|]. intros q Hq.
  destruct (Ha q Hq) as [?|[?|?]]; [left; by apply Hn|right; left; by rewrite <- Ht|by right; right].
Qed.

Lemma report_step clock now m p a reason :
  pm_inv clock m -> clock <= now -> db_weight (pm_db m) + 2 <= USIZE_MAX ->
  exists m', pm_report_peer m now p a reason = Some m' /\ step_ok 2 clock now m m'.
Proof.
  intros Hi Hle Hw. unfold pm_report_peer.
  destruct (inv_db_step (pm_db m) (DReport now p a)) as (db & E & Hdb & Hwt); [apply Hi|done|].
  cbn [db_step] in E. pose proof (report_peer_bans (pm_db m) now p a) as Hb.
  destruct (report_peer (pm_db m) now p a) as [res db']. injection E as ->. destruct Hb as (Hb & Hn & Hu).
  destruct (score_action_resolves clock now (set_db m db) p res reason) as (m' & -> & Hm').
  - apply set_db_core; [apply Hi|done].
  - done.
  - split; [done|]. simpl. intros [ips ->]. by destruct (Hu ips).
  - exists m'. split; [done|]. eapply resolved_step; [exact Hi|exact Hwt|exact Hb|exact Hm'].
Qed.

(** Edits of an entry that keep its status, addresses and trust. *)
Lemma quiet_edit now m p i i' :
  pm_inv now m -> peers (pm_db m) !! p = Some i -> same_profile i i' ->
  quiet_step 0 now m (set_db m (put_peer (pm_db m) p i')).
Proof.
  intros Hi Hp Hs. apply quiet_db; [done| | |].
  - apply (inv_put (pm_db m) p i i'); [apply Hi|done|done].
  - rewrite (weight_replace _ p i i' Hp); [lia|apply Hs].
  - eapply no_new_bans_put; [done|apply Hs].
Qed.

Lemma temporary_set_db m db : temporary (set_db m db) = temporary m.
Proof. by destruct m. Qed.

Lemma goodbye_step clock now m p reason :
  pm_inv clock m -> clock <= now -> db_weight (pm_db m) + 2 <= USIZE_MAX ->
  exists m', goodbye_peer m now p reason = Some m' /\ step_ok 2 clock now m m'.
Proof.
  intros Hi Hle Hw. unfold goodbye_peer, mark_irrelevant. apply (inv_later _ now) in Hi; [|done].
  case_decide as Hr.
  2: { destruct (report_step now now m p Fatal (Some reason)) as (m' & -> & [? ? ?]);
         [done|lia|done|]. exists m'. split; [done|]. by split. }
  unfold db_update_sync_status. destruct (peers (pm_db m) !! p) as [i|] eqn:Hp.
  - pose proof (profile_sync i IrrelevantPeer) as Hs.
    destruct (pi_update_sync_status i IrrelevantPeer) as [ch i']. cbn [snd] in *.
    pose proof (quiet_edit now m p i i' Hi Hp Hs) as Hq.
    destruct (report_step now now (set_db m (put_peer (pm_db m) p i')) p Fatal (Some reason)) as (m' & -> & Hs').
    + apply Hq. + lia. + destruct Hq as [_ ? _]. lia.
    + exists m'. split; [done|]. replace 2 with (0 + 2) by lia.
      pose proof (step_after 0 2 now now m _ m' Hq (temporary_set_db m _) Hs') as [? ? ?]. by split.
  - cbn [snd]. assert (set_db m (pm_db m) = m) as -> by by destruct m as [[]].
    destruct (report_step now now m p Fatal (Some reason)) as (m' & -> & [? ? ?]); [done|lia|done|].
    exists m'. split; [done|]. by split.
Qed.

Lemma metadata_step clock now m p md :
  pm_inv clock m -> clock <= now -> db_weight (pm_db m) + 2 <= USIZE_MAX ->
  exists r, meta_data_response m now p md = Some r /\ step_ok 2 clock now m r.2.
Proof.
  intros Hi Hle Hw. unfold meta_data_response. apply (inv_later _ now) in Hi; [|done].
  assert (forall b m', quiet_step 0 now m m' -> exists r, Some (b : bool, m') = Some r /\ step_ok 2 clock now m r.2)
    as Hdone.
  { intros b m' Hq. eexists. split; [done|]. eapply quiet_ok, quiet_weaken; [|done]. lia. }
  destruct (peers (pm_db m) !! p) as [i|] eqn:Hp; [|by apply Hdone, quiet_frame].
  assert (quiet_step 0 now m (set_db m (put_peer (pm_db m) p (set_meta_data i md)))) as Hq.
  { apply (quiet_edit now m p i); [done|done|]. exact (profile_edit i (EditMetaData md)). }
  cbv zeta. destruct (config_is_peerdas_scheduled _); [|by apply Hdone].
  destruct (custody_group_count md) as [count|]; [|by apply Hdone].
  destruct (compute_peer_custody_groups m p count) as [groups|].
  - apply Hdone. apply (quiet_edit now m p i); [done|done|].
    pose proof (profile_edit i (EditMetaData md)) as [H1' H2' H3' H4'].
    pose proof (profile_edit (set_meta_data i md) (EditCustody (groups_subnets m groups))) as [H1'' H2'' H3'' H4''].
    simpl in *. split; [congruence|congruence|tauto|congruence].
  - destruct (goodbye_step now now (set_db m (put_peer (pm_db m) p (set_meta_data i md))) p GoodbyeReason.Fault)
      as (m' & -> & Hs').
    + apply Hq. + lia. + destruct Hq as [_ ? _]. lia.
    + eexists. split; [done|]. cbn [snd].
      pose proof (step_after 0 2 now now m _ m' Hq (temporary_set_db m _) Hs') as [? ? ?]. by split.
Qed.

Lemma gossip_step clock now m f :
  pm_inv clock m -> clock <= now -> db_weight (pm_db m) + 2 <= USIZE_MAX ->
  exists m', pm_update_gossipsub_scores m now f = Some m' /\ step_ok 2 clock now m m'.
Proof.
  intros Hi Hle Hw. unfold pm_update_gossipsub_scores.
  destruct (inv_db_step (pm_db m) (DGossip now (target_peers m) f)) as (db & E & Hdb & Hwt); [apply Hi|done|].
  cbn [db_step] in E. pose proof (gossip_bans (pm_db m) now (target_peers m) f) as Hb.
  destruct (update_gossipsub_scores (pm_db m) now (target_peers m) f) as [actions db'].
  injection E as ->. destruct Hb as (Hb & Hf).
  destruct (score_actions_resolves now actions clock (set_db m db)) as (m' & -> & Hm').
  - apply set_db_core; [apply Hi|done].
  - done.
  - rewrite pm_db_set_db. exact Hf.
  - exists m'. split; [done|]. eapply resolved_step; [exact Hi|exact Hwt|exact Hb|exact Hm'].
Qed.

Lemma resolves_then now (S T : PeerId -> Prop) m m1 m2 :
  resolves now S T m m1 -> frame m1 m2 ->
  (forall q, bans (pm_db m) q -> announced q m1 -> announced q m2) -> resolves now S T m m2.
Proof.
  intros [Hc Hdb Htg Hap Hr Han Ht] Hf Ha. split.
  - by eapply frame_core.
  - by rewrite (fr_db _ _ Hf).
  - by rewrite (fr_target _ _ Hf).
  - intros R HR. eapply frame_apart; [done|]. by apply Hap.
  - intros q Hq Hb. destruct (Hr q Hq Hb); [by left|right; by apply Ha].
  - intros q Hb Hq. apply Ha; [done|]. by apply Han.
  - intros q. unfold temporary. rewrite (fr_temp _ _ Hf). apply Ht.
Qed.

Lemma disconnect_step clock now m p :
  pm_inv clock m -> clock <= now -> db_weight (pm_db m) + 2 <= USIZE_MAX ->
  exists m', pm_inject_disconnect m now p = Some m' /\ step_ok 2 clock now m m'.
Proof.
  intros Hi Hle Hw. unfold pm_inject_disconnect.
  destruct (inv_inject_disconnect (pm_db m) now p) as (op & purged & db & E & Hdb & _ & _ & Hwt); [apply Hi|lia|].
  rewrite E. cbn [fst snd]. destruct (inject_disconnect_bans _ _ _ _ _ _ E) as (Hb & Ht & Hp).
  assert (exists m1, match op with Some op => handle_ban_operation (set_db m db) now p op None
      | None => Some (set_db m db) end = Some m1 /\
    resolves now (fun q => q = p /\ ready_to_ban op) (fun _ => True) (set_db m db) m1) as (m1 & -> & H1').
  { assert (pm_core clock (set_db m db)) as Hc by (apply set_db_core; [apply Hi|done]).
    destruct op as [op|].
    - destruct (ban_operation_resolves clock now (set_db m db) p op None Hc Hle) as (m1 & -> & H1').
      { intros ->. rewrite pm_db_set_db. by apply Ht. }
      exists m1. split; [done|]. eapply resolves_weaken, H1'; [done|done].
    - exists (set_db m db). split; [done|].
      eapply resolves_weaken, (resolves_frame clock now _ _ Hc Hle (frame_refl _)); [|done|done]. naive_solver. }
  eexists. split; [done|]. eapply resolved_step; [exact Hi|exact Hwt|exact Hb|].
  eapply resolves_then; [exact H1'|by destruct m1|].
  intros q Hq [(ips & Hin) Hno]. rewrite pm_db_set_db in Hq.
  assert (announced q (set_events m1 (events m1 ++ map (fun kv => EvUnBanned kv.1 kv.2) purged))) as [H3' H4'].
  { split; [exists ips; destruct m1; simpl in *; set_solver|]. intros ips' Hu.
    assert (EvUnBanned q ips' ∈ events m1 ++ map (fun kv => EvUnBanned kv.1 kv.2) purged) as Hu' by by destruct m1.
    apply elem_of_app in Hu' as [?|Hu']; [by apply (Hno ips')|].
    apply list_elem_of_fmap in Hu' as ([q' ips''] & [= -> ->] & Hin'). by apply (Hp q' ips''). }
  destruct m1. by split.
Qed.

(** *** Methods that ban nobody *)

Lemma frame_db_set m db : frame (set_db m db) (set_db m db).
Proof. apply frame_refl. Qed.

Lemma dial_frame m e : frame m (dial_peer m e).2.
Proof. unfold dial_peer. case_match; [apply frame_dial|apply frame_refl]. Qed.

Lemma maintain_count_frame m n : frame m (maintain_peer_count m n).
Proof. unfold maintain_peer_count. repeat case_match; apply frame_push || apply frame_refl. Qed.

Lemma push_query_frame m l : frame m (push_subnet_query m l).
Proof. destruct l; [apply frame_refl|apply frame_push]. Qed.

Lemma trusted_frame l : forall m, frame m (fold_left (fun m e => (dial_peer m e).2) l m).
Proof.
  induction l as [|e l IH]; intros m; simpl; [apply frame_refl|].
  eapply frame_trans; [apply dial_frame|apply IH].
Qed.

Lemma request_frame m p i seq : frame m (request_metadata m p i seq).
Proof. unfold request_metadata. repeat case_match; apply frame_push || apply frame_refl. Qed.

Lemma discovered_quiet now n results : forall m k,
  pm_inv now m -> db_weight (pm_db m) + 2 * Z.of_nat (length results) <= USIZE_MAX ->
  quiet_step (2 * Z.of_nat (length results)) now m (dial_discovered m now n k results).2.
Proof.
  induction results as [|[e ttl] results IH]; intros m k Hi Hw; cbn [dial_discovered length];
    [by apply quiet_frame; [lia|..|apply frame_refl]|]. simpl length in Hw.
  set (wanted := negb _ && _). destruct wanted.
  2: { eapply quiet_weaken, IH; [lia|done|lia]. }
  set (m1 := match ttl with Some t => _ | None => m end).
  assert (quiet_step 2 now m m1) as H1'.
  { unfold m1. destruct ttl as [t|]; [|by apply quiet_frame; [lia|..|apply frame_refl]].
    eapply (quiet_call now m _ (DMinTtl now (enr_peer_id e) t)); [done|lia|done| |apply frame_refl].
    unfold update_min_ttl. destruct (peers (pm_db m) !! enr_peer_id e) as [i|] eqn:Hp.
    - eapply no_new_bans_put; [done|]. apply profile_ttl.
    - apply no_new_bans_new. unfold is_banned. by rewrite (sp_status _ _ (profile_ttl (PeerInfo_default now) t)). }
  clearbody m1. destruct H1' as [Hi1 Hw1 Hn1].
  pose proof (dial_frame m1 e) as Hf. destruct (dial_peer m1 e) as [dialed m2]. cbn [snd] in Hf.
  replace (2 * Z.of_nat (S (length results))) with (2 + 2 * Z.of_nat (length results)) by lia.
  eapply quiet_trans; [split; [exact Hi1|exact Hw1|exact Hn1]|].
  replace (2 * Z.of_nat (length results)) with (0 + 2 * Z.of_nat (length results)) by lia.
  eapply quiet_trans; [by apply quiet_frame|]. apply IH; [by eapply frame_inv|].
  rewrite (fr_db _ _ Hf). lia.
Qed.

Lemma disconnect_quiet now m p reason :
  pm_inv now m -> db_weight (pm_db m) + 2 <= USIZE_MAX ->
  quiet_step 2 now m (disconnect_peer m now p reason) /\
  (is_Some (peers (pm_db m) !! p) -> quiet_step 0 now m (disconnect_peer m now p reason) /\
     forall q, is_Some (peers (pm_db m) !! q) -> is_Some (peers (pm_db (disconnect_peer m now p reason)) !! q)).
Proof.
  intros Hi Hw. unfold disconnect_peer.
  assert (pm_db (push_event m (EvDisconnectPeer p reason)) = pm_db m) as Hdb by apply frame_push.
  rewrite Hdb. set (db := notify_disconnecting (pm_db m) now p false).
  assert (no_new_bans (pm_db m) db) as Hn by by apply ucs_quiet.
  assert (frame (set_db m db) (set_db (push_event m (EvDisconnectPeer p reason)) db)) as Hf by by destruct m.
  assert (quiet_step 2 now m (set_db (push_event m (EvDisconnectPeer p reason)) db)) as Hq.
  { eapply (quiet_call now m _ (DDisconnecting now p false)); done. }
  split; [done|]. intros Hp.
  destruct (update_connection_state_known (pm_db m) now p (NewDisconnecting false) Hp) as (Hw' & Hd & _); [done|].
  split.
  - destruct Hq as [Hi' _ Hn']. split; [done| |done]. rewrite pm_db_set_db.
    fold (notify_disconnecting (pm_db m) now p false) in Hw'. fold db in Hw'. lia.
  - intros q. rewrite pm_db_set_db. fold (notify_disconnecting (pm_db m) now p false) in Hd. fold db in Hd.
    rewrite <- !elem_of_dom, Hd. done.
Qed.

Lemma prune_quiet now m :
  pm_inv now m -> db_weight (pm_db m) + 2 <= USIZE_MAX ->
  exists m', prune_excess_peers m now = Some m' /\ quiet_step 0 now m m'.
Proof.
  intros Hi Hw. unfold prune_excess_peers.
  destruct (excess_peers_known (pm_db m) now (target_peers m) (sampling_subnets (network_globals m)))
    as (X & -> & HX). eexists. split; [done|].
  assert (forall p, p ∈ set_iter X -> is_Some (peers (pm_db m) !! p)) as Hl.
  { intros p Hp. by apply HX, elem_of_set_iter. }
  clear HX. revert m Hi Hw Hl. induction (set_iter X) as [|p l IH]; intros m Hi Hw Hl; cbn [fold_left].
  - apply quiet_frame; [lia|done|apply frame_refl].
  - destruct (disconnect_quiet now m p GoodbyeReason.TooManyPeers Hi Hw) as [_ Hd].
    destruct Hd as [Hq Hk]; [apply Hl; set_solver|].
    replace 0 with (0 + 0) by lia. eapply quiet_trans; [exact Hq|]. destruct Hq as [Hi' Hw' _].
    apply IH; [done|lia|]. intros q Hq. apply Hk, Hl. set_solver.
Qed.

Lemma unban_temporary_quiet now m : pm_inv now m -> quiet_step 0 now m (unban_temporary_banned_peers m now).
Proof.
  intros Hi. unfold unban_temporary_banned_peers.
  pose proof (temporary_expire now now m (pv_core _ _ Hi)) as Ht. simpl in Ht.
  destruct (remove_expired (temporary_banned_peers m) now) as [expired c]. destruct Ht as (Hc & Hs & _).
  cbn [snd] in *. set (m1 := set_temporary m c) in *.
  assert (pm_db m1 = pm_db m) as Hdb by by destruct m. clearbody m1.
  pose proof (frame_events m1 (events m1 ++ map (fun p => EvUnBanned p []) expired)) as Hf.
  split.
  - eapply frame_inv; [done|]. split; [done|]. intros p Hp. rewrite Hdb. apply Hi. by apply Hs.
  - rewrite (fr_db _ _ Hf), Hdb. lia.
  - rewrite (fr_db _ _ Hf), Hdb. by intros q.
Qed.

Lemma update_scores_quiet now m :
  pm_inv now m -> db_weight (pm_db m) + 2 <= USIZE_MAX ->
  exists m', pm_update_scores m now = Some m' /\ quiet_step 0 now m m'.
Proof.
  intros Hi Hw. unfold pm_update_scores.
  assert (db_inv (update_scores (pm_db m) now).2 /\ db_weight (update_scores (pm_db m) now).2 = db_weight (pm_db m))
    as [Hdb Hwt].
  { destruct (fits_update_scores db_inv) with (w := db_weight (pm_db m)) (d := dom (peers (pm_db m)))
      (db := pm_db m) (now := now) as (Hd & Hw' & _); try done.
    - intros ? ? ? ? ? ? _. apply inv_step; [done|lia].
    - intros. by apply inv_fmap.
    - split; [apply Hi|done]. }
  pose proof (update_scores_bans (pm_db m) now) as Hb.
  destruct (update_scores (pm_db m) now) as [actions db]. destruct Hb as [Hn Hf]. cbn [snd] in *.
  destruct (score_actions_resolves now actions now (set_db m db)) as (m' & -> & [Hc Hd _ Hap _ _ _]).
  - apply set_db_core; [apply Hi|done].
  - lia.
  - rewrite pm_db_set_db. eapply Forall_impl; [exact Hf|]. intros [p a]. simpl. intros [Hnb [ips ->]]. by split.
  - exists m'. split; [done|]. rewrite pm_db_set_db in Hd. split; [|rewrite Hd; lia|by rewrite Hd].
    apply inv_apart. split; [done|]. intros q Hq Hbq.
    assert (apart_but (fun _ => False) (set_db m db)) as Ha.
    { apply set_db_apart; [|by apply inv_apart in Hi as [_ ?]]. intros q' Hq'. left. by apply Hn. }
    by destruct (Hap _ Ha q Hq Hbq).
Qed.

Lemma cleanup_quiet now m :
  pm_inv now m -> db_weight (pm_db m) + 2 <= USIZE_MAX ->
  quiet_step 0 now m (set_db m (cleanup_dialing_peers (pm_db m) now)).
Proof.
  intros Hi Hw.
  destruct (fits_cleanup db_inv) with (w := db_weight (pm_db m)) (d := dom (peers (pm_db m)))
    (db := pm_db m) (now := now) as (Hd & Hw' & _); try done.
  - intros ? ? ? ? ? ? _. apply inv_step; [done|lia].
  - split; [apply Hi|done].
  - apply quiet_db; [done|done|lia|apply cleanup_bans].
Qed.

(** *** The heartbeat *)

Lemma next_set_events m l : next_heartbeat (set_events m l) = next_heartbeat m.
Proof. by destruct m. Qed.
Lemma next_set_db m db : next_heartbeat (set_db m db) = next_heartbeat m.
Proof. by destruct m. Qed.

Lemma next_ban_operation m now p op reason m' :
  handle_ban_operation m now p op reason = Some m' -> next_heartbeat m' = next_heartbeat m.
Proof.
  intros E. unfold handle_ban_operation in E. destruct m.
  repeat case_match; simplify_eq; done.
Qed.

Lemma next_score_actions now l : forall m m',
  handle_score_actions m now l = Some m' -> next_heartbeat m' = next_heartbeat m.
Proof.
  induction l as [|[p a] l IH]; intros m m' E; cbn [handle_score_actions] in E; [by simplify_eq|].
  destruct (handle_score_action m now p a None) as [m1|] eqn:E1; [|done]. rewrite (IH _ _ E).
  unfold handle_score_action in E1. destruct a; simplify_eq; try (by destruct m); [|done].
  by eapply next_ban_operation.
Qed.

Lemma next_dials l : forall m, next_heartbeat (fold_left (fun m e => (dial_peer m e).2) l m) = next_heartbeat m.
Proof.
  induction l as [|e l IH]; intros m; cbn [fold_left]; [done|]. rewrite IH.
  unfold dial_peer. case_match; by destruct m.
Qed.

Lemma next_prune m now m' : prune_excess_peers m now = Some m' -> next_heartbeat m' = next_heartbeat m.
Proof.
  unfold prune_excess_peers. destruct (excess_peers _ _ _ _) as [X|]; [|done]. intros [= <-].
  generalize (set_iter X). intros l. revert m. induction l as [|p l IH]; intros m; cbn [fold_left]; [done|].
  rewrite IH. by destruct m.
Qed.

Lemma heartbeat_quiet now m :
  pm_inv now m -> db_weight (pm_db m) + 2 <= USIZE_MAX ->
  exists m', pm_heartbeat m now = Some m' /\ quiet_step 0 now m m' /\ next_heartbeat m' = next_heartbeat m.
Proof.
  intros Hi Hw. unfold pm_heartbeat.
  set (m1 := maintain_trusted_peers (maintain_peer_count m 0)).
  assert (quiet_step 0 now m m1 /\ next_heartbeat m1 = next_heartbeat m) as [Q1 N1].
  { split.
    - apply quiet_frame; [lia|done|]. eapply frame_trans; [apply maintain_count_frame|apply trusted_frame].
    - unfold m1, maintain_trusted_peers. rewrite next_dials. unfold maintain_peer_count, push_event.
      repeat case_match; by rewrite ?next_set_events. }
  clearbody m1. destruct Q1 as [Hi1 Hw1 Hn1].
  pose proof (cleanup_quiet now m1 Hi1 ltac:(lia)) as Q2.
  pose proof (next_set_db m1 (cleanup_dialing_peers (pm_db m1) now)) as N2.
  set (m2 := set_db m1 _) in *. clearbody m2. destruct Q2 as [Hi2 Hw2 Hn2].
  destruct (update_scores_quiet now m2 Hi2 ltac:(lia)) as (m3 & E3 & [Hi3 Hw3 Hn3]). rewrite E3.
  assert (next_heartbeat m3 = next_heartbeat m2) as N3.
  { unfold pm_update_scores in E3. destruct (update_scores (pm_db m2) now).
    by rewrite (next_score_actions _ _ _ _ E3), next_set_db. }
  set (m4 := if existsb is_data_column _ then _ else m3).
  assert (frame m3 m4 /\ next_heartbeat m4 = next_heartbeat m3) as [F4 N4].
  { unfold m4. case_match; [|by split; [apply frame_refl|]]. split; [apply push_query_frame|].
    unfold maintain_custody_peers, push_subnet_query. case_match; [done|]. by destruct m3. }
  clearbody m4. set (m5 := maintain_sync_committee_peers m4 now).
  assert (frame m4 m5 /\ next_heartbeat m5 = next_heartbeat m4) as [F5 N5].
  { split; [eapply frame_trans; [apply frame_sync|apply push_query_frame]|].
    unfold m5, maintain_sync_committee_peers, push_subnet_query. case_match; by destruct m4. }
  clearbody m5. pose proof (frame_trans _ _ _ F4 F5) as F. pose proof (fr_db _ _ F) as Hdb5.
  destruct (prune_quiet now m5) as (m6 & E6 & [Hi6 Hw6 Hn6]); [by eapply frame_inv|rewrite Hdb5; lia|].
  rewrite E6. pose proof (next_prune _ _ _ E6) as N6.
  pose proof (unban_temporary_quiet now m6 Hi6) as [Hi7 Hw7 Hn7].
  eexists. split; [done|]. split.
  - split; [done|rewrite Hdb5 in *; lia|]. eapply no_new_bans_trans; [exact Hn1|].
    eapply no_new_bans_trans; [exact Hn2|]. eapply no_new_bans_trans; [exact Hn3|]. rewrite <- Hdb5.
    eapply no_new_bans_trans; [exact Hn6|exact Hn7].
  - unfold unban_temporary_banned_peers. destruct (remove_expired _ _) as [expired c].
    rewrite next_set_events. replace (next_heartbeat (set_temporary m6 c)) with (next_heartbeat m6) by by destruct m6.
    congruence.
Qed.

Lemma heartbeats_quiet now fuel : forall m,
  pm_inv now m -> db_weight (pm_db m) + 2 <= USIZE_MAX ->
  (heartbeat_fuel m now <= fuel)%nat ->
  exists m', run_heartbeats fuel m now = Some m' /\ quiet_step 0 now m m'.
Proof.
  induction fuel as [|fuel IH]; intros m Hi Hw Hf; cbn [run_heartbeats];
    destruct (next_heartbeat m <=? now) eqn:Hd; bool_to_Prop;
    try (by exists m; split; [|apply quiet_frame; [lia| |apply frame_refl]]).
  - exfalso. unfold heartbeat_fuel, HEARTBEAT_INTERVAL in Hf.
    assert (0 <= (now - next_heartbeat m) / Duration_from_secs 30) by (apply Z.div_pos; [lia|done]). lia.
  - set (m1 := set_heartbeat m _).
    assert (frame m m1) as F by apply frame_heartbeat.
    assert (next_heartbeat m1 = next_heartbeat m + HEARTBEAT_INTERVAL) as N1 by by destruct m.
    assert (pm_inv now m1) as Hi1 by by eapply frame_inv.
    assert (pm_db m1 = pm_db m) as Hdb by apply F. clearbody m1.
    destruct (heartbeat_quiet now m1) as (m2 & -> & [Hi2 Hw2 Hn2] & N2); [done|by rewrite Hdb|].
    destruct (IH m2) as (m3 & -> & [Hi3 Hw3 Hn3]); [done|rewrite Hdb in *; lia| |].
    + unfold heartbeat_fuel in *. rewrite N2, N1.
      replace (now - (next_heartbeat m + HEARTBEAT_INTERVAL))
        with (now - next_heartbeat m + (-1) * HEARTBEAT_INTERVAL) by lia.
      rewrite Z.div_add by done. lia.
    + exists m3. split; [done|]. rewrite Hdb in *. split; [done|lia|]. by eapply no_new_bans_trans.
Qed.

(** *** Polling *)

Lemma poll_set_total (s : HashSetDelay PeerId) now :
  0 < hs_timeout s -> exists l s', poll_set s now = Some (l, s') /\ hs_timeout s' = hs_timeout s.
Proof.
  intros Ht. unfold poll_set. destruct (poll_all_total (S (size (hs_entries s))) s now Ht) as (l & s' & -> & Hs & _).
  - unfold n_due, map_count. pose proof (map_size_filter (fun kv : PeerId * Instant => kv.2 <= now) (hs_entries s)). lia.
  - eauto.
Qed.

Lemma poll_timers_quiet now m :
  pm_inv now m -> exists m', poll_timers m now = Some m' /\ frame m m'.
Proof.
  intros Hi. destruct (pc_timers _ _ (pv_core _ _ Hi)) as (H1' & H2' & H3'). unfold poll_timers.
  destruct (poll_set_total _ now H1') as (l1 & s1 & -> & T1). cbn [fst snd].
  set (m1 := set_events (set_inbound m s1) _).
  assert (frame m m1 /\ outbound_ping_peers m1 = outbound_ping_peers m /\ status_peers m1 = status_peers m)
    as (F1 & O1 & S1).
  { unfold m1. split; [|by destruct m]. eapply frame_trans; [by apply frame_inbound|apply frame_events]. }
  clearbody m1. rewrite <- O1 in H2'.
  destruct (poll_set_total _ now H2') as (l2 & s2 & -> & T2). cbn [fst snd].
  set (m2 := set_events (set_outbound m1 s2) _).
  assert (frame m1 m2 /\ status_peers m2 = status_peers m1) as (F2 & S2).
  { unfold m2. split; [|by destruct m1]. eapply frame_trans; [by apply frame_outbound|apply frame_events]. }
  clearbody m2. rewrite <- S1, <- S2 in H3'.
  destruct (poll_set_total _ now H3') as (l3 & s3 & -> & T3).
  pose proof (frame_trans _ _ _ F1 F2) as F.
  destruct (sync_state (network_globals m2)); eexists; (split; [done|]); try done;
    (eapply frame_trans; [exact F|]; eapply frame_trans; [by apply frame_status|apply frame_events]).
Qed.

Lemma poll_quiet clock now m :
  pm_inv clock m -> clock <= now -> db_weight (pm_db m) + 2 <= USIZE_MAX ->
  exists r, pm_poll m now = Some r /\ quiet_step 2 now m r.2.
Proof.
  intros Hi Hle Hw. apply (inv_later _ now) in Hi; [|done]. unfold pm_poll.
  destruct (heartbeats_quiet now (heartbeat_fuel m now) m Hi Hw) as (m1 & -> & [Hi1 Hw1 Hn1]); [done|].
  destruct (poll_timers_quiet now m1 Hi1) as (m2 & -> & F2).
  assert (pm_inv now m2) as Hi2 by by eapply frame_inv.
  eexists. split; [done|]. replace 2 with (0 + 2) by lia. eapply quiet_trans; [split; [exact Hi1|exact Hw1|exact Hn1]|].
  replace 2 with (0 + 2) by lia. eapply quiet_trans; [by apply quiet_frame|].
  assert (db_weight (pm_db m2) + 2 <= USIZE_MAX) as Hw2 by (rewrite (fr_db _ _ F2); lia).
  unfold poll_output. destruct (events m2) as [|e l].
  2: { apply quiet_frame; [lia|done|apply frame_events]. }
  destruct (pop_back (peers_to_dial m2)) as [[e rest]|]; [|apply quiet_frame; [lia|done|apply frame_refl]].
  cbn [snd inject_peer_connection]. set (m3 := set_dial m2 rest).
  assert (frame m2 m3) as F3 by apply frame_dial. replace 2 with (0 + 2) by lia.
  eapply quiet_trans; [by apply quiet_frame|].
  eapply (quiet_call now m3 _ (DDial now (enr_peer_id e) (Some e))); [by eapply frame_inv| |done| |apply frame_refl].
  - by rewrite (fr_db _ _ F3).
  - by apply ucs_quiet.
Qed.

(** *** All methods *)

Lemma inject_connection_quiet now m p a e ct :
  ct = CtIngoingConnected a \/ ct = CtOutgoingConnected a ->
  pm_inv now m -> db_weight (pm_db m) + 2 <= USIZE_MAX ->
  quiet_step 2 now m (inject_peer_connection m now p ct e).2.
Proof.
  intros [-> | ->] Hi Hw.
  - eapply (quiet_call now m _ (DConnect now p a e Incoming)); [done|done|done|by apply ucs_quiet|].
    unfold inject_peer_connection. cbn [snd]. by destruct m.
  - eapply (quiet_call now m _ (DConnect now p a e Outgoing)); [done|done|done|by apply ucs_quiet|].
    unfold inject_peer_connection. cbn [snd]. by destruct m.
Qed.

(** Calls of the database that touch no status. *)
Definition keeps_status (op : DbOp) : Prop :=
  match op with
  | DSyncStatus _ _ | DSubscribe _ _ | DUnsubscribe _ _ | DExtend _ _ | DSetTrusted _ | DUnsetTrusted _ _
  | DEdit _ _ => True
  | _ => False
  end.

Lemma keeps_status_bans db op db' : keeps_status op -> db_step db op = Some db' -> no_new_bans db db'.
Proof.
  assert (no_new_bans db db) as Hrefl by by intros q.
  intros Hk E. destruct op; try done; cbn [db_step] in E.
  - unfold db_update_sync_status in E. destruct (peers db !! p) as [i|] eqn:Hp; [|by simplify_eq].
    pose proof (profile_sync i s) as Hs. destruct (pi_update_sync_status i s) as [ch i'].
    injection E as <-. eapply no_new_bans_put; [done|apply Hs].
  - unfold add_subscription in E. destruct (peers db !! p) as [i|] eqn:Hp; simplify_eq; [|done].
    eapply no_new_bans_put; [done|apply status_subnets].
  - unfold remove_subscription in E. destruct (peers db !! p) as [i|] eqn:Hp; simplify_eq; [|done].
    eapply no_new_bans_put; [done|apply status_subnets].
  - injection E as <-. apply no_new_bans_fmap. intros i. case_match; [apply profile_ttl|done].
  - unfold set_trusted_peer in E. destruct (peers db !! enr_peer_id e) as [i|] eqn:Hp; simplify_eq.
    + eapply no_new_bans_put; [done|]. by destruct i.
    + by apply no_new_bans_new.
  - unfold unset_trusted_peer in E. destruct (peers db !! enr_peer_id e) as [i|] eqn:Hp; simplify_eq; [|done].
    eapply no_new_bans_put; [done|]. by destruct i.
  - destruct (peers db !! p) as [i|] eqn:Hp; simplify_eq; [|done].
    eapply no_new_bans_put; [done|apply profile_edit].
Qed.

Lemma quiet_shared now m op db :
  pm_inv now m -> db_weight (pm_db m) + 2 <= USIZE_MAX -> keeps_status op ->
  db_step (pm_db m) op = Some db -> quiet_step 2 now m (set_db m db).
Proof.
  intros Hi Hw Hk E. eapply quiet_call; [done|done|exact E|by eapply keeps_status_bans|apply frame_refl].
Qed.

Lemma quiet_result clock now m m' out w :
  quiet_step w now m m' -> exists r, Some (out : PollResult, m') = Some r /\ step_ok w clock now m r.2.
Proof. intros Hq. eexists. split; [done|]. by apply quiet_ok. Qed.

Lemma identify_quiet now m p la agent proto :
  pm_inv now m -> quiet_step 2 now m (identify m p la agent proto).
Proof.
  intros Hi. apply (quiet_weaken 0); [lia|]. unfold identify.
  destruct (peers (pm_db m) !! p) as [i|] eqn:Hp; [|by apply quiet_frame].
  apply (quiet_edit now m p i); [done|done|].
  pose proof (profile_edit i (EditListening la)) as [H1' H2' H3' H4'].
  pose proof (profile_edit (set_listening_addresses i la).2 (EditClient (from_identify_info agent proto)))
    as [H1'' H2'' H3'' H4'']. simpl in *. split; [congruence|congruence|tauto|congruence].
Qed.

Lemma pm_step_ok clock now m op :
  pm_inv clock m -> clock <= now -> db_weight (pm_db m) + Z.max 2 (op_cost op) <= USIZE_MAX ->
  exists r, pm_step m now op = Some r /\ step_ok (op_cost op) clock now m r.2.
Proof.
  intros Hi Hle Hw. assert (pm_inv now m) as Hn by by eapply inv_later.
  assert (db_weight (pm_db m) + 2 <= USIZE_MAX) as Hw2 by lia.
  assert (forall r, (exists m', r = Some m' /\ step_ok 2 clock now m m') ->
    exists x, (let* new := r in Some (PollPending, new)) = Some x /\ step_ok 2 clock now m x.2) as Hret.
  { intros r (m' & -> & Hs). by eexists. }
  destruct op as [p reason|p a reason|f|results|p|s ttl|e|p la ag pr|p pr er di|p sq|p sq|p md|p reason
    |e|e| |p ep|p rem|p|e|e|s|p s|p s|s ttl|p s]; cbn [pm_step op_cost] in *.
  - by apply Hret, goodbye_step.
  - by apply Hret, report_step.
  - by apply Hret, gossip_step.
  - apply quiet_result. unfold peers_discovered.
    pose proof (discovered_quiet now (g_connected_or_dialing_peers (network_globals m)) (hash_iter results) m 0 Hn)
      as Hq. rewrite length_hash_iter in Hq. specialize (Hq ltac:(lia)).
    destruct (dial_discovered _ _ _ _ _) as [n m1]. cbn [snd] in Hq. case_match; [done|].
    rewrite <- (Z.add_0_r (2 * _)). eapply quiet_trans; [exact Hq|].
    apply quiet_frame; [lia|apply Hq|apply maintain_count_frame].
  - apply quiet_result, quiet_frame; [lia|done|by apply frame_status].
  - apply quiet_result, quiet_frame; [lia|done|]. unfold add_sync_subnet.
    repeat case_match; apply frame_sync || apply frame_refl.
  - apply quiet_result, quiet_frame; [lia|done|apply dial_frame].
  - by apply quiet_result, identify_quiet.
  - apply Hret. unfold handle_rpc_error. destruct (rpc_error_action pr er di); [by apply report_step|].
    exists m. split; [done|]. apply quiet_ok, quiet_frame; [lia|done|apply frame_refl].
  - apply quiet_result, quiet_frame; [lia|done|]. unfold ping_request. case_match; [|apply frame_refl].
    eapply frame_trans; [|apply request_frame]. repeat case_match; by apply frame_inbound || apply frame_outbound || apply frame_refl.
  - apply quiet_result, quiet_frame; [lia|done|]. unfold pong_response. case_match; [|apply frame_refl].
    apply request_frame.
  - destruct (metadata_step clock now m p md Hi Hle Hw2) as (r & -> & Hs). by eexists.
  - apply quiet_result. by apply disconnect_quiet.
  - apply quiet_result, quiet_frame; [lia|done|apply frame_trusted].
  - apply quiet_result, quiet_frame; [lia|done|apply frame_trusted].
  - destruct (poll_quiet clock now m Hi Hle Hw2) as (r & -> & Hq). eexists. split; [done|]. by apply quiet_ok.
  - apply quiet_result. unfold on_connection_established, inject_connect_ingoing, inject_connect_outgoing.
    assert (forall ct ev a, ct = CtIngoingConnected a \/ ct = CtOutgoingConnected a ->
      quiet_step 2 now m (push_event (inject_peer_connection m now p ct None).2 ev)) as Hc.
    { intros ct ev a Hct. pose proof (inject_connection_quiet now m p a None ct Hct Hn Hw2) as Hq.
      replace 2 with (2 + 0) by lia. eapply quiet_trans; [exact Hq|].
      apply quiet_frame; [lia|apply Hq|apply frame_push]. }
    destruct ep; eapply Hc; by eauto.
  - apply Hret. unfold on_connection_closed. case_match.
    { exists m. split; [done|]. apply quiet_ok, quiet_frame; [lia|done|apply frame_refl]. }
    set (m1 := if db_is_connected_or_disconnecting (pm_db m) p then _ else m).
    assert (frame m m1) as F by (unfold m1; case_match; apply frame_push || apply frame_refl).
    destruct (disconnect_step now now m1 p) as (m' & -> & Hs);
      [by eapply frame_inv|lia|by rewrite (fr_db _ _ F)|].
    exists m'. split; [done|].
    assert (temporary m1 = temporary m) as Ht by (unfold temporary; by rewrite (fr_temp _ _ F)).
    pose proof (step_after 0 2 now now m m1 m' (quiet_frame 0 now m m1 ltac:(lia) Hn F) Ht Hs) as [? ? ?]. by split.
  - apply Hret. unfold on_dial_failure. destruct p as [p|]; [case_match|].
    + exists m. split; [done|]. apply quiet_ok, quiet_frame; [lia|done|apply frame_refl].
    + by apply disconnect_step.
    + exists m. split; [done|]. apply quiet_ok, quiet_frame; [lia|done|apply frame_refl].
  - apply quiet_result. by eapply (quiet_shared now m (DSetTrusted e)).
  - apply quiet_result. by eapply (quiet_shared now m (DUnsetTrusted now e)).
  - apply quiet_result, quiet_frame; [lia|done|]. by destruct m.
  - apply quiet_result. by eapply (quiet_shared now m (DSubscribe p s)).
  - apply quiet_result. by eapply (quiet_shared now m (DUnsubscribe p s)).
  - apply quiet_result. by eapply (quiet_shared now m (DExtend s ttl)).
  - apply quiet_result. by eapply (quiet_shared now m (DSyncStatus p s)).
Qed.

End pm_lemmas.

(** ** Lemmas: dialing *)

Section dial_lemmas.
Context `{ChainTypes} `{Libp2p} `{HashIter} `{FloatExp} `{UnstableSort} `{ThreadRng} `{DelaySet}.
Context `{!TopicCrates} `{!CustodyCrates} `{!EnrFields}.
Implicit Types (m : PeerManager).

(** The thresholds are in the order the code takes for granted, for all targets up to 4096. *)
Definition thresholds_ordered (target : Z) : bool :=
  (target <=? max_peers target) && (max_peers target <=? max_outbound_dialing_peers target) &&
  (max_outbound_dialing_peers target <=? max_priority_peers target) &&
  (min_outbound_only_peers target <=? target_outbound_peers target) &&
  (max_priority_peers target <=? 2 * target).

Lemma thresholds_ordered_small :
  forallb (fun n => thresholds_ordered (Z.of_nat n)) (seq 0 4097) = true.
Proof. by vm_compute. Qed.

Lemma thresholds_in_order target :
  0 <= target <= 4096 ->
  target <= max_peers target /\ max_peers target <= max_outbound_dialing_peers target /\
  max_outbound_dialing_peers target <= max_priority_peers target /\
  min_outbound_only_peers target <= target_outbound_peers target /\ max_priority_peers target <= 2 * target.
Proof.
  intros Ht. pose proof thresholds_ordered_small as Hall. rewrite forallb_forall in Hall.
  specialize (Hall (Z.to_nat target)). rewrite in_seq, Z2Nat.id in Hall by lia.
  specialize (Hall ltac:(lia)). unfold thresholds_ordered in Hall. bool_to_Prop. lia.
Qed.

(** The loop over discovered records. *)
Lemma dial_discovered_spec now n results : forall m k,
  NoDup results.*1 -> 0 <= n -> 0 <= k -> n + k + Z.of_nat (length results) <= USIZE_MAX ->
  let r := dial_discovered m now n k results in
  exists added, peers_to_dial r.2 = peers_to_dial m ++ added /\
    target_peers r.2 = target_peers m /\ r.1 = k + Z.of_nat (length added) /\
    NoDup added /\ (forall e, e ∈ added -> e ∈ results.*1 /\ e ∉ peers_to_dial m) /\
    (added = [] \/ n + r.1 <= Z.max (max_priority_peers (target_peers m)) (max_peers (target_peers m))) /\
    ((forall e t, (e, Some t) ∉ results) -> added = [] \/ n + r.1 <= max_peers (target_peers m)).
Proof.
  induction results as [|[e ttl] results IH]; intros m k Hnd Hn Hk Hb; cbn [dial_discovered].
  { exists []. simpl. rewrite app_nil_r. split_and!; try done; try lia; try set_solver. }
  apply NoDup_cons in Hnd as [He Hnd]. simpl in Hb.
  set (wanted := negb _ && _). destruct wanted eqn:Hwant.
  2: { destruct (IH m k Hnd Hn Hk ltac:(lia)) as (added & H1' & H2' & H3' & H4' & H5' & H6' & H7').
       exists added. split_and!; try done.
       - intros x Hx. destruct (H5' x Hx). split; [set_solver|done].
       - intros Hnone. apply H7'. intros x t Hx. apply (Hnone x t). set_solver. }
  set (m1 := match ttl with Some t => _ | None => m end).
  assert (peers_to_dial m1 = peers_to_dial m /\ target_peers m1 = target_peers m) as [Hd1 Ht1]
    by (unfold m1; destruct ttl; by destruct m).
  assert (usize_wrapping_add n k = n + k) as Hnk.
  { unfold usize_wrapping_add. rewrite as_u64_small; [done|]. unfold in_u64, USIZE_MAX in *. lia. }
  unfold wanted in Hwant. rewrite Hnk in Hwant. clear wanted.
  apply andb_true_iff in Hwant as [Hnew%negb_true_iff%bool_decide_eq_false Hlim]. clearbody m1.
  assert (n + k < Z.max (max_priority_peers (target_peers m)) (max_peers (target_peers m)) /\
    (ttl = None -> n + k < max_peers (target_peers m))) as [Hlim1 Hlim2].
  { apply orb_true_iff in Hlim as [[Hs Hl]%andb_true_iff|Hl]; apply Z.ltb_lt in Hl; split; try lia.
    intros ->. by apply bool_decide_eq_true in Hs as [? [=]]. }
  clear Hlim.
  unfold dial_peer. destruct (should_dial (pm_db m1) (enr_peer_id e)).
  2: { destruct (IH m1 k Hnd Hn Hk ltac:(lia)) as (added & H1' & H2' & H3' & H4' & H5' & H6' & H7').
       rewrite Hd1, Ht1 in *. exists added. split_and!; try done.
       - intros x Hx. destruct (H5' x Hx). split; [set_solver|done].
       - intros Hnone. apply H7'. intros x t Hx. apply (Hnone x t). set_solver. }
  set (m2 := set_dial m1 (peers_to_dial m1 ++ [e])).
  assert (peers_to_dial m2 = peers_to_dial m ++ [e] /\ target_peers m2 = target_peers m) as [Hd2 Ht2]
    by (rewrite <- Hd1, <- Ht1; by destruct m1).
  clearbody m2.
  assert (usize_wrapping_add k 1 = k + 1) as ->.
  { unfold usize_wrapping_add. rewrite as_u64_small; [done|]. unfold in_u64, USIZE_MAX in *. lia. }
  destruct (IH m2 (k + 1) Hnd Hn ltac:(lia) ltac:(lia)) as (added & H1' & H2' & H3' & H4' & H5' & H6' & H7').
  rewrite Hd2, Ht2 in *. exists (e :: added). simpl length. split_and!.
  - rewrite H1'. by rewrite <- app_assoc.
  - done.
  - lia.
  - constructor; [|done]. intros Hin. destruct (H5' e Hin). set_solver.
  - intros x [->|Hx]%elem_of_cons; [split; [by left|done]|]. destruct (H5' x Hx). split; [by right|set_solver].
  - right. destruct H6' as [->|?]; [|done]. simpl in H3'. lia.
  - intros Hnone. right. assert (ttl = None) as Hnt.
    { destruct ttl as [t|]; [|done]. exfalso. apply (Hnone e t). by left. }
    specialize (Hlim2 Hnt).
    destruct H7' as [->|?]; [intros x t Hx; apply (Hnone x t); by right| |done]. simpl in *. lia.
Qed.

End dial_lemmas.

(** ** Theorems *)

Section pm_theorems.
Context `{ChainTypes} `{Libp2p} `{HashIter} `{FloatExp} `{UnstableSort} `{ThreadRng} `{DelaySet}.
Context `{!TopicCrates} `{!CustodyCrates} `{!EnrFields}.
Implicit Types (m : PeerManager) (p q : PeerId).

Definition run_cost (ops : list (Instant * PmOp)) : Z :=
  foldr (fun o acc => Z.max 2 (op_cost o.2) + acc) 0 ops.

Lemma run_cost_nonneg ops : 0 <= run_cost ops.
Proof. induction ops as [|o ops IH]; simpl; lia. Qed.

Lemma pm_run_ok ops : forall clock m,
  pm_inv clock m -> StronglySorted Z.le (clock :: ops.*1) -> db_weight (pm_db m) + run_cost ops <= USIZE_MAX ->
  exists outs m', pm_run m ops = Some (outs, m') /\ pm_inv (default clock (last ops.*1)) m'.
Proof.
  induction ops as [|[now op] ops IH]; intros clock m Hi Hs Hw; cbn [pm_run]; [by eauto|].
  apply StronglySorted_inv in Hs as [Hs Hx]. apply Forall_inv in Hx. simpl in Hx, Hw.
  pose proof (run_cost_nonneg ops). fold (run_cost ops) in Hw.
  destruct (pm_step_ok clock now m op Hi Hx ltac:(lia)) as ([out m1] & -> & [Hi1 Hw1 _]). cbn [fst snd] in *.
  destruct (IH now m1 Hi1 Hs ltac:(lia)) as (outs & m2 & -> & Hi2). eexists _, _. split; [done|].
  simpl. rewrite last_cons. by destruct (last _).
Qed.

(** A new peer manager. *)
Lemma pm_new_inv config e md trusted disable n flags cfg start g m :
  NetworkGlobals_new config e md trusted disable n flags = Some g -> PeerManager_new cfg g start = Some m ->
  0 < ping_interval_inbound cfg -> 0 < ping_interval_outbound cfg -> 0 < status_interval cfg ->
  network_globals m = g /\ pm_db m = PeerDB_new trusted disable /\ pm_inv start m.
Proof.
  intros Hg Hm H1' H2' H3'.
  assert (g_peers g = PeerDB_new trusted disable) as Hdb.
  { unfold NetworkGlobals_new in Hg. repeat case_match; simplify_eq. done. }
  unfold PeerManager_new in Hm. destruct (new_inv trusted disable) as [Hinv _]. rewrite <- Hdb in Hinv.
  repeat case_match; simplify_eq; (split; [done|]); (split; [exact Hdb|]); (split; [|set_solver]);
    (split; [exact Hinv| |]);
    try (unfold timers_positive, Duration_from_secs, NANOS_PER_SEC; simpl; lia);
    (exists ∅; constructor; simpl; [done|constructor|by rewrite dom_empty_L|constructor|constructor]).
Qed.

(** C5: the peer manager's invariant.  In any sequence of calls on a new manager, under a clock that
    does not go back and as long as the database cannot outgrow the address space, every call returns
    (no loop runs on and nothing panics), the database keeps its own invariant, and no peer is under a
    temporary ban and banned in the database at the same time: so the end of a temporary ban never
    lifts a ban. *)
Theorem peer_manager_invariant config e md trusted disable n flags cfg start ops g m :
  NetworkGlobals_new config e md trusted disable n flags = Some g -> PeerManager_new cfg g start = Some m ->
  0 < ping_interval_inbound cfg -> 0 < ping_interval_outbound cfg -> 0 < status_interval cfg ->
  StronglySorted Z.le (start :: ops.*1) -> Z.of_nat (length trusted) + run_cost ops <= USIZE_MAX ->
  exists outs m', pm_run m ops = Some (outs, m') /\ db_inv (pm_db m') /\
    forall p, p ∈ temporary m' -> forall i, peers (pm_db m') !! p = Some i -> is_banned i = false.
Proof.
  intros Hg Hm H1' H2' H3' Hs Hw.
  destruct (pm_new_inv _ _ _ _ _ _ _ _ _ _ _ Hg Hm H1' H2' H3') as (_ & Hdb' & Hi).
  destruct (pm_run_ok ops start m Hi Hs) as (outs & m' & Hr & Hi').
  { rewrite Hdb'. destruct (new_inv trusted disable) as [_ ?]. lia. }
  exists outs, m'. split; [done|]. split; [apply Hi'|]. intros p Hp i Hpi.
  apply not_true_is_false. intros Hb. apply (pv_apart _ _ Hi' p Hp). by exists i.
Qed.

(** C6: bans are announced.  Whatever call leaves a peer banned that was not, the event queue then says
    so and holds no event that would lift the ban, unless the peer was already under a temporary ban,
    which was announced. *)
Theorem bans_are_announced clock now m op out m' p :
  pm_inv clock m -> clock <= now -> db_weight (pm_db m) + Z.max 2 (op_cost op) <= USIZE_MAX ->
  pm_step m now op = Some (out, m') -> bans (pm_db m') p -> ~ bans (pm_db m) p -> p ∉ temporary m ->
  (exists ips, EvBanned p ips ∈ events m') /\ forall ips, EvUnBanned p ips ∉ events m'.
Proof.
  intros Hi Hle Hw Hs Hb Hnb Ht. destruct (pm_step_ok clock now m op Hi Hle Hw) as (r & Hr & [_ _ Ha]).
  rewrite Hs in Hr. injection Hr as <-. destruct (Ha p Hb) as [?|[?|Hann]]; done.
Qed.

Lemma pm_inject_disconnect_inv m now p m' :
  pm_inject_disconnect m now p = Some m' ->
  exists op purged, inject_disconnect (pm_db m) now p = Some (op, purged, pm_db m') /\
    hs_entries (inbound_ping_peers m') !! p = None /\ hs_entries (outbound_ping_peers m') !! p = None /\
    hs_entries (status_peers m') !! p = None /\
    (forall e, e ∈ events m -> is_unbanned_event p e = false -> e ∈ events m').
Proof.
  unfold pm_inject_disconnect. destruct (inject_disconnect (pm_db m) now p) as [[[op purged] db]|] eqn:E; [|done].
  intros E'. exists op, purged.
  destruct (match op with Some op => handle_ban_operation (set_db m db) now p op None | None => Some (set_db m db) end)
    as [m1|] eqn:E1; [|done]. injection E' as <-.
  assert (pm_db m1 = db /\ forall e, e ∈ events m -> is_unbanned_event p e = false -> e ∈ events m1) as [Hdb Hev].
  { destruct op as [op|]; [|injection E1 as <-; by destruct m].
    unfold handle_ban_operation in E1. destruct op; repeat case_match; simplify_eq;
      (split; [by destruct m|]); intros e He Hu; destruct m; simpl in *; try done; try set_solver.
    apply list_elem_of_In, filter_In. rewrite Hu. split; [|done]. apply list_elem_of_In. set_solver. }
  destruct m1. simpl in *. rewrite !lookup_delete_eq, <- Hdb. split_and!; try done.
  intros e He Hu. apply elem_of_app. left. by apply Hev.
Qed.

Lemma refused_when_banned m p now :
  ban_status (pm_db m) p = Some BadScore ->
  handle_established_inbound_connection m now p = Err DeniedBadScore /\
  handle_established_outbound_connection m now p = Err (DeniedCause BadScore).
Proof.
  intros Hb. unfold handle_established_inbound_connection, handle_established_outbound_connection.
  by rewrite Hb.
Qed.

Lemma irrelevant_entry m p i s reason :
  peers (pm_db m) !! p = Some i -> is_trusted i = false -> pi_score i = Score.Real s ->
  is_connected i = true ->
  let m0 := mark_irrelevant m p reason in
  exists i0, peers (pm_db m0) !! p = Some i0 /\ is_trusted i0 = false /\ pi_score i0 = Score.Real s /\
    is_connected i0 = true /\ pi_score_state i0 = pi_score_state i /\ temporary m0 = temporary m /\
    banned_peers_count (pm_db m0) = banned_peers_count (pm_db m) /\ events m0 = events m.
Proof.
  intros Hp Htr Hsc Hcon. unfold mark_irrelevant. case_decide; [|by exists i].
  unfold db_update_sync_status. rewrite Hp.
  exists (pi_update_sync_status i IrrelevantPeer).2. destruct (pi_update_sync_status i _) as [ch i'] eqn:Ei.
  assert (i' = (pi_update_sync_status i IrrelevantPeer).2) as -> by by rewrite Ei.
  rewrite pm_db_set_db, temporary_set_db. cbn [snd peers put_peer]. rewrite lookup_insert_eq. by destruct i, m.
Qed.

(** A goodbye to a peer that its score has banned already asks for nothing. *)
Lemma goodbye_banned m now p i s reason :
  peers (pm_db m) !! p = Some i -> is_trusted i = false -> pi_score i = Score.Real s -> is_connected i = true ->
  pi_score_state i = ScoreState.Banned ->
  exists m1, goodbye_peer m now p reason = Some m1 /\ events m1 = events m.
Proof.
  intros Hp Htr Hsc Hcon Hst.
  destruct (irrelevant_entry m p i s reason Hp Htr Hsc Hcon) as (i0 & Hp0 & Htr0 & Hsc0 & _ & Hst0 & _ & _ & He0).
  unfold goodbye_peer, pm_report_peer, report_peer. rewrite Hp0, Hst0, Hst. cbv zeta.
  assert (Hb : pi_score_state (apply_peer_action_to_score i0 Fatal) = ScoreState.Banned) by by eapply fatal_state.
  unfold handle_score_transition. rewrite Hb. cbn [apply_transition handle_score_action].
  eexists. split; [done|]. rewrite <- He0. by destruct (mark_irrelevant m p reason).
Qed.

(** The first half of a goodbye: the peer is asked to leave, and when it has left it is banned. *)
Lemma goodbye_asks clock now now' m p i s reason :
  pm_inv clock m -> clock <= now -> db_weight (pm_db m) + 2 <= USIZE_MAX ->
  peers (pm_db m) !! p = Some i -> is_trusted i = false -> pi_score i = Score.Real s ->
  is_connected i = true -> pi_score_state i <> ScoreState.Banned ->
  banned_peers (banned_peers_count (pm_db m)) < MAX_BANNED_PEERS ->
  exists m1 op db2 i2, goodbye_peer m now p reason = Some m1 /\ step_ok 2 clock now m m1 /\
    EvDisconnectPeer p reason ∈ events m1 /\ temporary m1 = temporary m /\
    db_connection_status (pm_db m1) p = Some (Disconnecting true) /\
    update_connection_state (pm_db m1) now' p NewDisconnected = (op, db2) /\
    banned_peers (banned_peers_count db2) <= MAX_BANNED_PEERS /\
    peers db2 !! p = Some i2 /\ connection_status i2 = Banned now' /\ pi_score_state i2 = ScoreState.Banned.
Proof.
  intros Hi Hle Hw Hp Htr Hsc Hcon Hst Hroom.
  destruct (goodbye_step clock now m p reason Hi Hle ltac:(lia)) as (m1 & E1 & Hok).
  destruct (irrelevant_entry m p i s reason Hp Htr Hsc Hcon)
    as (i0 & Hp0 & Htr0 & Hsc0 & Hcon0 & Hst0 & Ht0 & Hc0 & _). rewrite <- Hst0 in Hst. clear Hst0. rename Hst into Hst0.
  set (m0 := mark_irrelevant m p reason) in *.
  pose proof (fatal_report_bans (pm_db m0) now now' p i0 s Hp0 Htr0 Hsc0) as Hf.
  unfold is_connected_or_dialing in Hf. rewrite Hcon0 in Hf. specialize (Hf eq_refl Hst0).
  pose proof E1 as Egoodbye. unfold goodbye_peer, pm_report_peer in E1. fold m0 in E1.
  destruct (report_peer (pm_db m0) now p Fatal) as [res db1].
  destruct (update_connection_state db1 now' p NewDisconnected) as [op db2] eqn:E2.
  destruct Hf as (-> & Hs1 & _ & Hs2 & Hban & _ & Hcnt). injection E1 as E1.
  assert (pm_db m1 = db1 /\ temporary m1 = temporary m /\ EvDisconnectPeer p reason ∈ events m1) as (Hdb1 & Ht1 & Hev1).
  { rewrite <- E1, <- Ht0. unfold push_event. destruct m0. simpl. split_and!; [done|done|set_solver]. }
  unfold db_connection_status in Hs2. destruct (peers db2 !! p) as [i2|] eqn:Hp2; [|done]. injection Hs2 as Hs2.
  exists m1, op, db2, i2. rewrite Hdb1. split_and!; try done.
  - rewrite Hcnt, Hc0. unfold usize_saturating_add, u64_saturating_add, MAX_BANNED_PEERS in *. lia.
  - unfold ban_status in Hban. rewrite Hp2 in Hban. destruct (pi_score_state i2); try done;
      destruct (db_ip_is_banned db2 i2); done.
Qed.

(** C7: a goodbye is carried through.  Saying goodbye to a connected peer that is not trusted and that its
    score has not banned yet asks for its disconnection with the given reason; when its last connection has
    closed, the disconnection has been announced, and the ban too unless the peer is temporarily banned, no
    timer for the peer is left, connections from and to it are refused and it is not dialed any more.  If
    its score has banned the peer already, the goodbye asks for nothing.  The hypotheses leave room for
    another ban in the database. *)
Theorem goodbye_bans clock now now' m p i s reason :
  pm_inv clock m -> clock <= now -> now <= now' -> db_weight (pm_db m) + 4 <= USIZE_MAX ->
  peers (pm_db m) !! p = Some i -> is_trusted i = false -> pi_score i = Score.Real s ->
  is_connected i = true -> banned_peers (banned_peers_count (pm_db m)) < MAX_BANNED_PEERS ->
  exists m1, goodbye_peer m now p reason = Some m1 /\
  (pi_score_state i = ScoreState.Banned -> events m1 = events m) /\
  (pi_score_state i <> ScoreState.Banned ->
   EvDisconnectPeer p reason ∈ events m1 /\
   exists m2, on_connection_closed m1 now' p 0 = Some m2 /\ EvPeerDisconnected p ∈ events m2 /\
    (p ∉ temporary m -> announced p m2) /\
    hs_entries (inbound_ping_peers m2) !! p = None /\ hs_entries (outbound_ping_peers m2) !! p = None /\
    hs_entries (status_peers m2) !! p = None /\
    (forall t, handle_established_inbound_connection m2 t p = Err DeniedBadScore /\
               handle_established_outbound_connection m2 t p = Err (DeniedCause BadScore)) /\
    forall e, enr_peer_id e = p -> (dial_peer m2 e).1 = false).
Proof.
  intros Hi Hle Hle' Hw Hp Htr Hsc Hcon Hroom.
  destruct (decide (pi_score_state i = ScoreState.Banned)) as [Hst|Hst].
  { destruct (goodbye_banned m now p i s reason Hp Htr Hsc Hcon Hst) as (m1 & ? & ?). by exists m1. }
  destruct (goodbye_asks clock now now' m p i s reason Hi Hle ltac:(lia) Hp Htr Hsc Hcon Hst Hroom)
    as (m1 & op & db2 & i2 & E1 & [Hi1 Hw1 _] & Hev1 & Ht1 & Hs1 & E2 & Hcnt & Hp2 & Hs2 & Hsb).
  destruct (pm_step_ok now now' m1 (OpClosed p 0) Hi1 Hle' ltac:(simpl; lia)) as ([out m2] & E3 & [Hi2 _ Ha]).
  cbn [pm_step] in E3. destruct (on_connection_closed m1 now' p 0) as [m2'|] eqn:E4; [|done].
  injection E3 as <- <-. cbn [snd] in *. exists m1. split; [done|]. split; [done|]. intros _. split; [done|].
  exists m2'. split; [done|].
  unfold on_connection_closed in E4. cbn [Z.ltb Z.compare] in E4.
  unfold db_is_connected_or_disconnecting in E4. rewrite Hs1 in E4.
  destruct (pm_inject_disconnect_inv _ _ _ _ E4) as (op' & purged & E5 & T1 & T2 & T3 & Hev).
  replace (pm_db (push_event m1 (EvPeerDisconnected p))) with (pm_db m1) in E5 by (by destruct m1).
  destruct (inject_disconnect_keeps (pm_db m1) now' p op db2 i2 op' purged (pm_db m2') E2 Hcnt Hp2) as (_ & _ & Hp3);
    [unfold is_disconnected; by rewrite Hs2|done|].
  assert (ban_status (pm_db m2') p = Some BadScore) as Hban' by (unfold ban_status; by rewrite Hp3, Hsb).
  split_and!; try done.
  - apply Hev; [|done]. unfold push_event. destruct m1. simpl. set_solver.
  - intros Htmp. destruct (Ha p) as [(i1 & Hi1' & Hb1)|[Hin|?]]; [|exfalso| |done].
    + exists i2. split; [done|]. unfold is_banned. by rewrite Hs2.
    + exfalso. unfold db_connection_status in Hs1. rewrite Hi1' in Hs1. injection Hs1 as Hs1.
      unfold is_banned in Hb1. by rewrite Hs1 in Hb1.
    + by rewrite Ht1 in Hin.
  - intros t. by apply refused_when_banned.
  - intros e He. unfold dial_peer, should_dial, db_connection_status. rewrite He, Hp3. simpl. by rewrite Hs2.
Qed.

(** Discovery asks for what is missing.  For targets up to 4096: the number asked for never
    underflows; with the peers there are and those being dialed it adds up to the maximal number of
    peers, or of peers while outbound connections are missing; and it is positive whenever there are
    fewer peers than the target. *)
Theorem discovery_fills_up m dialing :
  0 <= target_peers m <= 4096 -> 0 <= dialing ->
  let n := g_connected_or_dialing_peers (network_globals m) in
  let wanted := wanted_peers m dialing in
  (n + dialing < target_peers m -> 0 < wanted /\ n + dialing + wanted = max_peers (target_peers m)) /\
  (wanted <> 0 -> 0 < wanted /\
     (n + dialing + wanted = max_peers (target_peers m) \/
      (n + dialing + wanted = max_outbound_dialing_peers (target_peers m) /\
       g_connected_outbound_only_peers (network_globals m) < min_outbound_only_peers (target_peers m)))).
Proof.
  intros Ht Hd n wanted. destruct (thresholds_in_order (target_peers m) Ht) as (H1' & H2' & H3' & _ & H4').
  assert (0 <= n) as Hn by (unfold n, g_connected_or_dialing_peers; lia).
  unfold wanted, wanted_peers. fold n. unfold saturating_sub.
  destruct (n <? Z.max 0 (target_peers m - dialing)) eqn:E; bool_to_Prop.
  - assert (usize_wrapping_sub (Z.max 0 (max_peers (target_peers m) - dialing)) n =
      max_peers (target_peers m) - dialing - n) as ->; [|lia].
    unfold usize_wrapping_sub. rewrite as_u64_small; [lia|]. unfold in_u64, U64_MAX. lia.
  - split; [lia|]. case_match eqn:E2; [|done]. bool_to_Prop. lia.
Qed.

(** Dialing is bounded.  What discovery finds is queued at most once, never a record that is already
    queued, and never beyond the limit: with the peers connected or being dialed the new ones make at
    most the number allowed for peers that validators need, and at most the maximal number of peers if
    none of the records found is needed by a validator. *)
Theorem discovered_dials_bounded m now results :
  let n := g_connected_or_dialing_peers (network_globals m) in
  n + Z.of_nat (size results) <= USIZE_MAX ->
  exists added, peers_to_dial (peers_discovered m now results) = peers_to_dial m ++ added /\
    NoDup added /\ (forall e, e ∈ added -> is_Some (results !! e) /\ e ∉ peers_to_dial m) /\
    (added = [] \/ n + Z.of_nat (length added) <=
       Z.max (max_priority_peers (target_peers m)) (max_peers (target_peers m))) /\
    ((forall e t, results !! e <> Some (Some t)) ->
       added = [] \/ n + Z.of_nat (length added) <= max_peers (target_peers m)).
Proof.
  intros n Hn. unfold peers_discovered. fold n.
  destruct (dial_discovered_spec now n (hash_iter results) m 0) as (added & H1' & _ & H3' & H4' & H5' & H6' & H7').
  - apply NoDup_fst_hash_iter.
  - unfold n, g_connected_or_dialing_peers. lia.
  - lia.
  - rewrite length_hash_iter. lia.
  - destruct (dial_discovered m now n 0 (hash_iter results)) as [k m1]. cbn [fst snd] in *.
    exists added. rewrite Z.add_0_l in H3'. subst k. split_and!; try done.
    + rewrite <- H1'. case_match; [done|]. unfold maintain_peer_count. repeat case_match; by destruct m1.
    + intros e He. destruct (H5' e He) as [Hin Hni]. split; [|done].
      apply list_elem_of_fmap in Hin as ([e' t] & -> & Hin). apply elem_of_hash_iter in Hin. by eexists.
    + intros Hnone. apply H7'. intros e t Hin%elem_of_hash_iter. by apply (Hnone e t).
Qed.

End pm_theorems.

Module PeerManagerExamples.

#[local] Existing Instance Toy.chain.
#[local] Existing Instance Toy.libp2p.
#[local] Existing Instance ScoreExamples.step_float_exp.
#[local] Existing Instance PeerDBExamples.stable_unstable_sort.
#[local] Existing Instance PruningExamples.no_shuffle.
#[local] Existing Instance TopicsExamples.toy_crates.
#[local] Existing Instance GlobalsExamples.toy_custody.
#[local] Existing Instance EnrExtExamples.toy_enr.

(** The first expired key in the order of the map. *)
Definition first_due {K} `{Countable K} (m : gmap K Instant) (now : Instant) : option K :=
  fst <$> List.find (fun kv => kv.2 <=? now) (map_to_list m).

#[local] Instance first_due_set : DelaySet.
Proof.
  refine {| poll_delay := @first_due |}.
  - intros K ? ? m now k Hk. unfold first_due in Hk.
    destruct (List.find _ _) as [[k' t]|] eqn:E; [|done]. injection Hk as ->.
    apply List.find_some in E as [Hin Hle]. apply list_elem_of_In, elem_of_map_to_list in Hin.
    apply Z.leb_le in Hle. eauto.
  - intros K ? ? m now Hn k t Hk. unfold first_due in Hn.
    destruct (List.find _ _) eqn:E; [done|]. apply elem_of_map_to_list, list_elem_of_In in Hk.
    pose proof (List.find_none _ _ E _ Hk) as Hf. apply Z.leb_gt in Hf. exact Hf.
Defined.

Definition globals0 : option NetworkGlobals :=
  NetworkGlobals_new (tt : @ChainConfig Toy.chain) (120 : @Enr Toy.libp2p) GlobalsExamples.metadata4 [] false 3
    GlobalsExamples.sampling_flags.

(** A new manager with the given target and database. *)
Definition manager (target : Z) (db : PeerDB) : option PeerManager :=
  let* g := globals0 in
  PeerManager_new (mkConfig true false true target 300 20 15) (set_g_peers g db) 0.

Definition peer7 : @PeerId Toy.libp2p := 7.
Definition addr7 : @Multiaddr Toy.libp2p := 10 * 65536 + 1.
Definition sec (n : Z) : Z := Duration_from_secs n.

(** A peer connects, is told goodbye and disconnects; the manager is polled before and after. *)
Definition goodbye_ops : list (Instant * PmOp) :=
  [(0, OpEstablished peer7 (Listener addr7)); (sec 1, OpPoll); (sec 2, OpGoodbye peer7 GoodbyeReason.Fault);
   (sec 3, OpPoll); (sec 4, OpClosed peer7 0); (sec 100, OpPoll); (sec 100, OpPoll); (sec 100, OpPoll)].

Example goodbye_run :
  (let* g := globals0 in let* m := PeerManager_new (mkConfig true false true 1 300 20 15) g 0 in
   let* r := pm_run m goodbye_ops in Some r.1) =
  Some [PollPending; PollEvent (EvPeerConnectedIncoming peer7); PollPending; PollEvent (EvDiscoverPeers 1);
        PollPending; PollEvent (EvDisconnectPeer peer7 GoodbyeReason.Fault);
        PollEvent (EvPeerDisconnected peer7); PollEvent (EvBanned peer7 [])].
Proof. evaluate. Qed.

Definition small_config : Config := mkConfig true false true 1 300 20 15.

Example new_manager_exists :
  match globals0 with
  | Some g => match PeerManager_new small_config g 0 with Some _ => true | None => false end
  | None => false
  end = true.
Proof. evaluate. Qed.

Lemma peer_manager_invariant_witness :
  exists g m outs m', globals0 = Some g /\ PeerManager_new small_config g 0 = Some m /\
    pm_run m goodbye_ops = Some (outs, m') /\ db_inv (pm_db m') /\
    forall p, p ∈ temporary m' -> forall i, peers (pm_db m') !! p = Some i -> is_banned i = false.
Proof.
  pose proof new_manager_exists as Hex. destruct globals0 as [g|] eqn:Hg; [|discriminate Hex].
  destruct (PeerManager_new small_config g 0) as [m|] eqn:Hm; [|discriminate Hex].
  destruct (peer_manager_invariant _ _ _ [] false 3 _ _ 0 goodbye_ops g m Hg Hm) as (outs & m' & Hr & Hdb & Ht);
    [reflexivity..| | |].
  - repeat constructor; vm_compute; discriminate.
  - vm_compute. discriminate.
  - exists g, m, outs, m'. split; [reflexivity|]. split; [exact Hm|]. split; [exact Hr|]. split; [exact Hdb|exact Ht].
Defined.

(** A manager whose database has one peer. *)
Definition with_peer (i : PeerInfo) : option PeerManager :=
  let* g := globals0 in
  let* m := PeerManager_new small_config g 0 in
  Some (set_db m (put_peer (PeerDB_new [] false) peer7 i)).

Lemma with_peer_inv i m :
  is_disconnected i = false -> is_banned i = false -> trusted_iff_max i -> with_peer i = Some m ->
  pm_inv 0 m /\ pm_db m = put_peer (PeerDB_new [] false) peer7 i /\ temporary m = ∅.
Proof.
  intros Hd Hb Ht. unfold with_peer. destruct globals0 as [g|] eqn:Hg; [|done].
  destruct (PeerManager_new small_config g 0) as [m0|] eqn:Hm; [|done]. intros [= <-].
  assert (temporary m0 = ∅ /\ timers_positive m0 /\ exists c, represents 0 (temporary_banned_peers m0) c)
    as (Ht0 & Hp0 & Hc0).
  { unfold PeerManager_new in Hm. repeat case_match; simplify_eq; (split; [done|]); (split; [done|]);
      (exists ∅; constructor; simpl; [done|constructor|by rewrite dom_empty_L|constructor|constructor]). }
  assert (forall f : PeerInfo -> bool, f i = false ->
    map_sum (fun kv => Z.b2z (f kv.2)) (peers (put_peer (PeerDB_new [] false) peer7 i)) = 0) as Hz.
  { intros f Hf. rewrite map_sum_zero; [done|]. intros p j Hj. simpl in Hj.
    apply lookup_insert_Some in Hj as [[_ <-]|[_ Hj]]; [simpl; by rewrite Hf|by rewrite lookup_empty in Hj]. }
  split_and!; [|apply pm_db_set_db|by rewrite temporary_set_db].
  split; [|rewrite temporary_set_db, Ht0; set_solver]. split.
  - rewrite pm_db_set_db. split.
    + rewrite n_disconnected_sum, Hz by done. simpl. lia.
    + rewrite n_banned_sum, Hz by done. simpl. unfold USIZE_MAX, U64_MAX. lia.
    + intros p j Hj. simpl in Hj.
      apply lookup_insert_Some in Hj as [[_ <-]|[_ Hj]]; [done|by rewrite lookup_empty in Hj].
  - by destruct m0.
  - by destruct m0.
Qed.

(** A peer that is being disconnected in order to be banned. *)
Definition leaving : PeerInfo :=
  set_connection_status (apply_peer_action_to_score (PeerInfo_default 0) Fatal) (Disconnecting true).

Example leaving_is_banned :
  match with_peer leaving with
  | Some m =>
      match pm_step m 5 (OpClosed peer7 0) with
      | Some (_, m') => is_banned <$> peers (pm_db m') !! peer7
      | None => None
      end
  | None => None
  end = Some true.
Proof. evaluate. Qed.

Lemma bans_are_announced_witness :
  exists m out m', pm_step m 5 (OpClosed peer7 0) = Some (out, m') /\
    (exists ips, EvBanned peer7 ips ∈ events m') /\ forall ips, EvUnBanned peer7 ips ∉ events m'.
Proof.
  pose proof leaving_is_banned as Hex. destruct (with_peer leaving) as [m|] eqn:Hm; [|discriminate Hex].
  destruct (pm_step m 5 (OpClosed peer7 0)) as [[out m']|] eqn:Hs; [|discriminate Hex].
  destruct (with_peer_inv leaving m) as (Hi & Hdb & Ht); [reflexivity|reflexivity|done|exact Hm|].
  exists m, out, m'. split; [exact Hs|]. apply (bans_are_announced 0 5 m (OpClosed peer7 0) out m' peer7); auto.
  - lia.
  - rewrite Hdb. vm_compute. discriminate.
  - destruct (peers (pm_db m') !! peer7) as [i|] eqn:Hp; [|discriminate Hex]. injection Hex as Hex.
    exists i. split; [exact Hp|exact Hex].
  - rewrite Hdb. intros (i & Hp & Hb). simpl in Hp. rewrite lookup_insert_eq in Hp. injection Hp as <-. discriminate Hb.
  - rewrite Ht. set_solver.
Defined.

Definition connected7 : PeerInfo := connect_ingoing (PeerInfo_default 0) addr7.

Example connected_manager_exists : bool_decide (is_Some (with_peer connected7)) = true.
Proof. evaluate. Qed.

Lemma goodbye_bans_witness :
  exists m m1 m2, with_peer connected7 = Some m /\ goodbye_peer m 5 peer7 GoodbyeReason.IrrelevantNetwork = Some m1 /\
    EvDisconnectPeer peer7 GoodbyeReason.IrrelevantNetwork ∈ events m1 /\
    on_connection_closed m1 9 peer7 0 = Some m2 /\ announced peer7 m2 /\
    handle_established_inbound_connection m2 10 peer7 = Err DeniedBadScore.
Proof.
  pose proof connected_manager_exists as Hex. apply bool_decide_eq_true in Hex as [m Hm].
  destruct (with_peer_inv connected7 m) as (Hi & Hdb & Ht); [reflexivity|reflexivity|done|exact Hm|].
  destruct (goodbye_bans 0 5 9 m peer7 connected7 (RealScore_default 0) GoodbyeReason.IrrelevantNetwork Hi)
    as (m1 & H1' & _ & Hb).
  - lia.
  - lia.
  - rewrite Hdb. vm_compute. discriminate.
  - rewrite Hdb. simpl. apply lookup_insert_eq.
  - reflexivity.
  - reflexivity.
  - reflexivity.
  - rewrite Hdb. vm_compute. reflexivity.
  - destruct Hb as (H2' & m2 & H3' & _ & H4' & _ & _ & _ & H5' & _); [vm_compute; discriminate|].
    exists m, m1, m2. split; [exact Hm|]. split; [exact H1'|]. split; [exact H2'|]. split; [exact H3'|].
    split; [|apply H5']. apply H4'. rewrite Ht. set_solver.
Defined.

Lemma discovery_fills_up_witness :
  exists m, with_peer connected7 = Some m /\ 0 < 1 /\
    (g_connected_or_dialing_peers (network_globals m) + 0 < target_peers m ->
     0 < wanted_peers m 0).
Proof.
  pose proof connected_manager_exists as Hex. apply bool_decide_eq_true in Hex as [m Hm].
  assert (target_peers m = 1) as Htg.
  { unfold with_peer, PeerManager_new in Hm. destruct globals0 as [g|]; [|discriminate Hm].
    repeat case_match; simplify_eq; done. }
  destruct (discovery_fills_up m 0) as [Hfew _]; [rewrite Htg; lia|lia|].
  exists m. split; [exact Hm|]. split; [lia|]. intros Hlt. apply Hfew, Hlt.
Defined.

Lemma discovered_dials_bounded_witness :
  exists m, with_peer connected7 = Some m /\
    exists added, peers_to_dial (peers_discovered m 0 {[8 := None; 9 := Some 5]}) = peers_to_dial m ++ added /\
      NoDup added.
Proof.
  pose proof connected_manager_exists as Hex. apply bool_decide_eq_true in Hex as [m Hm].
  destruct (with_peer_inv connected7 m) as (Hi & Hdb & Ht); [reflexivity|reflexivity|done|exact Hm|].
  exists m. split; [exact Hm|].
  destruct (discovered_dials_bounded m 0 ({[8 := None; 9 := Some 5]} : gmap Z (option Instant)))
    as (added & Ha & Hn & _).
  - unfold g_connected_or_dialing_peers. fold (pm_db m). rewrite Hdb. vm_compute. discriminate.
  - exists added. split; [exact Ha|exact Hn].
Defined.

(** A full manager disconnects a peer without banning it: the peer is under a temporary ban, and the
    swarm is told so, but the next connection from it is not refused. *)
Definition reconnecting : list (Instant * PmOp) :=
  [(0, OpEstablished peer7 (Listener addr7)); (0, OpEstablished (8 : @PeerId Toy.libp2p) (Listener (addr7 + 1)));
   (sec 1, OpDisconnect peer7 GoodbyeReason.TooManyPeers); (sec 2, OpClosed peer7 0)].

Example temporary_ban_not_enforced :
  (let* g := globals0 in let* m := PeerManager_new small_config g 0 in
   let* r := pm_run m reconnecting in
   Some (bool_decide (peer7 ∈ temporary r.2),
         handle_established_inbound_connection r.2 (sec 3) peer7)) = Some (true, Ok tt).
Proof. evaluate. Qed.

End PeerManagerExamples.
