(* ===== verification/Network.v ===== *)
(** * The network service ([service/mod.rs], [service/api_types.rs])

    The service owns the behaviours of the swarm and passes events between them: what gossipsub, the RPC,
    the peer manager, discovery and identify report is answered by calls to the others or becomes an event
    for the application.  The globals every part shares are those of the peer manager.  Gossipsub is a
    parameter; what the swarm knows of connections and listeners is an argument.  [None] stands for a
    panic.  Metrics and logs are left out. *)

From Stdlib Require Import Ascii SpecFloat.
From S2P Require Import Prelude Disk Chain Timers Enr Protocol Messages Text RateLimiter RateConfig SelfLimiter ResponseLimiter Events Rpc.
From S2P Require Import ForkContext Limits Codec Float64 Score PeerInfo PeerDB TimeCache Pruning Topics GossipCache Globals.
From S2P Require Import EnrExt Config LocalEnr Discovery Pubsub ServiceUtils GossipScoring PeerManager.

(** ** Requests and responses of the application ([api_types.rs]) *)

Inductive AppRequestId :=
  | Application (id : Z)
  | Internal.

#[export] Instance AppRequestId_eq_dec : EqDecision AppRequestId.
Proof. solve_decision. Defined.

Section api_types.
Context `{ChainTypes}.

Inductive Response :=
  | RStatus (m : StatusMessage)
  | RBlocksByRange (b : option SignedBeaconBlock)
  | RBlobsByRange (b : option BlobSidecar)
  | RDataColumnsByRange (d : option DataColumnSidecar)
  | RBlocksByRoot (b : option SignedBeaconBlock)
  | RBlobsByRoot (b : option BlobSidecar)
  | RDataColumnsByRoot (d : option DataColumnSidecar)
  | RLightClientBootstrap (b : LightClientBootstrap)
  | RLightClientOptimisticUpdate (u : LightClientOptimisticUpdate)
  | RLightClientFinalityUpdate (u : LightClientFinalityUpdate)
  | RLightClientUpdatesByRange (u : option LightClientUpdate).

(** [From<Response> for RpcResponse]. *)
Definition Response_into (r : Response) : RpcResponse :=
  let or_end {A} (x : option A) (wrap : A -> RpcSuccessResponse) (t : ResponseTermination) :=
    match x with Some b => RpcSuccess (wrap b) | None => RpcStreamTermination t end in
  match r with
  | RBlocksByRoot x => or_end x RespBlocksByRoot ResponseTermination.BlocksByRoot
  | RBlocksByRange x => or_end x RespBlocksByRange ResponseTermination.BlocksByRange
  | RBlobsByRoot x => or_end x RespBlobsByRoot ResponseTermination.BlobsByRoot
  | RBlobsByRange x => or_end x RespBlobsByRange ResponseTermination.BlobsByRange
  | RDataColumnsByRoot x => or_end x RespDataColumnsByRoot ResponseTermination.DataColumnsByRoot
  | RDataColumnsByRange x => or_end x RespDataColumnsByRange ResponseTermination.DataColumnsByRange
  | RStatus s => RpcSuccess (RespStatus s)
  | RLightClientBootstrap b => RpcSuccess (RespLightClientBootstrap b)
  | RLightClientOptimisticUpdate o => RpcSuccess (RespLightClientOptimisticUpdate o)
  | RLightClientFinalityUpdate f => RpcSuccess (RespLightClientFinalityUpdate f)
  | RLightClientUpdatesByRange x =>
      or_end x RespLightClientUpdatesByRange ResponseTermination.LightClientUpdatesByRange
  end.

End api_types.

(** ** What the service uses of other crates *)

Inductive PublishError := Duplicate | NoPeersSubscribedToTopic | OtherPublishError.
Inductive MessageAcceptance := Accept | Reject | Ignore.

(** [MaxCountSubscriptionFilter] around the whitelist. *)
Record SubscriptionFilter := mkSubscriptionFilter {
  sf_whitelist : gset (list ascii);
  max_subscribed_topics : Z;
  max_subscriptions_per_request : Z;
}.

(** Gossipsub, the chain configuration, and [Multiaddr::pop]; a topic is known by its name. *)
Class ServiceCrates `{ChainTypes} `{Libp2p} := {
  Gossipsub : Type;
  MessageId : Type;
  (** The checks of [ConfigBuilder::build]. *)
  gs_config_valid : GossipsubConfig -> bool;
  gs_new : GossipsubConfig -> SubscriptionFilter -> SnappyTransform -> result Gossipsub string;
  (** [None]: the parameters are not valid. *)
  gs_with_peer_score : Gossipsub -> PeerScoreParams -> PeerScoreThresholds -> option Gossipsub;
  gs_add_explicit_peer : Gossipsub -> PeerId -> Gossipsub;
  gs_subscribe : Gossipsub -> list ascii -> result bool string * Gossipsub;
  gs_unsubscribe : Gossipsub -> list ascii -> bool * Gossipsub;
  gs_publish : Gossipsub -> list ascii -> Bytes -> result unit PublishError * Gossipsub;
  gs_report_validation : Gossipsub -> MessageId -> PeerId -> MessageAcceptance -> Gossipsub;
  gs_set_topic_params : Gossipsub -> list ascii -> TopicScoreParams -> result unit string * Gossipsub;
  gs_peer_score : Gossipsub -> PeerId -> option f64;
  TopicScoreParams_default : TopicScoreParams;
  config_slot_duration : ChainConfig -> Duration;
  sha256 : Bytes -> Bytes;
  config_message_domain_valid_snappy : ChainConfig -> Bytes;
  config_max_message_size : ChainConfig -> Z;
  config_max_payload_size : ChainConfig -> Z;
  config_max_payload_size_compressed : ChainConfig -> Z;
  (** The last component, whether it names a peer, and the address without it. *)
  multiaddr_pop : Multiaddr -> option (bool * Multiaddr);
}.

(** For an address that ends with a peer identifier, the address without it. *)
Definition strip_peer_id `{ServiceCrates} (addr : Multiaddr) : Multiaddr :=
  match multiaddr_pop addr with Some (true, rest) => rest | _ => addr end.

Definition MAX_IDENTIFY_ADDRESSES : nat := 10.

Section network.
Context `{ChainTypes} `{Libp2p} `{HashIter} `{FloatExp} `{UnstableSort} `{ThreadRng} `{DelaySet} `{DelayQueue} `{DelayKeys}.
Context `{!TopicCrates} `{!CustodyCrates} `{!EnrFields} `{!EnrCrates} `{!Discv5Service}.
Context `{!Wire} `{!GossipWire} `{!BlobSubnets} `{!ScoringCrates} `{!ServiceCrates}.

Inductive NetworkEvent :=
  | NPeerConnectedOutgoing (p : PeerId)
  | NPeerConnectedIncoming (p : PeerId)
  | NPeerDisconnected (p : PeerId)
  | NRPCFailed (app_request_id : AppRequestId) (p : PeerId) (error : RPCError)
  | NRequestReceived (p : PeerId) (inbound_request_id : InboundRequestId) (request_type : RequestType)
  | NResponseReceived (p : PeerId) (app_request_id : AppRequestId) (response : Response)
  | NPubsubMessage (id : MessageId) (source : PeerId) (topic : list ascii) (message : PubsubMessage)
  | NStatusPeer (p : PeerId)
  | NNewListenAddr (addr : Multiaddr)
  | NZeroListeners
  | NPeerUpdatedCustodyGroupCount (p : PeerId).

(** The hard limits on connections. *)
Record ConnectionLimits := mkConnectionLimits {
  max_pending_incoming : Z;
  max_pending_outgoing : Z;
  max_established_incoming : Z;
  max_established_outgoing : Z;
  max_established : Z;
  max_established_per_peer : Z;
}.

(** [metadata_file] is the metadata file in the network directory. *)
Record Network := mkNetwork {
  connection_limits : ConnectionLimits;
  peer_manager : PeerManager;
  eth2_rpc : RPC AppRequestId;
  discovery : Discovery;
  gossipsub : Gossipsub;
  enr_fork_id : EnrForkId ForkDigest Version;
  n_network_dir : option string;
  fork_context : ForkContext;
  score_settings : PeerScoreSettings;
  gossip_cache : GossipCache;
  metadata_file : File Z;
}.

Definition set_peer_manager (n : Network) (x : PeerManager) : Network :=
  let '(mkNetwork cl _ r d gs f nd fc ss gc mf) := n in mkNetwork cl x r d gs f nd fc ss gc mf.
Definition set_rpc (n : Network) (x : RPC AppRequestId) : Network :=
  let '(mkNetwork cl pm _ d gs f nd fc ss gc mf) := n in mkNetwork cl pm x d gs f nd fc ss gc mf.
Definition set_discovery (n : Network) (x : Discovery) : Network :=
  let '(mkNetwork cl pm r _ gs f nd fc ss gc mf) := n in mkNetwork cl pm r x gs f nd fc ss gc mf.
Definition set_gossipsub (n : Network) (x : Gossipsub) : Network :=
  let '(mkNetwork cl pm r d _ f nd fc ss gc mf) := n in mkNetwork cl pm r d x f nd fc ss gc mf.
Definition set_fork_id (n : Network) (x : EnrForkId ForkDigest Version) : Network :=
  let '(mkNetwork cl pm r d gs _ nd fc ss gc mf) := n in mkNetwork cl pm r d gs x nd fc ss gc mf.
Definition set_gossip_cache (n : Network) (x : GossipCache) : Network :=
  let '(mkNetwork cl pm r d gs f nd fc ss _ mf) := n in mkNetwork cl pm r d gs f nd fc ss x mf.
Definition set_metadata_file (n : Network) (x : File Z) : Network :=
  let '(mkNetwork cl pm r d gs f nd fc ss gc _) := n in mkNetwork cl pm r d gs f nd fc ss gc x.

Definition globals (n : Network) : NetworkGlobals := network_globals (peer_manager n).
Definition set_network_globals (n : Network) (g : NetworkGlobals) : Network :=
  set_peer_manager n (set_globals (peer_manager n) g).
Definition set_g_subscriptions (g : NetworkGlobals) (s : gset GossipTopic) : NetworkGlobals :=
  mkNetworkGlobals (g_config g) (local_enr g) (g_peer_id g) (listen_multiaddrs g) (g_peers g)
    (local_metadata g) s (sync_state g) (backfill_state g) (sampling_subnets g)
    (target_subnet_peers g) (network_config g).
Definition set_g_metadata (g : NetworkGlobals) (m : MetaData) : NetworkGlobals :=
  mkNetworkGlobals (g_config g) (local_enr g) (g_peer_id g) (listen_multiaddrs g) (g_peers g)
    m (gossipsub_subscriptions g) (sync_state g) (backfill_state g) (sampling_subnets g)
    (target_subnet_peers g) (network_config g).
Definition set_published (n : Network) (s : NetworkGlobals * Discovery) : Network :=
  set_discovery (set_network_globals n s.1) s.2.

(** ** Topics *)

Definition subscribe (n : Network) (topic : GossipTopic) : bool * Network :=
  let n := set_network_globals n
             (set_g_subscriptions (globals n) ({[topic]} ∪ gossipsub_subscriptions (globals n))) in
  match gs_subscribe (gossipsub n) (GossipTopic_to_string topic) with
  | (Err _, gs) => (false, set_gossipsub n gs)
  | (Ok _, gs) => (true, set_gossipsub n gs)
  end.

Definition unsubscribe (n : Network) (topic : GossipTopic) : bool * Network :=
  let n := set_network_globals n
             (set_g_subscriptions (globals n) (gossipsub_subscriptions (globals n) ∖ {[topic]})) in
  let '(was, gs) := gs_unsubscribe (gossipsub n) (GossipTopic_to_string topic) in
  (was, set_gossipsub n gs).

Definition current_topic (n : Network) (kind : GossipKind) : GossipTopic :=
  GossipTopic_new kind SSZSnappy (efi_fork_digest (enr_fork_id n)).

Definition subscribe_kind (n : Network) (kind : GossipKind) : bool * Network := subscribe n (current_topic n kind).
Definition unsubscribe_kind (n : Network) (kind : GossipKind) : bool * Network := unsubscribe n (current_topic n kind).

Definition subscribe_all (n : Network) (topics : list GossipTopic) : Network :=
  fold_left (fun n t => (subscribe n t).2) topics n.
Definition unsubscribe_all (n : Network) (topics : list GossipTopic) : Network :=
  fold_left (fun n t => (unsubscribe n t).2) topics n.

(** The topic under another fork. *)
Definition with_digest (digest : ForkDigest) (t : GossipTopic) : GossipTopic :=
  mkGossipTopic (gt_encoding t) digest (gt_kind t).

Definition subscribe_new_fork_topics (n : Network) (phase : Phase) (new_fork_digest : ForkDigest) : Network :=
  let subscriptions := set_iter (gossipsub_subscriptions (globals n)) in
  let n := subscribe_all n
             (map (with_digest new_fork_digest) (filter (fun t => is_fork_non_core_topic t phase = true) subscriptions)) in
  subscribe_all n
    (map (fun kind => GossipTopic_new kind SSZSnappy new_fork_digest)
       (core_topics_to_subscribe (g_config (globals n)) phase (as_topic_config (globals n)))).

Definition unsubscribe_from_fork_topics_except (n : Network) (except : ForkDigest) : Network :=
  unsubscribe_all n
    (filter (fun t => Topics.fork_digest t <> except) (set_iter (gossipsub_subscriptions (globals n)))).

(** The default parameters without weight. *)
Definition weightless : TopicScoreParams :=
  let '(mkTopicScoreParams _ a b c d e f g h i j k l m o p q) := TopicScoreParams_default in
  mkTopicScoreParams (f64_of_Z 0) a b c d e f g h i j k l m o p q.

Definition set_topic_params (n : Network) (topic : GossipTopic) (p : TopicScoreParams) : result unit string * Network :=
  let '(r, gs) := gs_set_topic_params (gossipsub n) (GossipTopic_to_string topic) p in (r, set_gossipsub n gs).

Definition remove_topic_weight_except (n : Network) (except : ForkDigest) : Network :=
  fold_left (fun n t => (set_topic_params n t weightless).2)
    (filter (fun t => Topics.fork_digest t <> except) (set_iter (gossipsub_subscriptions (globals n)))) n.

Definition subscribe_new_data_column_subnets (n : Network) (sampling_column_count : Z) : option Network :=
  let* g := update_data_column_subnets (globals n) sampling_column_count in
  let n := set_network_globals n g in
  Some (fold_left (fun n column => (subscribe_kind n (GossipKind.DataColumnSidecar column)).2)
          (set_iter (sampling_subnets (globals n))) n).

(** The loop of [publish]. *)
Fixpoint publish_on (n : Network) (now : Instant) (message : PubsubMessage) (topics : list GossipTopic)
  : option Network :=
  match topics with
  | [] => Some n
  | topic :: topics =>
      match PubsubMessage_encode message SSZSnappy with
      | Err _ => Some n
      | Ok message_data =>
          let '(r, gs) := gs_publish (gossipsub n) (GossipTopic_to_string topic) message_data in
          let n := set_gossipsub n gs in
          match r with
          | Err NoPeersSubscribedToTopic =>
              let* c := gc_insert (gossip_cache n) now topic message_data in
              publish_on (set_gossip_cache n c) now message topics
          | _ => publish_on n now message topics
          end
      end
  end.

Definition publish_message (n : Network) (now : Instant) (message : PubsubMessage) : option Network :=
  publish_on n now message (Pubsub.topics message SSZSnappy (efi_fork_digest (enr_fork_id n))).

Definition report_message_validation_result (n : Network) (source : PeerId) (id : MessageId)
  (validation_result : MessageAcceptance) : Network :=
  set_gossipsub n (gs_report_validation (gossipsub n) id source validation_result).

(** Stops at the first error. *)
Fixpoint set_params_of (n : Network) (l : list (GossipKind * TopicScoreParams)) : result unit string * Network :=
  match l with
  | [] => (Ok tt, n)
  | (kind, params) :: l =>
      match set_topic_params n (current_topic n kind) params with
      | (Ok _, n) => set_params_of n l
      | (Err e, n) => (Err e, n)
      end
  end.

Definition update_gossipsub_parameters (n : Network) (active_validators : Z) (current_slot : Slot)
  : option (result unit string * Network) :=
  let s := score_settings n in
  let* (block, aggregate, subnet) := get_dynamic_topic_params s active_validators current_slot in
  Some (set_params_of n
    ([(GossipKind.BeaconBlock, block); (GossipKind.BeaconAggregateAndProof, aggregate)] ++
     map (fun i => (GossipKind.Attestation i, subnet)) (range (attestation_subnet_count s)))).

(** ** Requests *)

(** [connected]: what the swarm says of the peer. *)
Definition n_send_request (n : Network) (now : Instant) (ts : Duration) (connected : bool) (p : PeerId)
  (id : AppRequestId) (request : RequestType) : result unit (AppRequestId * RPCError) * Network :=
  if connected then (Ok tt, set_rpc n (rpc_send_request (eth2_rpc n) now ts p id request))
  else (Err (id, Events.Disconnected), n).

Definition n_send_response (n : Network) (now : Instant) (ts : Duration) (id : InboundRequestId)
  (response : RpcResponse) : option Network :=
  let* r := Rpc.send_response (eth2_rpc n) now ts id response in Some (set_rpc n r.2).

Definition n_ping (n : Network) (now : Instant) (ts : Duration) (p : PeerId) : Network :=
  set_rpc n (rpc_ping (eth2_rpc n) now ts p Internal).

Definition send_meta_data_request (n : Network) (now : Instant) (ts : Duration) (p : PeerId) : Network :=
  let event :=
    if config_is_peerdas_scheduled (g_config (globals n)) then ReqMetaData MetadataRequest_V3
    else ReqMetaData MetadataRequest_V2 in
  set_rpc n (rpc_send_request (eth2_rpc n) now ts p Internal event).

Definition build_response (id : AppRequestId) (p : PeerId) (response : Response) : option NetworkEvent :=
  match id with
  | Internal => None
  | _ => Some (NResponseReceived p id response)
  end.

(** ** Peers *)

Definition n_report_peer (n : Network) (now : Instant) (p : PeerId) (action : PeerAction)
  (reason : option GoodbyeReason) : option Network :=
  let* m := pm_report_peer (peer_manager n) now p action reason in Some (set_peer_manager n m).

Definition n_goodbye_peer (n : Network) (now : Instant) (p : PeerId) (reason : GoodbyeReason) : option Network :=
  let* m := goodbye_peer (peer_manager n) now p reason in Some (set_peer_manager n m).

Definition n_add_enr (n : Network) (e : Enr) : Network := set_discovery n (add_enr (discovery n) e).

Definition dial_cached_enrs_in_subnet (n : Network) (config : ChainConfig) (subnet : Subnet) : Network :=
  let predicate := subnet_predicate config [subnet] in
  let peers_to_dial := (filter (fun pe => predicate pe.2 = true) (cache_iter (cached_enrs (discovery n)))).*2 in
  fold_left (fun n e =>
    let n := set_discovery n (remove_cached_enr (discovery n) (enr_peer_id e)) in
    set_peer_manager n (dial_peer (peer_manager n) e).2) peers_to_dial n.

(** The closure of [discover_subnet_peers]: whether a query for the subnet is needed. *)
Definition wants_discovery (n : Network) (s : SubnetDiscovery) : bool * Network :=
  let n :=
    match sd_min_ttl s with
    | Some min_ttl =>
        let m := set_db (peer_manager n) (extend_peers_on_subnet (g_peers (globals n)) (sd_subnet s) min_ttl) in
        set_peer_manager n
          (match sd_subnet s with
           | Subnet.SyncCommittee sync_subnet => add_sync_subnet m sync_subnet min_ttl
           | _ => m
           end)
    | None => n
    end in
  let peers_on_subnet := Z.of_nat (length (good_peers_on_subnet (g_peers (globals n)) (sd_subnet s))) in
  if target_subnet_peers (globals n) <=? peers_on_subnet then (false, n)
  else (true, dial_cached_enrs_in_subnet n (chain_config (fork_context n)) (sd_subnet s)).

Fixpoint filter_subnets (n : Network) (l : list SubnetDiscovery) : list SubnetDiscovery * Network :=
  match l with
  | [] => ([], n)
  | s :: l =>
      let '(wanted, n) := wants_discovery n s in
      let '(rest, n) := filter_subnets n l in
      (if wanted : bool then s :: rest else rest, n)
  end.

Definition n_discover_subnet_peers (n : Network) (subnets_to_discover : list SubnetDiscovery) : Network :=
  if negb (started (discovery n)) then n
  else
    let '(filtered, n) := filter_subnets n subnets_to_discover in
    match filtered with
    | [] => n
    | _ => set_discovery n (discover_subnet_peers (discovery n) filtered)
    end.

Definition dial_trusted_peer (n : Network) (e : Enr) : Network :=
  set_peer_manager n (dial_peer (pm_add_trusted_peer (peer_manager n) e) e).2.

Definition remove_trusted_peer (n : Network) (now : Instant) (e : Enr) : Network :=
  set_peer_manager n
    (disconnect_peer (pm_remove_trusted_peer (peer_manager n) e) now (enr_peer_id e) GoodbyeReason.TooManyPeers).

(** ** The record and the metadata *)

(** The metadata is announced and saved. *)
Definition install_metadata (n : Network) (m : MetaData) : Network :=
  let n := set_network_globals n (set_g_metadata (globals n) m) in
  let n := set_rpc n (update_seq_number (eth2_rpc n) (seq_number m)) in
  set_metadata_file n (save_metadata_to_disk (n_network_dir n) m (metadata_file n)).

(** [attnets_mut] and [syncnets_mut]. *)
Definition set_bitfields (m : MetaData) (att sync : BitVector) : MetaData :=
  match m with
  | MDV1 m => MDV1 (mkMetaDataV1 (md1_seq_number m) att)
  | MDV2 m => MDV2 (mkMetaDataV2 (md2_seq_number m) att sync)
  | MDV3 m => MDV3 (mkMetaDataV3 (md3_seq_number m) att sync (md3_custody_group_count m))
  end.

Definition next_metadata (m : MetaData) : MetaData := set_seq_number m (increment (seq_number m)).

Definition update_metadata_bitfields (n : Network) : option Network :=
  match attestation_bitfield (d_local_enr (discovery n)), sync_committee_bitfield (d_local_enr (discovery n)) with
  | Ok local_attnets, Ok local_syncnets =>
      Some (install_metadata n
              (set_bitfields (next_metadata (local_metadata (globals n))) local_attnets local_syncnets))
  | _, _ => None
  end.

Definition update_metadata_cgc (n : Network) (custody_group_count : Z) : Network :=
  install_metadata n (set_custody_group_count (next_metadata (local_metadata (globals n))) custody_group_count).

Definition update_enr_subnet (n : Network) (subnet : Subnet) (value : bool) : option Network :=
  update_metadata_bitfields (set_published n (update_enr_bitfield (globals n) (discovery n) subnet value).2).

Definition n_update_enr_cgc (n : Network) (new_custody_group_count : Z) : Network :=
  update_metadata_cgc (set_published n (update_enr_cgc (globals n) (discovery n) new_custody_group_count).2)
    new_custody_group_count.

Definition update_fork_version (n : Network) (id : EnrForkId ForkDigest Version) : Network :=
  set_fork_id (set_published n (update_eth2_enr (globals n) (discovery n) id)) id.

Definition update_nfd (n : Network) (next_fork_digest : ForkDigest) : Network :=
  set_published n (update_enr_nfd (globals n) (discovery n) next_fork_digest).2.

(** ** Events of the behaviours *)

Record FailedMessages := mkFailedMessages { fm_priority : Z; fm_non_priority : Z }.

Inductive GossipsubEvent :=
  | GsMessage (propagation_source : PeerId) (message_id : MessageId) (message : GossipMessage)
  | GsSubscribed (p : PeerId) (topic : list ascii)
  | GsUnsubscribed (p : PeerId) (topic : list ascii)
  | GsNotSupported (p : PeerId)
  | GsSlowPeer (p : PeerId) (failed_messages : FailedMessages).

(** Cached messages are published; failures are only logged. *)
Definition publish_cached (gs : Gossipsub) (topic : GossipTopic) (msgs : list Bytes) : Gossipsub :=
  fold_left (fun gs data => (gs_publish gs (GossipTopic_to_string topic) data).2) msgs gs.

Definition inject_gs_event (n : Network) (now : Instant) (event : GossipsubEvent)
  : option (option NetworkEvent * Network) :=
  match event with
  | GsMessage source id message =>
      match PubsubMessage_decode (gm_topic message) (gm_data message) (fork_context n) with
      | Err _ => Some (None, report_message_validation_result n source id Reject)
      | Ok msg => Some (Some (NPubsubMessage id source (gm_topic message) msg), n)
      end
  | GsSubscribed p topic =>
      match GossipTopic_decode topic with
      | Err _ => Some (None, n)
      | Ok topic =>
          let n :=
            match subnet_id topic with
            | Some subnet =>
                set_peer_manager n (set_db (peer_manager n) (add_subscription (g_peers (globals n)) p subnet))
            | None => n
            end in
          let* r := retrieve (gossip_cache n) topic in
          let n := set_gossip_cache n r.2 in
          Some (None, match r.1 with
                      | Some msgs => set_gossipsub n (publish_cached (gossipsub n) topic msgs)
                      | None => n
                      end)
      end
  | GsUnsubscribed p topic =>
      Some (None, match subnet_from_topic_hash topic with
                  | Some subnet =>
                      set_peer_manager n
                        (set_db (peer_manager n) (remove_subscription (g_peers (globals n)) p subnet))
                  | None => n
                  end)
  | GsNotSupported p =>
      let* n := n_report_peer n now p Fatal (Some GoodbyeReason.Unknown) in Some (None, n)
  | GsSlowPeer p failed_messages =>
      if (10 <? fm_priority failed_messages) || (10 <? fm_non_priority failed_messages)
      then let* n := n_report_peer n now p HighToleranceError None in Some (None, n)
      else Some (None, n)
  end.

Definition OldBlocksByRangeRequest_step (r : OldBlocksByRangeRequest) : Z :=
  match r with OldBBR_V1 r => bbr1_step r | OldBBR_V2 r => bbr2_step r end.

Definition n_handle_rpc_error (n : Network) (now : Instant) (p : PeerId) (proto : Protocol) (error : RPCError)
  (direction : ConnectionDirection) : option Network :=
  let* m := handle_rpc_error (peer_manager n) now p proto error direction in Some (set_peer_manager n m).

Definition zero_step_message : list Z := bytes (lit "Blocks by range with 0 step parameter").

(** The request arm of [inject_rpc_event]. *)
Definition on_request (n : Network) (now : Instant) (ts : Duration) (p : PeerId) (id : InboundRequestId)
  (request_type : RequestType) : option (option NetworkEvent * Network) :=
  let propagate n := Some (Some (NRequestReceived p id request_type), n) in
  match request_type with
  | ReqPing data => Some (None, set_peer_manager n (ping_request (peer_manager n) now p data))
  | ReqMetaData _ =>
      let metadata := local_metadata (globals n) in
      let* n := n_send_response n now ts id (RpcSuccess (RespMetaData metadata)) in Some (None, n)
  | ReqGoodbye _ => Some (None, n)
  | ReqStatus _ => propagate (set_peer_manager n (peer_statusd (peer_manager n) now p))
  | ReqBlocksByRange req =>
      if OldBlocksByRangeRequest_step req =? 0 then
        let* n := n_handle_rpc_error n now p Protocol.BlocksByRange (InvalidData zero_step_message) Incoming in
        Some (None, n)
      else propagate n
  | ReqBlocksByRoot _ | ReqBlobsByRange _ | ReqBlobsByRoot _ | ReqDataColumnsByRoot _ | ReqDataColumnsByRange _
  | ReqLightClientBootstrap _ | ReqLightClientOptimisticUpdate | ReqLightClientFinalityUpdate
  | ReqLightClientUpdatesByRange _ => propagate n
  end.

(** The response arm. *)
Definition on_response (n : Network) (now : Instant) (p : PeerId) (id : AppRequestId) (resp : RpcSuccessResponse)
  : option (option NetworkEvent * Network) :=
  let build r := Some (build_response id p r, n) in
  match resp with
  | RespPong data => Some (None, set_peer_manager n (pong_response (peer_manager n) p data))
  | RespMetaData meta_data =>
      let* (updated_cgc, m) := meta_data_response (peer_manager n) now p meta_data in
      Some (if updated_cgc : bool then Some (NPeerUpdatedCustodyGroupCount p) else None, set_peer_manager n m)
  | RespStatus msg =>
      let n := set_peer_manager n (peer_statusd (peer_manager n) now p) in
      Some (build_response id p (RStatus msg), n)
  | RespBlocksByRange resp => build (RBlocksByRange (Some resp))
  | RespBlobsByRange resp => build (RBlobsByRange (Some resp))
  | RespBlocksByRoot resp => build (RBlocksByRoot (Some resp))
  | RespBlobsByRoot resp => build (RBlobsByRoot (Some resp))
  | RespDataColumnsByRoot resp => build (RDataColumnsByRoot (Some resp))
  | RespDataColumnsByRange resp => build (RDataColumnsByRange (Some resp))
  | RespLightClientBootstrap bootstrap => build (RLightClientBootstrap bootstrap)
  | RespLightClientOptimisticUpdate update => build (RLightClientOptimisticUpdate update)
  | RespLightClientFinalityUpdate update => build (RLightClientFinalityUpdate update)
  | RespLightClientUpdatesByRange update => build (RLightClientUpdatesByRange (Some update))
  end.

Definition termination_response (t : ResponseTermination) : Response :=
  match t with
  | ResponseTermination.BlocksByRange => RBlocksByRange None
  | ResponseTermination.BlocksByRoot => RBlocksByRoot None
  | ResponseTermination.BlobsByRange => RBlobsByRange None
  | ResponseTermination.BlobsByRoot => RBlobsByRoot None
  | ResponseTermination.DataColumnsByRoot => RDataColumnsByRoot None
  | ResponseTermination.DataColumnsByRange => RDataColumnsByRange None
  | ResponseTermination.LightClientUpdatesByRange => RLightClientUpdatesByRange None
  end.

(** Events that are not let through from a peer that is not connected. *)
Definition is_inbound (m : result (RPCReceived AppRequestId) (HandlerErr AppRequestId)) : bool :=
  match m with
  | Err (InboundErr _ _ _) | Ok (RecvRequest _ _) => true
  | _ => false
  end.

Definition inject_rpc_event (n : Network) (now : Instant) (ts : Duration) (event : RPCMessage AppRequestId)
  : option (option NetworkEvent * Network) :=
  let p := rm_peer_id event in
  if negb (db_is_connected (g_peers (globals n)) p) && is_inbound (rm_message event) then Some (None, n)
  else
    match rm_message event with
    | Err (InboundErr _ proto error) =>
        let* n := n_handle_rpc_error n now p proto error Incoming in Some (None, n)
    | Err (OutboundErr id proto error) =>
        let* n := n_handle_rpc_error n now p proto error Outgoing in
        Some (match id with Internal => None | _ => Some (NRPCFailed id p error) end, n)
    | Ok (RecvRequest inbound_request_id request_type) => on_request n now ts p inbound_request_id request_type
    | Ok (RecvResponse id resp) => on_response n now p id resp
    | Ok (RecvEndOfStream id termination) =>
        Some (build_response id p (termination_response termination), n)
    end.

(** [identify::Event]; only received information is used. *)
Inductive IdentifyEvent :=
  | IdReceived (p : PeerId) (listen_addrs : list Multiaddr) (agent_version protocol_version : chars)
  | IdOther.

Definition inject_identify_event (n : Network) (event : IdentifyEvent) : Network :=
  match event with
  | IdReceived p listen_addrs agent_version protocol_version =>
      set_peer_manager n
        (identify (peer_manager n) p (take MAX_IDENTIFY_ADDRESSES listen_addrs) agent_version protocol_version)
  | IdOther => n
  end.

Definition inject_pm_event (n : Network) (now : Instant) (ts : Duration) (event : PeerManagerEvent)
  : option NetworkEvent * Network :=
  match event with
  | EvPeerConnectedIncoming p => (Some (NPeerConnectedIncoming p), n)
  | EvPeerConnectedOutgoing p => (Some (NPeerConnectedOutgoing p), n)
  | EvPeerDisconnected p => (Some (NPeerDisconnected p), n)
  | EvBanned p associated_ips => (None, set_discovery n (d_ban_peer (discovery n) p associated_ips))
  | EvUnBanned p associated_ips => (None, set_discovery n (d_unban_peer (discovery n) p associated_ips))
  | EvStatus p => (Some (NStatusPeer p), n)
  | EvDiscoverPeers peers_to_find => (None, set_discovery n (discover_peers (discovery n) peers_to_find))
  | EvDiscoverSubnetPeers subnets_to_discover => (None, n_discover_subnet_peers n subnets_to_discover)
  | EvPing p => (None, n_ping n now ts p)
  | EvMetaData p => (None, send_meta_data_request n now ts p)
  | EvDisconnectPeer p reason => (None, set_rpc n (rpc_shutdown (eth2_rpc n) p Internal reason))
  end.

Inductive UpnpEvent :=
  | NewExternalAddr (external_addr : Multiaddr)
  | UpnpOther.

(** Whether the address starts with an IPv6 component; the ports follow. *)
Definition is_ip6 (components : list MultiaddrProtocol) : bool :=
  match components with MaIp6 _ :: _ => true | _ => false end.

Definition inject_upnp_event (n : Network) (event : UpnpEvent) : Network :=
  match event with
  | NewExternalAddr external_addr =>
      let components := multiaddr_iter external_addr in
      match tail components with
      | MaUdp udp_port :: MaQuicV1 :: _ =>
          set_published n (update_enr_quic_port (globals n) (discovery n) udp_port (is_ip6 components)).2
      | MaTcp tcp_port :: _ =>
          set_published n (update_enr_tcp_port (globals n) (discovery n) tcp_port (is_ip6 components)).2
      | _ => n
      end
  | UpnpOther => n
  end.

(** ** The swarm *)

Inductive SwarmEvent :=
  | SwGossipsub (e : GossipsubEvent)
  | SwRpc (e : RPCMessage AppRequestId)
  | SwDiscovered (peers : gmap Enr (option Instant))
  | SwIdentify (e : IdentifyEvent)
  | SwPeerManager (e : PeerManagerEvent)
  | SwUpnp (e : UpnpEvent)
  | SwNewListenAddr (addr : Multiaddr)
  (** With the number of listeners left. *)
  | SwListenerClosed (listeners : Z)
  | SwOther.

Definition parse_swarm_event (n : Network) (now : Instant) (ts : Duration) (event : SwarmEvent)
  : option (option NetworkEvent * Network) :=
  match event with
  | SwGossipsub ge => inject_gs_event n now ge
  | SwRpc re => inject_rpc_event n now ts re
  | SwDiscovered peers => Some (None, set_peer_manager n (peers_discovered (peer_manager n) now peers))
  | SwIdentify ie => Some (None, inject_identify_event n ie)
  | SwPeerManager pe => Some (inject_pm_event n now ts pe)
  | SwUpnp e => Some (None, inject_upnp_event n e)
  | SwNewListenAddr address => Some (Some (NNewListenAddr address), n)
  | SwListenerClosed listeners => Some (if listeners =? 0 then Some NZeroListeners else None, n)
  | SwOther => Some (None, n)
  end.

(** The other arms of [next_event]: the interval for gossipsub scores, and expired messages. *)
Definition tick_gossipsub_scores (n : Network) (now : Instant) : option Network :=
  let* m := pm_update_gossipsub_scores (peer_manager n) now (gs_peer_score (gossipsub n)) in
  Some (set_peer_manager n m).

Definition poll_gossip_cache (n : Network) (now : Instant) : Network :=
  set_gossip_cache n (gc_poll_next (gossip_cache n) now).2.

(** ** Construction *)

Definition f32_sub : f32 -> f32 -> f32 := SFsub 24 128.

(** [as u32] of the rounded up product. *)
Definition limit_u32 (target_peers : Z) (factor : f32) : Z :=
  Z.min (2 ^ 32 - 1) (f32_ceil_as_usize (f32_mul (f32_of_usize target_peers) factor)).

Definition connection_limits_of (target_peers : Z) : ConnectionLimits :=
  let with_excess := f32_add (f32_of_usize 1) PEER_EXCESS_FACTOR in
  mkConnectionLimits 5 16 (limit_u32 target_peers (f32_sub with_excess MIN_OUTBOUND_ONLY_FACTOR))
    (limit_u32 target_peers with_excess) (limit_u32 target_peers (f32_add with_excess PRIORITY_PEER_EXCESS)) 1.

Definition gossip_cache_of (slot_duration : Duration) : GossipCache :=
  let half_epoch := Duration_from_millis (as_u64 (as_u64 (slot_duration / 1000000) * SlotsPerEpoch) / 2) in
  let b := beacon_block_timeout gc_builder slot_duration in
  let b := aggregates_timeout b half_epoch in
  let b := attestation_timeout b half_epoch in
  let b := voluntary_exit_timeout b (half_epoch * 2) in
  let b := proposer_slashing_timeout b (half_epoch * 2) in
  let b := attester_slashing_timeout b (half_epoch * 2) in
  let b := bls_to_execution_change_timeout b (half_epoch * 2) in
  gc_build (execution_payload_bid_timeout b slot_duration).

(** The most topics of the current or a later fork; [None] if there is no such fork. *)
Definition max_topics_at_any_fork (config : ChainConfig) (fc : ForkContext) : option Z :=
  let epochs := filter (fun e => current_fork_epoch fc <= e) (all_fork_epochs fc) in
  let* digests := mapM (context_bytes fc) epochs in
  match map (fun e => Z.of_nat (length (all_topics_at_fork config (config_phase_at_epoch config e)))) epochs with
  | [] => None
  | count :: counts => Some (fold_left Z.max counts count)
  end.

Definition subscription_filter (config : ChainConfig) (fc : ForkContext) : option SubscriptionFilter :=
  let* max_topics := max_topics_at_any_fork config fc in
  Some (mkSubscriptionFilter
    (create_whitelist_filter (all_fork_digests fc) config AttestationSubnetCount SyncCommitteeSubnetCount)
    (max_topics * 4) (max_topics * 2)).

(** [start] in the order of its effects: where to listen, whom to dial, what to subscribe to. *)
Definition is_quic (c : MultiaddrProtocol) : bool := match c with MaQuicV1 => true | _ => false end.

Definition listen_addrs (nc : NetworkConfig) : list Multiaddr :=
  filter (fun a => disable_quic_support nc && existsb is_quic (multiaddr_iter a) = false)
    (libp2p_addresses (listen_addresses nc)).

(** [Vec::dedup]: consecutive duplicates are removed. *)
Fixpoint dedup_from {A} `{EqDecision A} (x : A) (l : list A) : list A :=
  match l with
  | [] => []
  | y :: l => if decide (y = x) then dedup_from x l else y :: dedup_from y l
  end.
Definition dedup {A} `{EqDecision A} (l : list A) : list A :=
  match l with [] => [] | x :: l => x :: dedup_from x l end.

(** The addresses of a boot node that are not for UDP; [None] stands for the panic of indexing. *)
Fixpoint dialable (addrs : list Multiaddr) : option (list Multiaddr) :=
  match addrs with
  | [] => Some []
  | a :: addrs =>
      let* component := multiaddr_iter a !! 1%nat in
      let* rest := dialable addrs in
      Some (match component with MaUdp _ => rest | _ => a :: rest end)
  end.

Definition bootnode_dials (nc : NetworkConfig) (db : PeerDB) (e : Enr) : option (list Multiaddr) :=
  let quic := if disable_quic_support nc then [] else multiaddr_quic e in
  let* tcp := dialable (multiaddr e) in
  Some (if db_is_connected_or_dialing db (enr_peer_id e) then [] else quic ++ tcp).

Definition is_tcp (c : MultiaddrProtocol) : bool := match c with MaTcp _ => true | _ => false end.

Definition start_dials (nc : NetworkConfig) (db : PeerDB) : option (list Multiaddr) :=
  let* boot := mapM (bootnode_dials nc db) (dedup (boot_nodes_enr nc)) in
  Some (map strip_peer_id
    (libp2p_nodes nc ++ concat boot ++
     filter (fun a => existsb is_tcp (multiaddr_iter a) = true) (boot_nodes_multiaddr nc))).

(** [can_listen]: whether the swarm opens a listener on the address.  The addresses dialed are the first
    result. *)
Definition start (n : Network) (nc : NetworkConfig) (can_listen : Multiaddr -> bool)
  : option (result (list Multiaddr * Network) string) :=
  if forallb can_listen (listen_addrs nc) then
    let* dials := start_dials nc (g_peers (globals n)) in
    Some (Ok (dials, fold_left (fun n kind => (subscribe_kind n kind).2) (nc_topics nc) n))
  else Some (Err "Libp2p was unable to listen on the given listen address."%string).

(** What [new] is given, and what it finds on disk and on the network. *)
Record StartInput := mkStartInput {
  si_chain_config : ChainConfig;
  si_config : NetworkConfig;
  si_fork_context : ForkContext;
  si_enr_fork_id : EnrForkId ForkDigest Version;
  si_custody_group_count : Z;
  si_key : CombinedKey;
  si_enr_file : File ascii;
  si_metadata_file : File Z;
  si_boot_answers : list (result Enr string);
  si_can_listen : Multiaddr -> bool;
  si_now : Instant;
}.

Definition network_flags (nc : NetworkConfig) : NetworkFlags :=
  mkNetworkFlags (nc_enable_light_client_server nc) (nc_subscribe_all_subnets nc)
    (nc_subscribe_all_data_column_subnets nc).

Definition gs_config_of (i : StartInput) : GossipsubConfig :=
  let config := si_chain_config i in
  gossipsub_config sha256 (network_load (si_config i)) (si_fork_context i) (config_message_domain_valid_snappy config)
    (config_max_message_size config) (config_slot_duration config) SlotsPerEpoch
    (idontwant_message_size_threshold (si_config i)).

(** [None] if there is no fork to find the topics of, or gossipsub does not take the score parameters. *)
Definition gossipsub_of (i : StartInput) (s : PeerScoreSettings) (digest : ForkDigest) : option (result Gossipsub string) :=
  let* params := get_peer_score_params s SlotsPerEpoch peer_gossip_thresholds digest 0 in
  let* filter := subscription_filter (si_chain_config i) (si_fork_context i) in
  match gs_new (gs_config_of i) filter
          (mkSnappyTransform (config_max_payload_size (si_chain_config i))
             (config_max_payload_size_compressed (si_chain_config i))) with
  | Err e => Some (Err e)
  | Ok gs =>
      let* gs := gs_with_peer_score gs params peer_gossip_thresholds in
      Some (Ok (fold_left gs_add_explicit_peer (nc_trusted_peers (si_config i)) gs))
  end.

(** [new] up to [start]: the transport and the swarm around the behaviours are left out. *)
Definition Network_build (i : StartInput) : option (result Network string) :=
  let config := si_chain_config i in
  let nc := si_config i in
  let fc := si_fork_context i in
  let next_digest := default (current_fork_digest fc) (next_fork_digest fc) in
  let cgc := if config_is_peerdas_scheduled config then Some (si_custody_group_count i) else None in
  match build_or_load_enr config (si_key i) nc (si_enr_fork_id i) cgc next_digest (si_enr_file i) with
  | Err e => Some (Err e)
  | Ok (enr, saved_enr) =>
      let '(meta_data, saved_metadata) := load_or_build_metadata (network_dir nc) cgc (si_metadata_file i) in
      let* g := NetworkGlobals_new config enr meta_data (nc_trusted_peers nc) (nc_disable_peer_scoring nc)
                  (nc_target_subnet_peers nc) (network_flags nc) in
      match enr_eth2 (local_enr g) with
      | Err _ => None
      | Ok fork_id =>
          let* gs_config := if gs_config_valid (gs_config_of i) then Some (gs_config_of i) else None in
          let settings := PeerScoreSettings_new (config_slot_duration config) (Config.mesh_n (gsc_load gs_config)) in
          let* gossip := gossipsub_of i settings (efi_fork_digest fork_id) in
          match gossip with
          | Err e => Some (Err e)
          | Ok gs =>
              let* rpc := RPC_new config (current_fork_epoch fc) (inbound_rate_limiter_config nc)
                            (outbound_rate_limiter_config nc) (seq_number meta_data) (si_now i) in
              match Discovery_new config (Ok (si_key i)) nc g (si_boot_answers i) with
              | Err e => Some (Err e)
              | Ok d =>
                  let d := set_enr_file d saved_enr in
                  let d := discover_peers d FIND_NODE_QUERY_CLOSEST_PEERS in
                  let cfg := mkConfig (negb (disable_discovery nc)) (nc_metrics_enabled nc)
                               (negb (disable_quic_support nc)) (nc_target_peers nc) DEFAULT_STATUS_INTERVAL
                               DEFAULT_PING_INTERVAL_INBOUND DEFAULT_PING_INTERVAL_OUTBOUND in
                  match PeerManager_new cfg g (si_now i) with
                  | None => Some (Err "peer manager"%string)
                  | Some pm =>
                      Some (Ok (mkNetwork (connection_limits_of (nc_target_peers nc)) pm rpc d gs fork_id
                        (network_dir nc) fc settings (gossip_cache_of (config_slot_duration config))
                        saved_metadata))
                  end
              end
          end
      end
  end.

Definition Network_new (i : StartInput) : option (result (list Multiaddr * Network) string) :=
  let* built := Network_build i in
  match built with
  | Err e => Some (Err e)
  | Ok n => start n (si_config i) (si_can_listen i)
  end.

End network.
