(* ===== verification/NetworkRuns.v ===== *)
(** * Runs of the network service

    The node as a whole: the calls of the application, the events of the swarm and the polls of the
    behaviours in any order.  Every step returns but for two kinds ([node_panics]), the parts keep their
    invariants, and what the node announces of itself (metadata, sequence number, record, subscriptions)
    stays consistent.  The application sees only what concerns it, and a fork moves the subscriptions. *)

From Stdlib Require Import Ascii SpecFloat.
From S2P Require Import Prelude Disk Chain Timers Enr Protocol Messages Text RateLimiter RateConfig SelfLimiter ResponseLimiter Events Rpc.
From S2P Require Import ForkContext Limits Codec Float64 Score PeerInfo PeerDB TimeCache Pruning Topics GossipCache Globals.
From S2P Require Import EnrExt Config LocalEnr Discovery Pubsub ServiceUtils GossipScoring PeerManager Network.

(** ** What the parts leave alone *)

Section frames.
Context `{ChainTypes} `{Libp2p} `{HashIter} `{FloatExp} `{UnstableSort} `{ThreadRng} `{DelaySet} `{DelayQueue}.
Context `{!TopicCrates} `{!CustodyCrates} `{!EnrFields}.

(** The part of the globals the peer manager only reads. *)
Definition shared (g : NetworkGlobals) :=
  (g_config g, local_enr g, local_metadata g, gossipsub_subscriptions g, sampling_subnets g,
   target_subnet_peers g, network_config g).
Definition sh (m : PeerManager) := shared (network_globals m).

Lemma sh_set_events m x : sh (set_events m x) = sh m.
Proof. by destruct m. Qed.
Lemma sh_set_inbound m x : sh (set_inbound m x) = sh m.
Proof. by destruct m. Qed.
Lemma sh_set_outbound m x : sh (set_outbound m x) = sh m.
Proof. by destruct m. Qed.
Lemma sh_set_status m x : sh (set_status m x) = sh m.
Proof. by destruct m. Qed.
Lemma sh_set_dial m x : sh (set_dial m x) = sh m.
Proof. by destruct m. Qed.
Lemma sh_set_temporary m x : sh (set_temporary m x) = sh m.
Proof. by destruct m. Qed.
Lemma sh_set_sync_subnets m x : sh (set_sync_subnets m x) = sh m.
Proof. by destruct m. Qed.
Lemma sh_set_heartbeat m x : sh (set_heartbeat m x) = sh m.
Proof. by destruct m. Qed.
Lemma sh_set_trusted m x : sh (set_trusted m x) = sh m.
Proof. by destruct m. Qed.
Lemma sh_set_db m x : sh (set_db m x) = sh m.
Proof. by destruct m. Qed.
Lemma sh_push_event m e : sh (push_event m e) = sh m.
Proof. apply sh_set_events. Qed.

End frames.

Create Rewrite HintDb node.
#[export] Hint Rewrite @sh_set_events @sh_set_inbound @sh_set_outbound @sh_set_status @sh_set_dial
  @sh_set_temporary @sh_set_sync_subnets @sh_set_heartbeat @sh_set_trusted @sh_set_db @sh_push_event : node.

(** Case analysis on what the code matches on, until the goal is settled. *)
Ltac by_cases :=
  repeat (cbn [fst snd]; autorewrite with node; try done; case_match); simplify_eq; cbn [fst snd];
  autorewrite with node; try done.

Section pm_frames.
Context `{ChainTypes} `{Libp2p} `{HashIter} `{FloatExp} `{UnstableSort} `{ThreadRng} `{DelaySet}.
Context `{!TopicCrates} `{!CustodyCrates} `{!EnrFields}.
Implicit Types (m : PeerManager).

Lemma sh_ban_operation m now p op reason m' : handle_ban_operation m now p op reason = Some m' -> sh m' = sh m.
Proof. unfold handle_ban_operation. intros Hm. by_cases. Qed.

Lemma sh_score_action m now p a reason m' : handle_score_action m now p a reason = Some m' -> sh m' = sh m.
Proof. intros Hm. destruct a; cbn in Hm; simplify_eq; autorewrite with node; try done. by eapply sh_ban_operation. Qed.

Lemma sh_score_actions now l : forall m m', handle_score_actions m now l = Some m' -> sh m' = sh m.
Proof.
  induction l as [|[p a] l IH]; intros m m' Hm; cbn in Hm; [by simplify_eq|].
  case_match eqn:Ha; [|done]. apply IH in Hm as ->. by eapply sh_score_action.
Qed.

Lemma sh_report m now p a reason m' : pm_report_peer m now p a reason = Some m' -> sh m' = sh m.
Proof.
  unfold pm_report_peer. destruct (report_peer _ _ _ _) as [res db]. intros Hm%sh_score_action.
  by rewrite sh_set_db in Hm.
Qed.

Lemma sh_goodbye m now p reason m' : goodbye_peer m now p reason = Some m' -> sh m' = sh m.
Proof. unfold goodbye_peer, mark_irrelevant. intros Hm%sh_report. rewrite Hm. by_cases. Qed.

Lemma sh_gossip_scores m now f m' : pm_update_gossipsub_scores m now f = Some m' -> sh m' = sh m.
Proof.
  unfold pm_update_gossipsub_scores. destruct (update_gossipsub_scores _ _ _ _) as [actions db].
  intros Hm%sh_score_actions. by rewrite sh_set_db in Hm.
Qed.

Lemma sh_dial m e : sh (dial_peer m e).2 = sh m.
Proof. unfold dial_peer. by_cases. Qed.

Lemma sh_fold {X} (f : PeerManager -> X -> PeerManager) (l : list X) m :
  (forall m x, sh (f m x) = sh m) -> sh (fold_left f l m) = sh m.
Proof. intros Hf. revert m. induction l as [|x l IH]; intros m; [done|]. cbn. by rewrite IH. Qed.

Lemma sh_maintain_count m n : sh (maintain_peer_count m n) = sh m.
Proof. unfold maintain_peer_count. by_cases. Qed.

Lemma sh_discovered m now results : sh (peers_discovered m now results) = sh m.
Proof.
  unfold peers_discovered. generalize (g_connected_or_dialing_peers (network_globals m)) as n. intros n.
  assert (Hd : forall l m k, sh (dial_discovered m now n k l).2 = sh m).
  { clear m. induction l as [|[e ttl] l IH]; intros m k; cbn [dial_discovered]; [done|].
    case_match; [|apply IH]. set (m1 := match ttl with Some t => _ | None => m end).
    assert (Hm1 : sh m1 = sh m) by (unfold m1; by_cases).
    pose proof (sh_dial m1 e) as Hd. destruct (dial_peer m1 e) as [b m2]. cbn [snd] in Hd. rewrite IH. congruence. }
  specialize (Hd (hash_iter results) m 0). destruct (dial_discovered _ _ _ _ _) as [k m1]. cbn [snd] in Hd.
  case_match; [done|]. by rewrite sh_maintain_count.
Qed.

Lemma sh_statusd m now p : sh (peer_statusd m now p) = sh m.
Proof. apply sh_set_status. Qed.

Lemma sh_add_sync m s ttl : sh (add_sync_subnet m s ttl) = sh m.
Proof. unfold add_sync_subnet. by_cases. Qed.

Lemma sh_identify m p la ag pr : sh (identify m p la ag pr) = sh m.
Proof. unfold identify. by_cases. Qed.

Lemma sh_rpc_error m now p pr e d m' : handle_rpc_error m now p pr e d = Some m' -> sh m' = sh m.
Proof. unfold handle_rpc_error. case_match; [apply sh_report|congruence]. Qed.

Lemma sh_request_metadata m p i n : sh (request_metadata m p i n) = sh m.
Proof. unfold request_metadata. by_cases. Qed.

Lemma sh_ping m now p n : sh (ping_request m now p n) = sh m.
Proof. unfold ping_request. case_match; [|done]. rewrite sh_request_metadata. by_cases. Qed.

Lemma sh_pong m p n : sh (pong_response m p n) = sh m.
Proof. unfold pong_response. case_match; [|done]. by rewrite sh_request_metadata. Qed.

Lemma sh_metadata m now p md r : meta_data_response m now p md = Some r -> sh r.2 = sh m.
Proof.
  unfold meta_data_response. intros Hm. repeat case_match; simplify_eq; cbn [snd]; autorewrite with node; try done.
  match goal with Hg : goodbye_peer _ _ _ _ = Some _ |- _ => apply sh_goodbye in Hg as -> end. apply sh_set_db.
Qed.

Lemma sh_disconnect m now p reason : sh (disconnect_peer m now p reason) = sh m.
Proof. unfold disconnect_peer. by autorewrite with node. Qed.

Lemma sh_inject_disconnect m now p m' : pm_inject_disconnect m now p = Some m' -> sh m' = sh m.
Proof.
  unfold pm_inject_disconnect. destruct (inject_disconnect _ _ _) as [[[op purged] db]|]; [|done].
  destruct op as [op|].
  - destruct (handle_ban_operation _ _ _ _ _) as [m1|] eqn:Hb; [|done]. apply sh_ban_operation in Hb.
    intros [= <-]. autorewrite with node in *. done.
  - intros [= <-]. by autorewrite with node.
Qed.

Lemma sh_inject_connection m now p c e : sh (inject_peer_connection m now p c e).2 = sh m.
Proof. destruct c; cbn [inject_peer_connection snd]; by autorewrite with node. Qed.

Lemma sh_push_query m l : sh (push_subnet_query m l) = sh m.
Proof. unfold push_subnet_query. by_cases. Qed.

Lemma sh_heartbeat m now m' : pm_heartbeat m now = Some m' -> sh m' = sh m.
Proof.
  unfold pm_heartbeat, pm_update_scores, prune_excess_peers.
  destruct (update_scores _ _) as [actions db].
  destruct (handle_score_actions _ _ _) as [m1|] eqn:Ha; [|done]. apply sh_score_actions in Ha.
  autorewrite with node in Ha. unfold maintain_trusted_peers in Ha.
  rewrite sh_fold, sh_maintain_count in Ha by (intros; apply sh_dial).
  destruct (excess_peers _ _ _ _) as [X|]; [|done]. intros [= <-].
  unfold unban_temporary_banned_peers. destruct (remove_expired _ _) as [expired c]. autorewrite with node.
  rewrite sh_fold by (intros; apply sh_disconnect). unfold maintain_sync_committee_peers, maintain_custody_peers.
  rewrite sh_push_query. autorewrite with node. case_match; [|done]. by rewrite sh_push_query.
Qed.

Lemma sh_heartbeats now fuel : forall m m', run_heartbeats fuel m now = Some m' -> sh m' = sh m.
Proof.
  induction fuel as [|fuel IH]; intros m m' Hm; cbn in Hm; repeat case_match; simplify_eq; try done.
  apply IH in Hm as ->. match goal with Hh : pm_heartbeat _ _ = _ |- _ => apply sh_heartbeat in Hh as -> end.
  apply sh_set_heartbeat.
Qed.

Lemma sh_poll m now r : pm_poll m now = Some r -> sh r.2 = sh m.
Proof.
  unfold pm_poll. destruct (run_heartbeats _ _ _) as [m1|] eqn:Hh; [|done]. apply sh_heartbeats in Hh.
  destruct (poll_timers m1 now) as [m2|] eqn:Ht; [|done].
  assert (sh m2 = sh m1) as Hm2 by (unfold poll_timers in Ht; repeat case_match; simplify_eq; by autorewrite with node).
  intros [= <-]. unfold poll_output. repeat case_match; cbn [snd]; rewrite ?sh_inject_connection; autorewrite with node; congruence.
Qed.

Lemma sh_established m now p e : sh (on_connection_established m now p e) = sh m.
Proof.
  destruct e; unfold on_connection_established, inject_connect_ingoing, inject_connect_outgoing;
    by rewrite sh_push_event, sh_inject_connection.
Qed.

Lemma sh_closed m now p n m' : PeerManager.on_connection_closed m now p n = Some m' -> sh m' = sh m.
Proof.
  unfold PeerManager.on_connection_closed. case_match; [congruence|]. intros Hm%sh_inject_disconnect. rewrite Hm. by_cases.
Qed.

Lemma sh_dial_failure m now p m' : on_dial_failure m now p = Some m' -> sh m' = sh m.
Proof. unfold on_dial_failure. repeat case_match; try congruence. apply sh_inject_disconnect. Qed.

End pm_frames.

Section rpc_frames.
Context `{ChainTypes} `{Libp2p} `{HashIter} `{DelayQueue} {Id : Type}.
Implicit Types (s : RPC Id).

Lemma seq_send_request s now ts p id req : rpc_seq_number (rpc_send_request s now ts p id req) = rpc_seq_number s.
Proof. unfold rpc_send_request. destruct (self_allows _ _ _ _ _ _) as [[] l]; done. Qed.

Lemma seq_inner s now ts p pr id r : rpc_seq_number (send_response_inner s now ts p pr id r) = rpc_seq_number s.
Proof. unfold send_response_inner. destruct (response_limiter s); [|done]. by destruct (response_allows _ _ _ _ _ _ _ _) as [[] l]. Qed.

Lemma seq_send_response s now ts id r res s' :
  Rpc.send_response s now ts id r = Some (res, s') -> rpc_seq_number s' = rpc_seq_number s.
Proof.
  unfold Rpc.send_response. repeat case_match; intros; simplify_eq; try done; by rewrite seq_inner.
Qed.

Lemma seq_closed s p c n : rpc_seq_number (Rpc.on_connection_closed s p c n) = rpc_seq_number s.
Proof. unfold Rpc.on_connection_closed. case_match; [done|]. by destruct (self_peer_disconnected _ _). Qed.

Lemma seq_handler_event s now ts p c e s' :
  on_connection_handler_event s now ts p c e = Some s' -> rpc_seq_number s' = rpc_seq_number s.
Proof.
  destruct e as [[id req|id r|id t]|e|e]; cbn [on_connection_handler_event].
  - unfold on_inbound_request. case_match; [intros [= <-]; apply seq_inner|].
    destruct (is_ping req); [|by intros [= <-]].
    destruct (Rpc.send_response _ _ _ _ _) as [[[] s1]|] eqn:Hr; try done. intros [= <-].
    by apply seq_send_response in Hr.
  - repeat case_match; intros; by simplify_eq.
  - by intros [= <-].
  - by intros [= <-].
  - by intros [= <-].
Qed.

Lemma seq_poll s now ts t1 t2 e s' :
  rpc_behaviour_poll s now ts t1 t2 = Some (e, s') -> rpc_seq_number s' = rpc_seq_number s.
Proof.
  unfold rpc_behaviour_poll. intros Hp. repeat case_match; simplify_eq; done.
Qed.

End rpc_frames.

(** ** What is relied on *)

(** The topics gossipsub is subscribed to, and those its filter lets through.  A subscription is refused
    exactly if the filter does not let it through; the other calls change neither. *)
Class GossipsubLaws `{ServiceCrates} := {
  gs_topics : Gossipsub -> gset (list ascii);
  gs_allowed : Gossipsub -> gset (list ascii);
  gs_new_law : forall config f t gs, gs_new config f t = Ok gs -> gs_topics gs = ∅ /\ gs_allowed gs = sf_whitelist f;
  gs_score_law : forall gs p th gs', gs_with_peer_score gs p th = Some gs' ->
    gs_topics gs' = gs_topics gs /\ gs_allowed gs' = gs_allowed gs;
  gs_explicit_law : forall gs p,
    gs_topics (gs_add_explicit_peer gs p) = gs_topics gs /\ gs_allowed (gs_add_explicit_peer gs p) = gs_allowed gs;
  gs_subscribe_law : forall gs t,
    let r := gs_subscribe gs t in
    gs_allowed r.2 = gs_allowed gs /\ (is_ok r.1 = true <-> t ∈ gs_allowed gs) /\
    gs_topics r.2 = if is_ok r.1 then {[t]} ∪ gs_topics gs else gs_topics gs;
  gs_unsubscribe_law : forall gs t,
    let r := gs_unsubscribe gs t in
    gs_allowed r.2 = gs_allowed gs /\ r.1 = bool_decide (t ∈ gs_topics gs) /\ gs_topics r.2 = gs_topics gs ∖ {[t]};
  gs_publish_law : forall gs t b,
    gs_topics (gs_publish gs t b).2 = gs_topics gs /\ gs_allowed (gs_publish gs t b).2 = gs_allowed gs;
  gs_report_law : forall gs id p a,
    gs_topics (gs_report_validation gs id p a) = gs_topics gs /\
    gs_allowed (gs_report_validation gs id p a) = gs_allowed gs;
  gs_params_law : forall gs t p,
    gs_topics (gs_set_topic_params gs t p).2 = gs_topics gs /\
    gs_allowed (gs_set_topic_params gs t p).2 = gs_allowed gs;
}.

(** ** The node *)

Section node.
Context `{ChainTypes} `{Libp2p} `{HashIter} `{FloatExp} `{UnstableSort} `{ThreadRng} `{DelaySet} `{DelayQueue} `{DelayKeys}.
Context `{!TopicCrates} `{!CustodyCrates} `{!EnrFields} `{!EnrCrates} `{!Discv5Service}.
Context `{!Wire} `{!GossipWire} `{!BlobSubnets} `{!ScoringCrates} `{!ServiceCrates}.

(** The calls of the application. *)
Inductive NodeCall :=
  | NcSubscribe (t : GossipTopic)
  | NcUnsubscribe (t : GossipTopic)
  | NcSubscribeKind (k : GossipKind)
  | NcUnsubscribeKind (k : GossipKind)
  | NcForkTopics (phase : Phase) (digest : ForkDigest)
  | NcDropForkTopics (except : ForkDigest)
  | NcDropWeights (except : ForkDigest)
  | NcSampling (count : Z)
  | NcPublish (m : PubsubMessage)
  | NcValidated (source : PeerId) (id : MessageId) (a : MessageAcceptance)
  | NcScoring (active_validators : Z) (slot : Slot)
  | NcRequest (connected : bool) (p : PeerId) (id : AppRequestId) (req : RequestType)
  | NcResponse (id : InboundRequestId) (r : RpcResponse)
  | NcReport (p : PeerId) (a : PeerAction)
  | NcGoodbye (p : PeerId) (reason : GoodbyeReason)
  | NcAddEnr (e : Enr)
  | NcSubnet (s : Subnet) (value : bool)
  | NcCustody (count : Z)
  | NcDiscover (l : list SubnetDiscovery)
  | NcForkVersion (id : EnrForkId ForkDigest Version)
  | NcNextFork (digest : ForkDigest)
  | NcDialTrusted (e : Enr)
  | NcRemoveTrusted (e : Enr).

Definition node_call (n : Network) (now : Instant) (ts : Duration) (c : NodeCall) : option Network :=
  match c with
  | NcSubscribe t => Some (subscribe n t).2
  | NcUnsubscribe t => Some (unsubscribe n t).2
  | NcSubscribeKind k => Some (subscribe_kind n k).2
  | NcUnsubscribeKind k => Some (unsubscribe_kind n k).2
  | NcForkTopics phase digest => Some (subscribe_new_fork_topics n phase digest)
  | NcDropForkTopics except => Some (unsubscribe_from_fork_topics_except n except)
  | NcDropWeights except => Some (remove_topic_weight_except n except)
  | NcSampling count => subscribe_new_data_column_subnets n count
  | NcPublish m => publish_message n now m
  | NcValidated source id a => Some (report_message_validation_result n source id a)
  | NcScoring v slot => let* r := update_gossipsub_parameters n v slot in Some r.2
  | NcRequest connected p id req => Some (n_send_request n now ts connected p id req).2
  | NcResponse id r => n_send_response n now ts id r
  | NcReport p a => n_report_peer n now p a None
  | NcGoodbye p reason => n_goodbye_peer n now p reason
  | NcAddEnr e => Some (n_add_enr n e)
  | NcSubnet s value => update_enr_subnet n s value
  | NcCustody count => Some (n_update_enr_cgc n count)
  | NcDiscover l => Some (n_discover_subnet_peers n l)
  | NcForkVersion id => Some (update_fork_version n id)
  | NcNextFork digest => Some (update_nfd n digest)
  | NcDialTrusted e => Some (dial_trusted_peer n e)
  | NcRemoveTrusted e => Some (remove_trusted_peer n now e)
  end.

(** Besides the calls: what the swarm tells the behaviours, the polls with the events they yield, and
    events of the behaviours of other crates. *)
Inductive NodeOp :=
  | NdCall (c : NodeCall)
  | NdEstablished (p : PeerId) (endpoint : ConnectedPoint)
  | NdClosed (p : PeerId) (connection_id remaining : Z)
  | NdDialFailure (p : option PeerId) (error : DialError)
  | NdNewListenAddr (addr : Multiaddr)
  | NdHandlerEvent (p : PeerId) (connection_id : Z) (e : HandlerEvent AppRequestId)
  | NdPollPeerManager
  | NdPollRpc (response_ticks request_ticks : list Instant)
  | NdPollDiscovery (i : PollInput)
  (** Discv5 changes addresses of the record by itself. *)
  | NdDiscv5 (v : Discv5)
  | NdEvent (e : SwarmEvent)
  | NdScores
  | NdCache.

Definition node_step (n : Network) (now : Instant) (ts : Duration) (op : NodeOp)
  : option (option NetworkEvent * Network) :=
  let quiet n := Some (None, n) in
  match op with
  | NdCall c => let* n := node_call n now ts c in quiet n
  | NdEstablished p endpoint =>
      quiet (set_peer_manager n (on_connection_established (peer_manager n) now p endpoint))
  | NdClosed p connection_id remaining =>
      let* m := PeerManager.on_connection_closed (peer_manager n) now p remaining in
      quiet (set_rpc (set_peer_manager n m) (Rpc.on_connection_closed (eth2_rpc n) p connection_id remaining))
  | NdDialFailure p error =>
      let* m := on_dial_failure (peer_manager n) now p in
      let n := set_peer_manager n m in
      quiet (set_discovery n (d_on_dial_failure (globals n) (discovery n) p error))
  | NdNewListenAddr addr =>
      parse_swarm_event (set_published n (on_new_listen_addr (globals n) (discovery n) addr)) now ts
        (SwNewListenAddr addr)
  | NdHandlerEvent p connection_id e =>
      let* r := on_connection_handler_event (eth2_rpc n) now ts p connection_id e in quiet (set_rpc n r)
  | NdPollPeerManager =>
      let* (out, m) := pm_poll (peer_manager n) now in
      let n := set_peer_manager n m in
      match out with
      | PollEvent e => parse_swarm_event n now ts (SwPeerManager e)
      | PollDial _ _ | PollPending => quiet n
      end
  | NdPollRpc t1 t2 =>
      let* (out, r) := rpc_behaviour_poll (eth2_rpc n) now ts t1 t2 in
      let n := set_rpc n r in
      match out with
      | Some (GenerateEvent m) => parse_swarm_event n now ts (SwRpc m)
      | _ => quiet n
      end
  | NdPollDiscovery i =>
      let '(out, s) := d_poll (globals n) (discovery n) i in
      let n := set_published n s in
      match out with
      | Some peers => parse_swarm_event n now ts (SwDiscovered peers)
      | None => quiet n
      end
  | NdDiscv5 v => quiet (set_discovery n (set_discv5 (discovery n) v))
  | NdEvent e => parse_swarm_event n now ts e
  | NdScores => let* n := tick_gossipsub_scores n now in quiet n
  | NdCache => quiet (poll_gossip_cache n now)
  end.

(** How much a step can add to the size of the peer database. *)
Definition node_cost (n : Network) (op : NodeOp) : Z :=
  match op with
  | NdEvent (SwDiscovered peers) => 2 * Z.of_nat (size peers)
  | NdPollDiscovery i => 2 * Z.of_nat (size (default ∅ (d_poll (globals n) (discovery n) i).1))
  | _ => 2
  end.

(** The index of a topic fits its type. *)
Definition kind_wf (k : GossipKind) : Prop := in_u64 (GossipKind_code k).2.
Definition topic_wf (t : GossipTopic) : Prop := kind_wf (gt_kind t).

(** Indices of subnets fit their type, peers ask with the protocols the node lists for negotiation, and
    discv5 leaves the fields of the application alone. *)
Definition node_op_ok (n : Network) (op : NodeOp) : Prop :=
  match op with
  | NdCall (NcSubscribe t) | NdCall (NcUnsubscribe t) => topic_wf t
  | NdCall (NcSubscribeKind k) | NdCall (NcUnsubscribeKind k) => kind_wf k
  | NdCall (NcForkTopics phase _) =>
      Forall kind_wf (core_topics_to_subscribe (g_config (globals n)) phase (as_topic_config (globals n)))
  | NdCall (NcSampling count) =>
      forall g, update_data_column_subnets (globals n) count = Some g -> set_Forall in_u64 (sampling_subnets g)
  | NdHandlerEvent _ _ (HandlerOk (RecvRequest _ req)) => offered (request_protocol req)
  | NdDiscv5 v => forall key, key ∉ address_keys ->
      enr_get_bytes (discv5_local_enr v) key = enr_get_bytes (d_local_enr (discovery n)) key
  | _ => True
  end.

(** The two ways to panic: a sampling size the custody groups of the node cannot be computed for, and a
    response to a request for light client updates. *)
Definition node_panics (n : Network) (op : NodeOp) : Prop :=
  match op with
  | NdCall (NcSampling count) => update_data_column_subnets (globals n) count = None
  | NdHandlerEvent _ _ e => updates_response e = true
  | _ => False
  end.

(** *** States *)

(** The bit fields of the record can be read. *)
Definition readable (d : Discovery) : Prop :=
  is_ok (attestation_bitfield (d_local_enr d)) = true /\ is_ok (sync_committee_bitfield (d_local_enr d)) = true.

Record node_inv (clock : Instant) (n : Network) : Prop := {
  ni_pm : pm_inv clock (peer_manager n);
  ni_rpc : rpc_inv (eth2_rpc n);
  ni_cache : exists m, holds (gossip_cache n) m;
  ni_readable : readable (discovery n);
  ni_discovery : d_reachable true (discovery n);
  ni_settings : 0 < target_aggregators_per_committee (score_settings n);
}.

(** What a node says of itself agrees: pings carry the number of the current metadata, the metadata and
    the record announce the same subnets, the globals hold what discovery publishes, addresses aside, and
    the file holds the metadata as far as it could be written. *)
Record announces (n : Network) : Prop := {
  an_seq : rpc_seq_number (eth2_rpc n) = seq_number (local_metadata (globals n));
  an_record : forall key, key ∉ transport_keys ->
    enr_get_bytes (local_enr (globals n)) key = enr_get_bytes (d_local_enr (discovery n)) key;
  an_attnets : attestation_bitfield (d_local_enr (discovery n)) = Ok (attnets (local_metadata (globals n)));
  an_syncnets : forall s, syncnets (local_metadata (globals n)) = Some s ->
    sync_committee_bitfield (d_local_enr (discovery n)) = Ok s;
  an_file : forall dir ssz, n_network_dir n = Some dir -> MetaData_to_ssz (local_metadata (globals n)) = Ok ssz ->
    holds_write (metadata_file n) ssz;
}.

(** Gossipsub is subscribed to the topics the globals list, as far as its filter lets them through. *)
Record topics_agree `{!GossipsubLaws} (n : Network) : Prop := {
  ta_wf : set_Forall topic_wf (gossipsub_subscriptions (globals n));
  ta_names : gs_topics (gossipsub n) =
    set_map GossipTopic_to_string (gossipsub_subscriptions (globals n)) ∩ gs_allowed (gossipsub n);
}.

(** The states of a node that was started: the swarm could listen, the topics to subscribe to are well
    formed, time goes forward, and the peer database does not outgrow the type of its counters. *)
Inductive reach : Instant -> Network -> Prop :=
  | reach_start i dials n :
      Network_new i = Some (Ok (dials, n)) -> Forall kind_wf (nc_topics (si_config i)) -> reach (si_now i) n
  | reach_step clock now ts n op ev n' :
      reach clock n -> clock <= now -> node_op_ok n op ->
      db_weight (pm_db (peer_manager n)) + Z.max 2 (node_cost n op) <= USIZE_MAX ->
      node_step n now ts op = Some (ev, n') -> reach now n'.

End node.

(** ** Lemmas: steps that change nothing the node announces *)

Section node_lemmas.
Context `{ChainTypes} `{Libp2p} `{HashIter} `{FloatExp} `{UnstableSort} `{ThreadRng} `{DelaySet} `{DelayQueue} `{DelayKeys}.
Context `{!TopicCrates} `{!CustodyCrates} `{!EnrFields} `{!EnrCrates} `{!Discv5Service}.
Context `{!Wire} `{!GossipWire} `{!BlobSubnets} `{!ScoringCrates} `{!ServiceCrates}.
Context `{!ScoringLaws} `{!EnrCrateLaws} `{!Discv5Laws} `{!GossipsubLaws}.
Implicit Types (n : Network).

(** What the node announces. *)
Definition still n :=
  (sh (peer_manager n), rpc_seq_number (eth2_rpc n), d_local_enr (discovery n),
   (gs_topics (gossipsub n), gs_allowed (gossipsub n)),
   (enr_fork_id n, n_network_dir n, metadata_file n, score_settings n)).

Definition settled (now : Instant) n n' : Prop := node_inv now n' /\ still n' = still n.

Lemma settled_refl now n : node_inv now n -> settled now n n.
Proof. by split. Qed.

Lemma settled_trans now n1 n2 n3 : settled now n1 n2 -> settled now n2 n3 -> settled now n1 n3.
Proof. intros [_ He] [Hi He']. split; [done|congruence]. Qed.

Lemma node_later clock now n : clock <= now -> node_inv clock n -> node_inv now n.
Proof. intros Hle [Hp Hr Hc Hd Hq Hss]. split; [by eapply inv_later|done..]. Qed.

Lemma settled_pm now n m :
  node_inv now n -> pm_inv now m -> sh m = sh (peer_manager n) -> settled now n (set_peer_manager n m).
Proof. intros [] Hm Hs. destruct n. split; [by split|]. unfold still. cbn in *. by rewrite Hs. Qed.

Lemma settled_rpc now n r :
  node_inv now n -> rpc_inv r -> rpc_seq_number r = rpc_seq_number (eth2_rpc n) -> settled now n (set_rpc n r).
Proof. intros [] Hr Hs. destruct n. split; [by split|]. unfold still. cbn in *. by rewrite Hs. Qed.

Lemma settled_gossipsub now n gs :
  node_inv now n ->
  gs_topics gs = gs_topics (gossipsub n) /\ gs_allowed gs = gs_allowed (gossipsub n) -> settled now n (set_gossipsub n gs).
Proof. intros [] [Ht Ha]. destruct n. split; [by split|]. unfold still. cbn in *. by rewrite Ht, Ha. Qed.

Lemma settled_cache now n c m : node_inv now n -> holds c m -> settled now n (set_gossip_cache n c).
Proof. intros [] Hc. destruct n. split; [|done]. split; [done..|by exists m|done|done|done]. Qed.

(** An operation of discovery that leaves the record alone. *)
Lemma settled_discovery now n g op :
  node_inv now n -> record_view (run_op g op (discovery n)).2 = record_view (discovery n) ->
  settled now n (set_discovery n (run_op g op (discovery n)).2).
Proof.
  intros [Hp Hr Hc Hd Hq Hss] Hv. injection Hv as Hv _ _. split.
  - destruct n. split; cbn in *; [done..| |by constructor|done]. unfold readable in *. by rewrite Hv.
  - destruct n. unfold still. cbn in *. by rewrite Hv.
Qed.

Lemma settled_fold {X} (f : Network -> X -> Network) (l : list X) now n :
  (forall n x, node_inv now n -> settled now n (f n x)) -> node_inv now n -> settled now n (fold_left f l n).
Proof.
  intros Hf. revert n. induction l as [|x l IH]; intros n Hn; [by apply settled_refl|]. cbn.
  eapply settled_trans; [by apply Hf|]. apply IH, Hf, Hn.
Qed.

(** A call of the peer manager. *)
Lemma settled_step now n w m :
  node_inv now n -> step_ok w now now (peer_manager n) m -> sh m = sh (peer_manager n) ->
  settled now n (set_peer_manager n m).
Proof. intros Hn [Hm _ _] Hs. by apply settled_pm. Qed.

Lemma settled_quiet now n w m :
  node_inv now n -> quiet_step w now (peer_manager n) m -> sh m = sh (peer_manager n) ->
  settled now n (set_peer_manager n m).
Proof. intros Hn [Hm _ _] Hs. by apply settled_pm. Qed.

(** Room in the database for what a call may add. *)
Definition room n : Prop := db_weight (pm_db (peer_manager n)) + 2 <= USIZE_MAX.

(** The calls of the peer manager that cannot fail, by their description as operations. *)
Lemma settled_op now n op m :
  node_inv now n -> db_weight (pm_db (peer_manager n)) + Z.max 2 (op_cost op) <= USIZE_MAX ->
  pm_step (peer_manager n) now op = Some (PollPending, m) -> sh m = sh (peer_manager n) ->
  settled now n (set_peer_manager n m).
Proof.
  intros Hn Hw Ho Hs. destruct (pm_step_ok now now (peer_manager n) op) as (r & Hr & Hok); [apply Hn|lia|done|].
  rewrite Ho in Hr. injection Hr as <-. by eapply settled_step.
Qed.

Lemma report_settled now n p a reason :
  node_inv now n -> room n -> exists n', n_report_peer n now p a reason = Some n' /\ settled now n n'.
Proof.
  intros Hn Hw. unfold n_report_peer.
  destruct (report_step now now (peer_manager n) p a reason) as (m & Hm & Hs); [apply Hn|lia|done|].
  rewrite Hm. eexists. split; [done|]. eapply settled_step; [done|done|]. by eapply sh_report.
Qed.

Lemma goodbye_settled now n p reason :
  node_inv now n -> room n -> exists n', n_goodbye_peer n now p reason = Some n' /\ settled now n n'.
Proof.
  intros Hn Hw. unfold n_goodbye_peer.
  destruct (goodbye_step now now (peer_manager n) p reason) as (m & Hm & Hs); [apply Hn|lia|done|].
  rewrite Hm. eexists. split; [done|]. eapply settled_step; [done|done|]. by eapply sh_goodbye.
Qed.

Lemma rpc_error_settled now n p pr e d :
  node_inv now n -> room n -> exists n', n_handle_rpc_error n now p pr e d = Some n' /\ settled now n n'.
Proof.
  intros Hn Hw. unfold n_handle_rpc_error, handle_rpc_error. destruct (rpc_error_action pr e d) as [a|].
  - by apply report_settled.
  - eexists. split; [done|]. apply settled_pm; [done|apply Hn|done].
Qed.

Lemma request_settled now n ts p id req :
  node_inv now n -> settled now n (set_rpc n (rpc_send_request (eth2_rpc n) now ts p id req)).
Proof.
  intros Hn. apply settled_rpc; [done|apply rpc_send_request_ok, Hn|apply seq_send_request].
Qed.

Lemma response_settled now n ts id r :
  node_inv now n -> exists n', n_send_response n now ts id r = Some n' /\ settled now n n'.
Proof.
  intros Hn. unfold n_send_response.
  destruct (send_response_ok (eth2_rpc n) now ts id r (ni_rpc _ _ Hn)) as (res & s & Hs & Hi & _).
  rewrite Hs. eexists. split; [done|]. apply settled_rpc; [done|done|]. by eapply seq_send_response.
Qed.

(** *** Subnet discovery *)

Lemma extend_inv now m s ttl : pm_inv now m -> pm_inv now (set_db m (extend_peers_on_subnet (pm_db m) s ttl)).
Proof.
  intros Hi. apply set_db_inv; [done| |by eapply (keeps_status_bans _ (DExtend s ttl))].
  apply inv_fmap; [apply Hi|]. intros i. case_match; [apply profile_ttl|by destruct i].
Qed.

Lemma dial_settled now n e : node_inv now n -> settled now n (set_peer_manager n (dial_peer (peer_manager n) e).2).
Proof.
  intros Hn. apply settled_pm; [done| |apply sh_dial]. eapply frame_inv; [|apply Hn]. apply dial_frame.
Qed.

Lemma dial_cached_settled now n c s : node_inv now n -> settled now n (dial_cached_enrs_in_subnet n c s).
Proof.
  intros Hn. unfold dial_cached_enrs_in_subnet. apply settled_fold; [|done]. clear n Hn. intros n e Hn.
  assert (Hd : settled now n (set_discovery n (remove_cached_enr (discovery n) (enr_peer_id e)))).
  { apply (settled_discovery now n (globals n) (OpRemoveCachedEnr (enr_peer_id e))); [done|apply view_set_cache]. }
  eapply settled_trans; [exact Hd|]. apply dial_settled, Hd.
Qed.

Lemma wants_settled now n s : node_inv now n -> settled now n (wants_discovery n s).2.
Proof.
  intros Hn. unfold wants_discovery. set (n1 := match sd_min_ttl s with Some min_ttl => _ | None => n end).
  assert (Hn1 : settled now n n1).
  { unfold n1. destruct (sd_min_ttl s) as [ttl|]; [|by apply settled_refl].
    pose proof (extend_inv now (peer_manager n) (sd_subnet s) ttl (ni_pm _ _ Hn)) as Hq.
    apply settled_pm; [done| |].
    - destruct (sd_subnet s) as [|k|]; try done. eapply frame_inv; [|exact Hq]. unfold add_sync_subnet.
      repeat case_match; apply frame_sync || apply frame_refl.
    - destruct (sd_subnet s) as [|k|]; rewrite ?sh_add_sync; apply sh_set_db. }
  clearbody n1. case_match; cbn [snd]; [done|]. eapply settled_trans; [exact Hn1|]. apply dial_cached_settled, Hn1.
Qed.

Lemma filter_settled now l : forall n, node_inv now n -> settled now n (filter_subnets n l).2.
Proof.
  induction l as [|s l IH]; intros n Hn; cbn [filter_subnets]; [by apply settled_refl|].
  pose proof (wants_settled now n s Hn) as Hw. destruct (wants_discovery n s) as [b n1]. cbn [snd] in Hw.
  specialize (IH n1 (proj1 Hw)). destruct (filter_subnets n1 l) as [r n2]. cbn [snd] in *. by eapply settled_trans.
Qed.

Lemma discover_settled now n l : node_inv now n -> settled now n (n_discover_subnet_peers n l).
Proof.
  intros Hn. unfold n_discover_subnet_peers. case_match; [by apply settled_refl|].
  pose proof (filter_settled now l n Hn) as Hf. destruct (filter_subnets n l) as [filtered n1]. cbn [snd] in Hf.
  destruct filtered as [|x filtered]; [done|]. eapply settled_trans; [exact Hf|].
  apply (settled_discovery now n1 (globals n1) (OpDiscoverSubnetPeers (x :: filtered))); [apply Hf|].
  cbn [run_op snd]. unfold discover_subnet_peers. case_match; [done|]. apply view_fold. intros. apply view_add_subnet_query.
Qed.

(** *** Events *)

Definition returns (now : Instant) n (r : option (option NetworkEvent * Network)) : Prop :=
  exists ev n', r = Some (ev, n') /\ settled now n n'.

Lemma returns_now now n ev n' : settled now n n' -> returns now n (Some (ev, n')).
Proof. intros Hs. by exists ev, n'. Qed.

Lemma returns_bind now n (r : option Network) (ev : Network -> option NetworkEvent) :
  (exists n', r = Some n' /\ settled now n n') ->
  returns now n (match r with Some x => Some (ev x, x) | None => None end).
Proof. intros (n' & -> & Hs). by apply returns_now. Qed.

Lemma shared_op_settled now n op db :
  node_inv now n -> room n -> keeps_status op -> db_step (pm_db (peer_manager n)) op = Some db ->
  settled now n (set_peer_manager n (set_db (peer_manager n) db)).
Proof.
  intros Hn Hw Hk Ho. eapply settled_quiet; [done|by eapply quiet_shared; [apply Hn|done..]|apply sh_set_db].
Qed.

Lemma publish_cached_still gs topic msgs :
  gs_topics (publish_cached gs topic msgs) = gs_topics gs /\ gs_allowed (publish_cached gs topic msgs) = gs_allowed gs.
Proof.
  unfold publish_cached. revert gs. induction msgs as [|data msgs IH]; intros gs; [done|]. cbn [fold_left].
  destruct (IH (gs_publish gs (GossipTopic_to_string topic) data).2) as [-> ->]. apply gs_publish_law.
Qed.

Lemma gs_event_returns now n e : node_inv now n -> room n -> returns now n (inject_gs_event n now e).
Proof.
  intros Hn Hw. destruct e as [source id message|p topic|p topic|p|p failed]; cbn [inject_gs_event].
  - case_match; apply returns_now; [by apply settled_refl|]. apply settled_gossipsub; [done|apply gs_report_law].
  - destruct (GossipTopic_decode topic) as [t|]; [|by apply returns_now, settled_refl].
    set (n1 := match subnet_id t with Some subnet => _ | None => n end).
    assert (Hn1 : settled now n n1).
    { unfold n1. destruct (subnet_id t) as [s|]; [|by apply settled_refl].
      by apply (shared_op_settled now n (DSubscribe p s)). }
    clearbody n1. destruct (ni_cache _ _ (proj1 Hn1)) as [m Hm].
    destruct (retrieve_ok (gossip_cache n1) m now t Hm) as (r & c & m' & Hr & _ & Hc & _). rewrite Hr. cbn [fst snd].
    pose proof (settled_cache now n1 c m' (proj1 Hn1) Hc) as Hn2. apply returns_now.
    eapply settled_trans; [exact Hn1|]. destruct r as [msgs|]; [|done].
    eapply settled_trans; [exact Hn2|]. apply settled_gossipsub; [apply Hn2|apply publish_cached_still].
  - apply returns_now. destruct (subnet_from_topic_hash topic) as [s|]; [|by apply settled_refl].
    by apply (shared_op_settled now n (DUnsubscribe p s)).
  - apply (returns_bind now n _ (fun _ => None)). by apply report_settled.
  - case_match; [|by apply returns_now, settled_refl]. apply (returns_bind now n _ (fun _ => None)). by apply report_settled.
Qed.

Lemma room_max n op : room n -> op_cost op = 2 -> db_weight (pm_db (peer_manager n)) + Z.max 2 (op_cost op) <= USIZE_MAX.
Proof. unfold room. intros Hw ->. lia. Qed.

Lemma statusd_settled now n p :
  node_inv now n -> room n -> settled now n (set_peer_manager n (peer_statusd (peer_manager n) now p)).
Proof. intros Hn Hw. apply (settled_op now n (OpStatusd p)); [done|by apply room_max|done|apply sh_statusd]. Qed.

Lemma rpc_request_returns now n ts p id req :
  node_inv now n -> room n -> returns now n (on_request n now ts p id req).
Proof.
  intros Hn Hw. destruct req; cbn [on_request]; try (by apply returns_now, settled_refl).
  - by apply returns_now, statusd_settled.
  - case_match; [|by apply returns_now, settled_refl].
    apply (returns_bind now n _ (fun _ => None)). by apply rpc_error_settled.
  - apply returns_now, (settled_op now n (PeerManager.OpPing p data)); [done|by apply room_max|done|apply sh_ping].
  - apply (returns_bind now n _ (fun _ => None)). by apply response_settled.
Qed.

Lemma rpc_response_returns now n p id resp :
  node_inv now n -> room n -> returns now n (on_response n now p id resp).
Proof.
  intros Hn Hw. destruct resp; cbn [on_response]; try (by apply returns_now, settled_refl).
  - by apply returns_now, statusd_settled.
  - apply returns_now, (settled_op now n (OpPong p data)); [done|by apply room_max|done|apply sh_pong].
  - destruct (metadata_step now now (peer_manager n) p m) as (r & Hr & Hs); [apply Hn|lia|done|].
    rewrite Hr. destruct r as [b m']. apply returns_now. eapply settled_step; [done|exact Hs|].
    by apply (sh_metadata _ _ _ _ _ Hr).
Qed.

Lemma rpc_event_returns now n ts e : node_inv now n -> room n -> returns now n (inject_rpc_event n now ts e).
Proof.
  intros Hn Hw. unfold inject_rpc_event. case_match; [by apply returns_now, settled_refl|].
  destruct (rm_message e) as [[id req|id resp|id t]|[id pr er|id pr er]].
  - by apply rpc_request_returns.
  - by apply rpc_response_returns.
  - by apply returns_now, settled_refl.
  - apply (returns_bind now n _ (fun _ => None)). by apply rpc_error_settled.
  - apply (returns_bind now n _ (fun _ => match id with Internal => None | _ => _ end)). by apply rpc_error_settled.
Qed.

Lemma identify_settled now n e : node_inv now n -> settled now n (inject_identify_event n e).
Proof.
  intros Hn. destruct e as [p la ag pr|]; [|by apply settled_refl]. cbn [inject_identify_event].
  eapply settled_quiet; [done|apply identify_quiet, Hn|apply sh_identify].
Qed.

Lemma pm_event_settled now n ts e : node_inv now n -> settled now n (inject_pm_event n now ts e).2.
Proof.
  intros Hn. destruct e as [p|p|p|p|p|p|p reason|p ips|p ips|k|l]; cbn [inject_pm_event snd];
    try (by apply settled_refl).
  - by apply request_settled.
  - by apply request_settled.
  - apply settled_rpc; [done|apply rpc_inv_push, Hn|done].
  - apply (settled_discovery now n (globals n) (OpBanPeer p ips)); [done|]. cbn [run_op snd]. unfold d_ban_peer.
    rewrite view_discv5; [by apply view_on_node, ban_node_local|]. by rewrite fold_local by apply ban_ip_local.
  - apply (settled_discovery now n (globals n) (OpUnbanPeer p ips)); [done|]. cbn [run_op snd]. unfold d_unban_peer.
    rewrite view_discv5; [by apply view_on_node, ban_node_remove_local|]. by rewrite fold_local by apply ban_ip_remove_local.
  - apply (settled_discovery now n (globals n) (OpDiscoverPeers k)); [done|]. cbn [run_op snd]. unfold discover_peers.
    case_match; [done|]. by rewrite view_start_query, view_set_find_peer_active.
  - by apply discover_settled.
Qed.

Lemma discovered_settled now n peers :
  node_inv now n -> db_weight (pm_db (peer_manager n)) + Z.max 2 (2 * Z.of_nat (size peers)) <= USIZE_MAX ->
  settled now n (set_peer_manager n (peers_discovered (peer_manager n) now peers)).
Proof. intros Hn Hw. by apply (settled_op now n (OpDiscovered peers)), sh_discovered. Qed.

(** *** Calls and polls *)

Lemma publish_settled now msg topics : forall n, node_inv now n ->
  exists n', publish_on n now msg topics = Some n' /\ settled now n n'.
Proof.
  induction topics as [|t topics IH]; intros n Hn; cbn [publish_on]; [eauto using settled_refl|].
  destruct (PubsubMessage_encode msg SSZSnappy) as [data|]; [|eauto using settled_refl].
  pose proof (gs_publish_law (gossipsub n) (GossipTopic_to_string t) data) as Hl.
  destruct (gs_publish _ _ _) as [r gs]. cbn [snd] in Hl. pose proof (settled_gossipsub now n gs Hn Hl) as Hs.
  assert (Hgo : exists n', publish_on (set_gossipsub n gs) now msg topics = Some n' /\ settled now n n').
  { destruct (IH (set_gossipsub n gs) (proj1 Hs)) as (n' & E & Hn'). exists n'. split; [done|by eapply settled_trans]. }
  destruct r as [|[]]; [done|done| |done]. destruct (ni_cache _ _ (proj1 Hs)) as [m Hm].
  destruct (gc_insert_ok _ _ now t data Hm) as (c & m' & -> & _ & Hc & _).
  pose proof (settled_cache now _ c m' (proj1 Hs) Hc) as Hs'.
  destruct (IH _ (proj1 Hs')) as (n' & E & Hn'). exists n'. split; [done|]. by eapply settled_trans, settled_trans.
Qed.

Lemma topic_params_settled now n t p : node_inv now n -> settled now n (set_topic_params n t p).2.
Proof.
  intros Hn. unfold set_topic_params. pose proof (gs_params_law (gossipsub n) (GossipTopic_to_string t) p) as Hl.
  destruct (gs_set_topic_params _ _ _) as [r gs]. by apply settled_gossipsub.
Qed.

Lemma params_of_settled now l : forall n, node_inv now n -> settled now n (set_params_of n l).2.
Proof.
  induction l as [|[k p] l IH]; intros n Hn; cbn [set_params_of]; [by apply settled_refl|].
  pose proof (topic_params_settled now n (current_topic n k) p Hn) as Hs.
  destruct (set_topic_params _ _ _) as [[|] n1]; [|done]. by eapply settled_trans, IH, Hs.
Qed.

Lemma scoring_settled now n v slot :
  node_inv now n -> exists r, update_gossipsub_parameters n v slot = Some r /\ settled now n r.2.
Proof.
  intros Hn. destruct (aggregators_computable (score_settings n) v) as [x Hx];
    [apply committees_positive|apply slots_positive|apply committees_fit|apply Hn|]. unfold update_gossipsub_parameters, get_dynamic_topic_params. rewrite Hx.
  eexists. split; [reflexivity|]. by apply params_of_settled.
Qed.

Lemma trusted_settled now n e :
  node_inv now n -> settled now n (dial_trusted_peer n e).
Proof.
  intros Hn. assert (Ht : settled now n (set_peer_manager n (pm_add_trusted_peer (peer_manager n) e))).
  { apply settled_pm; [done| |apply sh_set_trusted]. eapply frame_inv; [apply frame_trusted|apply Hn]. }
  pose proof (dial_settled now _ e (proj1 Ht)) as Hd. eapply settled_trans; [exact Ht|]. by destruct n.
Qed.

Lemma untrusted_settled now n e :
  node_inv now n -> room n -> settled now n (remove_trusted_peer n now e).
Proof.
  intros Hn Hw. assert (Ht : settled now n (set_peer_manager n (pm_remove_trusted_peer (peer_manager n) e))).
  { apply settled_pm; [done| |apply sh_set_trusted]. eapply frame_inv; [apply frame_trusted|apply Hn]. }
  eapply settled_trans; [exact Ht|].
  assert (Hd : settled now (set_peer_manager n (pm_remove_trusted_peer (peer_manager n) e)) (remove_trusted_peer n now e)).
  { replace (remove_trusted_peer n now e) with (set_peer_manager (set_peer_manager n (pm_remove_trusted_peer (peer_manager n) e))
      (disconnect_peer (pm_remove_trusted_peer (peer_manager n) e) now (enr_peer_id e) GoodbyeReason.TooManyPeers))
      by (by destruct n).
    apply (settled_op now _ (PeerManager.OpDisconnect (enr_peer_id e) GoodbyeReason.TooManyPeers)); destruct n as [? []];
      [apply Ht|exact Hw|done|apply sh_disconnect]. }
  done.
Qed.

Lemma swarm_event_returns now n ts e :
  node_inv now n -> db_weight (pm_db (peer_manager n)) + Z.max 2 (node_cost n (NdEvent e)) <= USIZE_MAX ->
  (forall u, e <> SwUpnp u) -> returns now n (parse_swarm_event n now ts e).
Proof.
  intros Hn Hw Hu. assert (room n) as Hr by (unfold room; lia).
  destruct e; cbn [parse_swarm_event node_cost] in *; try (by apply returns_now, settled_refl).
  - by apply gs_event_returns.
  - by apply rpc_event_returns.
  - by apply returns_now, discovered_settled.
  - by apply returns_now, identify_settled.
  - pose proof (pm_event_settled now n ts e Hn) as Hs. destruct (inject_pm_event _ _ _ _) as [ev n1]. by apply returns_now.
  - by destruct (Hu e).
Qed.

Lemma poll_pm_returns now n ts :
  node_inv now n -> room n -> returns now n (node_step n now ts NdPollPeerManager).
Proof.
  intros Hn Hw. cbn [node_step].
  destruct (poll_quiet now now (peer_manager n)) as ([out m] & Hp & Hq); [apply Hn|lia|done|]. rewrite Hp.
  assert (Hs : settled now n (set_peer_manager n m)) by (eapply settled_quiet; [done|exact Hq|by apply (sh_poll _ _ _ Hp)]).
  destruct out as [e| |]; [|by apply returns_now..].
  pose proof (pm_event_settled now (set_peer_manager n m) ts e (proj1 Hs)) as He. cbn [parse_swarm_event].
  destruct (inject_pm_event _ _ _ _) as [ev n1]. apply returns_now. by eapply settled_trans.
Qed.

Lemma poll_rpc_returns now n ts t1 t2 :
  node_inv now n -> room n -> returns now n (node_step n now ts (NdPollRpc t1 t2)).
Proof.
  intros Hn Hw. cbn [node_step].
  destruct (rpc_behaviour_poll_ok (eth2_rpc n) now ts t1 t2 (ni_rpc _ _ Hn)) as (out & r & Hp & Hr & _). rewrite Hp.
  assert (Hs : settled now n (set_rpc n r)) by (apply settled_rpc; [done..|by eapply seq_poll]).
  destruct out as [[|m|]|]; try (by apply returns_now).
  destruct (rpc_event_returns now (set_rpc n r) ts m) as (ev & n1 & E & Hn1); [apply Hs|by destruct n|].
  cbn [parse_swarm_event]. rewrite E. apply returns_now. by eapply settled_trans.
Qed.

Lemma handler_returns now n ts p c e :
  node_inv now n -> node_op_ok n (NdHandlerEvent p c e) -> updates_response e = false -> returns now n (node_step n now ts (NdHandlerEvent p c e)).
Proof.
  intros Hn Hok Hup. cbn [node_step].
  destruct (on_connection_handler_event_ok (eth2_rpc n) now ts p c e (ni_rpc _ _ Hn)) as (r & Hr & Hi & _);
    [by destruct e as [[]| |]|done|].
  rewrite Hr. apply returns_now, settled_rpc; [done..|by eapply seq_handler_event].
Qed.

Lemma closed_returns now n ts p c k :
  node_inv now n -> room n -> returns now n (node_step n now ts (NdClosed p c k)).
Proof.
  intros Hn Hw. cbn [node_step].
  destruct (pm_step_ok now now (peer_manager n) (PeerManager.OpClosed p k)) as (r & Hr & Hs); [apply Hn|lia|done|].
  cbn [pm_step] in Hr. destruct (PeerManager.on_connection_closed _ _ _ _) as [m|] eqn:Hm; [|done]. injection Hr as <-.
  assert (Hset : settled now n (set_peer_manager n m)) by (eapply settled_step; [done|exact Hs|by eapply sh_closed]).
  apply returns_now. eapply settled_trans; [exact Hset|]. replace (eth2_rpc n) with (eth2_rpc (set_peer_manager n m)) by by destruct n.
  apply settled_rpc; [apply Hset| |apply seq_closed]. apply on_connection_closed_ok, Hset.
Qed.

Lemma dial_failure_returns now n ts p e :
  node_inv now n -> room n -> returns now n (node_step n now ts (NdDialFailure p e)).
Proof.
  intros Hn Hw. cbn [node_step].
  destruct (pm_step_ok now now (peer_manager n) (PeerManager.OpDialFailure p)) as (r & Hr & Hs); [apply Hn|lia|done|].
  cbn [pm_step] in Hr. destruct (on_dial_failure _ _ _) as [m|] eqn:Hm; [|done]. injection Hr as <-.
  assert (Hset : settled now n (set_peer_manager n m)) by (eapply settled_step; [done|exact Hs|by eapply sh_dial_failure]).
  apply returns_now. eapply settled_trans; [exact Hset|]. replace (discovery n) with (discovery (set_peer_manager n m)) by by destruct n.
  apply (settled_discovery now _ (globals (set_peer_manager n m)) (Discovery.OpDialFailure p e)); [apply Hset|].
  cbn [run_op snd]. unfold d_on_dial_failure. repeat case_match; try done; apply view_disconnect.
Qed.

Lemma established_returns now n ts p e :
  node_inv now n -> room n -> returns now n (node_step n now ts (NdEstablished p e)).
Proof.
  intros Hn Hw. apply returns_now, (settled_op now n (PeerManager.OpEstablished p e)); [done..|apply sh_established].
Qed.

Lemma scores_returns now n ts : node_inv now n -> room n -> returns now n (node_step n now ts NdScores).
Proof.
  intros Hn Hw. cbn [node_step]. unfold tick_gossipsub_scores.
  destruct (gossip_step now now (peer_manager n) (gs_peer_score (gossipsub n))) as (m & Hm & Hs); [apply Hn|lia|done|].
  rewrite Hm. apply returns_now. eapply settled_step; [done|exact Hs|by eapply sh_gossip_scores].
Qed.

Lemma cache_returns now n ts : node_inv now n -> returns now n (node_step n now ts NdCache).
Proof.
  intros Hn. destruct (ni_cache _ _ Hn) as [m Hm]. destruct (gc_poll_ok _ _ now Hm) as (m' & _ & Hc & _).
  apply returns_now. by eapply settled_cache.
Qed.

End node_lemmas.

(** ** Lemmas: what a node announces *)

Section good.
Context `{ChainTypes} `{Libp2p} `{HashIter} `{FloatExp} `{UnstableSort} `{ThreadRng} `{DelaySet} `{DelayQueue} `{DelayKeys}.
Context `{!TopicCrates} `{!CustodyCrates} `{!EnrFields} `{!EnrCrates} `{!Discv5Service}.
Context `{!Wire} `{!GossipWire} `{!BlobSubnets} `{!ScoringCrates} `{!ServiceCrates}.
Context `{!ScoringLaws} `{!EnrCrateLaws} `{!Discv5Laws} `{!GossipsubLaws} `{!TopicCrateLaws}.
Implicit Types (n : Network).

Record good (now : Instant) n : Prop := {
  gd_inv : node_inv now n;
  gd_announces : announces n;
  gd_topics : topics_agree n;
}.

Lemma settled_good now n n' : settled now n n' -> good now n -> good now n'.
Proof.
  intros [Hi He] [_ [Hs Hr Ha Hsy Hf] [Hw Hn]]. unfold still, sh, shared in He.
  injection He as _ Hl Hm Hsub _ _ _ Hseq Hd Ht Hal _ Hdir Hfile _.
  assert (Hg : forall n, globals n = network_globals (peer_manager n)) by done.
  split; [done|split; rewrite ?Hg|split; rewrite ?Hg].
  - congruence.
  - rewrite Hl, Hd. exact Hr.
  - rewrite Hd, Hm. exact Ha.
  - rewrite Hd, Hm. exact Hsy.
  - rewrite Hdir, Hm, Hfile. exact Hf.
  - rewrite Hsub. exact Hw.
  - rewrite Ht, Hal, Hsub. exact Hn.
Qed.

Lemma frame_globals m g : g_peers g = pm_db m -> frame m (set_globals m g).
Proof. intros Hg. by destruct m. Qed.

(** *** Topics *)

(** Other subscriptions, in the globals and in gossipsub. *)
Definition regroup n (subs : gset GossipTopic) (gs : Gossipsub) : Network :=
  set_gossipsub (set_network_globals n (set_g_subscriptions (globals n) subs)) gs.

Lemma regroup_good now n subs gs :
  good now n -> set_Forall topic_wf subs ->
  gs_topics gs = set_map GossipTopic_to_string subs ∩ gs_allowed gs -> good now (regroup n subs gs).
Proof.
  intros [[Hp Hr Hc Hd Hq Hss] [Hs Hrec Ha Hsy Hf] _] Hw Hn. destruct n as [cl pm r d gs0 f nd fc ss gc mf]. cbn in *.
  split; [split|split|split]; cbn in *; try done; try (by destruct pm as [[]]).
  eapply frame_inv, Hp. by apply frame_globals.
Qed.

Lemma subscribe_good now n t : good now n -> topic_wf t -> good now (subscribe n t).2.
Proof.
  intros Hg Ht. destruct (gd_topics _ _ Hg) as [Hw Hn].
  assert (E : (subscribe n t).2 =
    regroup n ({[t]} ∪ gossipsub_subscriptions (globals n)) (gs_subscribe (gossipsub n) (GossipTopic_to_string t)).2).
  { unfold subscribe. destruct n. cbn. by destruct (gs_subscribe _ _) as [[] ?]. }
  rewrite E. destruct (gs_subscribe_law (gossipsub n) (GossipTopic_to_string t)) as (Ha & Hok & Htop).
  apply regroup_good; [done| |].
  - by apply set_Forall_union; [apply set_Forall_singleton|].
  - rewrite Htop, Ha. rewrite set_map_union_L, set_map_singleton_L. destruct (is_ok _); rewrite Hn.
    + assert (GossipTopic_to_string t ∈ gs_allowed (gossipsub n)) by by apply Hok. set_solver.
    + assert (GossipTopic_to_string t ∉ gs_allowed (gossipsub n)) by (intros [=]%Hok). set_solver.
Qed.

Lemma unsubscribe_good now n t : good now n -> topic_wf t -> good now (unsubscribe n t).2.
Proof.
  intros Hg Ht. destruct (gd_topics _ _ Hg) as [Hw Hn].
  assert (E : (unsubscribe n t).2 =
    regroup n (gossipsub_subscriptions (globals n) ∖ {[t]}) (gs_unsubscribe (gossipsub n) (GossipTopic_to_string t)).2).
  { unfold unsubscribe. destruct n. cbn. by destruct (gs_unsubscribe _ _). }
  rewrite E. destruct (gs_unsubscribe_law (gossipsub n) (GossipTopic_to_string t)) as (Ha & _ & Htop).
  apply regroup_good; [done| |].
  - intros u [Hu _]%elem_of_difference. by apply Hw.
  - rewrite Htop, Ha, Hn. apply set_eq. intros x.
    rewrite elem_of_difference, !elem_of_intersection, !elem_of_map, elem_of_singleton. split.
    + intros [[(u & -> & Hu) Hx] Hne]. split; [|done]. exists u. split; [done|]. set_solver.
    + intros [(u & -> & [Hu Hne]%elem_of_difference) Hx]. split; [eauto|]. intros He.
      apply topic_to_string_inj in He; [set_solver|by apply Hw|done].
Qed.

Lemma fold_good {X} (f : Network -> X -> Network) (P : X -> Prop) (l : list X) now n :
  (forall n x, good now n -> P x -> good now (f n x)) -> Forall P l -> good now n -> good now (fold_left f l n).
Proof.
  intros Hf Hl. revert n. induction Hl as [|x l Hx Hl IH]; intros n Hn; [done|]. cbn. by apply IH, Hf.
Qed.

Lemma subscribe_all_good now n l : Forall topic_wf l -> good now n -> good now (subscribe_all n l).
Proof. intros Hl. apply (fold_good _ topic_wf); [|done]. intros. by apply subscribe_good. Qed.

Lemma unsubscribe_all_good now n l : Forall topic_wf l -> good now n -> good now (unsubscribe_all n l).
Proof. intros Hl. apply (fold_good _ topic_wf); [|done]. intros. by apply unsubscribe_good. Qed.

Lemma subscriptions_wf now n (P : GossipTopic -> Prop) `{!forall t, Decision (P t)} :
  good now n -> Forall topic_wf (filter P (set_iter (gossipsub_subscriptions (globals n)))).
Proof.
  intros Hg. apply Forall_forall. intros t [_ Ht]%list_elem_of_filter. apply elem_of_set_iter in Ht.
  by apply (ta_wf _ (gd_topics _ _ Hg)).
Qed.

(** What the choice of core topics depends on. *)
Definition topic_view n := (g_config (globals n), as_topic_config (globals n), enr_fork_id n).

Lemma subscribe_view n t : topic_view (subscribe n t).2 = topic_view n.
Proof. unfold subscribe. destruct n as [? []]. cbn. by destruct (gs_subscribe _ _) as [[] ?]. Qed.

Lemma subscribe_all_view l : forall n, topic_view (subscribe_all n l) = topic_view n.
Proof. induction l as [|t l IH]; intros n; [done|]. unfold subscribe_all in *. cbn. by rewrite IH, subscribe_view. Qed.

Lemma fork_topics_good now n phase digest :
  good now n -> node_op_ok n (NdCall (NcForkTopics phase digest)) -> good now (subscribe_new_fork_topics n phase digest).
Proof.
  intros Hg Hok. unfold subscribe_new_fork_topics. apply subscribe_all_good; [|apply subscribe_all_good; [|done]].
  - pose proof (subscribe_all_view (map (with_digest digest) (filter (fun t => is_fork_non_core_topic t phase = true)
      (set_iter (gossipsub_subscriptions (globals n))))) n) as Hv. unfold topic_view in Hv.
    rewrite !pair_eq in Hv. destruct Hv as [[-> ->] _]. apply Forall_map. eapply Forall_impl; [exact Hok|done].
  - apply Forall_map. eapply Forall_impl; [by eapply subscriptions_wf|done].
Qed.

Lemma drop_topics_good now n except : good now n -> good now (unsubscribe_from_fork_topics_except n except).
Proof. intros Hg. apply unsubscribe_all_good; [by eapply subscriptions_wf|done]. Qed.

Lemma weights_settled now n except : node_inv now n -> settled now n (remove_topic_weight_except n except).
Proof. apply settled_fold. intros. by apply topic_params_settled. Qed.

Lemma sampling_good now n count :
  good now n -> node_op_ok n (NdCall (NcSampling count)) -> ~ node_panics n (NdCall (NcSampling count)) ->
  exists n', subscribe_new_data_column_subnets n count = Some n' /\ good now n'.
Proof.
  intros Hg Hu Hno. unfold subscribe_new_data_column_subnets.
  assert (Hs : exists S, update_data_column_subnets (globals n) count = Some (set_g_sampling (globals n) S)).
  { cbn [node_panics] in Hno. unfold update_data_column_subnets in *. destruct (get_custody_groups _ _ _); [|done].
    destruct (extend_subnets _ _ _) as [S|]; [by exists S|done]. }
  destruct Hs as [S HS]. specialize (Hu _ HS). rewrite HS. eexists. split; [done|]. cbn [sampling_subnets] in Hu.
  set (n1 := set_network_globals n (set_g_sampling (globals n) S)).
  assert (Hn1 : good now n1).
  { destruct Hg as [[Hp Hr Hc Hd Hq Hss] [Hs Hrec Ha Hsy Hf] [Hw Hn]]. subst n1. destruct n as [cl pm r d gs f nd fc ss gc mf].
    split; [split|split|split]; cbn in *; try done; try (by destruct pm as [[]]).
    eapply frame_inv, Hp. by apply frame_globals. }
  apply (fold_good _ in_u64); [|apply Forall_forall; intros c Hc%elem_of_set_iter|done].
  - intros n' c Hn' Hc. by apply subscribe_good.
  - apply Hu. subst n1. by destruct n as [? []].
Qed.

(** *** The record *)

Lemma readable_keys d d' :
  enr_get_bytes (d_local_enr d') ATTESTATION_BITFIELD_ENR_KEY = enr_get_bytes (d_local_enr d) ATTESTATION_BITFIELD_ENR_KEY ->
  enr_get_bytes (d_local_enr d') SYNC_COMMITTEE_BITFIELD_ENR_KEY = enr_get_bytes (d_local_enr d) SYNC_COMMITTEE_BITFIELD_ENR_KEY ->
  attestation_bitfield (d_local_enr d') = attestation_bitfield (d_local_enr d) /\
  sync_committee_bitfield (d_local_enr d') = sync_committee_bitfield (d_local_enr d).
Proof. intros Ha Hs. unfold attestation_bitfield, sync_committee_bitfield. by rewrite Ha, Hs. Qed.

(** Discovery works on the record: the part of [good] that does not need its bit fields stays. *)
Lemma record_parts now n op :
  good now n -> let n' := set_published n (run_op (globals n) op (discovery n)) in
  readable (discovery n') ->
  node_inv now n' /\ topics_agree n' /\ eth2_rpc n' = eth2_rpc n /\ local_metadata (globals n') = local_metadata (globals n) /\
  n_network_dir n' = n_network_dir n /\ metadata_file n' = metadata_file n /\
  discovery n' = (run_op (globals n) op (discovery n)).2 /\
  (forall key, key ∉ transport_keys ->
     enr_get_bytes (local_enr (globals n')) key = enr_get_bytes (d_local_enr (discovery n')) key).
Proof.
  intros [[Hp Hr Hc Hd Hq Hss] [Hs Hrec Ha Hsy Hf] [Hw Hn]] n' Hrd.
  destruct (op_only_record (globals n) (discovery n) op) as [e He].
  pose proof (op_publishes (globals n) (discovery n) op) as Hpub.
  pose proof (reach_op _ (globals n) op _ Hq) as Hq'.
  assert (Hk : forall key, key ∉ transport_keys -> enr_get_bytes (local_enr (run_op (globals n) op (discovery n)).1) key =
    enr_get_bytes (d_local_enr (run_op (globals n) op (discovery n)).2) key).
  { intros key Hkey. destruct Hpub as [[Hv [Hl|Hl]]|[Hl _]]; cbn [fst snd] in *; [|by rewrite Hl..].
    injection Hv as Hv _ _. rewrite Hl, Hv. by apply Hrec. }
  subst n'. destruct (run_op (globals n) op (discovery n)) as [g d]. cbn [fst snd] in *. subst g.
  unfold set_published in *. destruct n as [cl pm r d0 gs f nd fc ss gc mf]. cbn in *. split_and!; try done.
  - split; try done. cbn. eapply frame_inv, Hp. by apply frame_globals.
  - by split; destruct pm as [[]].
  - by destruct pm as [[]].
  - by destruct pm as [[]].
Qed.

Lemma record_good now n op :
  ATTESTATION_BITFIELD_ENR_KEY ∉ op_keys op -> SYNC_COMMITTEE_BITFIELD_ENR_KEY ∉ op_keys op ->
  good now n -> good now (set_published n (run_op (globals n) op (discovery n))).
Proof.
  intros Ha Hs Hg.
  destruct (readable_keys (discovery n) (run_op (globals n) op (discovery n)).2) as [Hatt Hsync];
    [by apply op_keeps_key; [|apply (bool_decide_unpack _); vm_compute]..|].
  pose proof (record_parts now n op Hg) as Hp.
  assert (Hd : discovery (set_published n (run_op (globals n) op (discovery n))) = (run_op (globals n) op (discovery n)).2)
    by by destruct n.
  destruct Hp as (Hi & Ht & Hrpc & Hmd & Hdir & Hfile & _ & Hk).
  { unfold readable. rewrite Hd, Hatt, Hsync. apply Hg. }
  split; [done| |done]. destruct (gd_announces _ _ Hg) as [Hs1 Hr1 Ha1 Hsy1 Hf1].
  split; rewrite ?Hrpc, ?Hmd, ?Hdir, ?Hfile; try done; by rewrite Hd, ?Hatt, ?Hsync.
Qed.

(** *** The metadata *)

Lemma install_good now n m :
  node_inv now n -> topics_agree n ->
  (forall key, key ∉ transport_keys ->
     enr_get_bytes (local_enr (globals n)) key = enr_get_bytes (d_local_enr (discovery n)) key) ->
  attestation_bitfield (d_local_enr (discovery n)) = Ok (attnets m) ->
  (forall s, syncnets m = Some s -> sync_committee_bitfield (d_local_enr (discovery n)) = Ok s) ->
  good now (install_metadata n m).
Proof.
  intros [Hp Hr Hc Hd Hq Hss] [Hw Hn] Hrec Ha Hs. unfold install_metadata, save_metadata_to_disk.
  destruct n as [cl pm r d gs f nd fc ss gc mf]. cbn in *.
  assert (Hp' : pm_inv now (set_globals pm (set_g_metadata (network_globals pm) m)))
    by (eapply frame_inv, Hp; by apply frame_globals).
  assert (Hr' : rpc_inv (update_seq_number r (seq_number m))) by by destruct Hr.
  destruct nd as [dir|]; [destruct (MetaData_to_ssz m) as [ssz|] eqn:Hssz|];
    (split; [split|split|split]; cbn; try done; try (by destruct pm as [[]])).
  - intros dir' ssz' _ Hz. assert (ssz' = ssz) as ->; [|apply file_write_holds].
    assert (MetaData_to_ssz m = Ok ssz') by by destruct pm as [[]]. congruence.
  - intros dir' ssz' _ Hz. assert (MetaData_to_ssz m = Ok ssz') by by destruct pm as [[]]. congruence.
Qed.

Lemma update_bit_readable g d (read : Enr -> result BitVector string) id value key to_ssz :
  (forall b ssz v, to_ssz b = Ok ssz -> discv5_enr_insert (discv5 d) (FieldBytes key ssz) = Ok v ->
     is_ok (read (discv5_local_enr v)) = true) ->
  is_ok (read (d_local_enr d)) = true ->
  is_ok (read (d_local_enr (update_bit g d (read (d_local_enr d)) id value key to_ssz).2.2)) = true.
Proof.
  intros Hins Hrd. unfold update_bit. destruct (read (d_local_enr d)) as [b|] eqn:Hb; [|done].
  destruct (bit_get b id) as [x|]; [|by cbn; rewrite Hb]. destruct (Bool.eqb x value); [by cbn; rewrite Hb|].
  destruct (to_ssz _) as [ssz|] eqn:Hz; [|by cbn; rewrite Hb]. unfold insert_and_publish.
  destruct (discv5_enr_insert _ _) as [v|] eqn:Hi; [|by cbn; rewrite Hb]. cbn [snd]. unfold d_local_enr.
  rewrite discv5_publish, discv5_set_discv5. by eapply Hins.
Qed.

Lemma bitfield_readable g d s value : readable d -> readable (run_op g (OpUpdateBitfield s value) d).2.
Proof.
  intros [Ha Hs]. destruct s as [id|id|id]; cbn [run_op update_enr_bitfield]; [| |done].
  - split.
    + apply update_bit_readable; [|done]. intros b ssz v Hz Hi. unfold attestation_bitfield.
      rewrite (insert_same _ _ _ _ Hi). cbn. by rewrite (attnets_ssz _ _ Hz).
    + pose proof (op_keeps_key SYNC_COMMITTEE_BITFIELD_ENR_KEY g (OpUpdateBitfield (Subnet.Attestation id) value) d) as Hk.
      cbn [run_op update_enr_bitfield] in Hk. unfold sync_committee_bitfield in *.
      by rewrite Hk by (apply (bool_decide_unpack _); by vm_compute).
  - split.
    + pose proof (op_keeps_key ATTESTATION_BITFIELD_ENR_KEY g (OpUpdateBitfield (Subnet.SyncCommittee id) value) d) as Hk.
      cbn [run_op update_enr_bitfield] in Hk. unfold attestation_bitfield in *.
      by rewrite Hk by (apply (bool_decide_unpack _); by vm_compute).
    + apply update_bit_readable; [|done]. intros b ssz v Hz Hi. unfold sync_committee_bitfield.
      rewrite (insert_same _ _ _ _ Hi). cbn. by rewrite (syncnets_ssz _ _ Hz).
Qed.

Lemma subnet_good now n s value :
  good now n -> exists n', update_enr_subnet n s value = Some n' /\ good now n'.
Proof.
  intros Hg. unfold update_enr_subnet.
  change (update_enr_bitfield (globals n) (discovery n) s value).2 with (run_op (globals n) (OpUpdateBitfield s value) (discovery n)).
  pose proof (bitfield_readable (globals n) _ s value (ni_readable _ _ (gd_inv _ _ Hg))) as Hrd.
  assert (Hd : discovery (set_published n (run_op (globals n) (OpUpdateBitfield s value) (discovery n))) =
    (run_op (globals n) (OpUpdateBitfield s value) (discovery n)).2) by by destruct n.
  rewrite <- Hd in Hrd. destruct (record_parts now n (OpUpdateBitfield s value) Hg Hrd) as (Hi & Ht & _ & _ & _ & _ & _ & Hk).
  unfold update_metadata_bitfields. destruct Hrd as [Ha Hs].
  destruct (attestation_bitfield _) as [a|] eqn:Ea; [|done]. destruct (sync_committee_bitfield _) as [b|] eqn:Eb; [|done].
  eexists. split; [done|]. apply install_good; [done..| |].
  - rewrite Ea. by destruct (next_metadata _).
  - intros s' Hs'. rewrite Eb. destruct (next_metadata _); cbn in Hs'; congruence.
Qed.

Lemma cgc_good now n count : good now n -> good now (n_update_enr_cgc n count).
Proof.
  intros Hg. unfold n_update_enr_cgc, update_metadata_cgc.
  change (update_enr_cgc (globals n) (discovery n) count).2 with (run_op (globals n) (OpUpdateCgc count) (discovery n)).
  assert (Hg' := record_good now n (OpUpdateCgc count) ltac:(by apply (bool_decide_unpack _); vm_compute)
    ltac:(by apply (bool_decide_unpack _); vm_compute) Hg).
  destruct Hg' as [Hi [Hs Hrec Ha Hsy Hf] Ht]. apply install_good; [done..| |].
  - rewrite Ha. by destruct (local_metadata _).
  - intros s Hs'. apply Hsy. by destruct (local_metadata _).
Qed.

(** *** Steps *)

Definition goes_on (now : Instant) (r : option (option NetworkEvent * Network)) : Prop :=
  exists ev n', r = Some (ev, n') /\ good now n'.

Lemma returns_go now n r : good now n -> returns now n r -> goes_on now r.
Proof. intros Hg (ev & n' & -> & Hs). exists ev, n'. split; [done|by eapply settled_good]. Qed.

Lemma good_go now ev n : good now n -> goes_on now (Some (ev, n)).
Proof. intros Hg. by exists ev, n. Qed.

#[local] Ltac no_bits := apply (bool_decide_unpack _); by vm_compute.

Lemma fork_version_good now n id : good now n -> good now (update_fork_version n id).
Proof.
  intros Hg. pose proof (record_good now n (OpUpdateEth2 id) ltac:(no_bits) ltac:(no_bits) Hg) as Hr.
  unfold update_fork_version. cbn [run_op] in Hr. destruct (set_published _ _) as [cl pm r d gs f nd fc ss gc mf].
  destruct Hr as [[] [] []]. by split; split.
Qed.

Lemma call_good now n ts c :
  good now n -> node_op_ok n (NdCall c) -> ~ node_panics n (NdCall c) -> room n -> exists n', node_call n now ts c = Some n' /\ good now n'.
Proof.
  intros Hg Hok Hno Hw. pose proof (gd_inv _ _ Hg) as Hn.
  assert (Hset : forall r, (exists n', r = Some n' /\ settled now n n') -> exists n', r = Some n' /\ good now n').
  { intros r (n' & -> & Hs). exists n'. split; [done|by eapply settled_good]. }
  assert (Hquiet : forall n', settled now n n' -> exists x, Some n' = Some x /\ good now x).
  { intros n' Hs. apply Hset. eauto. }
  destruct c; cbn [node_call] in *; try (eexists; split; [done|]).
  - by apply subscribe_good.
  - by apply unsubscribe_good.
  - by apply subscribe_good.
  - by apply unsubscribe_good.
  - by apply fork_topics_good.
  - by apply drop_topics_good.
  - eapply settled_good, Hg. by apply weights_settled.
  - by apply sampling_good.
  - by apply Hset, publish_settled.
  - eapply settled_good, Hg. apply settled_gossipsub; [done|apply gs_report_law].
  - destruct (scoring_settled now n active_validators slot Hn) as (r & -> & Hs). by apply Hquiet.
  - eapply settled_good, Hg. unfold n_send_request. case_match; [by apply request_settled|by apply settled_refl].
  - by apply Hset, response_settled.
  - by apply Hset, report_settled.
  - by apply Hset, goodbye_settled.
  - eapply settled_good, Hg. apply (settled_discovery now n (globals n) (OpAddEnr e)); [done|].
    cbn [run_op snd]. unfold add_enr. rewrite view_discv5; [apply view_set_cache|]. apply add_to_table_local.
  - by apply subnet_good.
  - by apply cgc_good.
  - eapply settled_good, Hg. by apply discover_settled.
  - by apply fork_version_good.
  - apply (record_good now n (OpUpdateNfd digest)); [no_bits..|done].
  - eapply settled_good, Hg. by apply trusted_settled.
  - eapply settled_good, Hg. by apply untrusted_settled.
Qed.

Lemma event_good now n ts e :
  good now n -> db_weight (pm_db (peer_manager n)) + Z.max 2 (node_cost n (NdEvent e)) <= USIZE_MAX ->
  goes_on now (parse_swarm_event n now ts e).
Proof.
  intros Hg Hw. destruct e as [ | | | | |u| | |]; try (eapply returns_go; [exact Hg|by apply swarm_event_returns; [apply Hg|..]]).
  apply good_go. destruct u as [addr|]; [|done]. cbn [inject_upnp_event].
  destruct (tail (multiaddr_iter addr)) as [|[] [|[] ?]]; try done.
  all: first [apply (record_good now n (OpUpdateTcpPort _ _)); [no_bits..|done]
             |apply (record_good now n (OpUpdateQuicPort _ _)); [no_bits..|done]].
Qed.

Lemma discv5_good now n v : good now n -> node_op_ok n (NdDiscv5 v) -> good now (set_discovery n (set_discv5 (discovery n) v)).
Proof.
  intros Hg Hok. pose proof (readable_keys (discovery n) (set_discv5 (discovery n) v)) as Hb.
  unfold d_local_enr in Hb at 1 3 5 7. rewrite !discv5_set_discv5 in Hb.
  destruct Hb as [Hatt Hsync]; [by apply Hok; no_bits..|].
  destruct Hg as [[Hp Hr Hc [Hra Hrs] Hq Hss] [Hs Hrec Ha Hsy Hf] [Hw Hn]].
  destruct n as [cl pm r d gs f nd fc ss gc mf]. cbn in *.
  assert (Hd : d_local_enr (set_discv5 d v) = discv5_local_enr v) by (unfold d_local_enr; by rewrite discv5_set_discv5).
  split; [split|split|split]; try done.
  - split; cbn; by rewrite Hd, ?Hatt, ?Hsync.
  - cbn. apply reach_discv5; [done|]. intros _. apply Hok. no_bits.
  - intros key Hkey. cbn. rewrite Hd, Hok; [by apply Hrec|]. unfold transport_keys in Hkey. set_solver.
  - cbn. by rewrite Hd, Hatt.
  - intros s Hs'. cbn. rewrite Hd, Hsync. by apply Hsy.
Qed.

Lemma step_good clock now n ts op :
  good clock n -> clock <= now -> node_op_ok n op -> ~ node_panics n op ->
  db_weight (pm_db (peer_manager n)) + Z.max 2 (node_cost n op) <= USIZE_MAX -> goes_on now (node_step n now ts op).
Proof.
  intros Hg Hle Hok Hno Hw.
  assert (Hgn : good now n) by (destruct Hg as [Hi Ha Ht]; split; [by eapply node_later|done..]). clear Hg.
  pose proof (gd_inv _ _ Hgn) as Hn. assert (room n) as Hr by (unfold room; lia).
  destruct op as [c|p e|p c k|p e|addr|p c e| |t1 t2|i|v|e| |].
  - destruct (call_good now n ts c Hgn Hok Hno Hr) as (n' & E & Hn'). cbn [node_step]. rewrite E. by apply good_go.
  - eapply returns_go; [done|]. by apply established_returns.
  - eapply returns_go; [done|]. by apply closed_returns.
  - eapply returns_go; [done|]. by apply dial_failure_returns.
  - apply good_go. apply (record_good now n (OpNewListenAddr addr)); [no_bits..|done].
  - eapply returns_go; [done|]. apply handler_returns; [done..|]. by apply not_true_is_false.
  - eapply returns_go; [done|]. by apply poll_pm_returns.
  - eapply returns_go; [done|]. by apply poll_rpc_returns.
  - cbn [node_step node_cost] in *. assert (Hp := record_good now n (Discovery.OpPoll i) ltac:(no_bits) ltac:(no_bits) Hgn).
    destruct (op_only_record (globals n) (discovery n) (Discovery.OpPoll i)) as [e He].
    cbn [run_op] in Hp, He. destruct (d_poll (globals n) (discovery n) i) as [out s]. cbn [fst snd] in *.
    destruct out as [peers|]; [|by apply good_go]. cbn [default] in Hw.
    assert (pm_db (peer_manager (set_published n s)) = pm_db (peer_manager n)) as Hdb.
    { destruct s as [g d]. cbn in He. subst g. by destruct n as [? []]. }
    apply good_go. eapply settled_good, Hp. apply discovered_settled; [apply Hp|]. by rewrite Hdb.
  - apply good_go. by apply discv5_good.
  - by apply event_good.
  - eapply returns_go; [done|]. by apply scores_returns.
  - eapply returns_go; [done|]. by apply cache_returns.
Qed.

(** *** The start *)

Lemma gossipsub_of_new i settings digest gs :
  gossipsub_of i settings digest = Some (Ok gs) -> gs_topics gs = ∅.
Proof.
  unfold gossipsub_of. destruct (get_peer_score_params _ _ _ _ _) as [params|]; [|done].
  destruct (subscription_filter _ _) as [f|]; [|done]. destruct (gs_new _ _ _) as [g|] eqn:Hg; [|done].
  destruct (gs_with_peer_score _ _ _) as [g1|] eqn:Hg1; [|done]. intros [= <-].
  apply gs_new_law in Hg as [Ht _]. apply gs_score_law in Hg1 as [Ht1 _]. rewrite Ht in Ht1. clear Ht g.
  revert g1 Ht1. induction (nc_trusted_peers (si_config i)) as [|p l IH]; intros g1 Ht1; [done|].
  cbn. apply IH. by rewrite (proj1 (gs_explicit_law g1 p)).
Qed.

Lemma rpc_new_inv {Id} c e inbound outbound seq now (r : RPC Id) :
  RPC_new c e inbound outbound seq now = Some r -> rpc_inv r /\ rpc_seq_number r = seq.
Proof.
  intros Hr. assert (Hi : rpc_initial r /\ rpc_seq_number r = seq).
  { unfold RPC_new in Hr. destruct (SelfRateLimiter_new _ _ _ _) as [self|] eqn:Hs; [|by repeat case_match].
    apply result_bind_ok in Hs as (rl & _ & [= <-]).
    destruct inbound as [cfg|]; [destruct (ResponseLimiter_new _ _ _ _) as [l|] eqn:Hl; [|done]|]; injection Hr as <-.
    - apply result_bind_ok in Hl as (rl' & _ & [= <-]). split; [|done]. split; [done|]. split; [|done]. by intros ? [= <-].
    - done. }
  split; [apply (rpc_initial_inv r), Hi|apply Hi].
Qed.

Lemma fresh_subnets dir cgc file :
  let m := (load_or_build_metadata dir cgc file).1 in
  attnets m = default_attnets /\ (forall s, syncnets m = Some s -> s = default_syncnets).
Proof.
  cbn [load_or_build_metadata fst]. unfold load_persisted, fresh_metadata.
  repeat case_match; cbn; split; congruence.
Qed.

Lemma globals_new_fields config e md trusted disable target flags g :
  NetworkGlobals_new config e md trusted disable target flags = Some g ->
  local_enr g = e /\ local_metadata g = md /\ gossipsub_subscriptions g = ∅.
Proof. unfold NetworkGlobals_new. repeat case_match; intros; by simplify_eq. Qed.

Lemma build_good i n : Network_build i = Some (Ok n) -> good (si_now i) n.
Proof.
  unfold Network_build. set (cgc := if config_is_peerdas_scheduled _ then _ else None).
  destruct (build_or_load_enr _ _ _ _ _ _ _) as [[enr written]|] eqn:He; [|done].
  apply build_or_load_bits in He as [Hatt Hsync].
  destruct (load_or_build_metadata _ _ _) as [md saved] eqn:Hmd.
  pose proof (fresh_subnets (network_dir (si_config i)) cgc (si_metadata_file i)) as [Hda Hds]. rewrite Hmd in Hda, Hds. cbn [fst] in Hda, Hds.
  destruct (NetworkGlobals_new _ _ _ _ _ _ _) as [g|] eqn:Hg; [|done].
  destruct (globals_new_fields _ _ _ _ _ _ _ _ Hg) as (Hl & Hm & Hsub).
  destruct (enr_eth2 (local_enr g)) as [fork|] eqn:Hf; [|done].
  destruct (gs_config_valid _); [|done].
  destruct (gossipsub_of _ _ _) as [[gs|]|] eqn:Hgs; [|done..]. apply gossipsub_of_new in Hgs.
  destruct (RPC_new _ _ _ _ _ _) as [r|] eqn:Hr; [|done]. apply rpc_new_inv in Hr as [Hr Hseq].
  destruct (Discovery_new _ _ _ _ _) as [d|] eqn:Hd; [|done]. pose proof (new_fork _ _ _ _ _ _ Hd) as Henr.
  destruct (PeerManager_new _ _ _) as [m|] eqn:Hpm; [|done].
  destruct (pm_new_inv _ _ _ _ _ _ _ _ _ _ _ Hg Hpm) as (Hgm & _ & Hinv); [done..|].
  intros [= <-]. set (d' := discover_peers _ _).
  assert (Hd' : d_reachable true d' /\ d_local_enr d' = enr).
  { split.
    - apply (reach_op true g (OpDiscoverPeers FIND_NODE_QUERY_CLOSEST_PEERS)). apply reach_file. eapply reach_new; eauto.
    - assert (record_view d' = record_view (set_enr_file d written)) as Hv.
      { unfold d', discover_peers. case_match; [done|]. by rewrite view_start_query, view_set_find_peer_active. }
      injection Hv as -> _ _. rewrite <- Hl, <- Henr. by destruct d. }
  destruct Hd' as [Hrd Hde]. clearbody d'.
  split; [split|split|split]; unfold globals; cbn; rewrite ?Hgm, ?Hm, ?Hsub, ?Hde, ?Hl; try done.
  - eexists. apply holds_new.
  - unfold readable. by rewrite Hde, Hatt, Hsync.
  - apply target_positive.
  - by rewrite Hatt, Hda.
  - intros s Hs. rewrite Hsync. f_equal. symmetry. by apply Hds.
  - intros dir ssz Hdir Hssz. assert (Hsaved : saved = save_metadata_to_disk (network_dir (si_config i)) md (si_metadata_file i)).
    { unfold load_or_build_metadata in Hmd. apply pair_eq in Hmd as [Hmd <-]. by rewrite Hmd. }
    unfold save_metadata_to_disk in Hsaved. rewrite Hdir, Hssz in Hsaved. subst saved. apply file_write_holds.
  - rewrite Hgs, set_map_empty. set_solver.
Qed.

Lemma start_good i dials n :
  Network_new i = Some (Ok (dials, n)) -> Forall kind_wf (nc_topics (si_config i)) -> good (si_now i) n.
Proof.
  unfold Network_new. destruct (Network_build i) as [[n0|]|] eqn:Hb; [|done..]. apply build_good in Hb.
  unfold start. case_match; [|done]. destruct (start_dials _ _); [|done]. intros [= _ <-] Hk.
  apply (fold_good _ kind_wf); [|done..]. intros n k Hn Hk'. by apply subscribe_good.
Qed.

Lemma node_panics_stop n now ts op : node_panics n op -> node_step n now ts op = None.
Proof.
  destruct op as [[]| | | | | | | | | | | |]; try done; cbn [node_panics node_step node_call].
  - unfold subscribe_new_data_column_subnets. by intros ->.
  - intros Hu. by rewrite updates_response_panics.
Qed.

#[export] Instance node_panics_dec n op : Decision (node_panics n op).
Proof. destruct op as [[]| | | | | | | | | | | |]; cbn [node_panics]; apply _. Defined.

Lemma reach_good clock n : reach clock n -> good clock n.
Proof.
  induction 1 as [i dials n Hn Hk|clock now ts n op ev n' Hr IH Hle Hok Hw Hs]; [by eapply start_good|].
  destruct (step_good clock now n ts op IH Hle Hok) as (ev' & n1 & E & Hg); [|done|].
  - intros Hp%(node_panics_stop n now ts). congruence.
  - rewrite Hs in E. by injection E as <- <-.
Qed.

End good.

(** ** Lemmas: subscriptions *)

Section subscriptions.
Context `{ChainTypes} `{Libp2p} `{HashIter} `{FloatExp} `{UnstableSort} `{ThreadRng} `{DelaySet} `{DelayQueue} `{DelayKeys}.
Context `{!TopicCrates} `{!CustodyCrates} `{!EnrFields} `{!EnrCrates} `{!Discv5Service}.
Context `{!Wire} `{!GossipWire} `{!BlobSubnets} `{!ScoringCrates} `{!ServiceCrates}.
Implicit Types (n : Network).

Definition subscriptions n : gset GossipTopic := gossipsub_subscriptions (globals n).

Lemma subscriptions_subscribe n t : subscriptions (subscribe n t).2 = {[t]} ∪ subscriptions n.
Proof. unfold subscribe. destruct n as [? []]. cbn. by destruct (gs_subscribe _ _) as [[] ?]. Qed.

Lemma subscriptions_unsubscribe n t : subscriptions (unsubscribe n t).2 = subscriptions n ∖ {[t]}.
Proof. unfold unsubscribe. destruct n as [? []]. cbn. by destruct (gs_unsubscribe _ _). Qed.

Lemma subscriptions_subscribe_all l : forall n t,
  t ∈ subscriptions (subscribe_all n l) <-> t ∈ l \/ t ∈ subscriptions n.
Proof.
  induction l as [|x l IH]; intros n t; [set_solver|]. unfold subscribe_all in *. cbn.
  rewrite IH, subscriptions_subscribe. set_solver.
Qed.

Lemma subscriptions_unsubscribe_all l : forall n t,
  t ∈ subscriptions (unsubscribe_all n l) <-> (t ∉ l) /\ t ∈ subscriptions n.
Proof.
  induction l as [|x l IH]; intros n t; [set_solver|]. unfold unsubscribe_all in *. cbn.
  rewrite IH, subscriptions_unsubscribe. set_solver.
Qed.

End subscriptions.

(** ** Theorems *)

Section node_theorems.
Context `{ChainTypes} `{Libp2p} `{HashIter} `{FloatExp} `{UnstableSort} `{ThreadRng} `{DelaySet} `{DelayQueue} `{DelayKeys}.
Context `{!TopicCrates} `{!CustodyCrates} `{!EnrFields} `{!EnrCrates} `{!Discv5Service}.
Context `{!Wire} `{!GossipWire} `{!BlobSubnets} `{!ScoringCrates} `{!ServiceCrates}.
Implicit Types (n : Network).

Section with_laws.
Context `{!ScoringLaws} `{!EnrCrateLaws} `{!Discv5Laws} `{!GossipsubLaws} `{!TopicCrateLaws}.

(** C1: when a node panics: whatever the application calls, the swarm reports and the behaviours deliver, in
    any order, each step of a started node returns, and the peer manager, the RPC, the gossip cache and
    discovery keep their invariants, but for two kinds of step that always panic: sampling with a size the
    custody groups of the node cannot be computed for, and a response to a request for light client
    updates.  This takes that subnet indices fit their type, that peers ask with the protocols the node lists
    for negotiation, that discv5 changes only addresses of the record by itself, and that the peer database
    has room in its counters for what the step adds. *)
Theorem node_step_returns clock now ts n op :
  reach clock n -> clock <= now -> node_op_ok n op ->
  db_weight (pm_db (peer_manager n)) + Z.max 2 (node_cost n op) <= USIZE_MAX ->
  (node_panics n op /\ node_step n now ts op = None) \/
  (~ node_panics n op /\ exists ev n', node_step n now ts op = Some (ev, n') /\ reach now n' /\ node_inv now n').
Proof.
  intros Hr Hle Hok Hw. destruct (decide (node_panics n op)) as [Hp|Hno]; [left|right]; (split; [done|]).
  { by apply node_panics_stop. }
  destruct (step_good clock now n ts op (reach_good _ _ Hr) Hle Hok Hno Hw) as (ev & n' & E & Hg).
  exists ev, n'. split; [done|]. split; [by eapply reach_step|apply Hg].
Qed.

(** C2: what a node says of itself agrees at all times: its pings carry the sequence number of its current
    metadata, the subnets in the metadata are those in its record, the record other parts see is the one
    discovery publishes, its addresses aside, and the metadata file holds the current metadata if the last
    write to it succeeded, and what was written of it if the write was cut short. *)
Theorem node_announces clock n : reach clock n -> announces n.
Proof. intros Hr. apply (reach_good _ _ Hr). Qed.

(** C12: the topics the globals list and those gossipsub is subscribed to stay the same, but for topics its
    filter refuses. *)
Theorem subscriptions_agree clock n : reach clock n -> topics_agree n.
Proof. intros Hr. apply (reach_good _ _ Hr). Qed.

(** C16: messages nobody would take are not lost: when a peer subscribes to a topic, exactly the messages the
    cache holds for it are published, each once, and leave the cache; those of other topics stay.  The cache
    drops a message past its deadline only when it is polled, so one that no poll has removed yet is
    published too. *)
Theorem cached_messages_sent n now q t m :
  holds (gossip_cache n) m -> topic_wf t ->
  exists n' msgs, inject_gs_event n now (GsSubscribed q (GossipTopic_to_string t)) = Some (None, n') /\
    NoDup msgs /\ (forall data, data ∈ msgs <-> is_Some (m !! (t, data))) /\
    gossipsub n' = publish_cached (gossipsub n) t msgs /\
    holds (gossip_cache n') (filter (fun e => e.1.1 <> t) m).
Proof.
  intros Hm Ht. cbn [inject_gs_event]. rewrite (topic_decode_printed t Ht).
  set (n1 := match subnet_id t with Some subnet => _ | None => n end).
  assert (gossip_cache n1 = gossip_cache n /\ gossipsub n1 = gossipsub n) as [Hc Hg] by (unfold n1; case_match; by destruct n).
  clearbody n1. rewrite Hc. destruct (retrieve_ok (gossip_cache n) m now t Hm) as (r & c & m' & -> & Hcall & Hh & _).
  cbn [fst snd]. inversion Hcall as [| |topic l Hl Hnd Hin|topic Hnone| | |]; subst.
  - eexists _, l. split; [done|]. split_and!; [done|done| |]; by destruct n1; cbn in *; subst.
  - eexists _, []. split; [done|]. split_and!; [constructor| | |].
    + intros data. rewrite Hnone. split; [by intros ?%not_elem_of_nil|by intros []].
    + by destruct n1; cbn in *; subst.
    + rewrite map_filter_id; [by destruct n1|]. intros [t' data] d Hd He. cbn in He. subst t'. by rewrite Hnone in Hd.
Qed.

End with_laws.

(** C13: a fork moves the subscriptions: after the new topics were subscribed to and the old ones dropped, a
    node is subscribed under the new digest to the core topics of the new fork, to what it was subscribed to
    under the new digest already, and to every other kind of topic it had that the new fork still knows; and
    to nothing of an earlier fork. *)
Theorem fork_transition n phase digest t :
  t ∈ subscriptions (unsubscribe_from_fork_topics_except (subscribe_new_fork_topics n phase digest) digest) <->
  Topics.fork_digest t = digest /\
  (t ∈ subscriptions n \/
   (exists old, old ∈ subscriptions n /\ is_fork_non_core_topic old phase = true /\ t = with_digest digest old) \/
   (gt_encoding t = SSZSnappy /\
    gt_kind t ∈ core_topics_to_subscribe (g_config (globals n)) phase (as_topic_config (globals n)))).
Proof.
  unfold unsubscribe_from_fork_topics_except. rewrite subscriptions_unsubscribe_all.
  rewrite list_elem_of_filter, elem_of_set_iter. unfold subscribe_new_fork_topics.
  set (moved := map _ (filter _ _)). pose proof (subscribe_all_view moved n) as Hv. unfold topic_view in Hv.
  rewrite !pair_eq in Hv. destruct Hv as [[-> ->] _]. set (core := core_topics_to_subscribe _ _ _).
  assert (Hin : forall u, u ∈ subscriptions (subscribe_all (subscribe_all n moved)
      (map (fun kind => GossipTopic_new kind SSZSnappy digest) core)) <->
    (gt_encoding u = SSZSnappy /\ Topics.fork_digest u = digest /\ gt_kind u ∈ core) \/ u ∈ moved \/ u ∈ subscriptions n).
  { intros u. rewrite !subscriptions_subscribe_all, list_elem_of_fmap. unfold GossipTopic_new. split.
    - intros [(k & -> & Hk)|?]; [by left|by right].
    - intros [(He & Hd & Hk)|?]; [|by right]. left. exists (gt_kind u). split; [|done]. destruct u. cbn in *. congruence. }
  fold (subscriptions (subscribe_all (subscribe_all n moved) (map (fun kind => GossipTopic_new kind SSZSnappy digest) core))).
  rewrite Hin. unfold moved. rewrite list_elem_of_fmap. setoid_rewrite list_elem_of_filter.
  setoid_rewrite elem_of_set_iter. fold (subscriptions n).
  destruct (decide (Topics.fork_digest t = digest)) as [Hd|Hd]; [|naive_solver]. naive_solver.
Qed.

(** C14: the application sees only what concerns it: whatever the RPC reports, an event for the application
    names the peer the report came from; a response or failure is never that of a request the node made by
    itself; and a request comes from a connected peer, and is no ping, metadata request, goodbye or request
    for blocks with a step of zero, which the service answers itself. *)
Theorem rpc_events_filtered n now ts e ev n' :
  inject_rpc_event n now ts e = Some (Some ev, n') ->
  match ev with
  | NRPCFailed id p _ | NResponseReceived p id _ => p = rm_peer_id e /\ id <> Internal
  | NRequestReceived p id req =>
      p = rm_peer_id e /\ db_is_connected (g_peers (globals n)) p = true /\ rm_message e = Ok (RecvRequest id req) /\
      match req with
      | ReqPing _ | ReqMetaData _ | ReqGoodbye _ => False
      | ReqBlocksByRange r => OldBlocksByRangeRequest_step r <> 0
      | _ => True
      end
  | NPeerUpdatedCustodyGroupCount p => p = rm_peer_id e
  | _ => False
  end.
Proof.
  unfold inject_rpc_event, build_response. destruct (negb _ && _) eqn:Hc; [done|].
  destruct e as [p c [[id req|id resp|id t]|[id pr er|id pr er]]]; cbn [rm_message rm_peer_id is_inbound] in *.
  - rewrite andb_true_r, negb_false_iff in Hc. unfold on_request. destruct req; intros He; simplify_eq; try done.
    + destruct (OldBlocksByRangeRequest_step r =? 0) eqn:Hz; [by case_match|]. simplify_eq. split_and!; try done. lia.
    + by case_match.
  - unfold on_response, build_response. intros He.
    destruct resp; try (by destruct id; simplify_eq). repeat case_match; by simplify_eq.
  - unfold build_response. intros He. by destruct id; simplify_eq.
  - by case_match.
  - case_match; [|done]. intros He. by destruct id; simplify_eq.
Qed.

End node_theorems.

(** ** Examples *)

Module NetworkRunsExamples.

#[local] Existing Instance Toy.chain.
#[local] Existing Instance LocalEnrExamples.rec_libp2p.
#[local] Existing Instance LocalEnrExamples.rec_fields.
#[local] Existing Instance LocalEnrExamples.rec_custody.
#[local] Existing Instance LocalEnrExamples.rec_crates.
#[local] Existing Instance LocalEnrExamples.rec_laws.
#[local] Existing Instance DiscoveryExamples.toy_discv5.
#[local] Existing Instance DiscoveryExamples.toy_laws.
#[local] Existing Instance ScoreExamples.step_float_exp.
#[local] Existing Instance PeerDBExamples.stable_unstable_sort.
#[local] Existing Instance PruningExamples.no_shuffle.
#[local] Existing Instance PeerManagerExamples.first_due_set.
#[local] Existing Instance ToyTimers.first_expired_queue.
#[local] Existing Instance ToyTimers.increasing_keys.
#[local] Existing Instance TopicsExamples.toy_crates.
#[local] Existing Instance TopicsExamples.toy_laws.
#[local] Existing Instance ToyWire.wire.
#[local] Existing Instance PubsubExamples.toy_gossip.
#[local] Existing Instance ServiceUtilsExamples.toy_blobs.
#[local] Existing Instance GossipScoringExamples.mainnet.
#[local] Existing Instance GossipScoringExamples.mainnet_laws.

Definition default_params : TopicScoreParams :=
  let x := f64_of_Z 1 in mkTopicScoreParams x x 1 x x x x x x x x 1 1 x x x x.

(** Gossipsub as the topics it is subscribed to, those allowed, and what it has sent. *)
Definition ToyGossipsub : Type := gset (list ascii) * gset (list ascii) * list (list ascii * Bytes).

#[local] Instance toy_service : ServiceCrates := {
  Gossipsub := ToyGossipsub;
  MessageId := Z;
  gs_config_valid := fun c =>
    (outbound_min (gsc_load c) <=? mesh_n_low (gsc_load c)) && (mesh_n_low (gsc_load c) <=? Config.mesh_n (gsc_load c)) &&
    (Config.mesh_n (gsc_load c) <=? mesh_n_high (gsc_load c)) && (2 * outbound_min (gsc_load c) <=? Config.mesh_n (gsc_load c)) &&
    (history_gossip (gsc_load c) <=? history_length c);
  gs_new := fun _ f _ => Ok (∅, sf_whitelist f, []);
  gs_with_peer_score := fun gs _ _ => Some gs;
  gs_add_explicit_peer := fun gs _ => gs;
  gs_subscribe := fun '(topics, allowed, sent) t =>
    if decide (t ∈ allowed) then (Ok true, ({[t]} ∪ topics, allowed, sent)) else (Err "NotAllowed"%string, (topics, allowed, sent));
  gs_unsubscribe := fun '(topics, allowed, sent) t => (bool_decide (t ∈ topics), (topics ∖ {[t]}, allowed, sent));
  gs_publish := fun '(topics, allowed, sent) t data => (Ok tt, (topics, allowed, sent ++ [(t, data)]));
  gs_report_validation := fun gs _ _ _ => gs;
  gs_set_topic_params := fun gs _ _ => (Ok tt, gs);
  gs_peer_score := fun _ _ => None;
  TopicScoreParams_default := default_params;
  config_slot_duration := fun _ => Duration_from_secs 12;
  sha256 := fun b => b;
  config_message_domain_valid_snappy := fun _ => [1; 0; 0; 0];
  config_max_message_size := fun _ => 12235000;
  config_max_payload_size := fun _ => 10485760;
  config_max_payload_size_compressed := fun _ => 12234000;
  multiaddr_pop := fun _ => None;
}.

#[local,refine] Instance toy_gossipsub_laws : GossipsubLaws := {
  gs_topics := fun gs => gs.1.1;
  gs_allowed := fun gs => gs.1.2;
}.
Proof.
  all: cbn; intros; repeat match goal with gs : ToyGossipsub |- _ => destruct gs as [[? ?] ?] end; cbn in *; try naive_solver.
  case_decide; cbn; naive_solver.
Defined.

(** A node that starts at the Fulu fork, with nothing on disk; the first write of its metadata fails. *)
Definition input : StartInput :=
  mkStartInput (tt : @ChainConfig Toy.chain) LocalEnrExamples.home_config
    (mkForkContext (tt : @ChainConfig Toy.chain) (mkHardFork Fulu 60 1060)
       [(60, mkHardFork Fulu 60 1060); (65, mkHardFork Fulu 65 1065)])
    (mkEnrForkId 1060 5 100 : EnrForkId (@ForkDigest Toy.chain) (@Version _ _ _ LocalEnrExamples.rec_crates))
    4 (LocalEnrExamples.key_of 7) (file_found None []) (file_found None [NotOpened]) [] (fun _ => true) 1000.

Definition started_node : option Network :=
  match Network_new input with Some (Ok (_, n)) => Some n | _ => None end.

Definition after (now : Instant) (op : NodeOp) (o : option Network) : option Network :=
  match o with
  | Some n => match node_step n now 0 op with Some (_, n') => Some n' | None => None end
  | None => None
  end.

(** It subscribes to blocks, then announces an attestation subnet. *)
Definition joined : option Network := after 2000 (NdCall (NcSubscribeKind GossipKind.BeaconBlock)) started_node.
Definition on_subnet : option Network := after 3000 (NdCall (NcSubnet (Subnet.Attestation 3) true)) joined.

Definition reached (clock : Instant) (o : option Network) : Prop :=
  match o with Some n => reach clock n | None => False end.

Lemma started_reached : reached 1000 started_node.
Proof.
  assert (Hs : match Network_new input with Some (Ok _) => true | _ => false end = true) by evaluate.
  unfold started_node. destruct (Network_new input) as [[[dials n]|]|] eqn:E; [|discriminate Hs..].
  apply (reach_start input dials n E). constructor.
Qed.

Definition weightless_db (o : option Network) : Prop :=
  match o with Some n => db_weight (pm_db (peer_manager n)) = 0 | None => True end.

Lemma after_reached clock now op o :
  reached clock o -> clock <= now -> weightless_db o ->
  match o with Some n => node_op_ok n op /\ node_cost n op = 2 | None => True end ->
  match after now op o with Some _ => true | None => false end = true -> reached now (after now op o).
Proof.
  destruct o as [n|]; [|done]. cbn [reached weightless_db after]. intros Hr Hle Hw [Hok Hc] Hs.
  destruct (node_step n now 0 op) as [[ev n']|] eqn:E; [|discriminate Hs].
  apply (reach_step clock now 0 n op ev n'); [done..| |exact E]. rewrite Hw, Hc. by vm_compute.
Qed.

Lemma joined_reached : reached 2000 joined.
Proof.
  apply (after_reached 1000); [exact started_reached|done|by vm_compute| |evaluate].
  pose proof started_reached as Hs. destruct started_node as [n|]; [|done]. by vm_compute.
Qed.

Lemma on_subnet_reached : reached 3000 on_subnet.
Proof.
  apply (after_reached 2000); [exact joined_reached|done|by vm_compute| |evaluate].
  by destruct joined.
Qed.

(** A light client update from a peer. *)
Definition light_client_update : HandlerEvent AppRequestId :=
  HandlerOk (RecvResponse (Application 5) (RespLightClientUpdatesByRange (H := Toy.chain) (12 : @LightClientUpdate Toy.chain))).

Lemma node_step_returns_witness :
  match on_subnet with
  | Some n => (exists ev n', node_step n 4000 0 NdPollPeerManager = Some (ev, n') /\ reach 4000 n' /\ node_inv 4000 n') /\
      node_step n 4000 0 (NdHandlerEvent (9 : @PeerId LocalEnrExamples.rec_libp2p) 0 light_client_update) = None
  | None => False
  end.
Proof.
  pose proof on_subnet_reached as Hr. assert (Hw : weightless_db on_subnet) by (by vm_compute).
  destruct on_subnet as [n|]; [|exact Hr]. cbn [reached weightless_db] in Hr, Hw. split.
  - destruct (node_step_returns 3000 4000 0 n NdPollPeerManager Hr) as [[[] _]|[_ Hn]]; [done|done| |exact Hn].
    rewrite Hw. by vm_compute.
  - destruct (node_step_returns 3000 4000 0 n (NdHandlerEvent (9 : @PeerId LocalEnrExamples.rec_libp2p) 0 light_client_update) Hr)
      as [[_ Hn]|[[] _]]; [done|done| |exact Hn|reflexivity]. rewrite Hw. by vm_compute.
Defined.

(** The metadata could not be written at the start; now it has its next number, names the subnet and is on
    disk. *)
Lemma node_announces_witness :
  match joined, on_subnet with
  | Some n0, Some n => contents (metadata_file n0) = None /\
      announces n /\ rpc_seq_number (eth2_rpc n) = 1 /\
      attnets (local_metadata (globals n)) = replicate 3 false ++ [true] ++ replicate 60 false /\
      last_outcome (metadata_file n) = Written
  | _, _ => False
  end.
Proof.
  pose proof on_subnet_reached as Hr.
  assert (H0 : match joined with Some n0 => contents (metadata_file n0) | None => Some [] end = None) by evaluate.
  assert (Hv : match on_subnet with
    | Some n => (rpc_seq_number (eth2_rpc n), attnets (local_metadata (globals n)), last_outcome (metadata_file n))
    | None => (0, [], NotOpened) end =
    (1, replicate 3 false ++ [true] ++ replicate 60 false, Written)) by evaluate.
  destruct joined as [n0|]; [|discriminate H0]. destruct on_subnet as [n|]; [|exact Hr].
  split; [exact H0|]. split; [exact (node_announces 3000 n Hr)|]. by injection Hv as -> -> ->.
Defined.

Definition block_topic : GossipTopic := mkGossipTopic SSZSnappy (1060 : @ForkDigest Toy.chain) GossipKind.BeaconBlock.

Lemma subscriptions_agree_witness :
  match on_subnet with
  | Some n => topics_agree n /\ GossipTopic_to_string block_topic ∈ gs_topics (gossipsub n)
  | None => False
  end.
Proof.
  pose proof on_subnet_reached as Hr.
  assert (Hv : match on_subnet with
    | Some n => bool_decide (block_topic ∈ gossipsub_subscriptions (globals n)) &&
                bool_decide (GossipTopic_to_string block_topic ∈ gs_allowed (gossipsub n))
    | None => false end = true) by evaluate.
  destruct on_subnet as [n|]; [|exact Hr]. pose proof (subscriptions_agree 3000 n Hr) as Ht. split; [exact Ht|].
  apply andb_true_iff in Hv as [Hs%bool_decide_eq_true Ha%bool_decide_eq_true].
  rewrite (ta_names _ Ht). apply elem_of_intersection. split; [|exact Ha]. by apply elem_of_map_2.
Defined.

(** A block nobody took is sent to the first peer that subscribes. *)
Lemma cached_messages_sent_witness :
  match on_subnet with
  | Some n => exists c n' msgs, gc_insert (gossip_cache_of (Duration_from_secs 12)) 3000 block_topic [7] = Some c /\
      inject_gs_event (set_gossip_cache n c) 4000 (GsSubscribed (9 : @PeerId LocalEnrExamples.rec_libp2p)
        (GossipTopic_to_string block_topic)) = Some (None, n') /\
      [7] ∈ msgs /\ gossipsub n' = publish_cached (gossipsub n) block_topic msgs
  | None => False
  end.
Proof.
  pose proof on_subnet_reached as Hr. destruct on_subnet as [n|]; [|exact Hr].
  destruct (gc_insert_ok (gossip_cache_of (Duration_from_secs 12)) ∅ 3000 block_topic [7] (holds_new _)) as (c & m & Hc & Hcall & Hm & _).
  assert (Hh : holds (gossip_cache (set_gossip_cache n c)) m) by (by destruct n).
  destruct (cached_messages_sent (set_gossip_cache n c) 4000 (9 : @PeerId LocalEnrExamples.rec_libp2p) block_topic m Hh)
    as (n' & msgs & He & _ & Hin & Hg & _); [by vm_compute|].
  exists c, n', msgs. split; [exact Hc|]. split; [exact He|]. split; [|by destruct n].
  apply Hin. inversion Hcall as [? ? t Ht| ? ? Ht| | | | |]; subst; [|by vm_compute in Ht].
  rewrite lookup_insert_eq. by eexists.
Defined.

(** A block in a response is handed to the application that asked for it. *)
Lemma rpc_events_filtered_witness :
  match on_subnet with
  | Some n =>
      match inject_rpc_event n 4000 0 (mkRPCMessage (9 : @PeerId LocalEnrExamples.rec_libp2p) 0
              (Ok (RecvResponse (Application 5) (RespBlocksByRange (H := Toy.chain) (12 : @SignedBeaconBlock Toy.chain))))) with
      | Some (Some (NResponseReceived p id _), _) => p = (9 : @PeerId LocalEnrExamples.rec_libp2p) /\ id <> Internal
      | _ => False
      end
  | None => False
  end.
Proof.
  pose proof on_subnet_reached as Hr. destruct on_subnet as [n|]; [|exact Hr].
  set (e := mkRPCMessage _ _ _). assert (He : inject_rpc_event n 4000 0 e =
    Some (Some (NResponseReceived (9 : @PeerId LocalEnrExamples.rec_libp2p) (Application 5) (RBlocksByRange (Some 12))), n))
    by (unfold inject_rpc_event; cbn; by rewrite andb_false_r).
  rewrite He. exact (rpc_events_filtered n 4000 0 e _ n He).
Defined.

(** The globals list a topic gossipsub refused. *)
Example refused_topic_listed :
  match after 2000 (NdCall (NcSubscribeKind GossipKind.ExecutionPayloadBid)) started_node with
  | Some n =>
      let t := current_topic n GossipKind.ExecutionPayloadBid in
      (bool_decide (t ∈ subscriptions n), bool_decide (GossipTopic_to_string t ∈ gs_topics (gossipsub n))) = (true, false)
  | None => False
  end.
Proof. by vm_compute. Qed.

End NetworkRunsExamples.
